(** * Smut Wrapped: harvesting pipeline, aggregator and filter stage

    A shallow embedding of the core of the application:
    - [Scraper]  : src/scraper.js     (the Harvester and the Page Parser),
    - [Analyzer] : the StatsAnalyzer module in its latest revision
                   (src/unnamed/part_001, lines 822-1365),
    - [AnalyzerJs] : the parts of src/analyzer.js that differ from it,
    - [App]      : applyFilters of src/app.js (the Filter Stage).

    Conventions of the embedding.
    - A JavaScript number that the code only builds from integers is a [Z];
      a percentage, which the code computes with [/] and [*], is an exact
      rational [Q] (the rounding of IEEE doubles is not modelled).
    - [null], [undefined] and [NaN] in an optional field are [None].
    - A JavaScript [Map] is an association list in insertion order.
    - The records of a collection are distinct objects (every one is built
      by its own call of a row parser), so an in-place update of a record is
      an update of the collection at the position of that record.
    - The asynchronous code runs in a state-and-exception monad over an
      environment that answers the fetches and may call [requestCancel]
      while the code is suspended in an [await]. *)

From Stdlib Require Import List String Ascii ZArith QArith Qround Lia Bool.
From Stdlib Require Import DecimalString Sorted Permutation.
Import ListNotations.
Open Scope string_scope.
Open Scope Z_scope.

(* ================================================================== *)
(** ** JavaScript primitives used by the sources *)
(* ================================================================== *)

Module Js.

(** [x || d] on an optional number: [null], [undefined], [NaN] and [0]
    are falsy. *)
Definition num_or (x : option Z) (d : Z) : Z :=
  match x with
  | Some n => if n =? 0 then d else n
  | None => d
  end.

(** Truthiness of a string: only the empty string is falsy. *)
Definition truthy (s : string) : bool := negb (s =? EmptyString)%string.

(** [x || d] on an optional string. *)
Definition str_or (x : option string) (d : string) : string :=
  match x with
  | Some s => if truthy s then s else d
  | None => d
  end.

(** Template-literal rendering of an integer. *)
Definition show (z : Z) : string := NilZero.string_of_int (Z.to_int z).

(** [s.includes(sub)] *)
Fixpoint includes (s sub : string) : bool :=
  if String.prefix sub s then true
  else match s with
       | EmptyString => false
       | String _ s' => includes s' sub
       end.

Definition lower_ascii (c : ascii) : ascii :=
  let n := nat_of_ascii c in
  if ((65 <=? n)%nat && (n <=? 90)%nat)%bool then ascii_of_nat (n + 32) else c.

(** [s.toLowerCase()], on the ASCII letters. *)
Fixpoint toLowerCase (s : string) : string :=
  match s with
  | EmptyString => EmptyString
  | String c s' => String (lower_ascii c) (toLowerCase s')
  end.

(** [arr.includes(x)] on an array of strings. *)
Definition arr_includes (l : list string) (x : string) : bool :=
  existsb (String.eqb x) l.

(** [Math.round]: the nearest integer, halves rounded up. *)
Definition Math_round (q : Q) : Z := Qfloor (q + (1 # 2)).

(** [Math.round((count / total) * 100)], on exact quotients. The code
    computes the quotient and the product in binary floating point,
    which gives the same integer except for some shares whose percentage
    ends in exactly one half: there the product can fall just below the
    half and the code rounds down where this function rounds up (23 of
    40 is 57 in the code and 58 here). *)
Definition percentOf (count total : Z) : Z :=
  Math_round ((inject_Z count / inject_Z total) * 100).

(** [Array.prototype.sort(cmp)]: a stable sort; [cmp a b <= 0] keeps [a]
    before [b]. *)
Fixpoint insert {A : Type} (cmp : A -> A -> Z) (x : A) (l : list A) : list A :=
  match l with
  | [] => [x]
  | y :: l' => if cmp x y <=? 0 then x :: l else y :: insert cmp x l'
  end.

Definition sort {A : Type} (cmp : A -> A -> Z) (l : list A) : list A :=
  fold_right (insert cmp) [] l.

(** [arr.slice(0, n)] *)
Definition slice0 {A : Type} (n : Z) (l : list A) : list A :=
  firstn (Z.to_nat n) l.

(** [arr.length] *)
Definition len {A : Type} (l : list A) : Z := Z.of_nat (List.length l).

(** [arr[arr.length - 1]] *)
Definition last_opt {A : Type} (l : list A) : option A :=
  match rev l with
  | [] => None
  | x :: _ => Some x
  end.

(** *** [Map] with string keys, in insertion order *)
Section JsMap.
Context {V : Type}.

Definition JsMap : Type := list (string * V).

Fixpoint map_get (k : string) (m : JsMap) : option V :=
  match m with
  | [] => None
  | (k', v) :: m' => if (k =? k')%string then Some v else map_get k m'
  end.

Definition map_has (k : string) (m : JsMap) : bool :=
  match map_get k m with
  | Some _ => true
  | None => false
  end.

(** [set] overwrites the value of a key in place and appends a new key. *)
Fixpoint map_set (k : string) (v : V) (m : JsMap) : JsMap :=
  match m with
  | [] => [(k, v)]
  | (k', v') :: m' =>
      if (k =? k')%string then (k, v) :: m' else (k', v') :: map_set k v m'
  end.

Definition map_keys (m : JsMap) : list string := map fst m.
Definition map_values (m : JsMap) : list V := map snd m.
Definition map_entries (m : JsMap) : list (string * V) := m.
Definition map_size (m : JsMap) : Z := len m.
End JsMap.
Arguments JsMap V : clear implicits.

End Js.

(* ================================================================== *)
(** ** Data model *)
(* ================================================================== *)

(** A work record: the union of the fields that the row parsers, the detail
    parser and the analyzer write or read. A field that an object does not
    have is [None] (or the empty list, which is what [w.field || []] makes
    of it). *)
Record Work : Type := mkWork {
  workId : string;
  title : string;
  authors : list string;
  fandoms : list string;
  visitCount : option Z;
  lastVisited : option string;
  warnings : list string;
  relationships : list string;
  characters : list string;
  freeformTags : list string;
  wordCount : option Z;
  isBookmark : option bool;
  rating : option string;
  kudos : option Z;
  bookmarks : option Z;
  chapters : option string;
  complete : option bool;
  datePublished : option string;
  hits : option Z;
  dateUpdated : option string;
  source : option string;
  isBookmarked : option bool
}.

(** [existing.isBookmark = v] *)
Definition set_isBookmark (w : Work) (v : option bool) : Work :=
  {| workId := workId w; title := title w; authors := authors w;
     fandoms := fandoms w; visitCount := visitCount w;
     lastVisited := lastVisited w; warnings := warnings w;
     relationships := relationships w; characters := characters w;
     freeformTags := freeformTags w; wordCount := wordCount w;
     isBookmark := v;
     rating := rating w; kudos := kudos w; bookmarks := bookmarks w;
     chapters := chapters w; complete := complete w;
     datePublished := datePublished w; hits := hits w;
     dateUpdated := dateUpdated w; source := source w;
     isBookmarked := isBookmarked w |}.

(** The object returned by [fetchWorkMetadata]. *)
Record Metadata : Type := mkMetadata {
  m_workId : string;
  m_rating : string;
  m_warnings : list string;
  m_fandoms : list string;
  m_relationships : list string;
  m_characters : list string;
  m_freeformTags : list string;
  m_wordCount : option Z;
  m_chapters : option string;
  m_kudos : option Z;
  m_bookmarks : option Z;
  m_hits : option Z;
  m_datePublished : option string;
  m_dateUpdated : option string;
  m_complete : option bool
}.

(** [Object.assign(item, metadata)]: every own property of [metadata]
    overwrites the property of [item]; the others stay. *)
Definition assign (item : Work) (m : Metadata) : Work :=
  {| workId := m_workId m; title := title item; authors := authors item;
     fandoms := m_fandoms m; visitCount := visitCount item;
     lastVisited := lastVisited item; warnings := m_warnings m;
     relationships := m_relationships m; characters := m_characters m;
     freeformTags := m_freeformTags m; wordCount := m_wordCount m;
     isBookmark := isBookmark item;
     rating := Some (m_rating m); kudos := m_kudos m;
     bookmarks := m_bookmarks m; chapters := m_chapters m;
     complete := m_complete m; datePublished := m_datePublished m;
     hits := m_hits m; dateUpdated := m_dateUpdated m;
     source := source item; isBookmarked := isBookmarked item |}.

(* ================================================================== *)
(** ** The Harvester and the Page Parser (src/scraper.js) *)
(* ================================================================== *)

Module Scraper.
Import Js.

Definition AO3_BASE_URL : string := "https://archiveofourown.org".
Definition RATE_LIMIT_MS : Z := 5000.
Definition ITEMS_PER_PAGE : Z := 20.

(** *** The parsed documents

    The DOM is an external collaborator: a document is given by what the
    selectors of the Page Parser find in it. *)

(** One listing row ([.reading.work.blurb] or [.bookmark.blurb]). *)
Record Blurb : Type := mkBlurb {
  (** [h4.heading a] exists and its href matches [/works/(\d+)]: the
      digits matched, or [None] when there is no such link or its href
      names no work. Every heading link of a row has an href; a link
      without one, on which the code throws, is not a row of this type. *)
  b_workId : option string;
  b_title : string;
  b_authors : list string;
  b_fandoms : list string;
  (** [.user-status .visited] exists; inside, the count matched by
      [/Visited\s+(\d+)\s+times?/i] *)
  b_visited : option (option Z);
  (** [.user-status .datetime] *)
  b_statusDate : option string;
  (** [.user .datetime] *)
  b_userDate : option string;
  b_warnings : list string;
  b_relationships : list string;
  b_characters : list string;
  b_freeforms : list string;
  (** [dd.words] exists; inside, the result of [parseInt] *)
  b_words : option (option Z)
}.

(** [dl.stats] of a work page; a number is the result of [parseInt]. *)
Record StatsBlock : Type := mkStatsBlock {
  s_words : option (option Z);
  s_chapters : option string;
  s_kudos : option (option Z);
  s_bookmarks : option (option Z);
  s_hits : option (option Z);
  s_published : option string;
  s_status : option string
}.

Record Document : Type := mkDocument {
  (** [ol.pagination]: the [parseInt] of the text of every [li a] *)
  d_pagination : option (list (option Z));
  d_readings : list Blurb;
  d_bookmarks : list Blurb;
  d_ratingTag : option string;
  d_warningTags : list string;
  d_fandomTags : list string;
  d_relationshipTags : list string;
  d_characterTags : list string;
  d_freeformTags : list string;
  d_stats : option StatsBlock
}.

(** The value of [window.electronAPI.fetchUrl(url)], with [html] already
    parsed. *)
Record FetchResult : Type := mkFetchResult {
  success : bool;
  html : Document;
  error : string
}.

(** An awaited promise resolves or rejects. *)
Inductive Response : Type :=
| Resolved (r : FetchResult)
| Rejected (message : string).

Record ProgressEvent : Type := mkProgress {
  phase : string;
  message : string;
  detail : option string;
  percent : Q;
  failedCount : option Z
}.

(** What a run does, in order: the fetches it issues, the delays it
    waits, the events it hands to the progress sink and the reads of the
    cancellation flag. *)
Inductive Event : Type :=
| EvFetch (url : string)
| EvDelay (ms : Z)
| EvProgress (p : ProgressEvent)
| EvCheck (flag : bool).

(** The collaborators. [env_fetch k url] answers the fetch issued at the
    [k]-th suspension point of the run; [env_cancel k] tells whether
    [requestCancel()] is called while the run is suspended there. *)
Record Env : Type := mkEnv {
  env_fetch : nat -> string -> Response;
  env_cancel : nat -> bool;
  (** [new Date(s).getTime()], [None] for an invalid date *)
  env_parseDate : string -> option Z;
  (** the time one year before now *)
  env_oneYearAgo : Z
}.

Record State : Type := mkState {
  cancelRequested : bool;
  awaits : nat;
  trace : list Event
}.

Inductive Outcome (A : Type) : Type :=
| Ok (a : A)
| Throw (message : string).
Arguments Ok {A} a.
Arguments Throw {A} message.

Definition M (A : Type) : Type := State -> Outcome A * State.

Definition ret {A : Type} (a : A) : M A := fun s => (Ok a, s).

Definition bind {A B : Type} (m : M A) (k : A -> M B) : M B :=
  fun s =>
    match m s with
    | (Ok a, s') => k a s'
    | (Throw e, s') => (Throw e, s')
    end.

Definition throw {A : Type} (message : string) : M A :=
  fun s => (Throw message, s).

(** [try { m } catch (error) { h error.message }] *)
Definition try_catch {A : Type} (m : M A) (h : string -> M A) : M A :=
  fun s =>
    match m s with
    | (Ok a, s') => (Ok a, s')
    | (Throw e, s') => h e s'
    end.

Declare Scope js_scope.
Delimit Scope js_scope with js.
Notation "x <- m ;; k" := (bind m (fun x => k))
  (at level 100, m at next level, right associativity) : js_scope.
Notation "' p <- m ;; k" := (bind m (fun x => match x with p => k end))
  (at level 100, p pattern, m at next level, right associativity) : js_scope.
Notation "m ;; k" := (bind m (fun _ => k))
  (at level 100, right associativity) : js_scope.
Local Open Scope js_scope.

Definition log (e : Event) : M unit :=
  fun s => (Ok tt, mkState (cancelRequested s) (awaits s) (trace s ++ [e])%list).

(** [function requestCancel()] *)
Definition requestCancel : M unit :=
  fun s => (Ok tt, mkState true (awaits s) (trace s)).

(** [function resetCancel()] *)
Definition resetCancel : M unit :=
  fun s => (Ok tt, mkState false (awaits s) (trace s)).

(** [function isCancelled()] *)
Definition isCancelled : M bool :=
  fun s => (Ok (cancelRequested s),
            mkState (cancelRequested s) (awaits s)
                    (trace s ++ [EvCheck (cancelRequested s)])%list).

(** The progress sink. *)
Definition onProgress (p : ProgressEvent) : M unit := log (EvProgress p).

Section WithEnv.
Variable env : Env.

(** A suspension point: the only place where the collaborators run. *)
Definition suspend : M unit :=
  fun s => (Ok tt, mkState (cancelRequested s || env_cancel env (awaits s))
                           (S (awaits s)) (trace s)).

(** [function delay(ms)] *)
Definition delay (ms : Z) : M unit :=
  log (EvDelay ms) ;; suspend.

(** [await window.electronAPI.fetchUrl(url)] *)
Definition fetchUrl (url : string) : M FetchResult :=
  fun s =>
    let answer := env_fetch env (awaits s) url in
    match (log (EvFetch url) ;; suspend) s with
    | (_, s') =>
        match answer with
        | Resolved r => (Ok r, s')
        | Rejected e => (Throw e, s')
        end
    end.

(** [async function getPageCount(url, errorContext)] *)
Definition getPageCount (url errorContext : string) : M Z :=
  result <- fetchUrl url ;;
  if negb (success result) then
    throw ("Failed to fetch " ++ errorContext ++ ": " ++ error result)
  else
    let doc := html result in
    match d_pagination doc with
    | None => ret 1
    | Some pageLinks =>
        ret (fold_left
               (fun maxPage link =>
                  match link with
                  | Some pageNum =>
                      if pageNum >? maxPage then pageNum else maxPage
                  | None => maxPage
                  end)
               pageLinks 1)
    end.

(** [async function getHistoryPageCount(username)] *)
Definition getHistoryPageCount (username : string) : M Z :=
  getPageCount (AO3_BASE_URL ++ "/users/" ++ username ++ "/readings")
               "history".

(** [async function getBookmarkPageCount(username)] *)
Definition getBookmarkPageCount (username : string) : M Z :=
  getPageCount (AO3_BASE_URL ++ "/users/" ++ username ++ "/bookmarks")
               "bookmarks".
End WithEnv.

(** The result of [parseInt] on the text of [dd.words]. *)
Definition parsedNumber (el : option (option Z)) : option Z :=
  match el with
  | Some n => n
  | None => None
  end.

(** [function parseHistoryItem(item)] *)
Definition parseHistoryItem (item : Blurb) : option Work :=
  match b_workId item with
  | None => None
  | Some id =>
      let visits :=
        match b_visited item with
        | Some (Some n) => n
        | _ => 1
        end in
      let visited :=
        match b_visited item with
        | Some _ => b_statusDate item
        | None => None
        end in
      Some {| workId := id; title := b_title item;
              authors := b_authors item; fandoms := b_fandoms item;
              visitCount := Some visits; lastVisited := visited;
              warnings := b_warnings item;
              relationships := b_relationships item;
              characters := b_characters item;
              freeformTags := b_freeforms item;
              wordCount := parsedNumber (b_words item);
              isBookmark := None;
              rating := None; kudos := None; bookmarks := None;
              chapters := None; complete := None; datePublished := None;
              hits := None; dateUpdated := None;
              source := None; isBookmarked := None |}
  end.

(** [function parseBookmarkItem(item)] *)
Definition parseBookmarkItem (item : Blurb) : option Work :=
  match b_workId item with
  | None => None
  | Some id =>
      Some {| workId := id; title := b_title item;
              authors := b_authors item; fandoms := b_fandoms item;
              visitCount := Some 1; lastVisited := b_userDate item;
              warnings := b_warnings item;
              relationships := b_relationships item;
              characters := b_characters item;
              freeformTags := b_freeforms item;
              wordCount := parsedNumber (b_words item);
              isBookmark := Some true;
              rating := None; kudos := None; bookmarks := None;
              chapters := None; complete := None; datePublished := None;
              hits := None; dateUpdated := None;
              source := None; isBookmarked := None |}
  end.

(** [items.forEach(item => { const x = parse(item); if (x) parsed.push(x) })] *)
Definition parseRows (parse : Blurb -> option Work) (items : list Blurb)
  : list Work :=
  fold_left
    (fun parsed item =>
       match parse item with
       | Some x => (parsed ++ [x])%list
       | None => parsed
       end)
    items [].

(** [function mergeItems(historyItems, bookmarkItems)].
    [existing] is the object that [seen] holds under the key, so setting
    its flag updates that entry. *)
Definition mergeItems (historyItems bookmarkItems : list Work) : list Work :=
  let seen : JsMap Work :=
    fold_left (fun seen item => map_set (workId item) item seen)
              historyItems [] in
  let seen :=
    fold_left
      (fun seen item =>
         if map_has (workId item) seen then
           match map_get (workId item) seen with
           | Some existing =>
               map_set (workId item) (set_isBookmark existing (Some true)) seen
           | None => seen
           end
         else map_set (workId item) item seen)
      bookmarkItems seen in
  map_values seen.

(** The options object; an absent property is [None]. *)
Record Options : Type := mkOptions {
  o_source : option string;
  o_timeRange : option string;
  o_pageLimit : option Z
}.

(** [const { x = d } = options] *)
Definition dflt {A : Type} (x : option A) (d : A) : A :=
  match x with
  | Some v => v
  | None => d
  end.

Inductive ScrapeResult : Type :=
| Success (items : list Work) (totalWorks : Z) (failed : Z) (message : string)
| Cancelled (message : string)
| Failed (error : string) (message : string).

Definition dquote : string := String (ascii_of_nat 34) EmptyString.

Section Harvest.
Variable env : Env.

(** [async function scrapeHistoryPage(username, pageNum)] *)
Definition scrapeHistoryPage (username : string) (pageNum : Z)
  : M (list Work) :=
  result <- fetchUrl env (AO3_BASE_URL ++ "/users/" ++ username
                          ++ "/readings?page=" ++ show pageNum) ;;
  if negb (success result) then
    throw ("Failed to fetch history page " ++ show pageNum ++ ": "
           ++ error result)
  else ret (parseRows parseHistoryItem (d_readings (html result))).

(** [async function scrapeBookmarkPage(username, pageNum)] *)
Definition scrapeBookmarkPage (username : string) (pageNum : Z)
  : M (list Work) :=
  result <- fetchUrl env (AO3_BASE_URL ++ "/users/" ++ username
                          ++ "/bookmarks?page=" ++ show pageNum) ;;
  if negb (success result) then
    throw ("Failed to fetch bookmark page " ++ show pageNum ++ ": "
           ++ error result)
  else ret (parseRows parseBookmarkItem (d_bookmarks (html result))).

(** [function isWithinLastYear(dateStr)] *)
Definition isWithinLastYear (dateStr : option string) : bool :=
  match dateStr with
  | None => true
  | Some str =>
      if negb (truthy str) then true
      else match env_parseDate env str with
           | None => true
           | Some date => date >=? env_oneYearAgo env
           end
  end.

(** [async function fetchWorkMetadata(workId)] *)
Definition fetchWorkMetadata (id : string) : M Metadata :=
  result <- fetchUrl env (AO3_BASE_URL ++ "/works/" ++ id
                          ++ "?view_adult=true") ;;
  if negb (success result) then
    throw ("Failed to fetch work " ++ id ++ ": " ++ error result)
  else
    let doc := html result in
    let stats := d_stats doc in
    let field {A : Type} (f : StatsBlock -> option A) : option A :=
      match stats with
      | Some block => f block
      | None => None
      end in
    ret {| m_workId := id;
           m_rating := match d_ratingTag doc with
                       | Some r => r
                       | None => "Unknown"
                       end;
           m_warnings := d_warningTags doc;
           m_fandoms := d_fandomTags doc;
           m_relationships := d_relationshipTags doc;
           m_characters := d_characterTags doc;
           m_freeformTags := d_freeformTags doc;
           m_wordCount := field (fun b => parsedNumber (s_words b));
           m_chapters := field s_chapters;
           m_kudos := field (fun b => parsedNumber (s_kudos b));
           m_bookmarks := field (fun b => parsedNumber (s_bookmarks b));
           m_hits := field (fun b => parsedNumber (s_hits b));
           m_datePublished := field s_published;
           m_dateUpdated := field s_status;
           m_complete :=
             field (fun b => match s_chapters b with
                             | Some chapText =>
                                 Some (negb (includes chapText "?"))
                             | None => None
                             end) |}.

(** The loop [for (let page = 1; page <= totalPages; page++)] of
    [scrapeReadingHistory]; [remaining] counts the iterations left. *)
Fixpoint historyPages (username : string) (totalPages : Z)
         (remaining : nat) (page : Z) (allItems : list Work)
  : M (list Work) :=
  match remaining with
  | O => ret allItems
  | S remaining' =>
      cancelled <- isCancelled ;;
      if cancelled then throw "Scraping cancelled by user"
      else
        onProgress
          {| phase := "history";
             message := "Fetching reading history... Page " ++ show page
                        ++ "/" ++ show totalPages;
             detail := Some "Respecting AO3's servers - please wait";
             percent := (5 + (inject_Z page / inject_Z totalPages) * 25)%Q;
             failedCount := None |} ;;
        items <- scrapeHistoryPage username page ;;
        (if page <? totalPages then delay env RATE_LIMIT_MS else ret tt) ;;
        historyPages username totalPages remaining' (page + 1)
                     (allItems ++ items)%list
  end.

(** [Math.min(totalPages, pageLimit)] under [timeRange === 'pages'] *)
Definition limitPages (timeRange : string) (pageLimit totalPages : Z) : Z :=
  if ((timeRange =? "pages")%string && (pageLimit >? 0))%bool
  then Z.min totalPages pageLimit
  else totalPages.

(** [async function scrapeReadingHistory(username, onProgress, options)] *)
Definition scrapeReadingHistory (username : string) (options : Options)
  : M (list Work) :=
  resetCancel ;;
  let timeRange := dflt (o_timeRange options) "all" in
  let pageLimit := dflt (o_pageLimit options) 100 in
  onProgress {| phase := "init";
                message := "Checking your reading history size...";
                detail := None; percent := 0%Q; failedCount := None |} ;;
  found <- getHistoryPageCount env username ;;
  let totalPages := limitPages timeRange pageLimit found in
  onProgress {| phase := "history";
                message := "Found " ++ show totalPages
                           ++ " pages of reading history";
                detail := None; percent := 5%Q; failedCount := None |} ;;
  allItems <- historyPages username totalPages (Z.to_nat totalPages) 1 [] ;;
  if (timeRange =? "year")%string then
    ret (filter (fun item => isWithinLastYear (lastVisited item)) allItems)
  else ret allItems.

(** The page loop of [scrapeBookmarks]. *)
Fixpoint bookmarkPages (username : string) (progressOffset : Q)
         (totalPages : Z) (remaining : nat) (page : Z)
         (allItems : list Work) : M (list Work) :=
  match remaining with
  | O => ret allItems
  | S remaining' =>
      cancelled <- isCancelled ;;
      if cancelled then throw "Scraping cancelled by user"
      else
        onProgress
          {| phase := "bookmarks";
             message := "Fetching bookmarks... Page " ++ show page
                        ++ "/" ++ show totalPages;
             detail := Some "Respecting AO3's servers - please wait";
             percent := (progressOffset
                         + (inject_Z page / inject_Z totalPages) * 12)%Q;
             failedCount := None |} ;;
        items <- scrapeBookmarkPage username page ;;
        (if page <? totalPages then delay env RATE_LIMIT_MS else ret tt) ;;
        bookmarkPages username progressOffset totalPages remaining'
                      (page + 1) (allItems ++ items)%list
  end.

(** [async function scrapeBookmarks(username, onProgress, options,
    progressOffset)] *)
Definition scrapeBookmarks (username : string) (options : Options)
           (progressOffset : Q) : M (list Work) :=
  let timeRange := dflt (o_timeRange options) "all" in
  let pageLimit := dflt (o_pageLimit options) 100 in
  found <- getBookmarkPageCount env username ;;
  let totalPages := limitPages timeRange pageLimit found in
  onProgress {| phase := "bookmarks";
                message := "Found " ++ show totalPages
                           ++ " pages of bookmarks";
                detail := None; percent := (progressOffset + 2)%Q;
                failedCount := None |} ;;
  allItems <- bookmarkPages username progressOffset totalPages
                            (Z.to_nat totalPages) 1 [] ;;
  if (timeRange =? "year")%string then
    ret (filter (fun item => isWithinLastYear (lastVisited item)) allItems)
  else ret allItems.

(** The loop [for (const item of historyItems)] of [enrichWithMetadata]:
    [todo] are the items not yet visited, [done] the visited ones. *)
Fixpoint enrichLoop (total : Z) (todo done : list Work)
         (completed failed : Z) : M (list Work * Z) :=
  match todo with
  | [] => ret (done, failed)
  | item :: rest =>
      cancelled <- isCancelled ;;
      if cancelled then throw "Scraping cancelled by user"
      else
        onProgress
          {| phase := "metadata";
             message := "Analyzing works... " ++ show (completed + 1)
                        ++ "/" ++ show total;
             detail := Some (dquote ++ title item ++ dquote);
             percent := (30 + (inject_Z completed / inject_Z total) * 60)%Q;
             failedCount := Some failed |} ;;
        ' (item', failed') <-
          try_catch
            (metadata <- fetchWorkMetadata (workId item) ;;
             ret (assign item metadata, failed))
            (fun _ => ret (item, failed + 1)) ;;
        let completed' := completed + 1 in
        (if completed' <? total then delay env RATE_LIMIT_MS else ret tt) ;;
        enrichLoop total rest (done ++ [item'])%list completed' failed'
  end.

(** [async function enrichWithMetadata(historyItems, onProgress)];
    the result is the pair [{ items, failed }]. *)
Definition enrichWithMetadata (historyItems : list Work)
  : M (list Work * Z) :=
  enrichLoop (len historyItems) historyItems [] 0 0.

(** The [try] block of [scrapeAll]. *)
Definition scrapeAllTry (username source : string)
           (scrapingOptions : Options) : M ScrapeResult :=
  let both := (source =? "both")%string in
  allItems <-
    (if (both || (source =? "history")%string)%bool
     then scrapeReadingHistory username scrapingOptions
     else ret []) ;;
  allItems <-
    (if (both || (source =? "bookmarks")%string)%bool then
       (if both then delay env RATE_LIMIT_MS else ret tt) ;;
       bookmarkItems <-
         scrapeBookmarks username scrapingOptions
                         (if both then 30%Q else 0%Q) ;;
       if both then ret (mergeItems allItems bookmarkItems)
       else ret bookmarkItems
     else ret allItems) ;;
  if len allItems =? 0 then
    ret (Success [] 0 0
           (if (source =? "bookmarks")%string then "No bookmarks found"
            else if (source =? "history")%string
                 then "No reading history found"
                 else "No reading history or bookmarks found"))
  else
    onProgress {| phase := "metadata";
                  message := "Starting to analyze individual works...";
                  detail := Some (show (len allItems)
                                  ++ " works to process");
                  percent := 30%Q; failedCount := None |} ;;
    delay env RATE_LIMIT_MS ;;
    ' (items, failed) <- enrichWithMetadata allItems ;;
    onProgress {| phase := "complete";
                  message := "Calculating your stats...";
                  detail := None; percent := 95%Q;
                  failedCount := None |} ;;
    ret (Success items (len items) failed
           (if failed >? 0 then
              "Completed with " ++ show failed
              ++ " works that couldn't be fully loaded"
            else "All works processed successfully")).

(** The [catch (error)] block of [scrapeAll], on [error.message]. *)
Definition scrapeAllCatch (error_message : string) : M ScrapeResult :=
  if includes error_message "cancelled" then
    ret (Cancelled "Scraping was cancelled")
  else
    ret (Failed error_message ("Scraping failed: " ++ error_message)).

(** [async function scrapeAll(username, onProgress, options)] *)
Definition scrapeAll (username : string) (options : Options)
  : M ScrapeResult :=
  resetCancel ;;
  let source := dflt (o_source options) "both" in
  let timeRange := dflt (o_timeRange options) "year" in
  let pageLimit := dflt (o_pageLimit options) 10 in
  let scrapingOptions := mkOptions None (Some timeRange) (Some pageLimit) in
  try_catch (scrapeAllTry username source scrapingOptions) scrapeAllCatch.
End Harvest.

(** The state in which a run starts. *)
Definition start (flag : bool) : State := mkState flag 0%nat [].

End Scraper.

(* ================================================================== *)
(** ** The Aggregator (StatsAnalyzer, src/unnamed/part_001) *)
(* ================================================================== *)

Module Analyzer.
Import Js.

(** [function countOccurrences(items)] *)
Definition countOccurrences (items : list string) : JsMap Z :=
  fold_left
    (fun counts item =>
       if truthy item
       then map_set item (num_or (map_get item counts) 0 + 1) counts
       else counts)
    items [].

(** [function getTopN(map, limit = 10)] *)
Definition getTopN (map : JsMap Z) (limit : Z) : list (string * Z) :=
  slice0 limit (sort (fun a b => snd b - snd a) (map_entries map)).

(** [function wordsToBooks(words)] *)
Definition wordsToBooks (words : Z) : Z :=
  Math_round (inject_Z words / 90000).

Record RatingEntry : Type := mkRatingEntry {
  re_rating : string;
  re_shortName : string;
  re_count : Z;
  re_percent : Z
}.

Record CompletionStats : Type := mkCompletionStats {
  cs_complete : Z;
  cs_wip : Z;
  cs_unknown : Z;
  cs_completePercent : Z;
  cs_wipPercent : Z
}.

Record MoodStats : Type := mkMoodStats {
  fluff : Z;
  angst : Z;
  fluffPercent : Z;
  angstPercent : Z;
  preference : string
}.

Record LengthEntry : Type := mkLengthEntry {
  le_label : string;
  le_count : Z;
  le_percent : Z
}.

Record Personality : Type := mkPersonality {
  p_type : string;
  p_message : string
}.

Record BookmarkStats : Type := mkBookmarkStats {
  totalBookmarks : Z;
  totalHistory : Z;
  bookmarkRatio : Z;
  secretFavorite : option Work;
  personality : Personality
}.

(** The statistics object. The fields that need the [Date] of the host
    (monthlyActivity, busiestMonth, totalReadingDays, longestStreak), the
    formatted strings, averageChapters and readingTime are not modelled. *)
Record Stats : Type := mkStats {
  totalWorks : Z;
  totalWords : Z;
  approximateBooks : Z;
  averageWords : Z;
  totalVisits : Z;
  topFandoms : list (string * Z);
  topFandom : string * Z;
  uniqueFandomCount : Z;
  topShips : list (string * Z);
  topShip : string * Z;
  topCharacters : list (string * Z);
  topCharacter : string * Z;
  topTags : list (string * Z);
  topTag : string * Z;
  topAuthors : list (string * Z);
  topAuthor : string * Z;
  ratingBreakdown : list RatingEntry;
  favoriteRating : option RatingEntry;
  smutPercentage : Z;
  completionStats : CompletionStats;
  longestWork : option Work;
  mostReRead : option Work;
  mostKudosedWork : option Work;
  hiddenGem : option Work;
  rarestPairs : list string;
  rarestPair : option string;
  moodStats : MoodStats;
  lengthDistribution : list LengthEntry;
  preferredLength : string;
  warningBreakdown : list (string * Z);
  sizePreference : string * string;
  topTropeTag : string * Z;
  bookmarkStats : BookmarkStats
}.

(** The value of [analyze]: the sentinel [{ isEmpty: true, totalWorks: 0 }]
    or a populated statistics object (with [isEmpty: false]). *)
Inductive Analysis : Type :=
| IsEmpty
| Populated (stats : Stats).

Definition ratingOrder : list string :=
  ["Explicit"; "Mature"; "Teen And Up Audiences"; "General Audiences";
   "Not Rated"].

Definition tagsToExclude : list string :=
  ["HTML"; "html"; "http"; "https"; "www"].

Definition fluffTags : list string :=
  ["Fluff"; "Tooth-Rotting Fluff"; "Domestic Fluff"; "Romantic Fluff"].

Definition angstTags : list string :=
  ["Angst"; "Heavy Angst"; "Angst with a Happy Ending";
   "Angst and Hurt/Comfort"].

Definition tropeExclusions : list string :=
  ["Fanfiction"; "Fandom"; "Crossover"; "Alternate Universe";
   "Explicit"; "Mature"; "Teen"; "General";
   "M/M"; "F/M"; "F/F"; "Gen"; "Multi"; "Other";
   "POV"; "One Shot"; "Oneshot"; "Drabble"; "Ficlet"; "Series"].

(** [arr[0] || d] *)
Definition first_or {A : Type} (l : list A) (d : A) : A :=
  match l with
  | x :: _ => x
  | [] => d
  end.

(** [tags.some(t => patterns.some(p =>
      t.toLowerCase().includes(p.toLowerCase())))] *)
Definition hasMood (patterns tags : list string) : bool :=
  existsb
    (fun t => existsb (fun p => includes (toLowerCase t) (toLowerCase p))
                      patterns)
    tags.

(** The ratings of the works, [w.rating || 'Unknown']. *)
Definition ratingsOf (works : list Work) : list string :=
  map (fun w => str_or (rating w) "Unknown") works.

(** [stats.ratingBreakdown] *)
Definition ratingBreakdownOf (works : list Work) : list RatingEntry :=
  let total := len works in
  let ratingCounts := countOccurrences (ratingsOf works) in
  map (fun r =>
         let count := num_or (map_get r ratingCounts) 0 in
         let pct := if total >? 0 then percentOf count total else 0 in
         {| re_rating := r;
            re_shortName :=
              if (r =? "Teen And Up Audiences")%string then "Teen"
              else if (r =? "General Audiences")%string then "General"
              else if (r =? "Not Rated")%string then "Unrated" else r;
            re_count := count;
            re_percent := pct |})
      ratingOrder.

(** [const lengthBuckets = { ... }], in the order of its keys. *)
Definition lengthBuckets (works : list Work) : list (string * Z) :=
  let wc w := num_or (wordCount w) 0 in
  [ ("Drabbles (<1K)", len (filter (fun w => wc w <? 1000) works));
    ("Short (1K-5K)",
     len (filter (fun w => (wc w >=? 1000) && (wc w <? 5000))%bool works));
    ("Medium (5K-20K)",
     len (filter (fun w => (wc w >=? 5000) && (wc w <? 20000))%bool works));
    ("Long (20K-50K)",
     len (filter (fun w => (wc w >=? 20000) && (wc w <? 50000))%bool works));
    ("Epic (50K-100K)",
     len (filter (fun w => (wc w >=? 50000) && (wc w <? 100000))%bool works));
    ("Novel+ (100K+)", len (filter (fun w => wc w >=? 100000) works)) ].

(** [stats.lengthDistribution] *)
Definition lengthDistributionOf (works : list Work) : list LengthEntry :=
  map (fun entry =>
         {| le_label := fst entry; le_count := snd entry;
            le_percent := percentOf (snd entry) (len works) |})
      (lengthBuckets works).

(** The two counters of the [works.forEach] of the mood section. *)
Definition moodCounts (works : list Work) : Z * Z :=
  fold_left
    (fun counts w =>
       let tags := freeformTags w in
       let hasFluff := hasMood fluffTags tags in
       let hasAngst := hasMood angstTags tags in
       ((if hasFluff then fst counts + 1 else fst counts),
        (if hasAngst then snd counts + 1 else snd counts)))
    works (0, 0).

(** [stats.moodStats] *)
Definition moodStatsOf (works : list Work) : MoodStats :=
  let fluffCount := fst (moodCounts works) in
  let angstCount := snd (moodCounts works) in
  let moodTotal := fluffCount + angstCount in
  let fluffPct :=
    if moodTotal >? 0 then percentOf fluffCount moodTotal else 0 in
  let angstPct := if moodTotal >? 0 then 100 - fluffPct else 0 in
  {| fluff := fluffCount; angst := angstCount;
     fluffPercent := fluffPct; angstPercent := angstPct;
     preference := if fluffCount >? angstCount then "Fluff"
                   else if angstCount >? fluffCount then "Angst"
                   else "Balanced" |}.

(** The ships map [shipCounts]. *)
Definition shipCountsOf (works : list Work) : JsMap Z :=
  countOccurrences (flat_map relationships works).

(** [rareShips] *)
Definition rareShipsOf (works : list Work) : list string :=
  map fst (filter (fun entry => snd entry =? 1)
                  (map_entries (shipCountsOf works))).

(** [stats.topShips[stats.topShips.length - 1]?.[0] || null] *)
Definition lastShip (top : list (string * Z)) : option string :=
  match last_opt top with
  | Some entry => if truthy (fst entry) then Some (fst entry) else None
  | None => None
  end.

(** [stats.rarestPair] *)
Definition rarestPairOf (works : list Work) : option string :=
  let rareShips := rareShipsOf works in
  if len rareShips >? 0 then nth_error rareShips 0
  else lastShip (getTopN (shipCountsOf works) 10).

(** [stats.bookmarkStats] *)
Definition bookmarkStatsOf (works : list Work) : BookmarkStats :=
  let truthyFlag (b : option bool) :=
    match b with
    | Some true => true
    | _ => false
    end in
  let isSource (w : Work) (s : string) :=
    match source w with
    | Some x => (x =? s)%string
    | None => false
    end in
  let bookmarkedWorks :=
    filter (fun w => isSource w "bookmark" || truthyFlag (isBookmarked w))%bool
           works in
  let historyWorks :=
    filter (fun w => isSource w "history"
                     || match visitCount w with
                        | Some n => n >? 0
                        | None => false
                        end)%bool
           works in
  let ratio :=
    if len works >? 0 then percentOf (len bookmarkedWorks) (len works)
    else 0 in
  let revisitedNotBookmarked :=
    sort (fun a b => num_or (visitCount b) 0 - num_or (visitCount a) 0)
         (filter (fun w => (num_or (visitCount w) 0 >=? 2)
                           && negb (truthyFlag (isBookmarked w))
                           && negb (isSource w "bookmark"))%bool
                 works) in
  {| totalBookmarks := len bookmarkedWorks;
     totalHistory := len historyWorks;
     bookmarkRatio := ratio;
     secretFavorite := nth_error revisitedNotBookmarked 0;
     personality :=
       if ratio >? 75 then
         mkPersonality "librarian"
           "You're a librarian at heart — organized, intentional, and you know what deserves a spot."
       else if ratio >? 40 then
         mkPersonality "balanced"
           "A healthy mix of bookmarking and casual reading. You know quality when you see it."
       else if ratio >? 10 then
         mkPersonality "chaos"
           "You're a serial re-reader who refuses commitment. We respect the chaos."
       else if len bookmarkedWorks =? 0 then
         mkPersonality "dangerous"
           "You live dangerously. Your memory is your bookmarks."
       else
         mkPersonality "dragon"
           "Every good fic is a treasure and you hoard like a dragon." |}.

(** [stats.topTropeTag] *)
Definition topTropeTagOf (tagCounts : JsMap Z) : string * Z :=
  let tropeTags :=
    sort (fun a b => snd b - snd a)
         (filter
            (fun entry =>
               let tag := fst entry in
               let lowerTag := toLowerCase tag in
               if existsb (fun ex => includes lowerTag (toLowerCase ex))
                          tropeExclusions
               then false
               else if (includes tag "/" && negb (includes lowerTag "hurt"))%bool
                    then false
                    else true)
            (map_entries tagCounts)) in
  first_or tropeTags ("Unknown", 0).

(** [stats.sizePreference] *)
Definition sizePreferenceOf (avgWords : Z) : string * string :=
  if avgWords <? 2000 then ("tiny", "Quick reads are your jam!")
  else if avgWords <? 7500 then ("short", "You like your fics bite-sized.")
  else if avgWords <? 25000 then ("medium", "A solid one-sitting read.")
  else if avgWords <? 75000 then ("long", "You're in it for the journey.")
  else ("exhaustive", "Epic sagas are your love language.").

(** [function analyze(works)] *)
Definition analyze (works : list Work) : Analysis :=
  if len works =? 0 then IsEmpty
  else
    let total := len works in
    let wordsArray := map (fun w => num_or (wordCount w) 0) works in
    let words := fold_left (fun sum w => sum + w) wordsArray 0 in
    let average := Math_round (inject_Z words / inject_Z total) in
    let fandomCounts := countOccurrences (flat_map fandoms works) in
    let shipCounts := shipCountsOf works in
    let characterCounts := countOccurrences (flat_map characters works) in
    let allTags :=
      filter (fun tag => negb (arr_includes tagsToExclude tag))
             (flat_map freeformTags works) in
    let tagCounts := countOccurrences allTags in
    let authorCounts := countOccurrences (flat_map authors works) in
    let ratingCounts := countOccurrences (ratingsOf works) in
    let breakdown := ratingBreakdownOf works in
    let explicitCount := num_or (map_get "Explicit" ratingCounts) 0 in
    let completeWorks :=
      len (filter (fun w => match complete w with
                            | Some true => true
                            | _ => false
                            end) works) in
    let wipWorks :=
      len (filter (fun w => match complete w with
                            | Some false => true
                            | _ => false
                            end) works) in
    let sortedByLength :=
      sort (fun a b => num_or (wordCount b) 0 - num_or (wordCount a) 0) works in
    let sortedByVisits :=
      sort (fun a b => num_or (visitCount b) 1 - num_or (visitCount a) 1) works in
    let sortedByKudos :=
      sort (fun a b => num_or (kudos b) 0 - num_or (kudos a) 0) works in
    let potentialGems :=
      sort (fun a b => num_or (visitCount b) 1 - num_or (visitCount a) 1)
           (filter (fun w => (num_or (kudos w) 0 <? 100)
                             && (num_or (visitCount w) 1 >=? 2))%bool works) in
    let rareShips := rareShipsOf works in
    Populated
      {| totalWorks := total;
         totalWords := words;
         approximateBooks := wordsToBooks words;
         averageWords := average;
         totalVisits :=
           fold_left (fun sum w => sum + num_or (visitCount w) 1) works 0;
         topFandoms := getTopN fandomCounts 10;
         topFandom := first_or (getTopN fandomCounts 10) ("Unknown", 0);
         uniqueFandomCount := map_size fandomCounts;
         topShips := getTopN shipCounts 10;
         topShip := first_or (getTopN shipCounts 10) ("Unknown", 0);
         topCharacters := getTopN characterCounts 10;
         topCharacter := first_or (getTopN characterCounts 10) ("Unknown", 0);
         topTags := getTopN tagCounts 30;
         topTag := first_or (getTopN tagCounts 30) ("Unknown", 0);
         topAuthors := getTopN authorCounts 10;
         topAuthor := first_or (getTopN authorCounts 10) ("Unknown", 0);
         ratingBreakdown := breakdown;
         favoriteRating :=
           match breakdown with
           | [] => None
           | r0 :: _ =>
               Some (fold_left
                       (fun max r => if re_count r >? re_count max then r else max)
                       breakdown r0)
           end;
         smutPercentage := percentOf explicitCount total;
         completionStats :=
           {| cs_complete := completeWorks;
              cs_wip := wipWorks;
              cs_unknown := total - completeWorks - wipWorks;
              cs_completePercent := percentOf completeWorks total;
              cs_wipPercent := percentOf wipWorks total |};
         longestWork := nth_error sortedByLength 0;
         mostReRead := nth_error sortedByVisits 0;
         mostKudosedWork := nth_error sortedByKudos 0;
         hiddenGem := nth_error potentialGems 0;
         rarestPairs := slice0 5 rareShips;
         rarestPair := rarestPairOf works;
         moodStats := moodStatsOf works;
         lengthDistribution := lengthDistributionOf works;
         preferredLength :=
           match sort (fun a b => snd b - snd a) (lengthBuckets works) with
           | entry :: _ => str_or (Some (fst entry)) "Unknown"
           | [] => "Unknown"
           end;
         warningBreakdown :=
           getTopN (countOccurrences (flat_map warnings works)) 10;
         sizePreference := sizePreferenceOf average;
         topTropeTag := topTropeTagOf tagCounts;
         bookmarkStats := bookmarkStatsOf works |}.

End Analyzer.

(* ================================================================== *)
(** ** The earlier revision of the Aggregator (src/analyzer.js)

    src/analyzer.js is the same function without the sections after the
    warning tags; of the sections it has, two differ and are given here. *)
(* ================================================================== *)

Module AnalyzerJs.
Import Js.

(** [stats.moodStats] of src/analyzer.js: both percentages are taken over
    the whole collection. *)
Definition moodStatsOf (works : list Work) : Analyzer.MoodStats :=
  let fluffCount := fst (Analyzer.moodCounts works) in
  let angstCount := snd (Analyzer.moodCounts works) in
  {| Analyzer.fluff := fluffCount; Analyzer.angst := angstCount;
     Analyzer.fluffPercent := percentOf fluffCount (len works);
     Analyzer.angstPercent := percentOf angstCount (len works);
     Analyzer.preference :=
       if fluffCount >? angstCount then "Fluff"
       else if angstCount >? fluffCount then "Angst"
       else "Balanced" |}.

(** [stats.rarestPair] of src/analyzer.js; [random] is the value of
    [Math.random()]. *)
Definition rarestPairOf (random : Q) (works : list Work) : option string :=
  let rareShips := Analyzer.rareShipsOf works in
  if len rareShips >? 0 then
    nth_error rareShips
              (Z.to_nat (Qfloor (random * inject_Z (len rareShips))))
  else Analyzer.lastShip (Analyzer.getTopN (Analyzer.shipCountsOf works) 10).

End AnalyzerJs.

(* ================================================================== *)
(** ** The Filter Stage (applyFilters, src/app.js) *)
(* ================================================================== *)

Module App.
Import Js.

(** The value of [getFilterSettings()]. *)
Record Filters : Type := mkFilters {
  wordCountMin : Z;
  wordCountMax : Z;
  ratings : list string
}.

(** The callback of [works.filter] in [applyFilters]. *)
Definition keeps (filters : Filters) (work : Work) : bool :=
  let wc := num_or (wordCount work) 0 in
  if ((wc <? wordCountMin filters) || (wc >? wordCountMax filters))%bool
  then false
  else
    let r := str_or (rating work) "Unknown" in
    if negb (arr_includes (ratings filters) r) then false
    else true.

(** [function applyFilters(works, filters)] *)
Definition applyFilters (works : list Work) (filters : Filters) : list Work :=
  filter (keeps filters) works.

(** The predicate of the Filter Stage in the words of the specification:
    keep iff the word count, absent taken as 0, lies in the inclusive
    range and the rating, absent taken as "Unknown", is allowed. A field
    is absent when JavaScript finds it falsy. *)
Definition keep_spec (filters : Filters) (work : Work) : Prop :=
  let wc := match wordCount work with
            | Some n => n
            | None => 0
            end in
  let r := match rating work with
           | Some s => if (s =? EmptyString)%string then "Unknown" else s
           | None => "Unknown"
           end in
  wordCountMin filters <= wc <= wordCountMax filters
  /\ In r (ratings filters).

End App.



(* ================================================================== *)
(** ** The Visualizer (src/unnamed/part_005) *)
(* ================================================================== *)

Module Visualizer.
Import Js.

(** [text.substring(0, end)]: a negative end counts as 0, an end past
    the text as its length. A string is the sequence of its code units. *)
Definition substring0 (finish : Z) (text : string) : string :=
  String.substring 0 (Z.to_nat finish) text.

(** [function truncate(text, maxLength = 50)]; an absent [text] is
    [None]. *)
Definition truncate (text : option string) (maxLength : option Z) : string :=
  let maxLength := Scraper.dflt maxLength 50 in
  match text with
  | None => EmptyString
  | Some text =>
      if negb (truthy text) then EmptyString
      else if Z.of_nat (String.length text) <=? maxLength then text
      else substring0 (maxLength - 3) text ++ "..."
  end.

(** The classes of a slide that the navigation sets: [active], [prev] or
    neither. *)
Inductive SlideMark : Type :=
| Active
| Prev
| Unmarked.

(** [function renderSlides(slidesHTML, container)], on the marks of the
    slides: the first one is active. *)
Definition renderSlides (slidesHTML : list string) : list SlideMark :=
  map (fun index => if (index =? 0)%nat then Active else Unmarked)
      (seq 0 (List.length slidesHTML)).

(** [function goToSlide(index, container)]; the container is the list of
    the marks of its slides. The result is the clamped index and the
    container with its marks set. *)
Definition goToSlide (index : Z) (container : list SlideMark)
  : Z * list SlideMark :=
  let total := len container in
  let index := Z.max 0 (Z.min index (total - 1)) in
  (index,
   map (fun i => if Z.of_nat i =? index then Active
                 else if Z.of_nat i <? index then Prev
                      else Unmarked)
       (seq 0 (List.length container))).

End Visualizer.

(* ================================================================== *)
(** ** The slide navigation of the application (src/app.js) *)
(* ================================================================== *)

Module Navigation.
Import Js Visualizer.

(** The part of the state and of the page that the navigation reads and
    writes. *)
Record Ui : Type := mkUi {
  currentScreen : string;
  currentSlide : Z;
  totalSlides : Z;
  slidesContainer : list SlideMark;
  btnPrevSlideDisabled : bool;
  btnNextSlideDisabled : bool;
  slideCounter : string;
  btnDownloadAllShown : bool
}.

Definition setSlide (ui : Ui) (index : Z) : Ui :=
  mkUi (currentScreen ui) index (totalSlides ui) (slidesContainer ui)
       (btnPrevSlideDisabled ui) (btnNextSlideDisabled ui)
       (slideCounter ui) (btnDownloadAllShown ui).

(** [window.Visualizer.goToSlide(index, elements.slidesContainer)] *)
Definition showSlide (ui : Ui) (index : Z) : Ui :=
  mkUi (currentScreen ui) (currentSlide ui) (totalSlides ui)
       (snd (goToSlide index (slidesContainer ui)))
       (btnPrevSlideDisabled ui) (btnNextSlideDisabled ui)
       (slideCounter ui) (btnDownloadAllShown ui).

(** [function updateSlideNavigation()] *)
Definition updateSlideNavigation (ui : Ui) : Ui :=
  mkUi (currentScreen ui) (currentSlide ui) (totalSlides ui)
       (slidesContainer ui)
       (currentSlide ui =? 0)
       (currentSlide ui =? totalSlides ui - 1)
       (show (currentSlide ui + 1) ++ " / " ++ show (totalSlides ui))
       (currentSlide ui =? totalSlides ui - 1).

(** [function previousSlide()] *)
Definition previousSlide (ui : Ui) : Ui :=
  if currentSlide ui >? 0 then
    let ui := setSlide ui (currentSlide ui - 1) in
    updateSlideNavigation (showSlide ui (currentSlide ui))
  else ui.

(** [function nextSlide()] *)
Definition nextSlide (ui : Ui) : Ui :=
  if currentSlide ui <? totalSlides ui - 1 then
    let ui := setSlide ui (currentSlide ui + 1) in
    updateSlideNavigation (showSlide ui (currentSlide ui))
  else ui.

(** [function handleKeydown(event)], on [event.key] *)
Definition handleKeydown (key : string) (ui : Ui) : Ui :=
  if negb (currentScreen ui =? "results")%string then ui
  else if ((key =? "ArrowLeft") || (key =? "ArrowUp"))%string
  then previousSlide ui
  else if ((key =? "ArrowRight") || (key =? "ArrowDown") || (key =? " "))%string
  then nextSlide ui
  else if (key =? "Home")%string then
    let ui := setSlide ui 0 in
    updateSlideNavigation (showSlide ui 0)
  else if (key =? "End")%string then
    let ui := setSlide ui (totalSlides ui - 1) in
    updateSlideNavigation (showSlide ui (totalSlides ui - 1))
  else ui.

(** What startScraping and applyFiltersAndRegenerate do with the slides
    that generateSlides returns: [state.totalSlides = slides.length],
    [state.currentSlide = 0], [renderSlides], the results screen and
    [updateSlideNavigation]. *)
Definition showResults (slides : list string) (ui : Ui) : Ui :=
  updateSlideNavigation
    (mkUi "results" 0 (len slides) (renderSlides slides)
          (btnPrevSlideDisabled ui) (btnNextSlideDisabled ui)
          (slideCounter ui) (btnDownloadAllShown ui)).

End Navigation.

(* ================================================================== *)
(** ** Sample data for the examples *)
(* ================================================================== *)

Module Sample.
Import Js Scraper.

(** A record as the history listing gives it. *)
Definition historyRow (id : string) (visits : Z) : Work :=
  {| workId := id; title := "A Work"; authors := ["author"];
     fandoms := ["Fandom"]; visitCount := Some visits;
     lastVisited := Some "15 Mar 2024"; warnings := [];
     relationships := []; characters := []; freeformTags := [];
     wordCount := None; isBookmark := None; rating := None;
     kudos := None; bookmarks := None; chapters := None;
     complete := None; datePublished := None; hits := None;
     dateUpdated := None; source := None; isBookmarked := None |}.

(** A record as the bookmark listing gives it. *)
Definition bookmarkRow (id : string) : Work :=
  {| workId := id; title := "A Work"; authors := ["author"];
     fandoms := ["Fandom"]; visitCount := Some 1;
     lastVisited := Some "20 Apr 2024"; warnings := [];
     relationships := []; characters := []; freeformTags := [];
     wordCount := None; isBookmark := Some true; rating := None;
     kudos := None; bookmarks := None; chapters := None;
     complete := None; datePublished := None; hits := None;
     dateUpdated := None; source := None; isBookmarked := None |}.

(** An enriched record with the fields the aggregator looks at. *)
Definition work (id : string) (words : option Z) (r : option string)
           (ships tags : list string) (visits : Z) : Work :=
  {| workId := id; title := "A Work"; authors := ["author"];
     fandoms := ["Fandom"]; visitCount := Some visits;
     lastVisited := None; warnings := [];
     relationships := ships; characters := []; freeformTags := tags;
     wordCount := words; isBookmark := None; rating := r;
     kudos := None; bookmarks := None; chapters := None;
     complete := None; datePublished := None; hits := None;
     dateUpdated := None; source := None; isBookmarked := None |}.

(** Eight works: four explicit drabbles and one work of each of the four
    other ratings, each in a length band of its own. *)
Definition eightWorks : list Work :=
  [ work "1" (Some 500) (Some "Explicit") [] [] 1;
    work "2" (Some 600) (Some "Explicit") [] [] 1;
    work "3" (Some 700) (Some "Explicit") [] [] 1;
    work "4" (Some 800) (Some "Explicit") [] [] 1;
    work "5" (Some 2000) (Some "Mature") [] [] 1;
    work "6" (Some 10000) (Some "Teen And Up Audiences") [] [] 1;
    work "7" (Some 30000) (Some "General Audiences") [] [] 1;
    work "8" (Some 60000) (Some "Not Rated") [] [] 1 ].

(** Two works that no detail page has enriched. *)
Definition unrated : list Work := [ historyRow "1" 1; historyRow "2" 4 ].

(** The three works of the basic scenario. *)
Definition threeWorks : list Work :=
  [ work "1" (Some 1000) (Some "General Audiences") ["A/B"] ["Fluff"] 1;
    work "2" (Some 2000) (Some "General Audiences") ["A/B"] ["Heavy Angst"] 3;
    work "3" (Some 3000) (Some "Explicit") ["A/B"; "C/D"; "E/F"] [] 2 ].

(** Two works with the same ship. *)
Definition sameShip : list Work :=
  [ work "1" (Some 1000) None ["A/B"] [] 1;
    work "2" (Some 2000) None ["A/B"] [] 1 ].

(** Two works whose only relationship tag is the empty string. *)
Definition emptyShips : list Work :=
  [ work "1" (Some 1000) None [EmptyString] [] 1;
    work "2" (Some 2000) None [EmptyString] [] 1 ].

(** A listing row of work [id], visited three times. *)
Definition blurb (id : string) : Blurb :=
  {| b_workId := Some id; b_title := "A Work"; b_authors := ["author"];
     b_fandoms := ["Fandom"]; b_visited := Some (Some 3);
     b_statusDate := Some "15 Mar 2024"; b_userDate := Some "20 Apr 2024";
     b_warnings := []; b_relationships := []; b_characters := [];
     b_freeforms := []; b_words := None |}.

(** A page without a pagination control, with the given history rows and
    bookmark rows, and without the blocks of a work page. *)
Definition page (historyIds bookmarkIds : list string) : Document :=
  {| d_pagination := None;
     d_readings := map blurb historyIds;
     d_bookmarks := map blurb bookmarkIds;
     d_ratingTag := None; d_warningTags := []; d_fandomTags := [];
     d_relationshipTags := []; d_characterTags := [];
     d_freeformTags := []; d_stats := None |}.

(** Every fetch succeeds with the same page: one history row (work 1) and
    two bookmark rows (works 1 and 2); nobody cancels. *)
Definition calmEnv : Env :=
  {| env_fetch := fun _ _ =>
       Resolved (mkFetchResult true (page ["1"] ["1"; "2"]) EmptyString);
     env_cancel := fun _ => false;
     env_parseDate := fun _ => None;
     env_oneYearAgo := 0 |}.

(** As [calmEnv], but [requestCancel()] is called during the fourth
    suspension point of the run. *)
Definition lateCancelEnv : Env :=
  {| env_fetch := env_fetch calmEnv;
     env_cancel := fun k => (k =? 3)%nat;
     env_parseDate := fun _ => None;
     env_oneYearAgo := 0 |}.

(** As [calmEnv], but the fetch issued at the [k]-th suspension point
    resolves with [success: false] when [failing k] holds. *)
Definition flakyEnv (failing : nat -> bool) : Env :=
  {| env_fetch := fun k _ =>
       Resolved (mkFetchResult (negb (failing k)) (page ["1"] ["1"; "2"])
                               "HTTP 404: Not Found");
     env_cancel := fun _ => false;
     env_parseDate := fun _ => None;
     env_oneYearAgo := 0 |}.

(** As [calmEnv], but [requestCancel()] is called during the first
    suspension point of the run. *)
Definition earlyCancelEnv : Env :=
  {| env_fetch := env_fetch calmEnv;
     env_cancel := fun k => (k =? 0)%nat;
     env_parseDate := fun _ => None;
     env_oneYearAgo := 0 |}.

(** As [calmEnv], with a clock: the history rows are dated before the
    day one year ago, the bookmark rows after it. *)
Definition datedEnv : Env :=
  {| env_fetch := env_fetch calmEnv;
     env_cancel := fun _ => false;
     env_parseDate := fun date =>
       if (date =? "15 Mar 2024")%string then Some 100
       else if (date =? "20 Apr 2024")%string then Some 300
            else None;
     env_oneYearAgo := 200 |}.

(** As [calmEnv], but every page lists work 1 twice in the history. *)
Definition repeatEnv : Env :=
  {| env_fetch := fun _ _ =>
       Resolved (mkFetchResult true (page ["1"; "1"] []) EmptyString);
     env_cancel := fun _ => false;
     env_parseDate := fun _ => None;
     env_oneYearAgo := 0 |}.

(** The options that name nothing: every default applies. *)
Definition defaults : Options :=
  {| o_source := None; o_timeRange := None; o_pageLimit := None |}.

(** The page before any result is shown. *)
Definition welcomeUi : Navigation.Ui :=
  Navigation.mkUi "welcome" 0 0 [] false false EmptyString false.

Definition optionsFor (source : string) : Options :=
  {| o_source := Some source; o_timeRange := Some "all";
     o_pageLimit := Some 10 |}.

End Sample.


(* ================================================================== *)
(** ** Auxiliary notions used in the statements and proofs *)
(* ================================================================== *)

Module Aux.
Import Js Scraper.

(** The keyed collection [seen] holds every record under its own id. *)
Definition keyed (m : JsMap Work) : Prop :=
  NoDup (map fst m) /\ Forall (fun e => workId (snd e) = fst e) m.

Definition addHistory (seen : JsMap Work) (item : Work) : JsMap Work :=
  map_set (workId item) item seen.

Definition addBookmark (seen : JsMap Work) (item : Work) : JsMap Work :=
  if map_has (workId item) seen then
    match map_get (workId item) seen with
    | Some existing =>
        map_set (workId item) (set_isBookmark existing (Some true)) seen
    | None => seen
    end
  else map_set (workId item) item seen.

(** The sum of a list of integers. *)
Definition sumZ (l : list Z) : Z := fold_right Z.add 0 l.

(** The number of occurrences of a string in a list. *)
Definition occ (x : string) (l : list string) : Z :=
  len (filter (String.eqb x) l).

(** [counts.get(key) || 0] *)
Definition countOf (counts : JsMap Z) (key : string) : Z :=
  num_or (map_get key counts) 0.

(** The number of works with a fluff tag, and with an angst tag. *)
Definition fluffCountOf (works : list Work) : Z :=
  len (filter (fun w => Analyzer.hasMood Analyzer.fluffTags (freeformTags w))
              works).

Definition angstCountOf (works : list Work) : Z :=
  len (filter (fun w => Analyzer.hasMood Analyzer.angstTags (freeformTags w))
              works).

(** [p] is an integer nearest to the percentage [100 * count / total];
    a percentage that ends in one half has two such integers. *)
Definition nearestPercent (count total p : Z) : Prop :=
  200 * count - total <= 2 * total * p <= 200 * count + total.


(** The keys of a counting map are distinct truthy strings. *)
Definition counting (m : JsMap Z) : Prop :=
  NoDup (map fst m) /\ Forall (fun e => truthy (fst e) = true) m.

(** A record as the Harvester builds it: it has neither a [source] nor an
    [isBookmarked] property. *)
Definition harvested (w : Work) : Prop :=
  source w = None /\ isBookmarked w = None.

(** [w.visitCount || 0] *)
Definition visits (w : Work) : Z := num_or (visitCount w) 0.

(** What analyze reports about bookmarks for a collection whose records
    carry only [isBookmark]. *)
Definition reportsNoBookmarks (works : list Work) : Prop :=
  match Analyzer.analyze works with
  | Analyzer.IsEmpty => works = []
  | Analyzer.Populated stats =>
      let b := Analyzer.bookmarkStats stats in
      Analyzer.totalBookmarks b = 0
      /\ Analyzer.bookmarkRatio b = 0
      /\ Analyzer.p_type (Analyzer.personality b) = "dangerous"
      /\ match Analyzer.secretFavorite b with
         | Some favorite =>
             In favorite works
             /\ 2 <= visits favorite
             /\ forall w, In w works -> visits w <= visits favorite
         | None => forall w, In w works -> visits w < 2
         end
  end.

(** *** Runs of the Harvester *)

Definition cancelMessage : string := "Scraping cancelled by user".

(** A cancellation check of the run found the flag set. *)
Definition checkedTrue (t : list Event) : Prop := In (EvCheck true) t.

(** [m] only appends to the trace, and appends no cancellation check that
    finds the flag set. *)
Definition Quiet {A : Type} (m : M A) : Prop :=
  forall s r s', m s = (r, s') ->
    exists t, trace s' = (trace s ++ t)%list /\ ~ checkedTrue t.

(** [m] only appends to the trace, and throws the cancellation error
    when one of its cancellation checks finds the flag set. *)
Definition CancelSafe {A : Type} (m : M A) : Prop :=
  forall s r s', m s = (r, s') ->
    exists t, trace s' = (trace s ++ t)%list
              /\ (checkedTrue t -> r = Throw cancelMessage).

(** Every error that [m] throws has a message that satisfies [P]. *)
Definition ThrowsOnly {A : Type} (P : string -> Prop) (m : M A) : Prop :=
  forall s e s', m s = (Throw e, s') -> P e.

(** Every value that [m] returns satisfies [P]. *)
Definition Yields {A : Type} (P : A -> Prop) (m : M A) : Prop :=
  forall s a s', m s = (Ok a, s') -> P a.

(** The state after a fetch of [url] issued in [s]. *)
Definition fetched (env : Env) (s : State) (url : string) : State :=
  mkState (cancelRequested s || env_cancel env (awaits s))
          (S (awaits s)) (trace s ++ [EvFetch url])%list.

(** The state after a delay of [ms] started in [s]. *)
Definition delayed (env : Env) (s : State) (ms : Z) : State :=
  mkState (cancelRequested s || env_cancel env (awaits s))
          (S (awaits s)) (trace s ++ [EvDelay ms])%list.

(** The outcome of the detail fetch of work [id] issued at the [k]-th
    suspension point. *)
Definition detailAt (env : Env) (k : nat) (id : string) : Outcome Metadata :=
  fst (fetchWorkMetadata env id (mkState false k [])).

(** The detail fetch fails: the promise rejects or resolves with
    [success: false]. *)
Definition failsAt (env : Env) (k : nat) (id : string) : bool :=
  match detailAt env k id with
  | Ok _ => false
  | Throw _ => true
  end.

(** What enrichment makes of one item. *)
Definition enrichedItem (env : Env) (k : nat) (item : Work) : Work :=
  match detailAt env k (workId item) with
  | Ok metadata => assign item metadata
  | Throw _ => item
  end.

(** The items after enrichment, when the detail fetch of the first one is
    issued at suspension point [k]: a fetch and a delay per item. *)
Fixpoint enrichedFrom (env : Env) (k : nat) (items : list Work) : list Work :=
  match items with
  | [] => []
  | item :: rest => enrichedItem env k item :: enrichedFrom env (k + 2) rest
  end.

(** The number of items whose detail fetch fails. *)
Fixpoint failuresFrom (env : Env) (k : nat) (items : list Work) : Z :=
  match items with
  | [] => 0
  | item :: rest =>
      (if failsAt env k (workId item) then 1 else 0)
      + failuresFrom env (k + 2) rest
  end.

(** The positions of the items whose detail fetch fails, when the detail
    fetch of the item at position [i] is issued at suspension point
    [k + 2 * i]. *)
Definition failingPositions (env : Env) (k : nat) (items : list Work)
  : list nat :=
  filter (fun i => match nth_error items i with
                   | Some item => failsAt env (k + 2 * i) (workId item)
                   | None => false
                   end)
         (seq 0 (List.length items)).

(** The URL of the page of a work. *)
Definition workUrl (id : string) : string :=
  AO3_BASE_URL ++ "/works/" ++ id ++ "?view_adult=true".

(** [m] only appends to the trace. *)
Definition Extends {A : Type} (m : M A) : Prop :=
  forall s r s', m s = (r, s') -> exists t, trace s' = (trace s ++ t)%list.

(** The run of [m] from [s] goes through the state [s1]: whatever
    follows, the final trace is the one of [s1] with more appended. *)
Definition Through {A : Type} (m : M A) (s s1 : State) : Prop :=
  forall r s', m s = (r, s') -> exists t, trace s' = (trace s1 ++ t)%list.

(** The outcome of the page-count fetch of [url] issued at the [k]-th
    suspension point. *)
Definition pageCountAt (env : Env) (k : nat) (url errorContext : string)
  : Outcome Z :=
  fst (getPageCount env url errorContext (mkState false k [])).

(** *** Cancellation requests and the flag *)

(** From a state that satisfies [P], [m] returns in a state that
    satisfies [Q] or throws in a state that satisfies [E]. *)
Definition Triple {A : Type} (P : State -> Prop) (m : M A)
           (Q : A -> State -> Prop) (E : State -> Prop) : Prop :=
  forall s r s', P s -> m s = (r, s') ->
    match r with
    | Ok a => Q a s'
    | Throw _ => E s'
    end.

(** No cancellation is requested at the suspension points from [a0] up to
    [a], [a] excluded. *)
Definition calmUntil (env : Env) (a0 a : nat) : Prop :=
  forall k, (a0 <= k < a)%nat -> env_cancel env k = false.

(** The flag is set exactly when a cancellation was requested at one of
    the suspension points since [a0], where the flag was reset. *)
Definition flagTracks (env : Env) (a0 : nat) (s : State) : Prop :=
  (a0 <= awaits s)%nat
  /\ (cancelRequested s = false <-> calmUntil env a0 (awaits s)).

(** Only at the latest suspension point can a cancellation have been
    requested. *)
Definition lateOnly (env : Env) (a0 : nat) (s : State) : Prop :=
  flagTracks env a0 s /\ calmUntil env a0 (pred (awaits s)).

(** The flag is tracked and not set. *)
Definition calm (env : Env) (a0 : nat) (s : State) : Prop :=
  flagTracks env a0 s /\ cancelRequested s = false.

(** When the result is a success, only at the latest suspension point can
    a cancellation have been requested. *)
Definition successLate (env : Env) (a0 : nat) (result : ScrapeResult)
           (s : State) : Prop :=
  match result with
  | Success _ _ _ _ => lateOnly env a0 s
  | _ => True
  end.

(** A predicate on states that does not look at the trace. *)
Definition traceBlind (P : State -> Prop) : Prop :=
  forall s t, P s -> P (mkState (cancelRequested s) (awaits s) t).

(** *** Measures of a trace *)

(** After a fetch: the delays waited before each of the next fetches. *)
Fixpoint gapsFrom (waited : Z) (t : list Event) : list Z :=
  match t with
  | [] => []
  | EvFetch _ :: t' => waited :: gapsFrom 0 t'
  | EvDelay ms :: t' => gapsFrom (waited + ms) t'
  | _ :: t' => gapsFrom waited t'
  end.

(** For every two consecutive fetches of the trace, the time that the run
    waited in [delay] between them. *)
Fixpoint interFetchDelays (t : list Event) : list Z :=
  match t with
  | [] => []
  | EvFetch _ :: t' => gapsFrom 0 t'
  | _ :: t' => interFetchDelays t'
  end.

(** The rate floor: the run waits the minimum interval between every two
    consecutive fetches. *)
Definition rateFloorHonoured (t : list Event) : Prop :=
  Forall (fun waited => RATE_LIMIT_MS <= waited) (interFetchDelays t).

(** The fetches of a trace. *)
Definition fetchesOf (t : list Event) : list string :=
  flat_map (fun e => match e with
                     | EvFetch url => [url]
                     | _ => []
                     end) t.

(** The percent values of the progress events of a trace, in order. *)
Definition percentsOf (t : list Event) : list Q :=
  flat_map (fun e => match e with
                     | EvProgress p => [percent p]
                     | _ => []
                     end) t.

Fixpoint nondecreasing (l : list Q) : bool :=
  match l with
  | a :: (b :: _) as rest => (Qle_bool a b && nondecreasing rest)%bool
  | _ => true
  end.

(** The latest progress event of the trace has the percent [q]. *)
Definition lastPercentIs (q : Q) (s : State) : Prop :=
  exists t0 p t1,
    trace s = (t0 ++ EvProgress p :: t1)%list
    /\ (percent p == q)%Q
    /\ percentsOf t1 = [].

(** The percent values of the trace decrease somewhere. *)
Definition wentBack (s : State) : Prop :=
  nondecreasing (percentsOf (trace s)) = false.

(** When the result is a success with items, the percent values went
    back during the run. *)
Definition successWentBack (result : ScrapeResult) (s : State) : Prop :=
  match result with
  | Success items _ _ _ => items <> [] -> wentBack s
  | _ => True
  end.

End Aux.


(* ================================================================== *)
(** ** Notions used in the statements about the rest of the code *)
(* ================================================================== *)

Module Props.
Import Js Scraper Aux.

(** The distinct strings of a list, each at its first occurrence. *)
Fixpoint firsts (l : list string) : list string :=
  match l with
  | [] => []
  | x :: l' => x :: filter (fun y => negb (y =? x)%string) (firsts l')
  end.

(** The strings of a list that a counting map takes: the non-empty ones. *)
Definition named (l : list string) : list string := filter truthy l.

(** [top] is the entry that leads the count of [items]: the placeholder
    when no item is counted, and otherwise the most frequent item with
    the number of its occurrences, the one that appears first among
    equally frequent ones. *)
Definition leads (items : list string) (top : string * Z) : Prop :=
  (named items = [] /\ top = ("Unknown", 0))
  \/ exists before after,
       firsts (named items) = (before ++ fst top :: after)%list
       /\ snd top = occ (fst top) items
       /\ (forall k, In k before -> occ k items < snd top)
       /\ (forall k, In k after -> occ k items <= snd top).

(** [h] is the first element of [l] with the greatest [key]. *)
Definition firstMax {A : Type} (key : A -> Z) (l : list A) (h : A) : Prop :=
  exists before after,
    l = (before ++ h :: after)%list
    /\ (forall x, In x before -> key x < key h)
    /\ (forall x, In x after -> key x <= key h).

(** [w.wordCount || 0], [w.visitCount || 1] and [w.kudos || 0] *)
Definition wordsOf (w : Work) : Z := num_or (wordCount w) 0.
Definition revisits (w : Work) : Z := num_or (visitCount w) 1.
Definition kudosOf (w : Work) : Z := num_or (kudos w) 0.

(** The completion of a work is known ([true] or [false]). *)
Definition completion (c : option bool) (w : Work) : bool :=
  match complete w, c with
  | Some true, Some true => true
  | Some false, Some false => true
  | None, None => true
  | _, _ => false
  end.

(** A percentage. *)
Definition isPercent (p : Z) : Prop := 0 <= p <= 100.

(** A tag that the trope ranking keeps: it contains none of the excluded
    words, whatever the case of the letters, and it contains a slash only
    together with the word hurt. *)
Definition isTrope (tag : string) : Prop :=
  (forall ex, In ex Analyzer.tropeExclusions ->
              includes (toLowerCase tag) (toLowerCase ex) = false)
  /\ (includes tag "/" = true -> includes (toLowerCase tag) "hurt" = true).

(** The freeform tags that analyze counts. *)
Definition countedTags (works : list Work) : list string :=
  filter (fun tag => negb (arr_includes Analyzer.tagsToExclude tag))
         (flat_map freeformTags works).

(** The records of a list with a given work id. *)
Definition withId (id : string) (items : list Work) : list Work :=
  filter (fun w => (workId w =? id)%string) items.

(** *** Events of a run *)

(** [m] only appends to the trace, and every event that it appends
    satisfies [good]. *)
Definition Emits {A : Type} (good : Event -> Prop) (m : M A) : Prop :=
  forall s r s', m s = (r, s') ->
    exists t, trace s' = (trace s ++ t)%list /\ Forall good t.

(** The URLs that the Harvester builds. *)
Definition historyUrl (username : string) : string :=
  AO3_BASE_URL ++ "/users/" ++ username ++ "/readings".

Definition historyPageUrl (username : string) (page : Z) : string :=
  AO3_BASE_URL ++ "/users/" ++ username ++ "/readings?page=" ++ show page.

Definition bookmarksUrl (username : string) : string :=
  AO3_BASE_URL ++ "/users/" ++ username ++ "/bookmarks".

Definition bookmarkPageUrl (username : string) (page : Z) : string :=
  AO3_BASE_URL ++ "/users/" ++ username ++ "/bookmarks?page=" ++ show page.

(** A page number that a run may ask for: from 1 on, and within the page
    limit when the time range is 'pages' and the limit is positive. *)
Definition pageAllowed (timeRange : string) (pageLimit page : Z) : Prop :=
  1 <= page
  /\ (timeRange = "pages" -> 0 < pageLimit -> page <= pageLimit).

(** A URL that a run over [source] may fetch: the listing of a source
    that it covers, a page of that listing within the page limit, or the
    page of a work. *)
Definition requestAllowed (username source timeRange : string)
           (pageLimit : Z) (url : string) : Prop :=
  ((source = "both" \/ source = "history")
   /\ (url = historyUrl username
       \/ exists page, pageAllowed timeRange pageLimit page
                       /\ url = historyPageUrl username page))
  \/ ((source = "both" \/ source = "bookmarks")
      /\ (url = bookmarksUrl username
          \/ exists page, pageAllowed timeRange pageLimit page
                          /\ url = bookmarkPageUrl username page))
  \/ exists id, url = workUrl id.

(** An event of a run over [source]: a fetch that the source allows, a
    delay of the rate limit, a progress event between 0 and 95 percent,
    or a read of the cancellation flag. *)
Definition seemly (username source timeRange : string) (pageLimit : Z)
           (e : Event) : Prop :=
  match e with
  | EvFetch url => requestAllowed username source timeRange pageLimit url
  | EvDelay ms => ms = RATE_LIMIT_MS
  | EvProgress p => (0 <= percent p)%Q /\ (percent p <= 95)%Q
  | EvCheck _ => True
  end.

(** The percent of a progress event lies between 0 and 95. *)
Definition percentBelowDone (e : Event) : Prop :=
  match e with
  | EvProgress p => (0 <= percent p)%Q /\ (percent p <= 95)%Q
  | _ => True
  end.

(** A fetch that the source allows; a delay of the rate limit. *)
Definition politeRequest (username source timeRange : string)
           (pageLimit : Z) (e : Event) : Prop :=
  match e with
  | EvFetch url => requestAllowed username source timeRange pageLimit url
  | EvDelay ms => ms = RATE_LIMIT_MS
  | _ => True
  end.

(** The trace ends with the first read of the cancellation flag that
    finds it set: no fetch, delay, progress event or further read
    follows it. *)
Fixpoint haltsOnCancel (t : list Event) : Prop :=
  match t with
  | [] => True
  | EvCheck true :: rest => rest = []
  | _ :: rest => haltsOnCancel rest
  end.

(** [m] only appends to the trace; it stops at the first read of the
    flag that finds it set, and then throws the cancellation error. *)
Definition Halting {A : Type} (m : M A) : Prop :=
  forall s r s', m s = (r, s') ->
    exists t, trace s' = (trace s ++ t)%list
              /\ haltsOnCancel t
              /\ (checkedTrue t -> r = Throw cancelMessage).

(** *** The slides *)

(** The page shows the slide of the state: that slide is the active one,
    the slides before it are marked as previous and the others are not
    marked; the two buttons are disabled exactly at the two ends. *)
Definition inStep (ui : Navigation.Ui) : Prop :=
  0 <= Navigation.currentSlide ui < Navigation.totalSlides ui
  /\ Navigation.totalSlides ui = len (Navigation.slidesContainer ui)
  /\ (forall i mark,
        nth_error (Navigation.slidesContainer ui) i = Some mark ->
        mark = if Z.of_nat i =? Navigation.currentSlide ui
               then Visualizer.Active
               else if Z.of_nat i <? Navigation.currentSlide ui
                    then Visualizer.Prev
                    else Visualizer.Unmarked)
  /\ Navigation.btnPrevSlideDisabled ui
     = (Navigation.currentSlide ui =? 0)
  /\ Navigation.btnNextSlideDisabled ui
     = (Navigation.currentSlide ui =? Navigation.totalSlides ui - 1).

(** Every fetch of the trace follows a progress event directly, but for
    the fetches that ask a listing for its number of pages. [after]
    tells whether the event before the trace is a progress event. *)
Fixpoint heralded (username : string) (after : bool) (t : list Event)
  : Prop :=
  match t with
  | [] => True
  | EvFetch url :: rest =>
      (after = true
       \/ url = historyUrl username \/ url = bookmarksUrl username)
      /\ heralded username false rest
  | EvProgress _ :: rest => heralded username true rest
  | _ :: rest => heralded username false rest
  end.

(** [m] only appends to the trace, and what it appends is heralded
    whatever came before. *)
Definition Heralds {A : Type} (username : string) (m : M A) : Prop :=
  forall s r s', m s = (r, s') ->
    exists t, trace s' = (trace s ++ t)%list
              /\ forall after, heralded username after t.

(** As [Heralds], for a computation that runs right after a progress
    event. *)
Definition HeraldsAfter {A : Type} (username : string) (m : M A) : Prop :=
  forall s r s', m s = (r, s') ->
    exists t, trace s' = (trace s ++ t)%list /\ heralded username true t.

(** The fetch asks a listing for its number of pages. *)
Definition isCount (username url : string) : bool :=
  ((url =? historyUrl username) || (url =? bookmarksUrl username))%string.

(** The pace of a trace. [due] tells whether a fetch may be issued: it
    may at the start, after a delay of the rate limit or more, and after
    a fetch that asked a listing for its number of pages. Every fetch of
    a paced trace is issued when it may be. *)
Fixpoint paced (username : string) (due : bool) (t : list Event) : Prop :=
  match t with
  | [] => True
  | EvFetch url :: rest =>
      due = true /\ paced username (isCount username url) rest
  | EvDelay ms :: rest =>
      paced username (due || (RATE_LIMIT_MS <=? ms))%bool rest
  | _ :: rest => paced username due rest
  end.

(** Whether a fetch may be issued after the trace. *)
Fixpoint dueAfter (username : string) (due : bool) (t : list Event) : bool :=
  match t with
  | [] => due
  | EvFetch url :: rest => dueAfter username (isCount username url) rest
  | EvDelay ms :: rest =>
      dueAfter username (due || (RATE_LIMIT_MS <=? ms))%bool rest
  | _ :: rest => dueAfter username due rest
  end.

(** [m] only appends to the trace. When [pre] holds it needs a fetch to
    be due where it starts; what it appends is then paced, and when
    [post] holds a fetch is due where it returns. *)
Definition Paces {A : Type} (username : string) (pre : bool) (m : M A)
           (post : bool) : Prop :=
  forall s r s', m s = (r, s') ->
    exists t, trace s' = (trace s ++ t)%list
              /\ forall due, implb pre due = true ->
                   paced username due t
                   /\ (forall a, r = Ok a ->
                        implb post (dueAfter username due t) = true).

(** The page numbers [page], [page + 1], ... of [count] pages. *)
Definition pagesFrom (page : Z) (count : nat) : list Z :=
  map (fun i => page + Z.of_nat i) (seq 0 count).

(** Nobody cancels and every fetch succeeds. *)
Definition untroubled (env : Env) : Prop :=
  (forall k, env_cancel env k = false)
  /\ (forall k url, exists r,
         env_fetch env k url = Resolved r /\ success r = true).

(** *** Results of a run *)

(** The fields of a record that the listing gave and that enrichment
    keeps. *)
Definition sameListing (w w' : Work) : Prop :=
  workId w' = workId w /\ title w' = title w /\ authors w' = authors w
  /\ visitCount w' = visitCount w /\ lastVisited w' = lastVisited w
  /\ isBookmark w' = isBookmark w.

(** The value [v] that a record carries for a number that the page shows
    in the element [el]: the number read from the element, and null when
    the page has no such element. *)
Definition numberOf (el : option (option Z)) (v : option Z) : Prop :=
  (forall n, el = Some n -> v = n) /\ (el = None -> v = None).

(** What the detail page [doc] of a work says about it, as a record
    carries it once it is enriched: the rating of the page ("Unknown"
    when the page shows none), its warnings, fandoms, relationships,
    characters and freeform tags, and the numbers and dates of its
    statistics block; a statistic that the page does not show is null.
    The work is complete when the chapters text has no question mark. *)
Definition detailed (doc : Document) (w : Work) : Prop :=
  (forall r, d_ratingTag doc = Some r -> rating w = Some r)
  /\ (d_ratingTag doc = None -> rating w = Some "Unknown")
  /\ warnings w = d_warningTags doc
  /\ fandoms w = d_fandomTags doc
  /\ relationships w = d_relationshipTags doc
  /\ characters w = d_characterTags doc
  /\ freeformTags w = d_freeformTags doc
  /\ (forall block, d_stats doc = Some block ->
        numberOf (s_words block) (wordCount w)
        /\ chapters w = s_chapters block
        /\ numberOf (s_kudos block) (kudos w)
        /\ numberOf (s_bookmarks block) (bookmarks w)
        /\ numberOf (s_hits block) (hits w)
        /\ datePublished w = s_published block
        /\ dateUpdated w = s_status block
        /\ (forall chapText, s_chapters block = Some chapText ->
              complete w = Some (negb (includes chapText "?")))
        /\ (s_chapters block = None -> complete w = None))
  /\ (d_stats doc = None ->
        wordCount w = None /\ chapters w = None /\ kudos w = None
        /\ bookmarks w = None /\ hits w = None /\ datePublished w = None
        /\ dateUpdated w = None /\ complete w = None).

(** [w'] is the record [w] of a listing enriched with the detail page
    [doc]: it keeps what the listing gave and carries what the page
    says. This fixes each of its fields. *)
Definition enrichedBy (doc : Document) (w w' : Work) : Prop :=
  sameListing w w'
  /\ source w' = source w /\ isBookmarked w' = isBookmarked w
  /\ detailed doc w'.

(** A fetch of the detail page of work [id] that succeeded with the
    document [doc]. *)
Definition detailPage (env : Env) (id : string) (doc : Document) : Prop :=
  exists k r, env_fetch env k (workUrl id) = Resolved r
              /\ success r = true /\ html r = doc.

(** What enrichment may make of a record: nothing, or the record with the
    metadata of a detail page of its own work assigned. *)
Definition enrichedOf (env : Env) (w w' : Work) : Prop :=
  w' = w
  \/ exists metadata,
       m_workId metadata = workId w /\ w' = assign w metadata
       /\ exists doc, detailPage env (workId w) doc /\ enrichedBy doc w w'.

(** The message of an empty success result. *)
Definition nothingFound (source : string) : string :=
  if (source =? "bookmarks")%string then "No bookmarks found"
  else if (source =? "history")%string then "No reading history found"
       else "No reading history or bookmarks found".

(** The shape of a result of scrapeAll over [source]. *)
Definition wellFormed (source : string) (result : ScrapeResult) : Prop :=
  match result with
  | Success items total failed message =>
      total = len items
      /\ 0 <= failed <= total
      /\ (items = [] -> message = nothingFound source)
      /\ (items <> [] -> failed = 0 ->
          message = "All works processed successfully")
      /\ (0 < failed ->
          message = "Completed with " ++ show failed
                    ++ " works that couldn't be fully loaded")
  | Cancelled message => message = "Scraping was cancelled"
  | Failed e message =>
      message = "Scraping failed: " ++ e /\ includes e "cancelled" = false
  end.

(** The error that getHistoryPageCount throws on the answer of its fetch,
    if it throws. *)
Definition historyCountError (response : Response) : option string :=
  match response with
  | Rejected e => Some e
  | Resolved r =>
      if success r then None
      else Some ("Failed to fetch history: " ++ error r)
  end.

(** The result that the [catch] block of scrapeAll makes of an error. *)
Definition reported (e : string) : ScrapeResult :=
  if includes e "cancelled" then Cancelled "Scraping was cancelled"
  else Failed e ("Scraping failed: " ++ e).

(** The date of the record is absent or empty, is no date, or is not
    older than one year. *)
Definition recent (env : Env) (w : Work) : Prop :=
  lastVisited w = None
  \/ lastVisited w = Some EmptyString
  \/ exists str,
       lastVisited w = Some str
       /\ (env_parseDate env str = None
           \/ exists date, env_parseDate env str = Some date
                           /\ env_oneYearAgo env <= date).

End Props.

(* ================================================================== *)
(** * Properties *)
(* ================================================================== *)

(** ** Facts about the JavaScript [Map] *)

Section JsMapFacts.
Import Js.
Context {V : Type}.
Implicit Types (m : JsMap V) (k : string) (v : V).

Lemma map_get_set_same k v m : map_get k (map_set k v m) = Some v.
Proof.
  induction m as [|[k' v'] m IH]; simpl.
  - now rewrite String.eqb_refl.
  - destruct (String.eqb_spec k k') as [->|Hne]; simpl.
    + now rewrite String.eqb_refl.
    + destruct (String.eqb_spec k k'); [contradiction | exact IH].
Qed.

Lemma map_get_set_other k k' v m :
  k <> k' -> map_get k (map_set k' v m) = map_get k m.
Proof.
  intros Hne. induction m as [|[k0 v0] m IH]; simpl.
  - destruct (String.eqb_spec k k'); [contradiction | reflexivity].
  - destruct (String.eqb_spec k' k0) as [->|Hne']; simpl.
    + destruct (String.eqb_spec k k0); [contradiction | reflexivity].
    + destruct (String.eqb_spec k k0); [reflexivity | exact IH].
Qed.

Lemma map_get_None_keys k m : map_get k m = None <-> ~ In k (map fst m).
Proof.
  induction m as [|[k' v'] m IH]; simpl.
  - tauto.
  - destruct (String.eqb_spec k k') as [->|Hne].
    + split; [discriminate | intros H; exfalso; apply H; now left].
    + rewrite IH. split.
      * intros H [Heq|Hin]; [now apply Hne | now apply H].
      * intros H Hin. apply H. now right.
Qed.

Lemma map_keys_set k v m :
  map fst (map_set k v m)
  = if map_has k m then map fst m else (map fst m ++ [k])%list.
Proof.
  unfold map_has. induction m as [|[k' v'] m IH]; simpl.
  - reflexivity.
  - destruct (String.eqb_spec k k') as [->|Hne]; simpl.
    + reflexivity.
    + rewrite IH. now destruct (map_get k m).
Qed.

Lemma map_set_NoDup k v m :
  NoDup (map fst m) -> NoDup (map fst (map_set k v m)).
Proof.
  intros Hnd. rewrite map_keys_set. unfold map_has.
  destruct (map_get k m) eqn:Hget; [exact Hnd|].
  apply map_get_None_keys in Hget.
  apply NoDup_app; [exact Hnd | repeat constructor; intros [] | ].
  intros x Hx [<-|[]]. now apply Hget.
Qed.

Lemma map_set_In k v m e :
  In e (map_set k v m) -> e = (k, v) \/ In e m.
Proof.
  induction m as [|[k' v'] m IH]; simpl.
  - intros [<-|[]]. now left.
  - destruct (String.eqb_spec k k') as [->|Hne]; simpl.
    + intros [<-|Hin]; [now left | right; now right].
    + intros [<-|Hin]; [right; now left|].
      destruct (IH Hin) as [->|Hin']; [now left | right; now right].
Qed.
End JsMapFacts.

(** ** The merge step *)

Section Merge.
Import Js Scraper Aux.

Lemma mergeItems_unfold h b :
  mergeItems h b
  = map_values (fold_left addBookmark b (fold_left addHistory h [])).
Proof. reflexivity. Qed.

Lemma keyed_nil : keyed [].
Proof. split; constructor. Qed.

Lemma keyed_set m k v : keyed m -> workId v = k -> keyed (map_set k v m).
Proof.
  intros [Hnd Hall] Hk. split.
  - now apply map_set_NoDup.
  - apply Forall_forall. intros e He.
    destruct (map_set_In _ _ _ _ He) as [->|Hin]; [exact Hk|].
    now apply (proj1 (Forall_forall _ _) Hall).
Qed.

Lemma keyed_get m k v : keyed m -> map_get k m = Some v -> workId v = k.
Proof.
  intros [_ Hall]. induction Hall as [|[k' v'] m Hx Hall IH]; simpl.
  - discriminate.
  - destruct (String.eqb_spec k k') as [->|Hne].
    + intros [= <-]. exact Hx.
    + exact IH.
Qed.

Lemma keyed_addHistory m w : keyed m -> keyed (addHistory m w).
Proof. intros H. now apply keyed_set. Qed.

Lemma keyed_addBookmark m w : keyed m -> keyed (addBookmark m w).
Proof.
  intros H. unfold addBookmark, map_has.
  destruct (map_get (workId w) m) as [existing|] eqn:Hget.
  - apply keyed_set; [exact H|]. simpl. now apply (keyed_get m).
  - now apply keyed_set.
Qed.

Lemma keyed_fold (step : JsMap Work -> Work -> JsMap Work) l :
  (forall m w, keyed m -> keyed (step m w)) ->
  forall m, keyed m -> keyed (fold_left step l m).
Proof.
  intros Hstep. induction l as [|a l IH]; simpl; intros m Hm.
  - exact Hm.
  - apply IH. now apply Hstep.
Qed.

(** In a keyed collection the values with a given id are the entry of
    that id, if there is one. *)
Lemma keyed_filter_absent m id :
  keyed m -> ~ In id (map fst m) ->
  filter (fun w => (workId w =? id)%string) (map snd m) = [].
Proof.
  intros [_ Hall]. induction Hall as [|[k v] m Hx Hall IH]; simpl; intros Hnot.
  - reflexivity.
  - simpl in Hx. destruct (String.eqb_spec (workId v) id) as [Heq|Hne].
    + exfalso. apply Hnot. left. now rewrite <- Hx.
    + apply IH. intros Hin. apply Hnot. now right.
Qed.

Lemma keyed_filter m id :
  keyed m ->
  filter (fun w => (workId w =? id)%string) (map snd m)
  = match map_get id m with
    | Some v => [v]
    | None => []
    end.
Proof.
  intros Hk. induction m as [|[k v] m IH]; simpl.
  - reflexivity.
  - destruct Hk as [Hnd Hall].
    inversion Hnd as [|? ? Hnotin Hnd']; subst.
    inversion Hall as [|? ? Hx Hall']; subst. simpl in Hx.
    assert (Hm : keyed m) by (split; assumption).
    destruct (String.eqb_spec id k) as [->|Hne].
    + rewrite Hx, String.eqb_refl.
      now rewrite (keyed_filter_absent m k Hm Hnotin).
    + destruct (String.eqb_spec (workId v) id) as [Heq|_].
      * exfalso. apply Hne. now rewrite <- Heq.
      * now apply IH.
Qed.

Lemma get_addHistory_absent h : forall m id,
  ~ In id (map workId h) ->
  map_get id (fold_left addHistory h m) = map_get id m.
Proof.
  induction h as [|a h IH]; simpl; intros m id Hnot.
  - reflexivity.
  - rewrite IH by tauto. unfold addHistory.
    apply map_get_set_other. intros ->. apply Hnot. now left.
Qed.

(** After the first pass an id of the history is held by a history
    record of that id. *)
Lemma get_addHistory h : forall m id,
  In id (map workId h) ->
  exists w, In w h /\ workId w = id
            /\ map_get id (fold_left addHistory h m) = Some w.
Proof.
  induction h as [|a h IH]; simpl; intros m id Hin.
  - contradiction.
  - destruct (in_dec string_dec id (map workId h)) as [Hlater|Hnot].
    + destruct (IH (addHistory m a) id Hlater) as (w & Hw & Hid & Hget).
      exists w. auto.
    + destruct Hin as [Heq|Hin]; [|contradiction].
      exists a. repeat split; auto.
      rewrite get_addHistory_absent by exact Hnot.
      unfold addHistory. rewrite Heq. apply map_get_set_same.
Qed.

Lemma set_isBookmark_twice w v :
  set_isBookmark (set_isBookmark w v) v = set_isBookmark w v.
Proof. reflexivity. Qed.

(** The second pass only sets the flag of a record that the collection
    already holds. *)
Lemma get_addBookmark b : forall m id w,
  map_get id m = Some w ->
  map_get id (fold_left addBookmark b m)
  = Some (if existsb (fun x => (workId x =? id)%string) b
          then set_isBookmark w (Some true) else w).
Proof.
  induction b as [|a b IH]; simpl; intros m id w Hget.
  - exact Hget.
  - destruct (String.eqb_spec (workId a) id) as [Heq|Hne]; simpl.
    + assert (Hstep : map_get id (addBookmark m a)
                      = Some (set_isBookmark w (Some true))).
      { unfold addBookmark, map_has. rewrite Heq, Hget.
        apply map_get_set_same. }
      rewrite (IH _ _ _ Hstep), set_isBookmark_twice.
      now destruct (existsb _ b).
    + apply IH. unfold addBookmark, map_has.
      destruct (map_get (workId a) m) eqn:Ha.
      * rewrite map_get_set_other by congruence. exact Hget.
      * rewrite map_get_set_other by congruence. exact Hget.
Qed.

Lemma existsb_workId l id :
  In id (map workId l) -> existsb (fun x => (workId x =? id)%string) l = true.
Proof.
  intros Hin. apply in_map_iff in Hin. destruct Hin as (x & Hx & Hin).
  apply existsb_exists. exists x. split; [exact Hin|].
  now apply String.eqb_eq.
Qed.

Lemma keyed_values_NoDup m : keyed m -> NoDup (map workId (map snd m)).
Proof.
  intros [Hnd Hall].
  replace (map workId (map snd m)) with (map fst m); [exact Hnd|].
  induction Hall as [|[k v] m Hx Hall IH]; simpl.
  - reflexivity.
  - simpl in Hx. rewrite Hx. f_equal. apply IH.
    now inversion Hnd.
Qed.

Lemma merge_keyed h b :
  keyed (fold_left addBookmark b (fold_left addHistory h [])).
Proof.
  apply keyed_fold; [exact keyed_addBookmark|].
  apply keyed_fold; [exact keyed_addHistory | exact keyed_nil].
Qed.
End Merge.

(** C1. For every pair of lists of history and bookmark records, the
    merged collection has no two records of the same workId; and for an id
    that both lists have, the merged collection has exactly one record of
    that id: a record of the history list, with its visitCount and
    lastVisited, whose bookmark flag is set to true. *)
Theorem mergeItems_unique_and_flagged (historyItems bookmarkItems : list Work) :
  NoDup (map workId (Scraper.mergeItems historyItems bookmarkItems))
  /\ forall id,
       In id (map workId historyItems) ->
       In id (map workId bookmarkItems) ->
       exists w r,
         In w historyItems /\ workId w = id
         /\ filter (fun x => (workId x =? id)%string)
                   (Scraper.mergeItems historyItems bookmarkItems) = [r]
         /\ r = set_isBookmark w (Some true)
         /\ isBookmark r = Some true
         /\ visitCount r = visitCount w
         /\ lastVisited r = lastVisited w.
Proof.
  rewrite mergeItems_unfold. unfold Js.map_values.
  pose proof (merge_keyed historyItems bookmarkItems) as Hk.
  split.
  - now apply keyed_values_NoDup.
  - intros id Hh Hb.
    destruct (get_addHistory historyItems [] id Hh) as (w & Hw & Hid & Hget).
    exists w, (set_isBookmark w (Some true)).
    repeat split; auto.
    rewrite (keyed_filter _ id Hk).
    rewrite (get_addBookmark bookmarkItems _ id w Hget).
    now rewrite (existsb_workId bookmarkItems id Hb).
Qed.

Lemma mergeItems_unique_and_flagged_witness :
  exists w r,
    In w [Sample.historyRow "7" 3] /\ workId w = "7"
    /\ filter (fun x => (workId x =? "7")%string)
              (Scraper.mergeItems [Sample.historyRow "7" 3]
                                  [Sample.bookmarkRow "7"]) = [r]
    /\ r = set_isBookmark w (Some true)
    /\ isBookmark r = Some true
    /\ visitCount r = visitCount w
    /\ lastVisited r = lastVisited w.
Proof.
  apply (proj2 (mergeItems_unique_and_flagged [Sample.historyRow "7" 3]
                                              [Sample.bookmarkRow "7"]) "7").
  - simpl. now left.
  - simpl. now left.
Defined.


(** ** The Filter Stage *)

Section FilterStage.
Import Js App.

Lemma num_or_zero (x : option Z) :
  num_or x 0 = match x with
               | Some n => n
               | None => 0
               end.
Proof.
  destruct x as [n|]; simpl; [|reflexivity].
  destruct (Z.eqb_spec n 0); congruence.
Qed.

Lemma arr_includes_In (l : list string) (x : string) :
  arr_includes l x = true <-> In x l.
Proof.
  unfold arr_includes. rewrite existsb_exists. split.
  - intros (y & Hy & Heq). apply String.eqb_eq in Heq. now subst.
  - intros Hin. exists x. split; [exact Hin | apply String.eqb_refl].
Qed.

Lemma str_or_Unknown (x : option string) :
  str_or x "Unknown"
  = match x with
    | Some s => if (s =? EmptyString)%string then "Unknown" else s
    | None => "Unknown"
    end.
Proof.
  destruct x as [s|]; simpl; [|reflexivity].
  unfold truthy. now destruct (s =? EmptyString)%string.
Qed.

(** The callback of the source decides the predicate of the
    specification. *)
Lemma keeps_keep_spec (filters : Filters) (w : Work) :
  keeps filters w = true <-> keep_spec filters w.
Proof.
  unfold keeps, keep_spec.
  rewrite num_or_zero, str_or_Unknown.
  set (wc := match wordCount w with Some n => n | None => 0 end).
  set (r := match rating w with
            | Some s => if (s =? EmptyString)%string then "Unknown" else s
            | None => "Unknown"
            end).
  destruct (Z.ltb_spec wc (wordCountMin filters)) as [Hlo|Hlo]; simpl.
  - split; [discriminate | lia].
  - destruct (Z.gtb_spec wc (wordCountMax filters)) as [Hhi|Hhi]; simpl.
    + split; [discriminate | lia].
    + destruct (arr_includes (ratings filters) r) eqn:Hinc; simpl.
      * apply arr_includes_In in Hinc. split; [intros _|reflexivity].
        split; [lia | exact Hinc].
      * split; [discriminate|]. intros [_ Hin].
        apply arr_includes_In in Hin. congruence.
Qed.

Lemma filter_twice {A : Type} (f : A -> bool) (l : list A) :
  filter f (filter f l) = filter f l.
Proof.
  induction l as [|a l IH]; simpl; [reflexivity|].
  destruct (f a) eqn:Hfa; simpl; [|exact IH].
  now rewrite Hfa, IH.
Qed.
End FilterStage.

(** C6. For every collection and filter settings, applyFilters returns
    exactly the records whose word count (absent taken as 0) lies in the
    inclusive range and whose rating (absent taken as "Unknown") is
    allowed: the result is the input with the other records left out, in
    the same order and with the records as they are in the input; and
    filtering a second time changes nothing. *)
Theorem applyFilters_exact_and_idempotent
        (works : list Work) (filters : App.Filters) :
  (exists keep : Work -> bool,
      (forall w, keep w = true <-> App.keep_spec filters w)
      /\ App.applyFilters works filters = filter keep works)
  /\ (forall w, In w (App.applyFilters works filters)
                <-> In w works /\ App.keep_spec filters w)
  /\ App.applyFilters (App.applyFilters works filters) filters
     = App.applyFilters works filters.
Proof.
  split; [|split].
  - exists (App.keeps filters). split; [|reflexivity].
    intros w. apply keeps_keep_spec.
  - intros w. unfold App.applyFilters. rewrite filter_In.
    now rewrite keeps_keep_spec.
  - unfold App.applyFilters. apply filter_twice.
Qed.


(** ** Percentages *)

Section Percentages.
Import Js Aux Analyzer.

Lemma percentOf_div (c n : Z) :
  0 < n -> percentOf c n = (200 * c + n) / (2 * n).
Proof.
  intros Hn. destruct n as [|p|p]; try lia.
  remember ((200 * c + Z.pos p) / (2 * Z.pos p)) as rhs eqn:Hrhs.
  unfold percentOf, Math_round, Qfloor, Qdiv, Qmult, Qplus, Qinv, inject_Z.
  simpl. subst rhs. f_equal; lia.
Qed.

(** A rounded percentage is within one half of the exact one. *)
Lemma percentOf_bounds (c n : Z) :
  0 < n -> 200 * c - n < 2 * n * percentOf c n <= 200 * c + n.
Proof.
  intros Hn. rewrite percentOf_div by exact Hn.
  pose proof (Z.mul_div_le (200 * c + n) (2 * n) ltac:(lia)).
  pose proof (Z.mul_succ_div_gt (200 * c + n) (2 * n) ltac:(lia)).
  lia.
Qed.

Lemma percentOf_zero (n : Z) : 0 < n -> percentOf 0 n = 0.
Proof.
  intros Hn. rewrite percentOf_div by exact Hn.
  apply Z.div_small. lia.
Qed.

(** Rounding [k] shares one by one moves their sum by at most [k/2]. *)
Lemma percent_sum_bounds (n : Z) (counts : list Z) :
  0 < n ->
  200 * sumZ counts - len counts * n
  <= 2 * n * sumZ (map (fun c => percentOf c n) counts)
  <= 200 * sumZ counts + len counts * n
  /\ (counts <> [] ->
      200 * sumZ counts - len counts * n
      < 2 * n * sumZ (map (fun c => percentOf c n) counts)).
Proof.
  intros Hn. unfold len. induction counts as [|c counts IH].
  - simpl. split; [lia | congruence].
  - pose proof (percentOf_bounds c n Hn) as Hc.
    destruct IH as [IH _].
    change (sumZ (c :: counts)) with (c + sumZ counts).
    change (map (fun c => percentOf c n) (c :: counts))
      with (percentOf c n :: map (fun c => percentOf c n) counts).
    change (sumZ (percentOf c n :: map (fun c => percentOf c n) counts))
      with (percentOf c n + sumZ (map (fun c => percentOf c n) counts)).
    change (List.length (c :: counts)) with (S (List.length counts)).
    rewrite Nat2Z.inj_succ.
    split; [|intros _]; nia.
Qed.

Lemma len_cons {A : Type} (a : A) (l : list A) : len (a :: l) = 1 + len l.
Proof. unfold len. simpl List.length. lia. Qed.

Lemma len_nonneg {A : Type} (l : list A) : 0 <= len l.
Proof. unfold len. lia. Qed.

Lemma len_pos {A : Type} (l : list A) : l <> [] -> 0 < len l.
Proof. destruct l; [congruence | rewrite len_cons; pose proof (len_nonneg l); lia]. Qed.

(** *** The counts of [countOccurrences] *)

Lemma countOf_step (counts : JsMap Z) (item key : string) :
  truthy key = true ->
  countOf (if truthy item
           then map_set item (num_or (map_get item counts) 0 + 1) counts
           else counts) key
  = countOf counts key + (if (key =? item)%string then 1 else 0).
Proof.
  intros Hkey. unfold countOf.
  destruct (String.eqb_spec key item) as [<-|Hne].
  - rewrite Hkey, map_get_set_same. now rewrite !num_or_zero.
  - destruct (truthy item); [|lia].
    rewrite map_get_set_other by exact Hne. lia.
Qed.

Lemma occ_cons (key item : string) (items : list string) :
  occ key (item :: items)
  = (if (key =? item)%string then 1 else 0) + occ key items.
Proof.
  unfold occ. simpl. destruct (key =? item)%string.
  - now rewrite len_cons.
  - lia.
Qed.

Lemma countOf_fold (items : list string) : forall counts key,
  truthy key = true ->
  countOf (fold_left
             (fun counts item =>
                if truthy item
                then map_set item (num_or (map_get item counts) 0 + 1) counts
                else counts)
             items counts) key
  = countOf counts key + occ key items.
Proof.
  induction items as [|item items IH]; intros counts key Hkey.
  - unfold occ, len. simpl. lia.
  - simpl fold_left. rewrite IH by exact Hkey.
    rewrite countOf_step by exact Hkey. rewrite occ_cons. lia.
Qed.

(** [counts.get(key) || 0] is the number of occurrences of [key]. *)
Lemma countOf_countOccurrences (items : list string) (key : string) :
  truthy key = true -> countOf (countOccurrences items) key = occ key items.
Proof.
  intros Hkey. unfold countOccurrences. now rewrite countOf_fold.
Qed.

Lemma occ_nonneg key items : 0 <= occ key items.
Proof. apply len_nonneg. Qed.
End Percentages.


Section PercentSums.
Import Js Aux Analyzer.

Lemma len_filter_cons {A : Type} (f : A -> bool) (a : A) (l : list A) :
  len (filter f (a :: l)) = (if f a then 1 else 0) + len (filter f l).
Proof.
  simpl. destruct (f a); [now rewrite len_cons | lia].
Qed.

Lemma percentOf_nonneg (c n : Z) : 0 <= c -> 0 < n -> 0 <= percentOf c n.
Proof.
  intros Hc Hn. rewrite percentOf_div by exact Hn.
  apply Z.div_pos; lia.
Qed.

(** The six length bands partition the collection. *)
Lemma lengthBuckets_total (works : list Work) :
  sumZ (map snd (lengthBuckets works)) = len works.
Proof.
  unfold lengthBuckets. cbn [map snd sumZ fold_right].
  induction works as [|w works IH].
  - reflexivity.
  - rewrite !len_filter_cons, len_cons.
    set (wc := num_or (wordCount w) 0).
    destruct (Z.ltb_spec wc 1000), (Z.geb_spec wc 1000),
             (Z.ltb_spec wc 5000), (Z.geb_spec wc 5000),
             (Z.ltb_spec wc 20000), (Z.geb_spec wc 20000),
             (Z.ltb_spec wc 50000), (Z.geb_spec wc 50000),
             (Z.ltb_spec wc 100000), (Z.geb_spec wc 100000);
      cbn [andb]; lia.
Qed.

Lemma lengthDistribution_percents (works : list Work) :
  map le_percent (lengthDistributionOf works)
  = map (fun c => percentOf c (len works)) (map snd (lengthBuckets works)).
Proof.
  unfold lengthDistributionOf. rewrite !map_map. reflexivity.
Qed.

(** The counts of the rating breakdown are the occurrences of the five
    listed ratings. *)
Lemma ratingBreakdown_percents (works : list Work) :
  works <> [] ->
  map re_percent (ratingBreakdownOf works)
  = map (fun c => percentOf c (len works))
        (map (fun r => occ r (ratingsOf works)) ratingOrder).
Proof.
  intros Hne. pose proof (len_pos works Hne) as Hpos.
  unfold ratingBreakdownOf. rewrite !map_map.
  apply map_ext_in. intros r Hr. cbn [re_percent].
  destruct (Z.gtb_spec (len works) 0) as [_|Hle]; [|lia].
  change (num_or (map_get r (countOccurrences (ratingsOf works))) 0)
    with (countOf (countOccurrences (ratingsOf works)) r).
  rewrite countOf_countOccurrences; [reflexivity|].
  unfold ratingOrder in Hr. simpl in Hr.
  repeat (destruct Hr as [<-|Hr]; [reflexivity|]). contradiction.
Qed.

(** The five listed ratings count every work at most once, and exactly
    once when its rating is listed. *)
Lemma ratingOrder_occurrences (items : list string) :
  0 <= sumZ (map (fun r => occ r items) ratingOrder) <= len items
  /\ (Forall (fun x => In x ratingOrder) items ->
      sumZ (map (fun r => occ r items) ratingOrder) = len items).
Proof.
  unfold ratingOrder. cbn [map sumZ fold_right].
  induction items as [|x items [IHle IHeq]].
  - unfold occ, len. simpl. split; [lia | reflexivity].
  - rewrite !occ_cons, len_cons.
    assert (Hx :
      ((if ("Explicit" =? x)%string then 1 else 0)
       + (if ("Mature" =? x)%string then 1 else 0)
       + (if ("Teen And Up Audiences" =? x)%string then 1 else 0)
       + (if ("General Audiences" =? x)%string then 1 else 0)
       + (if ("Not Rated" =? x)%string then 1 else 0) <= 1)
      /\ (In x ["Explicit"; "Mature"; "Teen And Up Audiences";
                "General Audiences"; "Not Rated"] ->
          (if ("Explicit" =? x)%string then 1 else 0)
          + (if ("Mature" =? x)%string then 1 else 0)
          + (if ("Teen And Up Audiences" =? x)%string then 1 else 0)
          + (if ("General Audiences" =? x)%string then 1 else 0)
          + (if ("Not Rated" =? x)%string then 1 else 0) = 1)).
    { destruct (String.eqb_spec "Explicit" x) as [<-|H1];
        [split; reflexivity|].
      destruct (String.eqb_spec "Mature" x) as [<-|H2];
        [split; reflexivity|].
      destruct (String.eqb_spec "Teen And Up Audiences" x) as [<-|H3];
        [split; reflexivity|].
      destruct (String.eqb_spec "General Audiences" x) as [<-|H4];
        [split; reflexivity|].
      destruct (String.eqb_spec "Not Rated" x) as [<-|H5];
        [split; reflexivity|].
      split; [lia|].
      intros Hin. simpl in Hin.
      repeat (destruct Hin as [Hin|Hin]; [congruence|]). contradiction. }
    destruct Hx as [Hle Heq].
    pose proof (occ_nonneg "Explicit" items).
    split.
    + destruct (("Explicit" =? x)%string), (("Mature" =? x)%string),
        (("Teen And Up Audiences" =? x)%string),
        (("General Audiences" =? x)%string), (("Not Rated" =? x)%string);
        lia.
    + intros Hall. inversion Hall as [|? ? Hin Hall']; subst.
      specialize (IHeq Hall'). specialize (Heq Hin). lia.
Qed.

Lemma analyze_populated (works : list Work) :
  works <> [] ->
  exists stats,
    analyze works = Populated stats
    /\ ratingBreakdown stats = ratingBreakdownOf works
    /\ lengthDistribution stats = lengthDistributionOf works
    /\ moodStats stats = moodStatsOf works
    /\ rarestPair stats = rarestPairOf works
    /\ topShips stats = getTopN (shipCountsOf works) 10
    /\ bookmarkStats stats = bookmarkStatsOf works.
Proof.
  intros Hne. pose proof (len_pos works Hne) as Hpos.
  unfold analyze.
  destruct (Z.eqb_spec (len works) 0) as [H0|_]; [lia|].
  eexists. split; [reflexivity|]. cbn. repeat split; reflexivity.
Qed.

Lemma analyze_empty : analyze [] = IsEmpty.
Proof. reflexivity. Qed.
End PercentSums.

(** C5, as the code has it. For every non-empty collection the percent
    fields of the lengthDistribution entries sum to a value between 98 and
    103 (six shares, each rounded on its own); the percent fields of the
    ratingBreakdown entries sum to at most 102, and to at least 98 when the
    rating of every work is one of the five listed ones (a work whose
    rating is absent or not listed is in no entry). *)
Theorem percent_sums_bounds (works : list Work) :
  works <> [] ->
  exists stats,
    Analyzer.analyze works = Analyzer.Populated stats
    /\ 98 <= Aux.sumZ (map Analyzer.le_percent (Analyzer.lengthDistribution stats))
          <= 103
    /\ 0 <= Aux.sumZ (map Analyzer.re_percent (Analyzer.ratingBreakdown stats))
         <= 102
    /\ (Forall (fun w => In (Js.str_or (rating w) "Unknown") Analyzer.ratingOrder)
               works ->
        98 <= Aux.sumZ (map Analyzer.re_percent (Analyzer.ratingBreakdown stats))).
Proof.
  intros Hne.
  destruct (analyze_populated works Hne)
    as (stats & Hstats & Hrb & Hld & _).
  exists stats. split; [exact Hstats|].
  rewrite Hrb, Hld.
  pose proof (len_pos works Hne) as Hpos.
  rewrite lengthDistribution_percents, ratingBreakdown_percents by exact Hne.
  pose proof (lengthBuckets_total works) as Htotal.
  destruct (percent_sum_bounds (Js.len works)
              (map snd (Analyzer.lengthBuckets works)) Hpos) as [Hl Hl'].
  assert (Hl6 : Js.len (map snd (Analyzer.lengthBuckets works)) = 6)
    by reflexivity.
  specialize (Hl' ltac:(discriminate)).
  set (rc := map (fun r => Aux.occ r (Analyzer.ratingsOf works))
                 Analyzer.ratingOrder) in *.
  destruct (percent_sum_bounds (Js.len works) rc Hpos) as [Hr Hr'].
  assert (Hr5 : Js.len rc = 5) by reflexivity.
  specialize (Hr' ltac:(discriminate)).
  destruct (ratingOrder_occurrences (Analyzer.ratingsOf works)) as [Hocc Hocc'].
  fold rc in Hocc, Hocc'.
  assert (Hlen : Js.len (Analyzer.ratingsOf works) = Js.len works).
  { unfold Analyzer.ratingsOf, Js.len. now rewrite length_map. }
  rewrite Hlen in *.
  rewrite Htotal, Hl6 in *. rewrite Hr5 in *.
  split; [nia|]. split.
  - split; [|nia].
    clear - Hpos Hne. subst rc.
    induction Analyzer.ratingOrder as [|r l IH]; simpl; [lia|].
    pose proof (percentOf_nonneg (Aux.occ r (Analyzer.ratingsOf works))
                                 (Js.len works) (occ_nonneg _ _) Hpos).
    change (fold_right Z.add 0 ?x) with (Aux.sumZ x). lia.
  - intros Hall.
    assert (Hsum : Aux.sumZ rc = Js.len works).
    { apply Hocc'. unfold Analyzer.ratingsOf.
      apply Forall_map. exact Hall. }
    nia.
Qed.

Lemma percent_sums_bounds_witness :
  exists stats,
    Analyzer.analyze Sample.threeWorks = Analyzer.Populated stats
    /\ 98 <= Aux.sumZ (map Analyzer.le_percent (Analyzer.lengthDistribution stats))
          <= 103
    /\ 0 <= Aux.sumZ (map Analyzer.re_percent (Analyzer.ratingBreakdown stats))
         <= 102
    /\ (Forall (fun w => In (Js.str_or (rating w) "Unknown") Analyzer.ratingOrder)
               Sample.threeWorks ->
        98 <= Aux.sumZ (map Analyzer.re_percent (Analyzer.ratingBreakdown stats))).
Proof.
  apply (percent_sums_bounds Sample.threeWorks). discriminate.
Defined.

(** With eight works, shares of one eighth round from 12.5 up to 13: both
    breakdowns sum to 102. *)
Example eightWorks_percent_sums :
  Aux.sumZ (map Analyzer.re_percent (Analyzer.ratingBreakdownOf Sample.eightWorks))
  = 102
  /\ Aux.sumZ (map Analyzer.le_percent
                   (Analyzer.lengthDistributionOf Sample.eightWorks)) = 102.
Proof. split; vm_compute; reflexivity. Qed.

(** Works without a rating are in no entry of the rating breakdown: its
    percentages sum to 0. *)
Example unrated_percent_sum :
  Aux.sumZ (map Analyzer.re_percent (Analyzer.ratingBreakdownOf Sample.unrated))
  = 0.
Proof. vm_compute. reflexivity. Qed.

(** C5 as stated fails: there is a non-empty collection whose rating
    percentages, and whose length percentages, do not sum to 100 within 1. *)
Lemma percent_sums_counterexample :
  ~ (forall works stats,
        works <> [] ->
        Analyzer.analyze works = Analyzer.Populated stats ->
        99 <= Aux.sumZ (map Analyzer.re_percent (Analyzer.ratingBreakdown stats))
           <= 101
        /\ 99 <= Aux.sumZ (map Analyzer.le_percent
                               (Analyzer.lengthDistribution stats)) <= 101).
Proof.
  intros Hclaim.
  assert (Hne : Sample.eightWorks <> []) by discriminate.
  destruct (analyze_populated Sample.eightWorks Hne)
    as (stats & Hstats & Hrb & Hld & _).
  specialize (Hclaim _ _ Hne Hstats).
  rewrite Hrb, Hld in Hclaim.
  destruct eightWorks_percent_sums as [Hr Hl].
  rewrite Hr, Hl in Hclaim. lia.
Qed.


(** ** Facts about [sort] with a comparator [key b - key a] *)


Section SortFacts.
Import Js.
Context {A : Type} (key : A -> Z).

Let cmp (a b : A) : Z := key b - key a.
Let desc (a b : A) : Prop := key b <= key a.

Lemma insert_In (x y : A) (l : list A) :
  In y (insert cmp x l) <-> y = x \/ In y l.
Proof.
  induction l as [|z l IH]; simpl.
  - intuition.
  - destruct (cmp x z <=? 0); simpl; rewrite ?IH; intuition.
Qed.

Lemma sort_In (y : A) (l : list A) : In y (sort cmp l) <-> In y l.
Proof.
  induction l as [|x l IH]; simpl.
  - tauto.
  - rewrite insert_In, IH. intuition.
Qed.

Lemma insert_sorted (x : A) (l : list A) :
  StronglySorted desc l -> StronglySorted desc (insert cmp x l).
Proof.
  induction 1 as [|z l Hs IH Hall]; simpl.
  - repeat constructor.
  - destruct (Z.leb_spec (cmp x z) 0) as [Hle|Hgt].
    + constructor; [now constructor|].
      constructor; [unfold desc, cmp in *; lia|].
      eapply Forall_impl; [|exact Hall].
      intros a Ha. unfold desc, cmp in *. lia.
    + constructor; [exact IH|].
      apply Forall_forall. intros a Ha.
      apply insert_In in Ha. destruct Ha as [->|Ha].
      * unfold desc, cmp in *. lia.
      * now apply (proj1 (Forall_forall _ _) Hall).
Qed.

Lemma sort_sorted (l : list A) : StronglySorted desc (sort cmp l).
Proof.
  induction l as [|x l IH]; simpl.
  - constructor.
  - now apply insert_sorted.
Qed.

(** The first element of the sorted array has the greatest key. *)
Lemma sort_head_max (l : list A) (h : A) :
  nth_error (sort cmp l) 0 = Some h ->
  In h l /\ forall x, In x l -> key x <= key h.
Proof.
  intros Hh. pose proof (sort_sorted l) as Hs.
  destruct (sort cmp l) as [|h' t] eqn:Hsort; [discriminate|].
  injection Hh as ->. split.
  - apply sort_In. rewrite Hsort. now left.
  - intros x Hx. apply sort_In in Hx. rewrite Hsort in Hx.
    inversion Hs as [|? ? _ Hall]; subst.
    destruct Hx as [<-|Hx]; [lia|].
    now apply (proj1 (Forall_forall _ _) Hall).
Qed.

Lemma sort_head_None (l : list A) :
  nth_error (sort cmp l) 0 = None -> l = [].
Proof.
  destruct l as [|x l]; [reflexivity|]. simpl.
  destruct (sort cmp l) as [|z t]; simpl; [discriminate|].
  destruct (cmp x z <=? 0); discriminate.
Qed.

Lemma firstn_sorted (n : nat) (l : list A) :
  StronglySorted desc l -> StronglySorted desc (firstn n l).
Proof.
  intros Hs. revert n. induction Hs as [|z l Hs IH Hall]; intros [|n]; simpl;
    try constructor.
  - apply IH.
  - apply Forall_forall. intros a Ha.
    apply (proj1 (Forall_forall _ _) Hall).
    revert Ha. clear. revert l. induction n as [|n IHn]; intros [|b l]; simpl;
      try tauto.
    intros [->|Ha]; [now left | right; now apply IHn].
Qed.

Lemma last_opt_snoc (l : list A) (z : A) : last_opt (l ++ [z])%list = Some z.
Proof. unfold last_opt. now rewrite rev_app_distr. Qed.

Lemma last_opt_Some (l : list A) (z : A) :
  last_opt l = Some z -> exists l', l = (l' ++ [z])%list.
Proof.
  unfold last_opt. intros H. destruct (rev l) as [|y t] eqn:Hrev; [discriminate|].
  injection H as ->. exists (rev t).
  rewrite <- (rev_involutive l), Hrev. reflexivity.
Qed.

Lemma last_opt_nonempty (l : list A) : l <> [] -> exists z, last_opt l = Some z.
Proof.
  intros Hne. unfold last_opt. destruct (rev l) as [|y t] eqn:Hrev.
  - exfalso. apply Hne. rewrite <- (rev_involutive l), Hrev. reflexivity.
  - now exists y.
Qed.

(** The last element of a sorted array has the least key. *)
Lemma sorted_last_min (l : list A) (z : A) :
  StronglySorted desc l -> last_opt l = Some z ->
  In z l /\ forall x, In x l -> key z <= key x.
Proof.
  intros Hs Hlast. destruct (last_opt_Some l z Hlast) as [l' ->].
  split; [apply in_or_app; right; now left|].
  clear Hlast. induction l' as [|a l' IH]; simpl in *.
  - intros x [<-|[]]. lia.
  - inversion Hs as [|? ? Hs' Hall]; subst.
    intros x [<-|Hx].
    + apply (proj1 (Forall_forall _ _) Hall z).
      apply in_or_app. right. now left.
    + now apply IH.
Qed.
End SortFacts.


(** ** Mood classification *)

Section Mood.
Import Js Aux Analyzer.

Lemma moodCounts_fold (works : list Work) : forall counts,
  fold_left
    (fun counts w =>
       let tags := freeformTags w in
       let hasFluff := hasMood fluffTags tags in
       let hasAngst := hasMood angstTags tags in
       ((if hasFluff then fst counts + 1 else fst counts),
        (if hasAngst then snd counts + 1 else snd counts)))
    works counts
  = (fst counts + fluffCountOf works, snd counts + angstCountOf works).
Proof.
  unfold fluffCountOf, angstCountOf.
  induction works as [|w works IH]; intros [f a].
  - simpl. unfold len. simpl. f_equal; lia.
  - simpl fold_left. rewrite IH. rewrite !len_filter_cons. cbn [fst snd].
    destruct (hasMood fluffTags (freeformTags w)),
             (hasMood angstTags (freeformTags w)); f_equal; lia.
Qed.

(** The two counters count the works with a fluff tag and the works with
    an angst tag. *)
Lemma moodCounts_counts (works : list Work) :
  moodCounts works = (fluffCountOf works, angstCountOf works).
Proof. unfold moodCounts. now rewrite moodCounts_fold. Qed.

End Mood.




(** With 23 fluff works and 17 angst works the share of fluff is 57.5
    percent: 57 and 58 are both nearest to it. *)
Example nearestPercent_of_a_half :
  Aux.nearestPercent 23 40 57 /\ Aux.nearestPercent 23 40 58
  /\ ~ Aux.nearestPercent 23 40 56 /\ ~ Aux.nearestPercent 23 40 59.
Proof. unfold Aux.nearestPercent. lia. Qed.


(** ** Rarest pair *)

Section RarestPair.
Import Js Aux Analyzer.

Lemma map_get_In {V : Type} (m : JsMap V) (k : string) (v : V) :
  NoDup (map fst m) -> In (k, v) m -> map_get k m = Some v.
Proof.
  induction m as [|[k' v'] m IH]; simpl; intros Hnd Hin; [contradiction|].
  inversion Hnd as [|? ? Hnotin Hnd']; subst.
  destruct Hin as [[= -> ->]|Hin].
  - now rewrite String.eqb_refl.
  - destruct (String.eqb_spec k k') as [->|Hne]; [|now apply IH].
    exfalso. apply Hnotin. apply in_map_iff. now exists (k', v).
Qed.

Lemma countOccurrences_counting (items : list string) :
  counting (countOccurrences items).
Proof.
  unfold countOccurrences.
  assert (H0 : counting []) by (split; constructor).
  revert H0. generalize (@nil (string * Z)).
  induction items as [|item items IH]; intros m Hm; simpl; [exact Hm|].
  apply IH. destruct (truthy item) eqn:Hitem; [|exact Hm].
  destruct Hm as [Hnd Hall]. split.
  - now apply map_set_NoDup.
  - apply Forall_forall. intros e He.
    destruct (map_set_In _ _ _ _ He) as [->|Hin]; [exact Hitem|].
    now apply (proj1 (Forall_forall _ _) Hall).
Qed.

(** Every entry of the counting map is a truthy string with the number of
    its occurrences. *)
Lemma countOccurrences_entry (items : list string) (k : string) (c : Z) :
  In (k, c) (countOccurrences items) ->
  truthy k = true /\ c = occ k items.
Proof.
  intros Hin. destruct (countOccurrences_counting items) as [Hnd Hall].
  assert (Hk : truthy k = true)
    by exact (proj1 (Forall_forall _ _) Hall (k, c) Hin).
  split; [exact Hk|].
  rewrite <- (countOf_countOccurrences items k Hk).
  unfold countOf. rewrite (map_get_In _ _ _ Hnd Hin).
  now rewrite num_or_zero.
Qed.

Lemma occ_In_pos (k : string) (items : list string) :
  In k items -> 1 <= occ k items.
Proof.
  induction items as [|x items IH]; [contradiction|].
  rewrite occ_cons. pose proof (occ_nonneg k items).
  intros [->|Hin].
  - rewrite String.eqb_refl. lia.
  - specialize (IH Hin). destruct (k =? x)%string; lia.
Qed.

Lemma countOccurrences_nonempty (items : list string) (k : string) :
  In k items -> truthy k = true -> countOccurrences items <> [].
Proof.
  intros Hin Hk Hnil.
  pose proof (countOf_countOccurrences items k Hk) as Hc.
  rewrite Hnil in Hc. unfold countOf in Hc. simpl in Hc.
  pose proof (occ_In_pos k items Hin). lia.
Qed.

Lemma firstn_In {A : Type} (n : nat) (l : list A) (x : A) :
  In x (firstn n l) -> In x l.
Proof.
  revert l. induction n as [|n IH]; intros [|a l]; simpl; try tauto.
  intros [->|Hin]; [now left | right; now apply IH].
Qed.

Lemma getTopN_In (m : JsMap Z) (limit : Z) (e : string * Z) :
  In e (getTopN m limit) -> In e m.
Proof.
  unfold getTopN, slice0, map_entries. intros Hin.
  apply firstn_In in Hin. exact (proj1 (sort_In snd e m) Hin).
Qed.

Lemma getTopN_nonempty (m : JsMap Z) : m <> [] -> getTopN m 10 <> [].
Proof.
  unfold getTopN, slice0, map_entries. intros Hne.
  destruct (sort (fun a b => snd b - snd a) m) as [|e l] eqn:Hsort.
  - exfalso. apply Hne. apply (sort_head_None snd). now rewrite Hsort.
  - discriminate.
Qed.

(** The last of the top ten has the least count of them. *)
Lemma getTopN_last_min (m : JsMap Z) (limit : Z) (z : string * Z) :
  last_opt (getTopN m limit) = Some z ->
  In z (getTopN m limit)
  /\ forall e, In e (getTopN m limit) -> snd z <= snd e.
Proof.
  unfold getTopN, slice0, map_entries.
  apply (sorted_last_min snd). apply firstn_sorted. apply sort_sorted.
Qed.

(** When no ship occurs exactly once there is no rare ship. *)
Lemma rareShips_none (works : list Work) :
  (forall t, truthy t = true -> occ t (flat_map relationships works) <> 1) ->
  rareShipsOf works = [].
Proof.
  intros Hnone. unfold rareShipsOf, shipCountsOf, map_entries.
  assert (Hall : forall e,
             In e (countOccurrences (flat_map relationships works)) ->
             (snd e =? 1) = false).
  { intros [k c] Hin. apply countOccurrences_entry in Hin.
    destruct Hin as [Hk ->]. simpl. apply Z.eqb_neq. now apply Hnone. }
  induction (countOccurrences (flat_map relationships works)) as [|e l IH].
  - reflexivity.
  - simpl. rewrite (Hall e) by now left.
    apply IH. intros e' He'. apply Hall. now right.
Qed.
End RarestPair.

(** C10. For every collection with at least one relationship tag (a
    non-empty string, which is what the aggregator counts) in which no
    relationship tag occurs exactly once, rarestPair is not null: it is the
    ship of the last entry of topShips, whose count is the least of the
    counts in topShips. Both revisions of analyze agree on this. *)
Theorem rarestPair_falls_back_to_last_top_ship (works : list Work) :
  (exists w t, In w works /\ In t (relationships w) /\ Js.truthy t = true) ->
  (forall t, Js.truthy t = true ->
             Aux.occ t (flat_map relationships works) <> 1) ->
  exists stats ship count,
    Analyzer.analyze works = Analyzer.Populated stats
    /\ Js.last_opt (Analyzer.topShips stats) = Some (ship, count)
    /\ Analyzer.rarestPair stats = Some ship
    /\ (forall e, In e (Analyzer.topShips stats) -> count <= snd e)
    /\ (forall random, AnalyzerJs.rarestPairOf random works = Some ship).
Proof.
  intros (w & t & Hw & Ht & Htruthy) Hnone.
  assert (Hne : works <> []) by (intros ->; contradiction).
  destruct (analyze_populated works Hne)
    as (stats & Hstats & _ & _ & _ & Hrarest & Htop & _).
  assert (Hships : Analyzer.shipCountsOf works <> []).
  { apply (countOccurrences_nonempty _ t); [|exact Htruthy].
    apply in_flat_map. now exists w. }
  destruct (last_opt_nonempty _ (getTopN_nonempty _ Hships)) as [[ship count] Hlast].
  destruct (getTopN_last_min _ _ _ Hlast) as [Hin Hmin].
  assert (Hship : Js.truthy ship = true).
  { apply getTopN_In in Hin.
    now apply countOccurrences_entry in Hin. }
  assert (Hfallback :
            Analyzer.lastShip (Analyzer.getTopN (Analyzer.shipCountsOf works) 10)
            = Some ship).
  { unfold Analyzer.lastShip. rewrite Hlast. simpl. now rewrite Hship. }
  exists stats, ship, count. split; [exact Hstats|].
  rewrite Htop, Hrarest. split; [exact Hlast|].
  unfold Analyzer.rarestPairOf, AnalyzerJs.rarestPairOf.
  rewrite (rareShips_none works Hnone). simpl.
  repeat split; auto.
Qed.

Lemma rarestPair_falls_back_witness :
  exists stats ship count,
    Analyzer.analyze Sample.sameShip = Analyzer.Populated stats
    /\ Js.last_opt (Analyzer.topShips stats) = Some (ship, count)
    /\ Analyzer.rarestPair stats = Some ship
    /\ (forall e, In e (Analyzer.topShips stats) -> count <= snd e)
    /\ (forall random, AnalyzerJs.rarestPairOf random Sample.sameShip = Some ship).
Proof.
  apply (rarestPair_falls_back_to_last_top_ship Sample.sameShip).
  - exists (Sample.work "1" (Some 1000) None ["A/B"] [] 1), "A/B".
    split; [simpl; now left|]. split; [simpl; now left | reflexivity].
  - intros t _. unfold Aux.occ. simpl.
    destruct (t =? "A/B")%string; simpl; discriminate.
Defined.

(** An empty string in [relationships] is not counted: when the only
    relationship tags are empty strings, topShips is empty and rarestPair
    is null. *)
Example rarestPair_of_empty_tags :
  match Analyzer.analyze Sample.emptyShips with
  | Analyzer.Populated stats =>
      Analyzer.topShips stats = [] /\ Analyzer.rarestPair stats = None
  | Analyzer.IsEmpty => False
  end.
Proof. vm_compute. split; reflexivity. Qed.


(** ** Bookmark statistics *)

Section BookmarkStats.
Import Js Aux Analyzer.

Lemma filter_none {A : Type} (f : A -> bool) (l : list A) :
  (forall x, In x l -> f x = false) -> filter f l = [].
Proof.
  induction l as [|a l IH]; simpl; intros H; [reflexivity|].
  rewrite (H a) by now left. apply IH. intros x Hx. apply H. now right.
Qed.

(** On harvested records the bookmark filters of analyze see no bookmark:
    nothing is counted as bookmarked, and the secret favorite is chosen
    among all the works visited twice or more. *)
Lemma bookmarkStatsOf_harvested (works : list Work) :
  works <> [] ->
  Forall harvested works ->
  bookmarkStatsOf works
  = {| totalBookmarks := 0;
       totalHistory :=
         len (filter (fun w => match visitCount w with
                               | Some n => n >? 0
                               | None => false
                               end) works);
       bookmarkRatio := 0;
       secretFavorite :=
         nth_error (sort (fun a b => visits b - visits a)
                         (filter (fun w => visits w >=? 2) works)) 0;
       personality :=
         mkPersonality "dangerous"
           "You live dangerously. Your memory is your bookmarks." |}.
Proof.
  intros Hne Hall. pose proof (len_pos works Hne) as Hpos.
  assert (Hsrc : forall w s, In w works ->
                   match source w with
                   | Some x => (x =? s)%string
                   | None => false
                   end = false).
  { intros w s Hw. destruct (proj1 (Forall_forall _ _) Hall w Hw) as [-> _].
    reflexivity. }
  assert (Hflag : forall w, In w works ->
                    match isBookmarked w with
                    | Some true => true
                    | _ => false
                    end = false).
  { intros w Hw. destruct (proj1 (Forall_forall _ _) Hall w Hw) as [_ ->].
    reflexivity. }
  unfold bookmarkStatsOf. cbv zeta.
  rewrite (filter_none
             (fun w => (match source w with
                        | Some x => (x =? "bookmark")%string
                        | None => false
                        end
                        || match isBookmarked w with
                           | Some true => true
                           | _ => false
                           end)%bool) works).
  2:{ intros w Hw. now rewrite Hsrc, Hflag. }
  change (len (@nil Work)) with 0.
  destruct (Z.gtb_spec (len works) 0) as [_|Hle]; [|lia].
  rewrite percentOf_zero by exact Hpos.
  f_equal; try reflexivity.
  - f_equal. apply filter_ext_in. intros w Hw. now rewrite Hsrc.
  - f_equal. f_equal. apply filter_ext_in. intros w Hw.
    rewrite Hsrc, Hflag by exact Hw. unfold visits.
    now rewrite !andb_true_r.
Qed.

Lemma reportsNoBookmarks_harvested (works : list Work) :
  Forall harvested works -> reportsNoBookmarks works.
Proof.
  intros Hall. unfold reportsNoBookmarks.
  destruct works as [|w0 works']; [reflexivity|].
  set (works := w0 :: works') in *.
  assert (Hne : works <> []) by discriminate.
  destruct (analyze_populated works Hne)
    as (stats & -> & _ & _ & _ & _ & _ & Hb).
  cbv zeta. rewrite Hb, (bookmarkStatsOf_harvested works Hne Hall).
  cbn [totalBookmarks bookmarkRatio personality p_type secretFavorite].
  repeat split.
  destruct (nth_error _ 0) as [favorite|] eqn:Hfav.
  - destruct (sort_head_max visits _ _ Hfav) as [Hin Hmax].
    apply filter_In in Hin. destruct Hin as [Hin Hvis].
    split; [exact Hin|]. split; [lia|].
    intros w Hw. destruct (Z.geb_spec (visits w) 2) as [Hge|Hlt]; [|lia].
    apply Hmax. apply filter_In. split; [exact Hw|].
    now apply Z.geb_le.
  - apply (sort_head_None visits) in Hfav.
    intros w Hw. destruct (Z.geb_spec (visits w) 2) as [Hge|Hlt]; [|lia].
    assert (Hin : In w (filter (fun w => visits w >=? 2) works)).
    { apply filter_In. split; [exact Hw | now apply Z.geb_le]. }
    rewrite Hfav in Hin. contradiction.
Qed.
End BookmarkStats.


(** ** Runs of the Harvester *)

Section MonadFacts.
Import Js Scraper Aux.

Lemma bind_Ok {A B : Type} (m : M A) (k : A -> M B) s a s1 :
  m s = (Ok a, s1) -> bind m k s = k a s1.
Proof. intros H. unfold bind. now rewrite H. Qed.

Lemma bind_Throw {A B : Type} (m : M A) (k : A -> M B) s e s1 :
  m s = (Throw e, s1) -> bind m k s = (Throw e, s1).
Proof. intros H. unfold bind. now rewrite H. Qed.

Lemma try_catch_Ok {A : Type} (m : M A) (h : string -> M A) s a s1 :
  m s = (Ok a, s1) -> try_catch m h s = (Ok a, s1).
Proof. intros H. unfold try_catch. now rewrite H. Qed.

Lemma try_catch_Throw {A : Type} (m : M A) (h : string -> M A) s e s1 :
  m s = (Throw e, s1) -> try_catch m h s = h e s1.
Proof. intros H. unfold try_catch. now rewrite H. Qed.

Lemma fetchUrl_run (env : Env) (url : string) (s : State) :
  fetchUrl env url s
  = (match env_fetch env (awaits s) url with
     | Resolved r => Ok r
     | Rejected e => Throw e
     end, fetched env s url).
Proof.
  unfold fetchUrl, fetched, bind, log, suspend. simpl.
  now destruct (env_fetch env (awaits s) url).
Qed.

Lemma delay_run (env : Env) (ms : Z) (s : State) :
  delay env ms s = (Ok tt, delayed env s ms).
Proof. reflexivity. Qed.

(** *** Quiet computations *)

Lemma checkedTrue_app (t1 t2 : list Event) :
  checkedTrue (t1 ++ t2)%list <-> checkedTrue t1 \/ checkedTrue t2.
Proof. unfold checkedTrue. apply in_app_iff. Qed.

Lemma quiet_ret {A : Type} (a : A) : Quiet (ret a).
Proof.
  intros s r s' [= <- <-]. exists []. rewrite app_nil_r. split; [reflexivity|].
  intros [].
Qed.

Lemma quiet_throw {A : Type} (e : string) : Quiet (@throw A e).
Proof.
  intros s r s' [= <- <-]. exists []. rewrite app_nil_r. split; [reflexivity|].
  intros [].
Qed.

Lemma quiet_log (e : Event) : e <> EvCheck true -> Quiet (log e).
Proof.
  intros He s r s' [= <- <-]. exists [e]. split; [reflexivity|].
  intros [Heq|[]]. now apply He.
Qed.

Lemma quiet_onProgress (p : ProgressEvent) : Quiet (onProgress p).
Proof. apply quiet_log. discriminate. Qed.

Lemma quiet_resetCancel : Quiet resetCancel.
Proof.
  intros s r s' [= <- <-]. exists []. simpl. rewrite app_nil_r.
  split; [reflexivity | intros []].
Qed.

Lemma quiet_delay (env : Env) (ms : Z) : Quiet (delay env ms).
Proof.
  intros s r s' H. rewrite delay_run in H. injection H as <- <-.
  exists [EvDelay ms]. split; [reflexivity|].
  intros [Heq|[]]. discriminate.
Qed.

Lemma quiet_fetchUrl (env : Env) (url : string) : Quiet (fetchUrl env url).
Proof.
  intros s r s' H. rewrite fetchUrl_run in H. injection H as <- <-.
  exists [EvFetch url]. split; [reflexivity|].
  intros [Heq|[]]. discriminate.
Qed.

Lemma quiet_bind {A B : Type} (m : M A) (k : A -> M B) :
  Quiet m -> (forall a, Quiet (k a)) -> Quiet (bind m k).
Proof.
  intros Hm Hk s r s' H. unfold bind in H.
  destruct (m s) as [[a|e] s1] eqn:Hms.
  - destruct (Hm _ _ _ Hms) as (t1 & Ht1 & Hq1).
    destruct (Hk a _ _ _ H) as (t2 & Ht2 & Hq2).
    exists (t1 ++ t2)%list. split.
    + now rewrite Ht2, Ht1, app_assoc.
    + rewrite checkedTrue_app. tauto.
  - injection H as <- <-. exact (Hm _ _ _ Hms).
Qed.

Lemma quiet_try_catch {A : Type} (m : M A) (h : string -> M A) :
  Quiet m -> (forall e, Quiet (h e)) -> Quiet (try_catch m h).
Proof.
  intros Hm Hh s r s' H. unfold try_catch in H.
  destruct (m s) as [[a|e] s1] eqn:Hms.
  - injection H as <- <-. exact (Hm _ _ _ Hms).
  - destruct (Hm _ _ _ Hms) as (t1 & Ht1 & Hq1).
    destruct (Hh e _ _ _ H) as (t2 & Ht2 & Hq2).
    exists (t1 ++ t2)%list. split.
    + now rewrite Ht2, Ht1, app_assoc.
    + rewrite checkedTrue_app. tauto.
Qed.

(** *** Computations that honour a cancellation check *)

Lemma quiet_safe {A : Type} (m : M A) : Quiet m -> CancelSafe m.
Proof.
  intros Hm s r s' H. destruct (Hm _ _ _ H) as (t & Ht & Hq).
  exists t. split; [exact Ht | intros Hc; contradiction].
Qed.

Lemma safe_bind {A B : Type} (m : M A) (k : A -> M B) :
  CancelSafe m -> (forall a, CancelSafe (k a)) -> CancelSafe (bind m k).
Proof.
  intros Hm Hk s r s' H. unfold bind in H.
  destruct (m s) as [[a|e] s1] eqn:Hms.
  - destruct (Hm _ _ _ Hms) as (t1 & Ht1 & Hc1).
    destruct (Hk a _ _ _ H) as (t2 & Ht2 & Hc2).
    exists (t1 ++ t2)%list. split.
    + now rewrite Ht2, Ht1, app_assoc.
    + rewrite checkedTrue_app. intros [Hc|Hc]; [|now apply Hc2].
      specialize (Hc1 Hc). discriminate.
  - injection H as <- <-. destruct (Hm _ _ _ Hms) as (t1 & Ht1 & Hc1).
    exists t1. split; [exact Ht1|].
    intros Hc. specialize (Hc1 Hc). congruence.
Qed.

(** The pattern [if (isCancelled()) throw new Error(...)]. *)
Lemma safe_check {A : Type} (k : M A) :
  CancelSafe k ->
  CancelSafe (bind isCancelled
                   (fun cancelled =>
                      if cancelled then throw cancelMessage else k)).
Proof.
  intros Hk s r s' H. unfold bind, isCancelled in H.
  destruct (cancelRequested s) eqn:Hflag.
  - injection H as <- <-. exists [EvCheck true]. simpl.
    split; reflexivity.
  - destruct (Hk _ _ _ H) as (t & Ht & Hc). simpl in Ht.
    exists (EvCheck false :: t). split.
    + now rewrite Ht, <- app_assoc.
    + intros [Heq|Hin]; [discriminate | now apply Hc].
Qed.

(** *** Partial correctness *)

Lemma yields_ret {A : Type} (P : A -> Prop) (a : A) : P a -> Yields P (ret a).
Proof. intros Ha s a' s' [= <- <-]. exact Ha. Qed.

Lemma yields_throw {A : Type} (P : A -> Prop) (e : string) :
  Yields P (@throw A e).
Proof. intros s a s' H. discriminate. Qed.

Lemma yields_bind {A B : Type} (P : A -> Prop) (Q : B -> Prop)
      (m : M A) (k : A -> M B) :
  Yields P m -> (forall a, P a -> Yields Q (k a)) -> Yields Q (bind m k).
Proof.
  intros Hm Hk s b s' H. unfold bind in H.
  destruct (m s) as [[a|e] s1] eqn:Hms; [|discriminate].
  exact (Hk a (Hm _ _ _ Hms) _ _ _ H).
Qed.

Lemma yields_any {A : Type} (m : M A) : Yields (fun _ => True) m.
Proof. intros s a s' _. exact I. Qed.

Lemma yields_try_catch {A : Type} (P : A -> Prop)
      (m : M A) (h : string -> M A) :
  Yields P m -> (forall e, Yields P (h e)) -> Yields P (try_catch m h).
Proof.
  intros Hm Hh s a s' H. unfold try_catch in H.
  destruct (m s) as [[a'|e] s1] eqn:Hms.
  - injection H as <- <-. exact (Hm _ _ _ Hms).
  - exact (Hh e _ _ _ H).
Qed.
(** *** The errors of a computation *)

Lemma throwsOnly_ret {A : Type} (P : string -> Prop) (a : A) :
  ThrowsOnly P (ret a).
Proof. intros s e s' H. discriminate. Qed.

Lemma throwsOnly_throw {A : Type} (P : string -> Prop) (e : string) :
  P e -> ThrowsOnly P (@throw A e).
Proof. intros He s e' s' [= <- <-]. exact He. Qed.

Lemma throwsOnly_log (P : string -> Prop) (ev : Event) : ThrowsOnly P (log ev).
Proof. intros s e s' H. discriminate. Qed.

Lemma throwsOnly_isCancelled (P : string -> Prop) : ThrowsOnly P isCancelled.
Proof. intros s e s' H. discriminate. Qed.

Lemma throwsOnly_delay (P : string -> Prop) (env : Env) (ms : Z) :
  ThrowsOnly P (delay env ms).
Proof. intros s e s' H. rewrite delay_run in H. discriminate. Qed.

Lemma throwsOnly_bind {A B : Type} (P : string -> Prop)
      (m : M A) (k : A -> M B) :
  ThrowsOnly P m -> (forall a, ThrowsOnly P (k a)) -> ThrowsOnly P (bind m k).
Proof.
  intros Hm Hk s e s' H. unfold bind in H.
  destruct (m s) as [[a|e'] s1] eqn:Hms.
  - exact (Hk a _ _ _ H).
  - injection H as <- <-. exact (Hm _ _ _ Hms).
Qed.

(** A [try] whose handler does not throw does not throw. *)
Lemma throwsOnly_try_catch {A : Type} (P : string -> Prop)
      (m : M A) (h : string -> M A) :
  (forall e, ThrowsOnly P (h e)) -> ThrowsOnly P (try_catch m h).
Proof.
  intros Hh s e s' H. unfold try_catch in H.
  destruct (m s) as [[a|e'] s1] eqn:Hms; [discriminate|].
  exact (Hh e' _ _ _ H).
Qed.
End MonadFacts.


(** ** Cancellation *)

Ltac quiet :=
  repeat first
    [ apply quiet_ret | apply quiet_throw | apply quiet_onProgress
    | apply quiet_resetCancel | apply quiet_delay | apply quiet_fetchUrl
    | apply quiet_bind; [|intros ?]
    | apply quiet_try_catch; [|intros ?]
    | match goal with
      | |- Aux.Quiet (if ?b then _ else _) => destruct b
      | |- Aux.Quiet (match ?x with _ => _ end) => destruct x
      end ].

Ltac cancel_safe :=
  repeat first
    [ apply quiet_safe; solve [quiet]
    | apply safe_check
    | apply safe_bind; [|intros ?]
    | match goal with
      | |- Aux.CancelSafe (if ?b then _ else _) => destruct b
      | |- Aux.CancelSafe (match ?x with _ => _ end) => destruct x
      end ].

Section Cancellation.
Import Js Scraper Aux.
Variable env : Env.

Lemma quiet_getPageCount url errorContext :
  Quiet (getPageCount env url errorContext).
Proof. unfold getPageCount. cbv zeta. quiet. Qed.

Lemma quiet_scrapeHistoryPage username pageNum :
  Quiet (scrapeHistoryPage env username pageNum).
Proof. unfold scrapeHistoryPage. quiet. Qed.

Lemma quiet_scrapeBookmarkPage username pageNum :
  Quiet (scrapeBookmarkPage env username pageNum).
Proof. unfold scrapeBookmarkPage. quiet. Qed.

Lemma quiet_fetchWorkMetadata id : Quiet (fetchWorkMetadata env id).
Proof. unfold fetchWorkMetadata. cbv zeta. quiet. Qed.

Lemma safe_historyPages username totalPages remaining :
  forall page allItems,
    CancelSafe (historyPages env username totalPages remaining page allItems).
Proof.
  induction remaining as [|remaining IH]; intros page allItems; simpl.
  - apply quiet_safe, quiet_ret.
  - apply safe_check. apply safe_bind; [apply quiet_safe, quiet_onProgress|].
    intros _. apply safe_bind;
      [apply quiet_safe, quiet_scrapeHistoryPage|].
    intros items. apply safe_bind; [apply quiet_safe; quiet|].
    intros _. apply IH.
Qed.

Lemma safe_bookmarkPages username offset totalPages remaining :
  forall page allItems,
    CancelSafe (bookmarkPages env username offset totalPages remaining
                              page allItems).
Proof.
  induction remaining as [|remaining IH]; intros page allItems; simpl.
  - apply quiet_safe, quiet_ret.
  - apply safe_check. apply safe_bind; [apply quiet_safe, quiet_onProgress|].
    intros _. apply safe_bind;
      [apply quiet_safe, quiet_scrapeBookmarkPage|].
    intros items. apply safe_bind; [apply quiet_safe; quiet|].
    intros _. apply IH.
Qed.

Lemma safe_scrapeReadingHistory username options :
  CancelSafe (scrapeReadingHistory env username options).
Proof.
  unfold scrapeReadingHistory, getHistoryPageCount. cbv zeta.
  apply safe_bind; [apply quiet_safe, quiet_resetCancel|]. intros _.
  apply safe_bind; [apply quiet_safe, quiet_onProgress|]. intros _.
  apply safe_bind; [apply quiet_safe, quiet_getPageCount|]. intros found.
  apply safe_bind; [apply quiet_safe, quiet_onProgress|]. intros _.
  apply safe_bind; [apply safe_historyPages|]. intros allItems.
  apply quiet_safe. quiet.
Qed.

Lemma safe_scrapeBookmarks username options offset :
  CancelSafe (scrapeBookmarks env username options offset).
Proof.
  unfold scrapeBookmarks, getBookmarkPageCount. cbv zeta.
  apply safe_bind; [apply quiet_safe, quiet_getPageCount|]. intros found.
  apply safe_bind; [apply quiet_safe, quiet_onProgress|]. intros _.
  apply safe_bind; [apply safe_bookmarkPages|]. intros allItems.
  apply quiet_safe. quiet.
Qed.

Lemma safe_enrichLoop total todo :
  forall done completed failed,
    CancelSafe (enrichLoop env total todo done completed failed).
Proof.
  induction todo as [|item rest IH]; intros done completed failed; simpl.
  - apply quiet_safe, quiet_ret.
  - apply safe_check. apply safe_bind; [apply quiet_safe, quiet_onProgress|].
    intros _. apply safe_bind.
    + apply quiet_safe. apply quiet_try_catch.
      * apply quiet_bind; [apply quiet_fetchWorkMetadata|].
        intros metadata. apply quiet_ret.
      * intros e. apply quiet_ret.
    + intros [item' failed']. cbv zeta.
      apply safe_bind; [apply quiet_safe; quiet|].
      intros _. apply IH.
Qed.

Lemma safe_enrichWithMetadata items :
  CancelSafe (enrichWithMetadata env items).
Proof. apply safe_enrichLoop. Qed.

Lemma safe_scrapeAllTry username source options :
  CancelSafe (scrapeAllTry env username source options).
Proof.
  unfold scrapeAllTry. cbv zeta.
  apply safe_bind.
  { destruct (_ || _)%bool;
      [apply safe_scrapeReadingHistory | apply quiet_safe, quiet_ret]. }
  intros allItems. apply safe_bind.
  { destruct (_ || _)%bool; [|apply quiet_safe, quiet_ret].
    apply safe_bind; [apply quiet_safe; quiet|]. intros _.
    apply safe_bind; [apply safe_scrapeBookmarks|]. intros bookmarkItems.
    apply quiet_safe. quiet. }
  intros allItems'.
  destruct (len allItems' =? 0); [apply quiet_safe, quiet_ret|].
  apply safe_bind; [apply quiet_safe, quiet_onProgress|]. intros _.
  apply safe_bind; [apply quiet_safe, quiet_delay|]. intros _.
  apply safe_bind; [apply safe_enrichWithMetadata|]. intros [items failed].
  apply quiet_safe. quiet.
Qed.

Lemma quiet_scrapeAllCatch e : Quiet (scrapeAllCatch e).
Proof. unfold scrapeAllCatch. quiet. Qed.
End Cancellation.



(** ** Concrete runs *)

Section Runs.
Import Js Scraper Aux.

(** The history-only run in the calm environment: the page count, page 1
    and the page of the one work. *)
Example history_run_fetches :
  fetchesOf (trace (snd (scrapeAll Sample.calmEnv "reader"
                                   (Sample.optionsFor "history")
                                   (start false))))
  = [ "https://archiveofourown.org/users/reader/readings";
      "https://archiveofourown.org/users/reader/readings?page=1";
      "https://archiveofourown.org/works/1?view_adult=true" ].
Proof. vm_compute. reflexivity. Qed.
End Runs.

(** The history-only run of the same environment has non-decreasing
    percent values: 0, 5, 30, 30, 30, 95. *)
Example history_run_percents :
  map Qred
      (Aux.percentsOf
         (Scraper.trace (snd (Scraper.scrapeAll Sample.calmEnv "reader"
                                                (Sample.optionsFor "history")
                                                (Scraper.start false)))))
  = [0; 5; 30; 30; 30; 95]%Q
  /\ Aux.nondecreasing
       (Aux.percentsOf
          (Scraper.trace (snd (Scraper.scrapeAll Sample.calmEnv "reader"
                                                 (Sample.optionsFor "history")
                                                 (Scraper.start false)))))
     = true.
Proof. split; vm_compute; reflexivity. Qed.


(** ** Enrichment *)

Ltac same_result :=
  match goal with
  | |- (Scraper.Ok (?a, ?b), ?s) = (Scraper.Ok (?a', ?b'), ?s) =>
      let Ha := fresh in
      let Hb := fresh in
      assert (Hb : b = b') by lia;
      assert (Ha : a = a') by (try rewrite <- app_assoc; reflexivity);
      exact (f_equal2 (fun x y => (Scraper.Ok (x, y), s)) Ha Hb)
  end.

Section Enrichment.
Import Js Scraper Aux.
Variable env : Env.

Lemma fetchWorkMetadata_run (id : string) (s : State) :
  fetchWorkMetadata env id s
  = (detailAt env (awaits s) id, fetched env s (workUrl id)).
Proof.
  unfold detailAt, fetchWorkMetadata, workUrl, bind.
  rewrite !fetchUrl_run. cbn [awaits].
  destruct (env_fetch env (awaits s) _) as [r|e]; [|reflexivity].
  destruct (negb (success r)); reflexivity.
Qed.

(** A detail fetch fails exactly when the fetch capability rejects or
    answers [success: false]. *)
Lemma failsAt_iff (k : nat) (id : string) :
  failsAt env k id = true
  <-> (exists e, env_fetch env k (workUrl id) = Rejected e)
      \/ (exists r, env_fetch env k (workUrl id) = Resolved r
                    /\ success r = false).
Proof.
  unfold failsAt, detailAt, fetchWorkMetadata, workUrl, bind.
  rewrite fetchUrl_run. cbn [awaits].
  destruct (env_fetch env k _) as [r|e].
  - destruct (success r) eqn:Hs; cbn.
    + split; [discriminate|].
      intros [[e He]|[r' [[= <-] Hr']]]; [discriminate | congruence].
    + split; [|reflexivity]. intros _. right. now exists r.
  - cbn. split; [|reflexivity]. intros _. left. now exists e.
Qed.

(** The metadata that a detail fetch returns is read off the page that
    the fetch capability answered with: assigned to a record of that
    work, it gives the record enriched by the page. *)
Lemma fetchWorkMetadata_page (id : string) (s s' : State)
      (metadata : Metadata) :
  fetchWorkMetadata env id s = (Ok metadata, s') ->
  exists r,
    env_fetch env (awaits s) (workUrl id) = Resolved r
    /\ success r = true
    /\ m_workId metadata = id
    /\ forall item, workId item = id ->
                    Props.enrichedBy (html r) item (assign item metadata).
Proof.
  unfold fetchWorkMetadata, bind. rewrite fetchUrl_run. fold (workUrl id).
  destruct (env_fetch env (awaits s) (workUrl id)) as [r|e]; [|discriminate].
  destruct (success r) eqn:Hsuccess; cbn [negb]; [|discriminate].
  cbv zeta. unfold ret. intros [= <- _].
  exists r. split; [reflexivity|]. split; [exact Hsuccess|].
  split; [reflexivity|]. intros item Hid.
  unfold Props.enrichedBy, Props.sameListing, Props.detailed,
    Props.numberOf, parsedNumber.
  repeat split; cbn; intros;
    repeat match goal with
           | H : ?x = _ |- context [match ?x with _ => _ end] => rewrite H
           end;
    try reflexivity; try congruence.
Qed.

Lemma detailAt_page (k : nat) (id : string) (metadata : Metadata) :
  detailAt env k id = Ok metadata ->
  exists r,
    env_fetch env k (workUrl id) = Resolved r
    /\ success r = true
    /\ m_workId metadata = id
    /\ forall item, workId item = id ->
                    Props.enrichedBy (html r) item (assign item metadata).
Proof.
  unfold detailAt. intros Hdetail.
  destruct (fetchWorkMetadata env id (mkState false k [])) as [r s'] eqn:Hrun.
  cbn [fst] in Hdetail. subst r.
  exact (fetchWorkMetadata_page id _ _ metadata Hrun).
Qed.

(** A detail page that is fetched with success gives metadata. *)
Lemma detailAt_success (k : nat) (id : string) (r : FetchResult) :
  env_fetch env k (workUrl id) = Resolved r -> success r = true ->
  exists metadata, detailAt env k id = Ok metadata.
Proof.
  intros Hfetch Hsuccess.
  unfold detailAt, fetchWorkMetadata, bind. rewrite fetchUrl_run.
  fold (workUrl id). cbn [awaits]. rewrite Hfetch, Hsuccess. cbn [negb].
  cbv zeta. unfold ret. cbn [fst]. eexists. reflexivity.
Qed.

(** One turn of the loop of [enrichWithMetadata], then the rest. *)
Lemma enrichLoop_run (total : Z) (todo : list Work) :
  forall done completed failed s,
    total = completed + len todo ->
    cancelRequested s = false ->
    (forall k, env_cancel env k = false) ->
    exists s',
      enrichLoop env total todo done completed failed s
      = (Ok ((done ++ enrichedFrom env (awaits s) todo)%list,
             failed + failuresFrom env (awaits s) todo), s')
      /\ cancelRequested s' = false.
Proof.
  induction todo as [|item rest IH];
    intros done completed failed s Htotal Hflag Hcalm.
  - simpl. exists s. rewrite app_nil_r, Z.add_0_r. now split.
  - cbn [enrichLoop enrichedFrom failuresFrom].
    unfold bind at 1. unfold isCancelled. rewrite Hflag.
    unfold bind at 1. unfold onProgress, log. cbn [cancelRequested awaits trace].
    unfold bind at 1. unfold try_catch. unfold bind at 1.
    rewrite fetchWorkMetadata_run. cbn [awaits].
    unfold enrichedItem, failsAt.
    set (s3 := fetched env _ _).
    assert (Hflag3 : cancelRequested s3 = false).
    { subst s3. unfold fetched. cbn [cancelRequested awaits].
      now rewrite Hcalm. }
    assert (Hawaits3 : awaits s3 = S (awaits s)) by reflexivity.
    rewrite len_cons in Htotal.
    destruct (detailAt env (awaits s) (workId item)) as [metadata|e];
      unfold ret at 1; cbv zeta.
    + destruct (Z.ltb_spec (completed + 1) total) as [Hlt|Hge].
      * unfold bind at 1. rewrite delay_run.
        assert (Hflag4 : cancelRequested (delayed env s3 RATE_LIMIT_MS) = false).
        { unfold delayed. cbn [cancelRequested]. now rewrite Hflag3, Hcalm. }
        assert (Htotal' : total = completed + 1 + len rest) by lia.
        destruct (IH (done ++ [assign item metadata])%list (completed + 1)
                     failed (delayed env s3 RATE_LIMIT_MS)
                     Htotal' Hflag4 Hcalm)
          as (s' & Hrun & Hflag').
        exists s'. split; [|exact Hflag'].
        rewrite Hrun. unfold delayed. cbn [awaits]. rewrite Hawaits3.
        replace (awaits s + 2)%nat with (S (S (awaits s))) by lia.
        same_result.
      * assert (Hrest : rest = []).
        { pose proof (len_nonneg rest). destruct rest; [reflexivity|].
          rewrite len_cons in Htotal. pose proof (len_nonneg rest). lia. }
        subst rest. unfold bind at 1. unfold ret at 1. cbn.
        exists s3. split; [|exact Hflag3].
        unfold ret. same_result.
    + destruct (Z.ltb_spec (completed + 1) total) as [Hlt|Hge].
      * unfold bind at 1. rewrite delay_run.
        assert (Hflag4 : cancelRequested (delayed env s3 RATE_LIMIT_MS) = false).
        { unfold delayed. cbn [cancelRequested]. now rewrite Hflag3, Hcalm. }
        assert (Htotal' : total = completed + 1 + len rest) by lia.
        destruct (IH (done ++ [item])%list (completed + 1)
                     (failed + 1) (delayed env s3 RATE_LIMIT_MS)
                     Htotal' Hflag4 Hcalm)
          as (s' & Hrun & Hflag').
        exists s'. split; [|exact Hflag'].
        rewrite Hrun. unfold delayed. cbn [awaits]. rewrite Hawaits3.
        replace (awaits s + 2)%nat with (S (S (awaits s))) by lia.
        same_result.
      * assert (Hrest : rest = []).
        { pose proof (len_nonneg rest). destruct rest; [reflexivity|].
          rewrite len_cons in Htotal. pose proof (len_nonneg rest). lia. }
        subst rest. unfold bind at 1. unfold ret at 1. cbn.
        exists s3. split; [|exact Hflag3].
        unfold ret. same_result.
Qed.

(** The only error of the loop is the one of its cancellation check: a
    detail fetch that fails is caught. *)
Lemma throwsOnly_enrichLoop (total : Z) (todo : list Work) :
  forall done completed failed,
    ThrowsOnly (eq cancelMessage)
               (enrichLoop env total todo done completed failed).
Proof.
  induction todo as [|item rest IH]; intros done completed failed; simpl.
  - apply throwsOnly_ret.
  - apply throwsOnly_bind; [apply throwsOnly_isCancelled|].
    intros cancelled. destruct cancelled;
      [now apply throwsOnly_throw|].
    apply throwsOnly_bind; [apply throwsOnly_log|]. intros _.
    apply throwsOnly_bind.
    + apply throwsOnly_try_catch. intros e. apply throwsOnly_ret.
    + intros [item' failed']. cbv zeta.
      apply throwsOnly_bind.
      * destruct (_ <? _); [apply throwsOnly_delay | apply throwsOnly_ret].
      * intros _. apply IH.
Qed.
End Enrichment.

Section EnrichmentPositions.
Import Js Scraper Aux.
Variable env : Env.

Lemma enrichedFrom_length (items : list Work) : forall k,
  List.length (enrichedFrom env k items) = List.length items.
Proof.
  induction items as [|item rest IH]; intros k; simpl; [reflexivity|].
  now rewrite IH.
Qed.

Lemma enrichedFrom_nth (items : list Work) : forall k i item,
  nth_error items i = Some item ->
  nth_error (enrichedFrom env k items) i
  = Some (enrichedItem env (k + 2 * i) item).
Proof.
  induction items as [|x rest IH]; intros k [|i] item; simpl;
    try discriminate.
  - intros [= ->]. now rewrite Nat.add_0_r.
  - intros Hnth. rewrite (IH (k + 2)%nat i item Hnth).
    do 2 f_equal. lia.
Qed.

Lemma filter_map_comm {A B : Type} (f : B -> bool) (g : A -> B) (l : list A) :
  filter f (map g l) = map g (filter (fun x => f (g x)) l).
Proof.
  induction l as [|a l IH]; simpl; [reflexivity|].
  destruct (f (g a)); simpl; now rewrite IH.
Qed.

(** The failure counter is the number of failing positions. *)
Lemma failuresFrom_positions (items : list Work) : forall k,
  failuresFrom env k items = len (failingPositions env k items).
Proof.
  unfold failingPositions.
  induction items as [|item rest IH]; intros k; [reflexivity|].
  cbn [failuresFrom List.length]. rewrite IH.
  rewrite <- cons_seq, <- seq_shift. cbn [filter nth_error].
  rewrite Nat.mul_0_r, Nat.add_0_r, filter_map_comm.
  assert (Hshift :
    filter (fun i => match nth_error (item :: rest) (S i) with
                     | Some item0 => failsAt env (k + 2 * S i) (workId item0)
                     | None => false
                     end) (seq 0 (List.length rest))
    = filter (fun i => match nth_error rest i with
                       | Some item0 => failsAt env (k + 2 + 2 * i) (workId item0)
                       | None => false
                       end) (seq 0 (List.length rest))).
  { apply filter_ext. intros i. cbn [nth_error].
    replace (k + 2 * S i)%nat with (k + 2 + 2 * i)%nat by lia. reflexivity. }
  rewrite Hshift.
  destruct (failsAt env k (workId item)).
  - rewrite len_cons. unfold len. now rewrite length_map.
  - unfold len. rewrite length_map. lia.
Qed.
End EnrichmentPositions.

Lemma numberOf_unique (el : option (option Z)) (v1 v2 : option Z) :
  Props.numberOf el v1 -> Props.numberOf el v2 -> v1 = v2.
Proof.
  intros [Hsome1 Hnone1] [Hsome2 Hnone2]. destruct el as [n|].
  - now rewrite (Hsome1 n eq_refl), (Hsome2 n eq_refl).
  - now rewrite (Hnone1 eq_refl), (Hnone2 eq_refl).
Qed.

(** The fields of a record enriched by a page are fixed by the record of
    the listing and the page. *)
Lemma enrichedBy_unique (doc : Scraper.Document) (w w1 w2 : Work) :
  Props.enrichedBy doc w w1 -> Props.enrichedBy doc w w2 -> w1 = w2.
Proof.
  unfold Props.enrichedBy, Props.sameListing, Props.detailed.
  intros ((Hid1 & Hti1 & Hau1 & Hvi1 & Hla1 & Hib1) & Hs1 & Hb1 & Hr1 & Hu1
          & Hw1 & Hf1 & Hrel1 & Hc1 & Ht1 & Hst1 & Hno1)
         ((Hid2 & Hti2 & Hau2 & Hvi2 & Hla2 & Hib2) & Hs2 & Hb2 & Hr2 & Hu2
          & Hw2 & Hf2 & Hrel2 & Hc2 & Ht2 & Hst2 & Hno2).
  assert (Hrating : rating w1 = rating w2).
  { destruct (Scraper.d_ratingTag doc) as [r|].
    - now rewrite (Hr1 r eq_refl), (Hr2 r eq_refl).
    - now rewrite (Hu1 eq_refl), (Hu2 eq_refl). }
  clear Hr1 Hu1 Hr2 Hu2.
  assert (Hstats : wordCount w1 = wordCount w2 /\ chapters w1 = chapters w2
                   /\ kudos w1 = kudos w2 /\ bookmarks w1 = bookmarks w2
                   /\ hits w1 = hits w2
                   /\ datePublished w1 = datePublished w2
                   /\ dateUpdated w1 = dateUpdated w2
                   /\ complete w1 = complete w2).
  { destruct (Scraper.d_stats doc) as [stats|].
    - destruct (Hst1 stats eq_refl)
        as (Ha1 & Hb1' & Hc1' & Hd1 & He1 & Hf1' & Hg1 & Hyes1 & Hnot1).
      destruct (Hst2 stats eq_refl)
        as (Ha2 & Hb2' & Hc2' & Hd2 & He2 & Hf2' & Hg2 & Hyes2 & Hnot2).
      rewrite (numberOf_unique _ _ _ Ha1 Ha2), (numberOf_unique _ _ _ Hc1' Hc2'),
              (numberOf_unique _ _ _ Hd1 Hd2), (numberOf_unique _ _ _ He1 He2),
              Hb1', Hb2', Hf1', Hf2', Hg1, Hg2.
      repeat (split; [reflexivity|]).
      destruct (Scraper.s_chapters stats) as [chapText|].
      + now rewrite (Hyes1 _ eq_refl), (Hyes2 _ eq_refl).
      + now rewrite (Hnot1 eq_refl), (Hnot2 eq_refl).
    - destruct (Hno1 eq_refl) as (Ha1 & Hb1' & Hc1' & Hd1 & He1 & Hf1' & Hg1 & Hh1).
      destruct (Hno2 eq_refl) as (Ha2 & Hb2' & Hc2' & Hd2 & He2 & Hf2' & Hg2 & Hh2).
      rewrite Ha1, Ha2, Hb1', Hb2', Hc1', Hc2', Hd1, Hd2, He1, He2,
              Hf1', Hf2', Hg1, Hg2, Hh1, Hh2.
      repeat split. }
  clear Hst1 Hno1 Hst2 Hno2.
  destruct Hstats as (Hwc & Hch & Hku & Hbo & Hhi & Hdp & Hdu & Hco).
  rewrite <- Hid2 in Hid1. rewrite <- Hti2 in Hti1. rewrite <- Hau2 in Hau1.
  rewrite <- Hvi2 in Hvi1. rewrite <- Hla2 in Hla1. rewrite <- Hib2 in Hib1.
  rewrite <- Hs2 in Hs1. rewrite <- Hb2 in Hb1. rewrite <- Hw2 in Hw1.
  rewrite <- Hf2 in Hf1. rewrite <- Hrel2 in Hrel1. rewrite <- Hc2 in Hc1.
  rewrite <- Ht2 in Ht1.
  clear Hid2 Hti2 Hau2 Hvi2 Hla2 Hib2 Hs2 Hb2 Hw2 Hf2 Hrel2 Hc2 Ht2.
  destruct w1, w2. cbn in *. subst. reflexivity.
Qed.

(** C3. A detail fetch that fails never aborts the batch: the only error
    that enrichWithMetadata can throw is the one of its cancellation check.
    And when no cancellation is requested, for every collection and every
    set of failing detail fetches, enrichWithMetadata returns: the failure
    counter is the number of positions whose detail fetch fails, the record
    at such a position is left as the listing gave it, and the record at
    every other position is fully enriched: it keeps the workId, title,
    authors, visitCount, lastVisited and isBookmark of the listing and
    carries the rating, warnings, fandoms, relationships, characters,
    freeform tags, word count, chapters, kudos, bookmarks, hits, dates and
    completion that its detail page shows. A detail fetch fails when the
    fetch capability rejects or answers success:false, and every other
    detail fetch answers with a page. *)
Theorem enrichWithMetadata_partial_failures
        (env : Scraper.Env) (items : list Work) (s : Scraper.State) :
  (forall e s',
      Scraper.enrichWithMetadata env items s = (Scraper.Throw e, s') ->
      e = "Scraping cancelled by user")
  /\ (Scraper.cancelRequested s = false ->
      (forall k, Scraper.env_cancel env k = false) ->
      exists items' failed s',
        Scraper.enrichWithMetadata env items s
        = (Scraper.Ok (items', failed), s')
        /\ List.length items' = List.length items
        /\ failed = Js.len (Aux.failingPositions env (Scraper.awaits s) items)
        /\ (forall i item,
              nth_error items i = Some item ->
              (Aux.failsAt env (Scraper.awaits s + 2 * i) (workId item) = true ->
               nth_error items' i = Some item)
              /\ (forall metadata,
                    Aux.detailAt env (Scraper.awaits s + 2 * i) (workId item)
                    = Scraper.Ok metadata ->
                    nth_error items' i = Some (assign item metadata))
              /\ (forall r,
                    Scraper.env_fetch env (Scraper.awaits s + 2 * i)
                                      (Aux.workUrl (workId item))
                    = Scraper.Resolved r ->
                    Scraper.success r = true ->
                    exists item',
                      nth_error items' i = Some item'
                      /\ Props.enrichedBy (Scraper.html r) item item'))
        /\ (forall k id,
              Aux.failsAt env k id = true
              <-> (exists e, Scraper.env_fetch env k (Aux.workUrl id)
                             = Scraper.Rejected e)
                  \/ (exists r, Scraper.env_fetch env k (Aux.workUrl id)
                                = Scraper.Resolved r
                                /\ Scraper.success r = false))).
Proof.
  split.
  { intros e s' Hrun. symmetry.
    exact (throwsOnly_enrichLoop env _ _ _ _ _ _ _ _ Hrun). }
  intros Hflag Hcalm. unfold Scraper.enrichWithMetadata.
  destruct (enrichLoop_run env (Js.len items) items [] 0 0 s
                           ltac:(lia) Hflag Hcalm) as (s' & Hrun & _).
  exists (Aux.enrichedFrom env (Scraper.awaits s) items),
         (Aux.failuresFrom env (Scraper.awaits s) items), s'.
  split; [exact Hrun|].
  split; [apply enrichedFrom_length|].
  split; [apply failuresFrom_positions|].
  split; [|apply failsAt_iff].
  intros i item Hnth.
  rewrite (enrichedFrom_nth env items _ i item Hnth).
  unfold Aux.enrichedItem, Aux.failsAt.
  split; [|split].
  - destruct (Aux.detailAt env _ _); [discriminate | reflexivity].
  - intros metadata ->. reflexivity.
  - intros r Hfetch Hsuccess.
    destruct (detailAt_success env _ _ r Hfetch Hsuccess) as [metadata Hdetail].
    rewrite Hdetail. exists (assign item metadata). split; [reflexivity|].
    destruct (detailAt_page env _ _ metadata Hdetail)
      as (r' & Hfetch' & _ & _ & Hpage).
    rewrite Hfetch in Hfetch'. injection Hfetch' as <-.
    now apply Hpage.
Qed.

Lemma enrichWithMetadata_partial_failures_witness :
  exists items' failed s',
    Scraper.enrichWithMetadata
      (Sample.flakyEnv (fun k => (k =? 0)%nat))
      [Sample.historyRow "1" 1; Sample.historyRow "2" 2]
      (Scraper.start false)
    = (Scraper.Ok (items', failed), s')
    /\ List.length items' = 2%nat
    /\ failed = 1
    /\ nth_error items' 0 = Some (Sample.historyRow "1" 1)
    /\ (forall metadata,
          Aux.detailAt (Sample.flakyEnv (fun k => (k =? 0)%nat)) 2 "2"
          = Scraper.Ok metadata ->
          nth_error items' 1 = Some (assign (Sample.historyRow "2" 2) metadata))
    /\ (exists item',
          nth_error items' 1 = Some item'
          /\ Props.enrichedBy (Sample.page ["1"] ["1"; "2"])
                              (Sample.historyRow "2" 2) item').
Proof.
  destruct (proj2 (enrichWithMetadata_partial_failures
                     (Sample.flakyEnv (fun k => (k =? 0)%nat))
                     [Sample.historyRow "1" 1; Sample.historyRow "2" 2]
                     (Scraper.start false)) eq_refl (fun _ => eq_refl))
    as (items' & failed & s' & Hrun & Hlen & Hfailed & Hpos & _).
  exists items', failed, s'.
  split; [exact Hrun|]. split; [exact Hlen|]. split; [exact Hfailed|].
  split; [|split].
  - exact (proj1 (Hpos 0%nat _ eq_refl) eq_refl).
  - exact (proj1 (proj2 (Hpos 1%nat _ eq_refl))).
  - exact (proj2 (proj2 (Hpos 1%nat _ eq_refl))
                 (Scraper.mkFetchResult true (Sample.page ["1"] ["1"; "2"])
                                        "HTTP 404: Not Found")
                 eq_refl eq_refl).
Defined.

(** The enriched record of the sample run carries the rating and the
    statistics of the detail page, where the listing had none. *)
Example enriched_record_carries_page_fields :
  match fst (Scraper.enrichWithMetadata
               (Sample.flakyEnv (fun k => (k =? 0)%nat))
               [Sample.historyRow "1" 1; Sample.historyRow "2" 2]
               (Scraper.start false)) with
  | Scraper.Ok ([first; second], failed) =>
      rating first = None /\ fandoms first = ["Fandom"]
      /\ rating second = Some "Unknown" /\ fandoms second = []
      /\ visitCount second = Some 2 /\ failed = 1
  | _ => False
  end.
Proof. vm_compute. repeat split. Qed.


(** ** The records that the Harvester returns *)

Section Harvested.
Import Js Scraper Aux.
Variable env : Env.

Lemma harvested_set_isBookmark w v :
  harvested w -> harvested (set_isBookmark w v).
Proof. intros H. exact H. Qed.

Lemma harvested_assign w m : harvested w -> harvested (assign w m).
Proof. intros H. exact H. Qed.

Lemma harvested_parseRows (parse : Blurb -> option Work) (rows : list Blurb) :
  (forall b w, parse b = Some w -> harvested w) ->
  Forall harvested (parseRows parse rows).
Proof.
  intros Hparse. unfold parseRows.
  assert (Hfold : forall parsed,
             Forall harvested parsed ->
             Forall harvested
               (fold_left
                  (fun parsed item =>
                     match parse item with
                     | Some x => (parsed ++ [x])%list
                     | None => parsed
                     end)
                  rows parsed)).
  { induction rows as [|b rows IH]; intros parsed Hparsed; simpl.
    - exact Hparsed.
    - apply IH. destruct (parse b) as [w|] eqn:Hb; [|exact Hparsed].
      apply Forall_app. split; [exact Hparsed|].
      constructor; [now apply (Hparse b) | constructor]. }
  apply Hfold. constructor.
Qed.

Lemma harvested_parseHistoryItem b w :
  parseHistoryItem b = Some w -> harvested w.
Proof.
  unfold parseHistoryItem. destruct (b_workId b); [|discriminate].
  intros [= <-]. split; reflexivity.
Qed.

Lemma harvested_parseBookmarkItem b w :
  parseBookmarkItem b = Some w -> harvested w.
Proof.
  unfold parseBookmarkItem. destruct (b_workId b); [|discriminate].
  intros [= <-]. split; reflexivity.
Qed.

Lemma map_get_Some_In {V : Type} (m : JsMap V) (k : string) (v : V) :
  map_get k m = Some v -> In (k, v) m.
Proof.
  induction m as [|[k' v'] m IH]; simpl; [discriminate|].
  destruct (String.eqb_spec k k') as [->|Hne].
  - intros [= ->]. now left.
  - intros H. right. now apply IH.
Qed.

Lemma harvested_mergeItems (h b : list Work) :
  Forall harvested h -> Forall harvested b ->
  Forall harvested (mergeItems h b).
Proof.
  intros Hh Hb. rewrite mergeItems_unfold. unfold map_values.
  apply Forall_map.
  assert (Hfold : forall (step : JsMap Work -> Work -> JsMap Work) l,
             (forall m w, Forall (fun e => harvested (snd e)) m ->
                          harvested w ->
                          Forall (fun e => harvested (snd e)) (step m w)) ->
             Forall harvested l ->
             forall m, Forall (fun e => harvested (snd e)) m ->
                       Forall (fun e => harvested (snd e)) (fold_left step l m)).
  { intros step l Hstep Hl. induction Hl as [|w l Hw Hl IH]; intros m Hm.
    - exact Hm.
    - simpl. apply IH. now apply Hstep. }
  assert (Hset : forall m k v,
             Forall (fun e => harvested (snd e)) m -> harvested v ->
             Forall (fun e : string * Work => harvested (snd e))
                    (map_set k v m)).
  { intros m k v Hm Hv. apply Forall_forall. intros e He.
    destruct (map_set_In _ _ _ _ He) as [->|Hin]; [exact Hv|].
    now apply (proj1 (Forall_forall _ _) Hm). }
  apply Hfold; [|exact Hb|].
  - intros m w Hm Hw. unfold addBookmark, map_has.
    destruct (map_get (workId w) m) as [existing|] eqn:Hget.
    + apply Hset; [exact Hm|]. apply harvested_set_isBookmark.
      apply map_get_Some_In in Hget.
      exact (proj1 (Forall_forall _ _) Hm _ Hget).
    + now apply Hset.
  - apply Hfold; [|exact Hh|constructor].
    intros m w Hm Hw. now apply Hset.
Qed.

Lemma Forall_filter {A : Type} (P : A -> Prop) (f : A -> bool) (l : list A) :
  Forall P l -> Forall P (filter f l).
Proof.
  intros H. apply Forall_forall. intros x Hx. apply filter_In in Hx.
  exact (proj1 (Forall_forall _ _) H x (proj1 Hx)).
Qed.

Lemma yields_scrapeHistoryPage username pageNum :
  Yields (Forall harvested) (scrapeHistoryPage env username pageNum).
Proof.
  unfold scrapeHistoryPage.
  apply (yields_bind (fun _ => True)); [apply yields_any|].
  intros result _. destruct (negb (success result)); [apply yields_throw|].
  apply yields_ret. apply harvested_parseRows.
  exact harvested_parseHistoryItem.
Qed.

Lemma yields_scrapeBookmarkPage username pageNum :
  Yields (Forall harvested) (scrapeBookmarkPage env username pageNum).
Proof.
  unfold scrapeBookmarkPage.
  apply (yields_bind (fun _ => True)); [apply yields_any|].
  intros result _. destruct (negb (success result)); [apply yields_throw|].
  apply yields_ret. apply harvested_parseRows.
  exact harvested_parseBookmarkItem.
Qed.

Lemma yields_historyPages username totalPages remaining :
  forall page allItems,
    Forall harvested allItems ->
    Yields (Forall harvested)
           (historyPages env username totalPages remaining page allItems).
Proof.
  induction remaining as [|remaining IH]; intros page allItems Hall; simpl.
  - now apply yields_ret.
  - apply (yields_bind (fun _ => True)); [apply yields_any|].
    intros cancelled _. destruct cancelled; [apply yields_throw|].
    apply (yields_bind (fun _ => True)); [apply yields_any|]. intros _ _.
    apply (yields_bind (Forall harvested));
      [apply yields_scrapeHistoryPage|].
    intros items Hitems.
    apply (yields_bind (fun _ => True)); [apply yields_any|]. intros _ _.
    apply IH. apply Forall_app. now split.
Qed.

Lemma yields_bookmarkPages username offset totalPages remaining :
  forall page allItems,
    Forall harvested allItems ->
    Yields (Forall harvested)
           (bookmarkPages env username offset totalPages remaining
                          page allItems).
Proof.
  induction remaining as [|remaining IH]; intros page allItems Hall; simpl.
  - now apply yields_ret.
  - apply (yields_bind (fun _ => True)); [apply yields_any|].
    intros cancelled _. destruct cancelled; [apply yields_throw|].
    apply (yields_bind (fun _ => True)); [apply yields_any|]. intros _ _.
    apply (yields_bind (Forall harvested));
      [apply yields_scrapeBookmarkPage|].
    intros items Hitems.
    apply (yields_bind (fun _ => True)); [apply yields_any|]. intros _ _.
    apply IH. apply Forall_app. now split.
Qed.

Lemma yields_scrapeReadingHistory username options :
  Yields (Forall harvested) (scrapeReadingHistory env username options).
Proof.
  unfold scrapeReadingHistory. cbv zeta.
  apply (yields_bind (fun _ => True)); [apply yields_any|]. intros _ _.
  apply (yields_bind (fun _ => True)); [apply yields_any|]. intros _ _.
  apply (yields_bind (fun _ => True)); [apply yields_any|]. intros found _.
  apply (yields_bind (fun _ => True)); [apply yields_any|]. intros _ _.
  apply (yields_bind (Forall harvested)).
  { apply yields_historyPages. constructor. }
  intros allItems Hall.
  destruct (_ =? _)%string; apply yields_ret;
    [now apply Forall_filter | exact Hall].
Qed.

Lemma yields_scrapeBookmarks username options offset :
  Yields (Forall harvested) (scrapeBookmarks env username options offset).
Proof.
  unfold scrapeBookmarks. cbv zeta.
  apply (yields_bind (fun _ => True)); [apply yields_any|]. intros found _.
  apply (yields_bind (fun _ => True)); [apply yields_any|]. intros _ _.
  apply (yields_bind (Forall harvested)).
  { apply yields_bookmarkPages. constructor. }
  intros allItems Hall.
  destruct (_ =? _)%string; apply yields_ret;
    [now apply Forall_filter | exact Hall].
Qed.

Lemma yields_enrichLoop total todo :
  forall done completed failed,
    Forall harvested todo -> Forall harvested done ->
    Yields (fun r => Forall harvested (fst r))
           (enrichLoop env total todo done completed failed).
Proof.
  induction todo as [|item rest IH];
    intros done completed failed Htodo Hdone; simpl.
  - now apply yields_ret.
  - inversion Htodo as [|? ? Hitem Hrest]; subst.
    apply (yields_bind (fun _ => True)); [apply yields_any|].
    intros cancelled _. destruct cancelled; [apply yields_throw|].
    apply (yields_bind (fun _ => True)); [apply yields_any|]. intros _ _.
    apply (yields_bind (fun r : Work * Z => harvested (fst r))).
    + apply yields_try_catch.
      * apply (yields_bind (fun _ => True)); [apply yields_any|].
        intros metadata _. apply yields_ret. simpl.
        now apply harvested_assign.
      * intros e. now apply yields_ret.
    + intros [item' failed'] Hitem'. cbv zeta.
      apply (yields_bind (fun _ => True)); [apply yields_any|]. intros _ _.
      apply IH; [exact Hrest|]. apply Forall_app. split; [exact Hdone|].
      constructor; [exact Hitem' | constructor].
Qed.

(** Every record of a successful result is a harvested record. *)
Lemma yields_scrapeAll username options :
  Yields (fun result => match result with
                        | Success items _ _ _ => Forall harvested items
                        | _ => True
                        end)
         (scrapeAll env username options).
Proof.
  unfold scrapeAll. cbv zeta.
  apply (yields_bind (fun _ => True)); [apply yields_any|]. intros _ _.
  apply yields_try_catch.
  - unfold scrapeAllTry. cbv zeta.
    apply (yields_bind (Forall harvested)).
    { destruct (_ || _)%bool;
        [apply yields_scrapeReadingHistory | apply yields_ret; constructor]. }
    intros allItems Hall.
    apply (yields_bind (Forall harvested)).
    { destruct (_ || _)%bool; [|now apply yields_ret].
      apply (yields_bind (fun _ => True)); [apply yields_any|]. intros _ _.
      apply (yields_bind (Forall harvested));
        [apply yields_scrapeBookmarks|].
      intros bookmarkItems Hbook.
      destruct (_ =? _)%string; apply yields_ret;
        [now apply harvested_mergeItems | exact Hbook]. }
    intros allItems' Hall'.
    destruct (len allItems' =? 0); [apply yields_ret; constructor|].
    apply (yields_bind (fun _ => True)); [apply yields_any|]. intros _ _.
    apply (yields_bind (fun _ => True)); [apply yields_any|]. intros _ _.
    apply (yields_bind (fun r : list Work * Z => Forall harvested (fst r))).
    { apply yields_enrichLoop; [exact Hall' | constructor]. }
    intros [items failed] Hitems.
    apply (yields_bind (fun _ => True)); [apply yields_any|]. intros _ _.
    apply yields_ret. exact Hitems.
  - intros e. unfold scrapeAllCatch.
    destruct (includes e "cancelled"); now apply yields_ret.
Qed.
End Harvested.

(** C9. The Harvester marks a bookmarked record with isBookmark, and
    analyze looks at source and isBookmarked. So for the items of every
    successful result of scrapeAll, analyze (which reports the empty
    sentinel only for no items at all) reports totalBookmarks = 0,
    bookmarkRatio = 0 and the personality "dangerous", and its
    secretFavorite is a work with the highest visit count among all the
    works visited twice or more, bookmarked or not (none if no work is
    visited twice). *)
Theorem bookmarkStats_blind_to_isBookmark
        (env : Scraper.Env) (username : string) (options : Scraper.Options)
        (s s' : Scraper.State)
        (items : list Work) (totalWorks failed : Z) (message : string) :
  Scraper.scrapeAll env username options s
  = (Scraper.Ok (Scraper.Success items totalWorks failed message), s') ->
  Forall Aux.harvested items /\ Aux.reportsNoBookmarks items.
Proof.
  intros Hrun.
  pose proof (yields_scrapeAll env username options _ _ _ Hrun) as Hitems.
  simpl in Hitems. split; [exact Hitems|].
  now apply reportsNoBookmarks_harvested.
Qed.

Lemma bookmarkStats_blind_to_isBookmark_witness :
  exists items,
    fst (Scraper.scrapeAll Sample.calmEnv "reader" (Sample.optionsFor "both")
                           (Scraper.start false))
    = Scraper.Ok (Scraper.Success items 2 0 "All works processed successfully")
    /\ Forall Aux.harvested items /\ Aux.reportsNoBookmarks items.
Proof.
  eexists. split; [vm_compute; reflexivity|].
  eapply (bookmarkStats_blind_to_isBookmark
            Sample.calmEnv "reader" (Sample.optionsFor "both")
            (Scraper.start false)).
  vm_compute. reflexivity.
Defined.

(** In the run over both sources of the calm environment work 1 is in the
    history and in the bookmarks: it is flagged as a bookmark, and analyze
    still counts no bookmark and picks it as the secret favorite. *)
Example bookmarked_secret_favorite :
  match Scraper.scrapeAll Sample.calmEnv "reader" (Sample.optionsFor "both")
                          (Scraper.start false) with
  | (Scraper.Ok (Scraper.Success items _ _ _), _) =>
      match Analyzer.analyze items with
      | Analyzer.Populated stats =>
          Analyzer.totalBookmarks (Analyzer.bookmarkStats stats) = 0
          /\ option_map (fun w => (workId w, isBookmark w))
                        (Analyzer.secretFavorite (Analyzer.bookmarkStats stats))
             = Some ("1", Some true)
      | Analyzer.IsEmpty => False
      end
  | _ => False
  end.
Proof. vm_compute. split; reflexivity. Qed.


(** ** The rate floor in general *)

Section Through.
Import Js Scraper Aux.

Lemma safe_extends {A : Type} (m : M A) : CancelSafe m -> Extends m.
Proof.
  intros Hm s r s' H. destruct (Hm _ _ _ H) as (t & Ht & _). now exists t.
Qed.

Lemma through_final {A : Type} (m : M A) (s s1 : State) :
  (forall r s', m s = (r, s') -> s' = s1) -> Through m s s1.
Proof.
  intros Hm r s' H. rewrite (Hm _ _ H). exists []. now rewrite app_nil_r.
Qed.

Lemma through_bind_r {A B : Type} (m : M A) (k : A -> M B) s a s2 s1 :
  m s = (Ok a, s2) -> Through (k a) s2 s1 -> Through (bind m k) s s1.
Proof.
  intros Hm Hk r s' H. rewrite (bind_Ok _ _ _ _ _ Hm) in H.
  exact (Hk _ _ H).
Qed.

Lemma through_bind_l {A B : Type} (m : M A) (k : A -> M B) s s1 :
  Through m s s1 -> (forall a, Extends (k a)) -> Through (bind m k) s s1.
Proof.
  intros Hm Hk r s' H. unfold bind in H.
  destruct (m s) as [[a|e] s2] eqn:Hms.
  - destruct (Hm _ _ Hms) as (t1 & Ht1).
    destruct (Hk a _ _ _ H) as (t2 & Ht2).
    exists (t1 ++ t2)%list. now rewrite Ht2, Ht1, app_assoc.
  - injection H as <- <-. exact (Hm _ _ Hms).
Qed.

Lemma through_try_catch {A : Type} (m : M A) (h : string -> M A) s s1 :
  Through m s s1 -> (forall e, Extends (h e)) ->
  Through (try_catch m h) s s1.
Proof.
  intros Hm Hh r s' H. unfold try_catch in H.
  destruct (m s) as [[a|e] s2] eqn:Hms.
  - injection H as <- <-. exact (Hm _ _ Hms).
  - destruct (Hm _ _ Hms) as (t1 & Ht1).
    destruct (Hh e _ _ _ H) as (t2 & Ht2).
    exists (t1 ++ t2)%list. now rewrite Ht2, Ht1, app_assoc.
Qed.
End Through.

Section PageCount.
Import Js Scraper Aux.
Variable env : Env.

Lemma getPageCount_run (url errorContext : string) (s : State) :
  getPageCount env url errorContext s
  = (pageCountAt env (awaits s) url errorContext, fetched env s url).
Proof.
  unfold pageCountAt, getPageCount, bind.
  rewrite !fetchUrl_run. cbn [awaits].
  destruct (env_fetch env (awaits s) url) as [r|e]; [|reflexivity].
  destruct (negb (success r)); [reflexivity|].
  destruct (d_pagination (html r)); reflexivity.
Qed.

(** The page bound is at least 1. *)
Lemma pageCountAt_pos (k : nat) (url errorContext : string) (found : Z) :
  pageCountAt env k url errorContext = Ok found -> 1 <= found.
Proof.
  unfold pageCountAt, getPageCount, bind. rewrite fetchUrl_run.
  destruct (env_fetch env _ url) as [r|e]; [|discriminate].
  destruct (negb (success r)); [discriminate|].
  destruct (d_pagination (html r)) as [links|]; cbn.
  - intros [= <-].
    assert (Hfold : forall maxPage, 1 <= maxPage ->
              1 <= fold_left
                     (fun maxPage link =>
                        match link with
                        | Some pageNum =>
                            if pageNum >? maxPage then pageNum else maxPage
                        | None => maxPage
                        end) links maxPage).
    { induction links as [|link links IH]; intros maxPage Hmax; simpl.
      - exact Hmax.
      - apply IH. destruct link as [pageNum|]; [|exact Hmax].
        destruct (Z.gtb_spec pageNum maxPage); lia. }
    apply Hfold. lia.
  - intros [= <-]. lia.
Qed.

Lemma limitPages_pos (timeRange : string) (pageLimit found : Z) :
  1 <= found -> 1 <= limitPages timeRange pageLimit found.
Proof.
  intros Hfound. unfold limitPages.
  destruct (timeRange =? "pages")%string; simpl; [|exact Hfound].
  destruct (Z.gtb_spec pageLimit 0); lia.
Qed.

Lemma scrapeHistoryPage_state username pageNum s r s' :
  scrapeHistoryPage env username pageNum s = (r, s') ->
  s' = fetched env s (AO3_BASE_URL ++ "/users/" ++ username
                      ++ "/readings?page=" ++ show pageNum).
Proof.
  unfold scrapeHistoryPage, bind. rewrite fetchUrl_run.
  destruct (env_fetch env _ _) as [fr|e]; [|now intros [= _ <-]].
  destruct (negb (success fr)); now intros [= _ <-].
Qed.

Lemma scrapeBookmarkPage_state username pageNum s r s' :
  scrapeBookmarkPage env username pageNum s = (r, s') ->
  s' = fetched env s (AO3_BASE_URL ++ "/users/" ++ username
                      ++ "/bookmarks?page=" ++ show pageNum).
Proof.
  unfold scrapeBookmarkPage, bind. rewrite fetchUrl_run.
  destruct (env_fetch env _ _) as [fr|e]; [|now intros [= _ <-]].
  destruct (negb (success fr)); now intros [= _ <-].
Qed.
End PageCount.

Section Opening.
Import Js Scraper Aux.
Variable env : Env.

Lemma fetchesOf_app (t1 t2 : list Event) :
  fetchesOf (t1 ++ t2)%list = (fetchesOf t1 ++ fetchesOf t2)%list.
Proof. unfold fetchesOf. apply flat_map_app. Qed.

(** How [scrapeReadingHistory] opens: either it throws after its first
    fetch, or it fetches the first listing page right after the page
    count, with two progress events and a cancellation check between the
    two fetches. *)
Lemma scrapeReadingHistory_opening username options s :
  (exists e s' url0,
      scrapeReadingHistory env username options s = (Throw e, s')
      /\ fetchesOf (trace s') = (fetchesOf (trace s) ++ [url0])%list)
  \/ (exists s6 p0 url0 p1 p2 url1,
         Through (scrapeReadingHistory env username options) s s6
         /\ trace s6
            = (trace s ++ [EvProgress p0; EvFetch url0; EvProgress p1;
                           EvCheck false; EvProgress p2; EvFetch url1])%list).
Proof.
  unfold scrapeReadingHistory, getHistoryPageCount. cbv zeta.
  set (url0 := AO3_BASE_URL ++ "/users/" ++ username ++ "/readings").
  destruct (pageCountAt env (awaits s) url0 "history") as [found|e] eqn:Hcount.
  - pose proof (pageCountAt_pos env _ _ _ _ Hcount) as Hfound.
    pose proof (limitPages_pos (dflt (o_timeRange options) "all")
                               (dflt (o_pageLimit options) 100) found Hfound)
      as Htotal.
    set (totalPages := limitPages _ _ found) in *.
    destruct (Z.to_nat totalPages) as [|n] eqn:Hn; [lia|].
    destruct (env_cancel env (awaits s)) eqn:Hcancel.
    + left. eexists _, _, url0. split.
      * erewrite bind_Ok by reflexivity.
        erewrite bind_Ok by reflexivity.
        erewrite bind_Ok
          by (rewrite getPageCount_run; cbn [awaits]; rewrite Hcount;
              reflexivity).
        erewrite bind_Ok by reflexivity.
        erewrite bind_Throw; [reflexivity|].
        fold totalPages. rewrite Hn. cbn [historyPages].
        erewrite bind_Ok by reflexivity.
        cbn [cancelRequested fetched awaits]. rewrite Hcancel. reflexivity.
      * cbn [trace fetched]. rewrite !fetchesOf_app. cbn.
        rewrite ?app_nil_r. reflexivity.
    + right. eexists _, _, url0, _, _, _. split.
      * eapply through_bind_r; [reflexivity|].
        eapply through_bind_r; [reflexivity|].
        eapply through_bind_r;
          [rewrite getPageCount_run; cbn [awaits]; rewrite Hcount;
           reflexivity|].
        eapply through_bind_r; [reflexivity|].
        eapply through_bind_l;
          [|intros allItems; apply safe_extends, quiet_safe; quiet].
        fold totalPages. rewrite Hn. cbn [historyPages].
        eapply through_bind_r; [reflexivity|].
        cbn [cancelRequested fetched awaits]. rewrite Hcancel. cbn [orb].
        eapply through_bind_r; [reflexivity|].
        eapply through_bind_l.
        -- apply through_final. intros r s' H.
           exact (scrapeHistoryPage_state env _ _ _ _ _ H).
        -- intros items. apply safe_extends.
           apply safe_bind; [apply quiet_safe; quiet|].
           intros _. apply safe_historyPages.
      * cbn [trace fetched cancelRequested awaits].
        rewrite <- !app_assoc. reflexivity.
  - left. eexists _, _, url0. split.
    + erewrite bind_Ok by reflexivity.
      erewrite bind_Ok by reflexivity.
      erewrite bind_Throw; [reflexivity|].
      rewrite getPageCount_run. cbn [awaits]. rewrite Hcount. reflexivity.
    + cbn [trace fetched]. rewrite !fetchesOf_app. cbn.
      rewrite ?app_nil_r. reflexivity.
Qed.

(** [scrapeBookmarks] opens in the same way. *)
Lemma scrapeBookmarks_opening username options offset s :
  (exists e s' url0,
      scrapeBookmarks env username options offset s = (Throw e, s')
      /\ fetchesOf (trace s') = (fetchesOf (trace s) ++ [url0])%list)
  \/ (exists s6 url0 p1 p2 url1,
         Through (scrapeBookmarks env username options offset) s s6
         /\ trace s6
            = (trace s ++ [EvFetch url0; EvProgress p1;
                           EvCheck false; EvProgress p2; EvFetch url1])%list).
Proof.
  unfold scrapeBookmarks, getBookmarkPageCount. cbv zeta.
  set (url0 := AO3_BASE_URL ++ "/users/" ++ username ++ "/bookmarks").
  destruct (pageCountAt env (awaits s) url0 "bookmarks") as [found|e]
    eqn:Hcount.
  - pose proof (pageCountAt_pos env _ _ _ _ Hcount) as Hfound.
    pose proof (limitPages_pos (dflt (o_timeRange options) "all")
                               (dflt (o_pageLimit options) 100) found Hfound)
      as Htotal.
    set (totalPages := limitPages _ _ found) in *.
    destruct (Z.to_nat totalPages) as [|n] eqn:Hn; [lia|].
    destruct (cancelRequested s || env_cancel env (awaits s))%bool
      eqn:Hcancel.
    + left. eexists _, _, url0. split.
      * erewrite bind_Ok
          by (rewrite getPageCount_run; cbn [awaits]; rewrite Hcount;
              reflexivity).
        erewrite bind_Ok by reflexivity.
        erewrite bind_Throw; [reflexivity|].
        fold totalPages. rewrite Hn. cbn [bookmarkPages].
        erewrite bind_Ok by reflexivity.
        cbn [cancelRequested fetched awaits]. rewrite Hcancel. reflexivity.
      * cbn [trace fetched]. rewrite !fetchesOf_app. cbn.
        rewrite ?app_nil_r. reflexivity.
    + right. eexists _, url0, _, _, _. split.
      * eapply through_bind_r;
          [rewrite getPageCount_run; cbn [awaits]; rewrite Hcount;
           reflexivity|].
        eapply through_bind_r; [reflexivity|].
        eapply through_bind_l;
          [|intros allItems; apply safe_extends, quiet_safe; quiet].
        fold totalPages. rewrite Hn. cbn [bookmarkPages].
        eapply through_bind_r; [reflexivity|].
        cbn [cancelRequested fetched awaits]. rewrite Hcancel.
        eapply through_bind_r; [reflexivity|].
        eapply through_bind_l.
        -- apply through_final. intros r s' H.
           exact (scrapeBookmarkPage_state env _ _ _ _ _ H).
        -- intros items. apply safe_extends.
           apply safe_bind; [apply quiet_safe; quiet|].
           intros _. apply safe_bookmarkPages.
      * cbn [trace fetched cancelRequested awaits]. rewrite ?Hcancel.
        rewrite <- !app_assoc. reflexivity.
  - left. eexists _, _, url0. split.
    + erewrite bind_Throw; [reflexivity|].
      rewrite getPageCount_run. cbn [awaits]. rewrite Hcount. reflexivity.
    + cbn [trace fetched]. rewrite !fetchesOf_app. cbn.
      rewrite ?app_nil_r. reflexivity.
Qed.
End Opening.

(** What follows the first listing source in the [try] block honours the
    cancellation checks. *)
Ltac rest_of_scrapeAll env :=
  apply safe_extends;
  apply safe_bind;
  [ match goal with
    | |- Aux.CancelSafe (if ?b then _ else _) =>
        destruct b; [|apply quiet_safe, quiet_ret];
        apply safe_bind; [apply quiet_safe; quiet|];
        intros _;
        apply safe_bind; [apply safe_scrapeBookmarks|];
        intros ?; apply quiet_safe; quiet
    end
  | intros ?;
    match goal with
    | |- Aux.CancelSafe (if ?b then _ else _) =>
        destruct b; [apply quiet_safe, quiet_ret|];
        apply safe_bind; [apply quiet_safe, quiet_onProgress|];
        intros _;
        apply safe_bind; [apply quiet_safe, quiet_delay|];
        intros _;
        apply safe_bind; [apply safe_enrichWithMetadata|];
        intros [? ?]; apply quiet_safe; quiet
    end ].

Section RateFloor.
Import Js Scraper Aux.

(** In every run of [scrapeAll] that issues two fetches or more, no delay
    is waited between the first fetch, which is the page count of the
    first listing source, and the second, which is its first page. *)
Lemma no_delay_after_page_count
      (env : Env) (username : string) (options : Options) (flag : bool) :
  (2 <= List.length
          (fetchesOf (trace (snd (scrapeAll env username options
                                            (start flag))))))%nat ->
  exists rest,
    interFetchDelays (trace (snd (scrapeAll env username options
                                            (start flag))))
    = 0 :: rest.
Proof.
  destruct (scrapeAll env username options (start flag)) as [r s'] eqn:Hrun.
  cbn [snd]. intros Hfetches.
  unfold scrapeAll in Hrun. cbv zeta in Hrun.
  unfold start in Hrun.
  rewrite (bind_Ok resetCancel _ (mkState flag 0 []) tt
                   (mkState false 0 []) eq_refl) in Hrun.
  set (s1 := mkState false 0 []) in Hrun.
  set (source := dflt (o_source options) "both") in *.
  set (opts := mkOptions None _ _) in *.
  unfold scrapeAllTry in Hrun. cbv zeta in Hrun.
  destruct ((source =? "both")%string || (source =? "history")%string)%bool
    eqn:Hhist.
  - (* the history listing comes first *)
    destruct (scrapeReadingHistory_opening env username opts s1)
      as [(e & s2 & url0 & Hthrow & Hf)
         |(s6 & p0 & url0 & p1 & p2 & url1 & Hthrough & Htrace)].
    + rewrite (try_catch_Throw _ _ _ e s2) in Hrun
        by (apply bind_Throw; exact Hthrow).
      unfold scrapeAllCatch in Hrun.
      destruct (includes e "cancelled"); injection Hrun as <- <-;
        rewrite Hf in Hfetches; cbn in Hfetches; lia.
    + assert (Hrest : exists t, trace s' = (trace s6 ++ t)%list).
      { eapply through_try_catch; [| |exact Hrun].
        - apply through_bind_l; [exact Hthrough|].
          intros allItems. rest_of_scrapeAll env.
        - intros e. apply safe_extends, quiet_safe, quiet_scrapeAllCatch. }
      destruct Hrest as (t & Ht). exists (gapsFrom 0 t).
      rewrite Ht, Htrace. reflexivity.
  - apply orb_false_elim in Hhist. destruct Hhist as [Hboth Hhistory].
    rewrite Hboth in Hrun. cbn [orb] in Hrun.
    destruct (source =? "bookmarks")%string eqn:Hbm.
    + (* bookmarks only *)
      destruct (scrapeBookmarks_opening env username opts 0%Q s1)
        as [(e & s2 & url0 & Hthrow & Hf)
           |(s6 & url0 & p1 & p2 & url1 & Hthrough & Htrace)].
      * rewrite (try_catch_Throw _ _ _ e s2) in Hrun.
        2:{ erewrite bind_Ok by reflexivity.
            apply bind_Throw. erewrite bind_Ok by reflexivity.
            apply bind_Throw. exact Hthrow. }
        unfold scrapeAllCatch in Hrun.
        destruct (includes e "cancelled"); injection Hrun as <- <-;
          rewrite Hf in Hfetches; cbn in Hfetches; lia.
      * assert (Hrest : exists t, trace s' = (trace s6 ++ t)%list).
        { eapply through_try_catch; [| |exact Hrun].
          - eapply through_bind_r; [reflexivity|].
            apply through_bind_l.
            + eapply through_bind_r; [reflexivity|].
              apply through_bind_l; [exact Hthrough|].
              intros bookmarkItems. apply safe_extends, quiet_safe, quiet_ret.
            + intros allItems.
              apply safe_extends.
              destruct (len allItems =? 0); [apply quiet_safe, quiet_ret|].
              apply safe_bind; [apply quiet_safe, quiet_onProgress|].
              intros _.
              apply safe_bind; [apply quiet_safe, quiet_delay|].
              intros _.
              apply safe_bind; [apply safe_enrichWithMetadata|].
              intros [items failed]. apply quiet_safe. quiet.
          - intros e. apply safe_extends, quiet_safe, quiet_scrapeAllCatch. }
        destruct Hrest as (t & Ht). exists (gapsFrom 0 t).
        rewrite Ht, Htrace. reflexivity.
    + (* no listing source: no fetch at all *)
      unfold try_catch, bind, ret in Hrun. cbn in Hrun.
      injection Hrun as <- <-. cbn in Hfetches. lia.
Qed.
End RateFloor.

(** C2 fails on the code. In the history-only run of the calm environment
    the first listing page is fetched right after the page count, with no
    delay between the two fetches; the delay before the detail fetch is
    there. And so it is in every run: whenever scrapeAll issues two fetches
    or more, it waits no delay between the first two. *)
Theorem rate_floor_broken_after_page_count :
  Aux.interFetchDelays
    (Scraper.trace (snd (Scraper.scrapeAll Sample.calmEnv "reader"
                                           (Sample.optionsFor "history")
                                           (Scraper.start false))))
  = [0; 5000]
  /\ ~ Aux.rateFloorHonoured
         (Scraper.trace (snd (Scraper.scrapeAll Sample.calmEnv "reader"
                                                (Sample.optionsFor "history")
                                                (Scraper.start false))))
  /\ (forall env username options flag,
        (2 <= List.length
                (Aux.fetchesOf
                   (Scraper.trace (snd (Scraper.scrapeAll env username options
                                          (Scraper.start flag))))))%nat ->
        ~ Aux.rateFloorHonoured
            (Scraper.trace (snd (Scraper.scrapeAll env username options
                                   (Scraper.start flag))))).
Proof.
  assert (Hzero : forall t rest,
             Aux.interFetchDelays t = 0 :: rest -> ~ Aux.rateFloorHonoured t).
  { intros t rest Ht Hall. unfold Aux.rateFloorHonoured in Hall.
    rewrite Ht in Hall. inversion Hall as [|? ? Hfirst _]; subst.
    unfold Scraper.RATE_LIMIT_MS in Hfirst. lia. }
  assert (H : Aux.interFetchDelays
                (Scraper.trace (snd (Scraper.scrapeAll Sample.calmEnv "reader"
                                       (Sample.optionsFor "history")
                                       (Scraper.start false))))
              = [0; 5000]) by (vm_compute; reflexivity).
  split; [exact H|]. split; [exact (Hzero _ _ H)|].
  intros env username options flag Hfetches.
  destruct (no_delay_after_page_count env username options flag Hfetches)
    as [rest Hrest].
  exact (Hzero _ _ Hrest).
Qed.


(** ** When a cancellation request can go unnoticed *)

Section Triples.
Import Js Scraper Aux.

Lemma triple_ret {A : Type} (P : State -> Prop) (a : A)
      (Q : A -> State -> Prop) (E : State -> Prop) :
  (forall s, P s -> Q a s) -> Triple P (ret a) Q E.
Proof. intros H s r s' Hs [= <- <-]. now apply H. Qed.

Lemma triple_throw {A : Type} (P : State -> Prop) (e : string)
      (Q : A -> State -> Prop) (E : State -> Prop) :
  (forall s, P s -> E s) -> Triple P (@throw A e) Q E.
Proof. intros H s r s' Hs [= <- <-]. now apply H. Qed.

Lemma triple_bind {A B : Type} (P : State -> Prop) (m : M A)
      (Q1 : A -> State -> Prop) (k : A -> M B)
      (Q2 : B -> State -> Prop) (E : State -> Prop) :
  Triple P m Q1 E -> (forall a, Triple (Q1 a) (k a) Q2 E) ->
  Triple P (bind m k) Q2 E.
Proof.
  intros Hm Hk s r s' Hs H. unfold bind in H.
  destruct (m s) as [[a|e] s1] eqn:Hms.
  - exact (Hk a _ _ _ (Hm _ _ _ Hs Hms) H).
  - injection H as <- <-. exact (Hm _ _ _ Hs Hms).
Qed.

Lemma triple_try_catch {A : Type} (P : State -> Prop) (m : M A)
      (h : string -> M A) (Q : A -> State -> Prop) (E1 E : State -> Prop) :
  Triple P m Q E1 -> (forall e, Triple E1 (h e) Q E) ->
  Triple P (try_catch m h) Q E.
Proof.
  intros Hm Hh s r s' Hs H. unfold try_catch in H.
  destruct (m s) as [[a|e] s1] eqn:Hms.
  - injection H as <- <-. exact (Hm _ _ _ Hs Hms).
  - exact (Hh e _ _ _ (Hm _ _ _ Hs Hms) H).
Qed.

Lemma triple_pure {A : Type} (P : State -> Prop) (fact : Prop) (m : M A)
      (Q : A -> State -> Prop) (E : State -> Prop) :
  (fact -> Triple P m Q E) -> Triple (fun s => P s /\ fact) m Q E.
Proof. intros H s r s' [Hs Hfact] Hrun. exact (H Hfact _ _ _ Hs Hrun). Qed.

Lemma triple_weaken {A : Type} (P P' : State -> Prop) (m : M A)
      (Q Q' : A -> State -> Prop) (E E' : State -> Prop) :
  Triple P' m Q' E' ->
  (forall s, P s -> P' s) -> (forall a s, Q' a s -> Q a s) ->
  (forall s, E' s -> E s) ->
  Triple P m Q E.
Proof.
  intros Hm HP HQ HE s r s' Hs H. specialize (Hm _ _ _ (HP _ Hs) H).
  destruct r; [now apply HQ | now apply HE].
Qed.

Lemma triple_log (P : State -> Prop) (ev : Event) (E : State -> Prop) :
  traceBlind P -> Triple P (log ev) (fun _ => P) E.
Proof. intros HP s r s' Hs [= <- <-]. now apply HP. Qed.

Lemma triple_isCancelled (P : State -> Prop) (E : State -> Prop) :
  traceBlind P ->
  Triple P isCancelled (fun b s => P s /\ cancelRequested s = b) E.
Proof. intros HP s r s' Hs [= <- <-]. split; [now apply HP | reflexivity]. Qed.
End Triples.

Section Window.
Import Js Scraper Aux.
Variable env : Env.
Variable a0 : nat.

Lemma blind_flagTracks : traceBlind (flagTracks env a0).
Proof. intros s t H. exact H. Qed.

Lemma blind_lateOnly : traceBlind (lateOnly env a0).
Proof. intros s t H. exact H. Qed.

Lemma blind_calm : traceBlind (calm env a0).
Proof. intros s t H. exact H. Qed.

Lemma calmUntil_step (a : nat) :
  calmUntil env a0 (S a)
  <-> calmUntil env a0 a /\ ((a0 <= a)%nat -> env_cancel env a = false).
Proof.
  unfold calmUntil. split.
  - intros H. split; [intros k Hk; apply H; lia | intros Ha; apply H; lia].
  - intros [H Ha] k Hk. destruct (Nat.eq_dec k a) as [->|Hne].
    + apply Ha. lia.
    + apply H. lia.
Qed.

(** A suspension point keeps the flag on track. *)
Lemma flagTracks_suspended (s : State) (t : list Event) :
  flagTracks env a0 s ->
  flagTracks env a0
             (mkState (cancelRequested s || env_cancel env (awaits s))
                      (S (awaits s)) t).
Proof.
  intros [Hle Hflag]. split; cbn [awaits cancelRequested]; [lia|].
  rewrite calmUntil_step, <- Hflag, orb_false_iff.
  split; intros [H1 H2]; split; auto.
Qed.

(** After a passing check, one suspension point later, only that point
    can have seen a request. *)
Lemma lateOnly_suspended (s : State) (t : list Event) :
  calm env a0 s ->
  lateOnly env a0
           (mkState (cancelRequested s || env_cancel env (awaits s))
                    (S (awaits s)) t).
Proof.
  intros [Htracks Hflag]. split; [now apply flagTracks_suspended|].
  cbn [awaits pred]. now apply (proj2 Htracks).
Qed.

Lemma triple_delay (ms : Z) (E : State -> Prop) :
  Triple (flagTracks env a0) (delay env ms) (fun _ => flagTracks env a0) E.
Proof.
  intros s r s' Hs H. rewrite delay_run in H. injection H as <- <-.
  now apply flagTracks_suspended.
Qed.

Lemma triple_delay_late (ms : Z) (E : State -> Prop) :
  Triple (lateOnly env a0) (delay env ms) (fun _ => flagTracks env a0) E.
Proof.
  intros s r s' Hs H. rewrite delay_run in H. injection H as <- <-.
  apply flagTracks_suspended. exact (proj1 Hs).
Qed.

Lemma triple_getPageCount url errorContext :
  Triple (flagTracks env a0) (getPageCount env url errorContext)
         (fun found s => flagTracks env a0 s /\ 1 <= found)
         (fun _ => True).
Proof.
  intros s r s' Hs H. rewrite getPageCount_run in H. injection H as <- <-.
  destruct (pageCountAt env (awaits s) url errorContext) eqn:Hcount;
    [|exact I].
  split; [now apply flagTracks_suspended|].
  exact (pageCountAt_pos env _ _ _ _ Hcount).
Qed.

Lemma triple_scrapeHistoryPage username pageNum :
  Triple (calm env a0) (scrapeHistoryPage env username pageNum)
         (fun _ => lateOnly env a0) (fun _ => True).
Proof.
  intros s r s' Hs H. rewrite (scrapeHistoryPage_state env _ _ _ _ _ H).
  destruct r; [|exact I]. now apply lateOnly_suspended.
Qed.

Lemma triple_scrapeBookmarkPage username pageNum :
  Triple (calm env a0) (scrapeBookmarkPage env username pageNum)
         (fun _ => lateOnly env a0) (fun _ => True).
Proof.
  intros s r s' Hs H. rewrite (scrapeBookmarkPage_state env _ _ _ _ _ H).
  destruct r; [|exact I]. now apply lateOnly_suspended.
Qed.

(** The detail fetch: returned or thrown, one suspension point later. *)
Lemma triple_fetchWorkMetadata id :
  Triple (calm env a0) (fetchWorkMetadata env id)
         (fun _ => lateOnly env a0) (lateOnly env a0).
Proof.
  intros s r s' Hs H. rewrite fetchWorkMetadata_run in H.
  injection H as <- <-.
  destruct (detailAt env (awaits s) id); now apply lateOnly_suspended.
Qed.
End Window.

Section WindowLoops.
Import Js Scraper Aux.
Variable env : Env.
Variable a0 : nat.

Lemma triple_check_then {A : Type} (k : M A)
      (Q : A -> State -> Prop) :
  Triple (calm env a0) k Q (fun _ => True) ->
  Triple (flagTracks env a0)
         (bind isCancelled
               (fun cancelled =>
                  if cancelled then throw cancelMessage else k))
         Q (fun _ => True).
Proof.
  intros Hk.
  apply (triple_bind _ _ (fun b s => flagTracks env a0 s
                                     /\ cancelRequested s = b)).
  - apply triple_isCancelled. apply blind_flagTracks.
  - intros [|]; [now apply triple_throw | exact Hk].
Qed.

Lemma triple_historyPages username totalPages remaining :
  forall page allItems,
    Z.of_nat remaining = totalPages - page + 1 ->
    Triple (flagTracks env a0)
           (historyPages env username totalPages remaining page allItems)
           (fun _ s => flagTracks env a0 s
                       /\ (remaining <> 0%nat -> lateOnly env a0 s))
           (fun _ => True).
Proof.
  induction remaining as [|n IH]; intros page allItems Hrel.
  - apply triple_ret. intros s Hs. split; [exact Hs | congruence].
  - cbn [historyPages]. apply triple_check_then.
    eapply triple_bind; [apply triple_log, blind_calm|]. intros ?; cbv beta.
    eapply triple_bind; [apply triple_scrapeHistoryPage|]. intros items.
    destruct (Z.ltb_spec page totalPages) as [Hlt|Hge].
    + eapply triple_bind.
      * apply triple_delay_late.
      * intros ?; cbv beta. eapply triple_weaken;
          [apply (IH (page + 1) (allItems ++ items)%list); lia
           | auto | | auto].
        intros ? s [Htracks Hlate]. split; [exact Htracks|].
        intros _. apply Hlate. lia.
    + assert (n = 0%nat) by lia. subst n. cbn [historyPages].
      apply (triple_bind _ _ (fun _ => lateOnly env a0));
        [apply triple_ret; auto|].
      intros ?; cbv beta. apply triple_ret. intros s Hs.
      split; [exact (proj1 Hs) | intros _; exact Hs].
Qed.

Lemma triple_bookmarkPages username offset totalPages remaining :
  forall page allItems,
    Z.of_nat remaining = totalPages - page + 1 ->
    Triple (flagTracks env a0)
           (bookmarkPages env username offset totalPages remaining
                          page allItems)
           (fun _ s => flagTracks env a0 s
                       /\ (remaining <> 0%nat -> lateOnly env a0 s))
           (fun _ => True).
Proof.
  induction remaining as [|n IH]; intros page allItems Hrel.
  - apply triple_ret. intros s Hs. split; [exact Hs | congruence].
  - cbn [bookmarkPages]. apply triple_check_then.
    eapply triple_bind; [apply triple_log, blind_calm|]. intros ?; cbv beta.
    eapply triple_bind; [apply triple_scrapeBookmarkPage|]. intros items.
    destruct (Z.ltb_spec page totalPages) as [Hlt|Hge].
    + eapply triple_bind.
      * apply triple_delay_late.
      * intros ?; cbv beta. eapply triple_weaken;
          [apply (IH (page + 1) (allItems ++ items)%list); lia
           | auto | | auto].
        intros ? s [Htracks Hlate]. split; [exact Htracks|].
        intros _. apply Hlate. lia.
    + assert (n = 0%nat) by lia. subst n. cbn [bookmarkPages].
      apply (triple_bind _ _ (fun _ => lateOnly env a0));
        [apply triple_ret; auto|].
      intros ?; cbv beta. apply triple_ret. intros s Hs.
      split; [exact (proj1 Hs) | intros _; exact Hs].
Qed.

Lemma triple_enrichLoop total todo :
  forall done completed failed,
    total = completed + len todo ->
    Triple (flagTracks env a0)
           (enrichLoop env total todo done completed failed)
           (fun _ s => flagTracks env a0 s
                       /\ (todo <> [] -> lateOnly env a0 s))
           (fun _ => True).
Proof.
  induction todo as [|item rest IH]; intros done completed failed Hrel.
  - apply triple_ret. intros s Hs. split; [exact Hs | congruence].
  - cbn [enrichLoop]. rewrite len_cons in Hrel. apply triple_check_then.
    eapply triple_bind; [apply triple_log, blind_calm|]. intros ?; cbv beta.
    apply (triple_bind _ _ (fun _ => lateOnly env a0)).
    + apply (triple_try_catch _ _ _ _ (lateOnly env a0)).
      * eapply triple_bind; [apply triple_fetchWorkMetadata|].
        intros metadata. apply triple_ret. auto.
      * intros e. apply triple_ret. auto.
    + intros [item' failed']. cbv zeta.
      destruct (Z.ltb_spec (completed + 1) total) as [Hlt|Hge].
      * eapply triple_bind.
        -- apply triple_delay_late.
        -- intros ?; cbv beta. eapply triple_weaken;
             [apply (IH (done ++ [item'])%list (completed + 1) failed'); lia
              | auto | | auto].
           intros ? s [Htracks Hlate]. split; [exact Htracks|].
           intros _. apply Hlate. intros Hnil. rewrite Hnil in Hrel.
           unfold len in Hrel. simpl in Hrel. lia.
      * assert (rest = []).
        { destruct rest; [reflexivity|]. rewrite len_cons in Hrel.
          pose proof (len_nonneg rest). lia. }
        subst rest. cbn [enrichLoop].
        apply (triple_bind _ _ (fun _ => lateOnly env a0));
        [apply triple_ret; auto|].
        intros ?; cbv beta. apply triple_ret. intros s Hs.
        split; [exact (proj1 Hs) | intros _; exact Hs].
Qed.

Lemma triple_scrapeReadingHistory username options :
  Triple (fun s => awaits s = a0)
         (scrapeReadingHistory env username options)
         (fun _ => lateOnly env a0) (fun _ => True).
Proof.
  unfold scrapeReadingHistory, getHistoryPageCount. cbv zeta.
  apply (triple_bind _ _ (fun _ => flagTracks env a0)).
  { intros s r s' Hs [= <- <-]. split; cbn; [lia|].
    split; [|reflexivity]. intros _ k Hk. lia. }
  intros ?; cbv beta.
  eapply triple_bind; [apply triple_log, blind_flagTracks|]. intros ?; cbv beta.
  eapply triple_bind; [apply triple_getPageCount|]. intros found.
  apply triple_pure. intros Hfound.
  pose proof (limitPages_pos (dflt (o_timeRange options) "all")
                             (dflt (o_pageLimit options) 100) found Hfound)
    as Htotal.
  eapply triple_bind; [apply triple_log, blind_flagTracks|]. intros ?; cbv beta.
  eapply triple_bind; [apply triple_historyPages; lia|].
  intros allItems.
  apply (triple_weaken _ (lateOnly env a0) _ _ (fun _ => lateOnly env a0)
                       _ (fun _ => True));
    [|intros s [_ Hlate]; apply Hlate; lia | auto | auto].
  destruct (_ =? _)%string; apply triple_ret; auto.
Qed.

Lemma triple_scrapeBookmarks username options offset :
  Triple (flagTracks env a0)
         (scrapeBookmarks env username options offset)
         (fun _ => lateOnly env a0) (fun _ => True).
Proof.
  unfold scrapeBookmarks, getBookmarkPageCount. cbv zeta.
  eapply triple_bind; [apply triple_getPageCount|]. intros found.
  apply triple_pure. intros Hfound.
  pose proof (limitPages_pos (dflt (o_timeRange options) "all")
                             (dflt (o_pageLimit options) 100) found Hfound)
    as Htotal.
  eapply triple_bind; [apply triple_log, blind_flagTracks|].
  intros ?; cbv beta.
  eapply triple_bind; [apply triple_bookmarkPages; lia|].
  intros allItems.
  apply (triple_weaken _ (lateOnly env a0) _ _ (fun _ => lateOnly env a0)
                       _ (fun _ => True));
    [|intros s [_ Hlate]; apply Hlate; lia | auto | auto].
  destruct (_ =? _)%string; apply triple_ret; auto.
Qed.

(** In a state where nothing was awaited since the reset of the flag,
    nothing can have been requested. *)
Lemma lateOnly_fresh (s : State) :
  awaits s = a0 -> cancelRequested s = false -> lateOnly env a0 s.
Proof.
  intros Ha Hflag. split; [split|].
  - lia.
  - split; [intros _ k Hk; lia | intros _; exact Hflag].
  - intros k Hk. lia.
Qed.

Lemma triple_scrapeAllTry username source options :
  Triple (fun s => awaits s = a0 /\ cancelRequested s = false)
         (scrapeAllTry env username source options)
         (fun result s => successLate env a0 result s)
         (fun _ => True).
Proof.
  unfold scrapeAllTry. cbv zeta.
  apply (triple_bind _ _ (fun _ => lateOnly env a0)).
  { destruct (_ || _)%bool.
    - eapply triple_weaken;
        [apply triple_scrapeReadingHistory | intros s [Ha _]; exact Ha
         | auto | auto].
    - apply triple_ret. intros s [Ha Hflag]. now apply lateOnly_fresh. }
  intros allItems.
  apply (triple_bind _ _ (fun _ => lateOnly env a0)).
  { destruct (_ || _)%bool; [|apply triple_ret; auto].
    apply (triple_bind _ _ (fun _ => flagTracks env a0)).
    - destruct (_ =? _)%string;
        [apply triple_delay_late
        |apply triple_ret; intros s Hs; exact (proj1 Hs)].
    - intros ?; cbv beta.
      eapply triple_bind; [apply triple_scrapeBookmarks|].
      intros bookmarkItems.
      destruct (_ =? _)%string; apply triple_ret; auto. }
  intros allItems'.
  destruct (Z.eqb_spec (len allItems') 0) as [Hlen|Hlen].
  { apply triple_ret. auto. }
  eapply triple_bind; [apply triple_log, blind_lateOnly|].
  intros ?; cbv beta.
  eapply triple_bind; [apply triple_delay_late|]. intros ?; cbv beta.
  eapply triple_bind; [apply triple_enrichLoop; lia|].
  intros [items failed].
  apply (triple_weaken _ (lateOnly env a0) _ _
                       (fun result s => successLate env a0 result s)
                       _ (fun _ => True));
    [| |auto|auto].
  - eapply triple_bind; [apply triple_log, blind_lateOnly|].
    intros ?; cbv beta. apply triple_ret. auto.
  - intros s [_ Hlate]. apply Hlate. intros ->. now apply Hlen.
Qed.

Lemma triple_scrapeAll username options :
  Triple (fun s => awaits s = a0)
         (scrapeAll env username options)
         (fun result s => successLate env a0 result s)
         (fun _ => True).
Proof.
  unfold scrapeAll. cbv zeta.
  apply (triple_bind _ _ (fun _ s => awaits s = a0
                                     /\ cancelRequested s = false)).
  { intros s r s' Hs [= <- <-]. now split. }
  intros ?; cbv beta.
  apply (triple_try_catch _ _ _ _ (fun _ => True)).
  - apply triple_scrapeAllTry.
  - intros e. unfold scrapeAllCatch.
    destruct (includes e "cancelled"); apply triple_ret; intros; exact I.
Qed.
End WindowLoops.

(** C4, as the code has it. Every run of scrapeAll resolves to a result
    (nothing is thrown). When one of its cancellation checks, made before a
    listing-page fetch or a detail fetch, finds the flag set, the result is
    the cancelled one. And a run resolves to a success only if no
    cancellation was requested at any of its suspension points but the last
    one: a request made during the final fetch is not noticed. *)
Theorem scrapeAll_cancelled_once_observed
        (env : Scraper.Env) (username : string) (options : Scraper.Options)
        (s : Scraper.State) :
  exists result s' t,
    Scraper.scrapeAll env username options s = (Scraper.Ok result, s')
    /\ Scraper.trace s' = (Scraper.trace s ++ t)%list
    /\ (In (Scraper.EvCheck true) t ->
        result = Scraper.Cancelled "Scraping was cancelled")
    /\ (forall items totalWorks failed message,
          result = Scraper.Success items totalWorks failed message ->
          forall k, (Scraper.awaits s <= k)%nat ->
                    (k + 1 < Scraper.awaits s')%nat ->
                    Scraper.env_cancel env k = false).
Proof.
  assert (Hobserved :
    exists result s' t,
      Scraper.scrapeAll env username options s = (Scraper.Ok result, s')
      /\ Scraper.trace s' = (Scraper.trace s ++ t)%list
      /\ (In (Scraper.EvCheck true) t ->
          result = Scraper.Cancelled "Scraping was cancelled")).
  { unfold Scraper.scrapeAll, Scraper.bind, Scraper.resetCancel. cbv zeta.
    set (s0 := Scraper.mkState false (Scraper.awaits s) (Scraper.trace s)).
    unfold Scraper.try_catch.
    match goal with
    | |- context [Scraper.scrapeAllTry env username ?src ?opts s0] =>
        pose proof (safe_scrapeAllTry env username src opts s0) as Hsafe;
        destruct (Scraper.scrapeAllTry env username src opts s0)
          as [[result|e] s1]
    end.
    - destruct (Hsafe _ _ eq_refl) as (t & Ht & Hc).
      exists result, s1, t. repeat split; [exact Ht|].
      intros Hin. specialize (Hc Hin). discriminate.
    - destruct (Hsafe _ _ eq_refl) as (t & Ht & Hc).
      unfold Scraper.scrapeAllCatch.
      destruct (Js.includes e "cancelled") eqn:Hinc.
      + exists (Scraper.Cancelled "Scraping was cancelled"), s1, t.
        repeat split. exact Ht.
      + exists (Scraper.Failed e ("Scraping failed: " ++ e)), s1, t.
        repeat split; [exact Ht|].
        intros Hin. specialize (Hc Hin). injection Hc as ->.
        discriminate. }
  destruct Hobserved as (result & s' & t & Hrun & Ht & Hcheck).
  exists result, s', t. repeat split; auto.
  intros items totalWorks failed message -> k Hlo Hhi.
  pose proof (triple_scrapeAll env (Scraper.awaits s) username options
                               _ _ _ eq_refl Hrun) as [_ Hlate].
  apply Hlate. lia.
Qed.

(** C4 as stated fails: the flag can be set before the run completes and
    the run still succeed. In the history-only run of [lateCancelEnv] the
    flag is set during the detail fetch of the only work, after the last
    cancellation check. *)
Lemma cancellation_counterexample :
  ~ (forall env username options result s',
        Scraper.scrapeAll env username options (Scraper.start false)
        = (Scraper.Ok result, s') ->
        (exists k, (k < Scraper.awaits s')%nat /\ Scraper.env_cancel env k = true) ->
        exists message, result = Scraper.Cancelled message).
Proof.
  intros Hclaim.
  assert (Hrun : exists items failed message s',
             Scraper.scrapeAll Sample.lateCancelEnv "reader"
                               (Sample.optionsFor "history")
                               (Scraper.start false)
             = (Scraper.Ok (Scraper.Success items 1 failed message), s')
             /\ Scraper.awaits s' = 4%nat).
  { vm_compute. eexists _, _, _, _. split; reflexivity. }
  destruct Hrun as (items & failed & message & s' & Hrun & Hawaits).
  destruct (Hclaim _ _ _ _ _ Hrun) as [message' Hmsg].
  - exists 3%nat. rewrite Hawaits. split; [lia | reflexivity].
  - discriminate.
Qed.

(** In that run the flag is indeed set when the run resolves, with
    [success: true]. *)
Example late_cancel_run :
  Scraper.cancelRequested
    (snd (Scraper.scrapeAll Sample.lateCancelEnv "reader"
                            (Sample.optionsFor "history") (Scraper.start false)))
  = true
  /\ exists items failed message,
       fst (Scraper.scrapeAll Sample.lateCancelEnv "reader"
                              (Sample.optionsFor "history") (Scraper.start false))
       = Scraper.Ok (Scraper.Success items 1 failed message).
Proof.
  split; [vm_compute; reflexivity|].
  eexists _, _, _. vm_compute. reflexivity.
Qed.


(** ** The progress percentages *)

Section Progress.
Import Js Scraper Aux.

Lemma percentsOf_app (t1 t2 : list Event) :
  percentsOf (t1 ++ t2)%list = (percentsOf t1 ++ percentsOf t2)%list.
Proof. unfold percentsOf. apply flat_map_app. Qed.

Lemma nondecreasing_app_false (l l' : list Q) :
  nondecreasing l = false -> nondecreasing (l ++ l')%list = false.
Proof.
  induction l as [|a [|b l] IH]; try discriminate.
  intros H. change ((a :: b :: l) ++ l')%list with (a :: b :: (l ++ l'))%list.
  cbn [nondecreasing] in *.
  apply andb_false_iff in H. apply andb_false_iff.
  destruct H as [H|H]; [now left | right; now apply IH].
Qed.

Lemma nondecreasing_drop (l0 l1 : list Q) (a b : Q) :
  Qle_bool a b = false ->
  nondecreasing (l0 ++ a :: b :: l1)%list = false.
Proof.
  intros Hab. induction l0 as [|x [|y l0] IH].
  - cbn [app nondecreasing]. now rewrite Hab.
  - cbn [app nondecreasing] in *. rewrite Hab. cbn [andb].
    apply andb_false_r.
  - change ((x :: y :: l0) ++ a :: b :: l1)%list
      with (x :: ((y :: l0) ++ a :: b :: l1))%list.
    change ((y :: l0) ++ a :: b :: l1)%list
      with (y :: (l0 ++ a :: b :: l1))%list in *.
    cbn [nondecreasing] in *. rewrite IH. apply andb_false_r.
Qed.

Lemma wentBack_extends (s s' : State) (t : list Event) :
  trace s' = (trace s ++ t)%list -> wentBack s -> wentBack s'.
Proof.
  unfold wentBack. intros -> H. rewrite percentsOf_app.
  now apply nondecreasing_app_false.
Qed.

Lemma triple_extends_wentBack {A : Type} (m : M A) :
  Extends m ->
  Triple wentBack m (fun _ => wentBack) wentBack.
Proof.
  intros Hm s r s' Hs Hrun. destruct (Hm _ _ _ Hrun) as [t Ht].
  destruct r; exact (wentBack_extends _ _ _ Ht Hs).
Qed.

Lemma triple_any {A : Type} (P : State -> Prop) (m : M A) :
  Triple P m (fun _ _ => True) (fun _ => True).
Proof. intros s r s' _ _. now destruct r. Qed.

Lemma lastPercentIs_eq (q q' : Q) (s : State) :
  (q == q')%Q -> lastPercentIs q s -> lastPercentIs q' s.
Proof.
  intros Hq (t0 & p & t1 & Ht & Hp & Ht1). exists t0, p, t1.
  repeat split; auto. now rewrite Hp.
Qed.

(** A progress event with a lower percent than the latest one makes the
    values go back. *)
Lemma wentBack_after (q : Q) (p : ProgressEvent) (s : State) :
  lastPercentIs q s -> Qle_bool q (percent p) = false ->
  wentBack (mkState (cancelRequested s) (awaits s)
                    (trace s ++ [EvProgress p])%list).
Proof.
  intros (t0 & p0 & t1 & Ht & Hp & Ht1) Hlt. unfold wentBack.
  cbn [trace]. rewrite Ht, !percentsOf_app.
  assert (Hlast : percentsOf (EvProgress p0 :: t1) = [percent p0]).
  { change (percentsOf (EvProgress p0 :: t1))
      with (percent p0 :: percentsOf t1). now rewrite Ht1. }
  rewrite Hlast, <- app_assoc.
  change ([percent p0] ++ percentsOf [EvProgress p])%list
    with (percent p0 :: percent p :: [])%list.
  apply nondecreasing_drop.
  destruct (Qle_bool (percent p0) (percent p)) eqn:Hle; [|reflexivity].
  apply Qle_bool_iff in Hle. rewrite Hp in Hle.
  apply Qle_bool_iff in Hle. congruence.
Qed.

Lemma whole_share (totalPages : Z) (offset : Q) :
  1 <= totalPages ->
  (offset + inject_Z totalPages / inject_Z totalPages * 12 == offset + 12)%Q.
Proof.
  intros Hpos. unfold Qdiv. rewrite Qmult_inv_r.
  - ring.
  - intros H. unfold Qeq in H. simpl in H. lia.
Qed.
End Progress.

Section ProgressRuns.
Import Js Scraper Aux.
Variable env : Env.

Lemma triple_log_last (P : State -> Prop) (ev : Event) (E : State -> Prop) :
  Triple P (log ev)
         (fun _ s => exists t0, trace s = (t0 ++ [ev])%list) E.
Proof. intros s r s' _ [= <- <-]. now exists (trace s). Qed.

Lemma triple_scrapeBookmarkPage_percent username pageNum p :
  Triple (fun s => exists t0, trace s = (t0 ++ [EvProgress p])%list)
         (scrapeBookmarkPage env username pageNum)
         (fun _ => lastPercentIs (percent p)) (fun _ => True).
Proof.
  intros s r s' [t0 Ht] H.
  rewrite (scrapeBookmarkPage_state env _ _ _ _ _ H).
  destruct r; [|exact I].
  eexists t0, p, [_]. cbn [trace fetched]. rewrite Ht, <- app_assoc.
  repeat split; reflexivity.
Qed.

Lemma lastPercentIs_suspended (q : Q) (s : State) (ev : Event) b a :
  percentsOf [ev] = [] ->
  lastPercentIs q s ->
  lastPercentIs q (mkState b a (trace s ++ [ev])%list).
Proof.
  intros Hev (t0 & p & t1 & Ht & Hp & Ht1).
  exists t0, p, (t1 ++ [ev])%list. cbn [trace]. rewrite Ht.
  repeat split; auto.
  - now rewrite <- app_assoc.
  - now rewrite percentsOf_app, Ht1, Hev.
Qed.

Lemma triple_delay_percent (q : Q) (ms : Z) (E : State -> Prop) :
  Triple (lastPercentIs q) (delay env ms) (fun _ => lastPercentIs q) E.
Proof.
  intros s r s' Hs H. rewrite delay_run in H. injection H as <- <-.
  now apply lastPercentIs_suspended.
Qed.

(** When the loop of the bookmark pages returns, its latest progress
    event is the one of the last page, with the whole share of 12. *)
Lemma triple_bookmarkPages_percent username offset totalPages remaining :
  forall page allItems,
    1 <= totalPages ->
    Z.of_nat remaining = totalPages - page + 1 ->
    Triple (fun _ => True)
           (bookmarkPages env username offset totalPages remaining
                          page allItems)
           (fun _ s => remaining <> 0%nat ->
                       lastPercentIs (offset + 12)%Q s)
           (fun _ => True).
Proof.
  induction remaining as [|n IH]; intros page allItems Hpos Hrel.
  - apply triple_ret. intros s _. congruence.
  - cbn [bookmarkPages].
    apply (triple_bind _ _ (fun _ _ => True)); [apply triple_any|].
    intros [|]; [now apply triple_throw|].
    eapply triple_bind; [apply triple_log_last|]. intros ?; cbv beta.
    eapply triple_bind; [apply triple_scrapeBookmarkPage_percent|].
    intros items. cbn [percent].
    destruct (Z.ltb_spec page totalPages) as [Hlt|Hge].
    + apply (triple_bind _ _ (fun _ _ => True)); [apply triple_any|].
      intros ?; cbv beta.
      eapply triple_weaken;
        [apply (IH (page + 1) (allItems ++ items)%list Hpos); lia
        | auto | | auto].
      intros ? s Hlast _. apply Hlast. lia.
    + assert (n = 0%nat) by lia. subst n.
      assert (page = totalPages) by lia. subst page.
      cbn [bookmarkPages].
      apply (triple_bind
               _ _ (fun _ => lastPercentIs
                               (offset + inject_Z totalPages
                                         / inject_Z totalPages * 12)%Q));
        [apply triple_ret; auto|].
      intros ?; cbv beta. apply triple_ret. intros s Hs _.
      eapply lastPercentIs_eq; [|exact Hs].
      now apply whole_share.
Qed.

Lemma triple_getPageCount_pos url errorContext :
  Triple (fun _ => True) (getPageCount env url errorContext)
         (fun found _ => 1 <= found) (fun _ => True).
Proof.
  intros s r s' _ H. rewrite getPageCount_run in H. injection H as <- <-.
  destruct (pageCountAt env (awaits s) url errorContext) eqn:Hcount;
    [|exact I].
  exact (pageCountAt_pos env _ _ _ _ Hcount).
Qed.

Lemma triple_scrapeBookmarks_percent username options offset :
  Triple (fun _ => True)
         (scrapeBookmarks env username options offset)
         (fun _ => lastPercentIs (offset + 12)%Q) (fun _ => True).
Proof.
  unfold scrapeBookmarks, getBookmarkPageCount. cbv zeta.
  eapply triple_bind; [apply triple_getPageCount_pos|]. intros found.
  apply (triple_weaken (fun _ => 1 <= found) (fun s => True /\ 1 <= found)
                       _ _ (fun _ => lastPercentIs (offset + 12)%Q)
                       _ (fun _ => True)); [|auto|auto|auto].
  apply triple_pure. intros Hfound.
  pose proof (limitPages_pos (dflt (o_timeRange options) "all")
                             (dflt (o_pageLimit options) 100) found Hfound)
    as Htotal.
  apply (triple_bind _ _ (fun _ _ => True)); [apply triple_any|].
  intros ?; cbv beta.
  eapply triple_bind; [apply triple_bookmarkPages_percent; lia|].
  intros allItems.
  apply (triple_weaken _ (lastPercentIs (offset + 12)%Q) _ _
                       (fun _ => lastPercentIs (offset + 12)%Q)
                       _ (fun _ => True));
    [|intros s Hlast; apply Hlast; lia | auto | auto].
  destruct (_ =? _)%string; apply triple_ret; auto.
Qed.

(** Over both sources, a run that starts the enrichment has its percent
    values go back: from 42, after the last bookmark page, to 30. *)
Lemma triple_scrapeAllTry_both username options :
  Triple (fun _ => True)
         (scrapeAllTry env username "both" options)
         (fun result s => successWentBack result s)
         (fun _ => True).
Proof.
  unfold scrapeAllTry. cbv zeta. cbn [String.eqb Ascii.eqb Bool.eqb orb].
  apply (triple_bind _ _ (fun _ _ => True)); [apply triple_any|].
  intros allItems.
  apply (triple_bind _ _ (fun _ => lastPercentIs (30 + 12)%Q)).
  { apply (triple_bind _ _ (fun _ _ => True)); [apply triple_any|].
    intros ?; cbv beta.
    eapply triple_bind; [apply triple_scrapeBookmarks_percent|].
    intros bookmarkItems. apply triple_ret. auto. }
  intros allItems'.
  destruct (Z.eqb_spec (len allItems') 0) as [Hlen|Hlen].
  { apply triple_ret. intros s _ Hne. now contradiction Hne. }
  apply (triple_bind _ _ (fun _ => wentBack)).
  { intros s r s' Hs [= <- <-]. eapply wentBack_after; [exact Hs|].
    reflexivity. }
  intros ?; cbv beta.
  eapply triple_bind.
  { eapply triple_weaken;
      [apply (triple_extends_wentBack (delay env RATE_LIMIT_MS));
       apply safe_extends, quiet_safe, quiet_delay
      | auto | intros ? s Hs; exact Hs | intros s Hs; exact I]. }
  intros ?; cbv beta.
  eapply triple_bind.
  { eapply triple_weaken;
      [apply (triple_extends_wentBack (enrichWithMetadata env allItems'));
       apply safe_extends, safe_enrichWithMetadata
      | auto | intros ? s Hs; exact Hs | intros s Hs; exact I]. }
  intros [items failed].
  eapply triple_bind.
  { eapply triple_weaken;
      [apply (triple_extends_wentBack (onProgress _));
       apply safe_extends, quiet_safe, quiet_onProgress
      | auto | intros ? s Hs; exact Hs | intros s Hs; exact I]. }
  intros ?; cbv beta. apply triple_ret. intros s Hs _. exact Hs.
Qed.
End ProgressRuns.

Section ProgressOfScrapeAll.
Import Js Scraper Aux.

Lemma triple_scrapeAll_both env username options :
  dflt (o_source options) "both" = "both" ->
  Triple (fun _ => True) (scrapeAll env username options)
         (fun result s => successWentBack result s) (fun _ => True).
Proof.
  intros Hsource. unfold scrapeAll. cbv zeta. rewrite Hsource.
  apply (triple_bind _ _ (fun _ _ => True)); [apply triple_any|].
  intros ?; cbv beta.
  apply (triple_try_catch _ _ _ _ (fun _ => True)).
  - apply triple_scrapeAllTry_both.
  - intros e. unfold scrapeAllCatch.
    destruct (includes e "cancelled"); apply triple_ret; intros; exact I.
Qed.
End ProgressOfScrapeAll.

(** C8 fails on the code. In the run over both sources of the calm
    environment the percent values go 0, 5, 30, 32, 42 and then back to 30
    when the enrichment starts; the run succeeds. And so it is in every run
    over both sources that succeeds with at least one item: its percent
    values are not non-decreasing. *)
Theorem progress_goes_back_after_bookmarks :
  map Qred
      (Aux.percentsOf
         (Scraper.trace (snd (Scraper.scrapeAll Sample.calmEnv "reader"
                                                (Sample.optionsFor "both")
                                                (Scraper.start false)))))
  = [0; 5; 30; 32; 42; 30; 30; 60; 95]%Q
  /\ Aux.nondecreasing
       (Aux.percentsOf
          (Scraper.trace (snd (Scraper.scrapeAll Sample.calmEnv "reader"
                                                 (Sample.optionsFor "both")
                                                 (Scraper.start false)))))
     = false
  /\ (exists items failed message,
        fst (Scraper.scrapeAll Sample.calmEnv "reader"
                               (Sample.optionsFor "both") (Scraper.start false))
        = Scraper.Ok (Scraper.Success items 2 failed message))
  /\ (forall env username options flag items totalWorks failed message s',
        Scraper.dflt (Scraper.o_source options) "both" = "both" ->
        Scraper.scrapeAll env username options (Scraper.start flag)
        = (Scraper.Ok (Scraper.Success items totalWorks failed message), s') ->
        items <> [] ->
        Aux.nondecreasing (Aux.percentsOf (Scraper.trace s')) = false).
Proof.
  split; [vm_compute; reflexivity|].
  split; [vm_compute; reflexivity|].
  split; [eexists _, _, _; vm_compute; reflexivity|].
  intros env username options flag items totalWorks failed message s'
         Hsource Hrun Hitems.
  exact (triple_scrapeAll_both env username options Hsource _ _ _ I Hrun Hitems).
Qed.

(* ================================================================== *)
(** * Further properties of the code *)
(* ================================================================== *)

(** ** Counting maps and rankings *)

Section KeysInOrder.
Import Js Aux Props.

Lemma filter_ext_in_list {A : Type} (f g : A -> bool) (l : list A) :
  (forall x, In x l -> f x = g x) -> filter f l = filter g l.
Proof.
  induction l as [|a l IH]; simpl; intros H; [reflexivity|].
  rewrite (H a) by now left.
  rewrite IH; [reflexivity|]. intros x Hx. apply H. now right.
Qed.

Lemma filter_filter {A : Type} (f g : A -> bool) (l : list A) :
  filter f (filter g l) = filter (fun x => (g x && f x)%bool) l.
Proof.
  induction l as [|a l IH]; simpl; [reflexivity|].
  destruct (g a); simpl; [destruct (f a)|]; now rewrite IH.
Qed.

Lemma arr_includes_app (l1 l2 : list string) (x : string) :
  arr_includes (l1 ++ l2)%list x = (arr_includes l1 x || arr_includes l2 x)%bool.
Proof. unfold arr_includes. apply existsb_app. Qed.

Lemma firsts_In (l : list string) (x : string) : In x (firsts l) <-> In x l.
Proof.
  induction l as [|a l IH]; simpl; [tauto|].
  rewrite filter_In, IH.
  destruct (String.eqb_spec x a) as [->|Hne]; simpl.
  - intuition.
  - intuition congruence.
Qed.

Lemma firsts_NoDup (l : list string) : NoDup (firsts l).
Proof.
  induction l as [|a l IH]; simpl; constructor.
  - rewrite filter_In. intros [_ H]. now rewrite String.eqb_refl in H.
  - now apply NoDup_filter.
Qed.

Context {V X : Type} (key : X -> string) (step : JsMap V -> X -> JsMap V).
Hypothesis step_keys : forall m x,
  map fst (step m x)
  = if map_has (key x) m then map fst m else (map fst m ++ [key x])%list.

Lemma map_has_keys (m : JsMap V) (k : string) :
  map_has k m = arr_includes (map fst m) k.
Proof.
  unfold map_has, arr_includes. induction m as [|[k' v] m IH]; simpl.
  - reflexivity.
  - destruct (k =? k')%string; [reflexivity | exact IH].
Qed.

(** The keys of a map filled by a loop with [set]: the keys it had, then
    the new ones in the order of their first appearance. *)
Lemma fold_keys (xs : list X) : forall m,
  map fst (fold_left step xs m)
  = (map fst m
     ++ filter (fun k => negb (arr_includes (map fst m) k))
               (firsts (map key xs)))%list.
Proof.
  induction xs as [|x xs IH]; intros m; simpl.
  - now rewrite app_nil_r.
  - rewrite IH, step_keys, map_has_keys.
    destruct (arr_includes (map fst m) (key x)) eqn:Hhas; simpl.
    + f_equal. rewrite filter_filter. apply filter_ext_in_list.
      intros k _. destruct (String.eqb_spec k (key x)) as [->|Hne]; simpl.
      * now rewrite Hhas.
      * reflexivity.
    + rewrite <- app_assoc. simpl. f_equal. f_equal.
      rewrite filter_filter. apply filter_ext_in_list.
      intros k _. rewrite arr_includes_app. unfold arr_includes at 2. simpl.
      rewrite orb_false_r.
      destruct (String.eqb_spec k (key x)) as [->|Hne]; simpl.
      * rewrite Hhas. reflexivity.
      * destruct (arr_includes (map fst m) k); reflexivity.
Qed.
End KeysInOrder.

Section CountingMaps.
Import Js Aux Props Analyzer.

(** The loop of [countOccurrences] skips the empty strings. *)
Lemma countOccurrences_named (items : list string) : forall counts : JsMap Z,
  fold_left
    (fun counts item =>
       if truthy item
       then map_set item (num_or (map_get item counts) 0 + 1) counts
       else counts)
    items counts
  = fold_left
      (fun counts item =>
         map_set item (num_or (map_get item counts) 0 + 1) counts)
      (named items) counts.
Proof.
  induction items as [|item items IH]; intros counts; simpl; [reflexivity|].
  unfold named. simpl. destruct (truthy item); simpl; apply IH.
Qed.

Lemma countOccurrences_keys (items : list string) :
  map fst (countOccurrences items) = firsts (named items).
Proof.
  unfold countOccurrences. rewrite countOccurrences_named.
  rewrite (fold_keys (fun item : string => item)
             (fun counts item =>
                map_set item (num_or (map_get item counts) 0 + 1) counts)).
  - rewrite map_id. cbn [map app].
    induction (firsts (named items)) as [|a l IH]; simpl in *; congruence.
  - intros m x. apply map_keys_set.
Qed.

Lemma sum_values_set (m : JsMap Z) (k : string) :
  sumZ (map snd (map_set k (num_or (map_get k m) 0 + 1) m))
  = sumZ (map snd m) + 1.
Proof.
  unfold sumZ in *. induction m as [|[k' v] m IH]; cbn [map_set map_get].
  - reflexivity.
  - destruct (String.eqb_spec k k') as [->|Hne]; cbn [map fold_right snd].
    + unfold num_or. destruct (Z.eqb_spec v 0); lia.
    + rewrite IH. lia.
Qed.

Lemma countOccurrences_sum (items : list string) :
  sumZ (map snd (countOccurrences items)) = len (named items).
Proof.
  unfold countOccurrences. rewrite countOccurrences_named.
  assert (H : forall l (m : JsMap Z),
             sumZ (map snd
                     (fold_left
                        (fun counts item =>
                           map_set item (num_or (map_get item counts) 0 + 1)
                                   counts) l m))
             = sumZ (map snd m) + len l).
  { induction l as [|a l IH]; intros m; simpl.
    - unfold len. simpl. lia.
    - rewrite IH, sum_values_set, len_cons. lia. }
  rewrite H. simpl. lia.
Qed.

Lemma named_In (items : list string) (k : string) :
  In k (named items) <-> In k items /\ truthy k = true.
Proof. unfold named. apply filter_In. Qed.
End CountingMaps.

(** X1. countOccurrences returns a map whose keys are the distinct
    non-empty strings of the array, in the order of their first
    appearance; the value of a key is the number of its occurrences, which
    is at least one; the values sum to the number of non-empty strings of
    the array; and a string that is empty or not in the array has no
    entry. *)
Theorem countOccurrences_counts_each_name (items : list string) :
  map fst (Analyzer.countOccurrences items) = Props.firsts (Props.named items)
  /\ (forall k c, In (k, c) (Analyzer.countOccurrences items) ->
                  c = Aux.occ k items /\ 1 <= c)
  /\ Aux.sumZ (map snd (Analyzer.countOccurrences items))
     = Js.len (Props.named items)
  /\ (forall k, ~ In k (Props.named items) ->
                Js.map_get k (Analyzer.countOccurrences items) = None).
Proof.
  split; [apply countOccurrences_keys|].
  split; [|split; [apply countOccurrences_sum|]].
  - intros k c Hin.
    destruct (countOccurrences_entry items k c Hin) as [Hk ->].
    split; [reflexivity|].
    apply occ_In_pos.
    assert (Hkey : In k (map fst (Analyzer.countOccurrences items))).
    { apply in_map_iff. now exists (k, Aux.occ k items). }
    rewrite countOccurrences_keys in Hkey.
    apply (proj1 (firsts_In _ _)) in Hkey.
    apply (proj1 (named_In _ _)) in Hkey. tauto.
  - intros k Hk. apply map_get_None_keys.
    rewrite countOccurrences_keys. intros Hin. apply Hk.
    exact (proj1 (firsts_In _ _) Hin).
Qed.

(** ** More facts about [sort] with a comparator [key b - key a] *)

Section SortOrder.
Import Js Props.
Context {A : Type} (key : A -> Z).

Let cmp (a b : A) : Z := key b - key a.

Lemma insert_perm (x : A) (l : list A) : Permutation (insert cmp x l) (x :: l).
Proof.
  induction l as [|y l IH]; simpl; [reflexivity|].
  destruct (cmp x y <=? 0); [reflexivity|].
  rewrite IH. apply perm_swap.
Qed.

Lemma sort_perm (l : list A) : Permutation (sort cmp l) l.
Proof.
  induction l as [|x l IH]; simpl; [reflexivity|].
  rewrite insert_perm. now constructor.
Qed.

(** The sort is stable: the elements of one key keep their order. *)
Lemma insert_stable (c : Z) (x : A) (l : list A) :
  filter (fun e => key e =? c) (insert cmp x l)
  = ((if key x =? c then [x] else [])
     ++ filter (fun e => key e =? c) l)%list.
Proof.
  induction l as [|y l IH]; simpl; [now destruct (key x =? c)|].
  destruct (Z.leb_spec (cmp x y) 0) as [Hle|Hgt]; simpl.
  - now destruct (key x =? c).
  - rewrite IH. unfold cmp in Hgt.
    destruct (Z.eqb_spec (key x) c), (Z.eqb_spec (key y) c);
      try reflexivity; lia.
Qed.

Lemma sort_stable (c : Z) (l : list A) :
  filter (fun e => key e =? c) (sort cmp l) = filter (fun e => key e =? c) l.
Proof.
  induction l as [|x l IH]; simpl; [reflexivity|].
  rewrite insert_stable, IH. now destruct (key x =? c).
Qed.

(** The first element of the sorted array is the first of the elements
    with the greatest key. *)
Lemma sort_head_first (l : list A) (h : A) :
  nth_error (sort cmp l) 0 = Some h -> firstMax key l h.
Proof.
  unfold cmp. revert h. induction l as [|x l IH]; intros h; simpl; [discriminate|].
  destruct (sort (fun a b => key b - key a) l) as [|y s] eqn:Hsort.
  - simpl. intros [= <-].
    assert (l = []) as -> by (apply (sort_head_None key); now rewrite Hsort).
    exists [], []. repeat split; intros ? [].
  - simpl. destruct (Z.leb_spec (key y - key x) 0) as [Hle|Hgt]; simpl;
      intros [= <-].
    + destruct (sort_head_max key l y) as [_ Hmax]; [now rewrite Hsort|].
      exists [], l. repeat split; [intros ? []|].
      intros z Hz. specialize (Hmax z Hz). lia.
    + destruct (IH y eq_refl) as (before & after & -> & Hb & Ha).
      exists (x :: before), after. repeat split; [| exact Ha].
      intros z [<-|Hz]; [lia | now apply Hb].
Qed.

Lemma firstn_prefix_filter (f : A -> bool) (n : nat) (l : list A) :
  exists tail, filter f l = (filter f (firstn n l) ++ tail)%list.
Proof.
  exists (filter f (skipn n l)).
  now rewrite <- filter_app, firstn_skipn.
Qed.

Lemma sorted_firstn_skipn (n : nat) (l : list A) :
  StronglySorted (fun a b => key b <= key a) l ->
  forall e e', In e (firstn n l) -> In e' (skipn n l) -> key e' <= key e.
Proof.
  intros Hs. revert n. induction Hs as [|z l Hs IH Hall]; intros [|n] e e';
    simpl; try tauto.
  intros [<-|He] He'.
  - apply (proj1 (Forall_forall _ _) Hall).
    revert He'. clear. revert l. induction n as [|n IHn]; intros [|b l]; simpl;
      try tauto.
    intros H. right. now apply IHn.
  - now apply (IH n).
Qed.
End SortOrder.

(** X2. For a limit that is not negative, getTopN returns min(limit,
    size) entries of the map, in non-increasing order of their counts;
    every entry it leaves out has a count no greater than the counts it
    returns; and among the entries of one count it returns the first ones
    of the map, in the order of the map. *)
Theorem getTopN_ranks_by_count (m : Js.JsMap Z) (limit : Z) :
  0 <= limit ->
  Js.len (Analyzer.getTopN m limit) = Z.min limit (Js.len m)
  /\ StronglySorted (fun a b => snd b <= snd a) (Analyzer.getTopN m limit)
  /\ (exists rest,
        Permutation m (Analyzer.getTopN m limit ++ rest)
        /\ forall e e', In e (Analyzer.getTopN m limit) -> In e' rest ->
                        snd e' <= snd e)
  /\ (forall count, exists tail,
        filter (fun e => snd e =? count) m
        = (filter (fun e => snd e =? count) (Analyzer.getTopN m limit)
           ++ tail)%list).
Proof.
  intros Hlimit. unfold Analyzer.getTopN, Js.slice0, Js.map_entries.
  set (sorted := Js.sort (fun a b => snd b - snd a) m).
  assert (Hperm : Permutation sorted m) by apply (sort_perm snd).
  assert (Hsorted : StronglySorted (fun a b => snd b <= snd a) sorted)
    by apply (sort_sorted snd).
  split; [|split; [|split]].
  - unfold Js.len. rewrite length_firstn.
    rewrite (Permutation_length Hperm). lia.
  - now apply (firstn_sorted snd).
  - exists (skipn (Z.to_nat limit) sorted). split.
    + rewrite firstn_skipn. now symmetry.
    + now apply (sorted_firstn_skipn snd).
  - intros count. rewrite <- (sort_stable snd count m).
    apply firstn_prefix_filter.
Qed.

Lemma getTopN_ranks_by_count_witness :
  Js.len (Analyzer.getTopN [("a", 1); ("b", 3); ("c", 1); ("d", 3)] 3)
  = Z.min 3 (Js.len [("a", 1); ("b", 3); ("c", 1); ("d", 3)])
  /\ Analyzer.getTopN [("a", 1); ("b", 3); ("c", 1); ("d", 3)] 3
     = [("b", 3); ("d", 3); ("a", 1)].
Proof.
  split.
  - apply (getTopN_ranks_by_count [("a", 1); ("b", 3); ("c", 1); ("d", 3)] 3).
    lia.
  - reflexivity.
Defined.

Section Leaders.
Import Js Aux Props Analyzer.

Lemma firsts_nil (l : list string) : firsts l = [] -> l = [].
Proof. destruct l; [reflexivity | discriminate]. Qed.

(** The first entry of a ranking leads the count. *)
Lemma first_or_leads (items : list string) (n : Z) :
  1 <= n ->
  leads items (first_or (getTopN (countOccurrences items) n) ("Unknown", 0)).
Proof.
  intros Hn. pose proof (countOccurrences_keys items) as Hkeys.
  unfold getTopN, slice0, map_entries.
  destruct (Z.to_nat n) as [|n'] eqn:Hnat; [lia|].
  destruct (sort (fun a b => snd b - snd a) (countOccurrences items))
    as [|top s] eqn:Hsort.
  - left. split; [|reflexivity].
    assert (Hnil : countOccurrences items = [])
      by (apply (sort_head_None snd); now rewrite Hsort).
    rewrite Hnil in Hkeys. simpl in Hkeys. now apply firsts_nil.
  - right. simpl.
    destruct (sort_head_first snd (countOccurrences items) top)
      as (before & after & Hm & Hb & Ha); [now rewrite Hsort|].
    assert (Hocc : forall k c, In (k, c) (countOccurrences items) ->
                               c = occ k items)
      by (intros k c Hin; now destruct (countOccurrences_entry items k c Hin)).
    exists (map fst before), (map fst after).
    rewrite <- Hkeys, Hm, map_app. simpl.
    assert (Htop : snd top = occ (fst top) items).
    { apply Hocc. rewrite Hm. destruct top. apply in_or_app. right. now left. }
    repeat split; [exact Htop | |].
    + intros k Hk. apply in_map_iff in Hk. destruct Hk as ([k' c] & <- & Hin).
      simpl. rewrite <- (Hocc k' c).
      * exact (Hb _ Hin).
      * rewrite Hm. apply in_or_app. now left.
    + intros k Hk. apply in_map_iff in Hk. destruct Hk as ([k' c] & <- & Hin).
      simpl. rewrite <- (Hocc k' c).
      * exact (Ha _ Hin).
      * rewrite Hm. apply in_or_app. right. now right.
Qed.
End Leaders.

(** X3. For every non-empty collection, the top fandom, ship, character,
    freeform tag and author that analyze reports each lead their count:
    the entry is the most frequent name of its kind with the number of its
    occurrences over all the works, the one that appears first among
    equally frequent names; it is the placeholder ("Unknown", 0) when the
    works carry no non-empty name of that kind. The freeform tags are
    counted without the five markup words that analyze excludes. *)
Theorem top_entries_lead_their_counts (works : list Work) :
  works <> [] ->
  exists stats,
    Analyzer.analyze works = Analyzer.Populated stats
    /\ Props.leads (flat_map fandoms works) (Analyzer.topFandom stats)
    /\ Props.leads (flat_map relationships works) (Analyzer.topShip stats)
    /\ Props.leads (flat_map characters works) (Analyzer.topCharacter stats)
    /\ Props.leads
         (filter (fun tag => negb (Js.arr_includes Analyzer.tagsToExclude tag))
                 (flat_map freeformTags works))
         (Analyzer.topTag stats)
    /\ Props.leads (flat_map authors works) (Analyzer.topAuthor stats).
Proof.
  intros Hne. pose proof (len_pos works Hne) as Hpos.
  unfold Analyzer.analyze.
  destruct (Z.eqb_spec (Js.len works) 0) as [H0|_]; [lia|].
  eexists. split; [reflexivity|].
  cbn [Analyzer.topFandom Analyzer.topShip Analyzer.topCharacter
       Analyzer.topTag Analyzer.topAuthor].
  repeat split; apply first_or_leads; lia.
Qed.

Lemma top_entries_lead_their_counts_witness :
  exists stats,
    Analyzer.analyze Sample.threeWorks = Analyzer.Populated stats
    /\ Props.leads (flat_map fandoms Sample.threeWorks)
                   (Analyzer.topFandom stats)
    /\ Props.leads (flat_map relationships Sample.threeWorks)
                   (Analyzer.topShip stats)
    /\ Props.leads (flat_map characters Sample.threeWorks)
                   (Analyzer.topCharacter stats)
    /\ Props.leads
         (filter (fun tag => negb (Js.arr_includes Analyzer.tagsToExclude tag))
                 (flat_map freeformTags Sample.threeWorks))
         (Analyzer.topTag stats)
    /\ Props.leads (flat_map authors Sample.threeWorks)
                   (Analyzer.topAuthor stats).
Proof.
  apply (top_entries_lead_their_counts Sample.threeWorks). discriminate.
Defined.

(** ** The statistics of the Aggregator *)

Section AnalyzeFacts.
Import Js Aux Props Analyzer.

Lemma len_filter_le {A : Type} (f : A -> bool) (l : list A) :
  0 <= len (filter f l) <= len l.
Proof.
  unfold len. pose proof (filter_length_le f l). lia.
Qed.

(** The rounded percentage of a part of a whole is a percentage. *)
Lemma percentOf_range (c n : Z) :
  0 <= c <= n -> 0 < n -> isPercent (percentOf c n).
Proof.
  intros Hc Hn. unfold isPercent. rewrite percentOf_div by exact Hn. split.
  - apply Z.div_pos; lia.
  - assert ((200 * c + n) / (2 * n) < 101); [|lia].
    apply Z.div_lt_upper_bound; lia.
Qed.

Lemma occ_le_len (k : string) (items : list string) : occ k items <= len items.
Proof. unfold occ. apply len_filter_le. Qed.

(** [Math.round(a / b)] on integers. *)
Lemma Math_round_div (a b : Z) :
  0 < b -> Math_round (inject_Z a / inject_Z b) = (2 * a + b) / (2 * b).
Proof.
  intros Hb. destruct b as [|p|p]; try lia.
  remember ((2 * a + Z.pos p) / (2 * Z.pos p)) as rhs eqn:Hrhs.
  unfold Math_round, Qfloor, Qdiv, Qmult, Qplus, Qinv, inject_Z.
  simpl. subst rhs. f_equal; lia.
Qed.

(** A rounded quotient is within one half of the exact one. *)
Lemma Math_round_near (a b : Z) :
  0 < b ->
  2 * a - b < 2 * b * Math_round (inject_Z a / inject_Z b) <= 2 * a + b.
Proof.
  intros Hb. rewrite Math_round_div by exact Hb.
  pose proof (Z.mul_div_le (2 * a + b) (2 * b) ltac:(lia)).
  pose proof (Z.mul_succ_div_gt (2 * a + b) (2 * b) ltac:(lia)).
  lia.
Qed.

Lemma fold_sum (l : list Z) : forall acc,
  fold_left (fun sum w => sum + w) l acc = acc + sumZ l.
Proof.
  induction l as [|a l IH]; intros acc; simpl; [lia|].
  rewrite IH. unfold sumZ. lia.
Qed.

Lemma fold_sum_by {A : Type} (f : A -> Z) (l : list A) : forall acc,
  fold_left (fun sum w => sum + f w) l acc = acc + sumZ (map f l).
Proof.
  induction l as [|a l IH]; intros acc; simpl; [lia|].
  rewrite IH. unfold sumZ. lia.
Qed.

(** The accumulator of [reduce((max, r) => key(r) > key(max) ? r : max)]
    is the first of the greatest elements seen. *)
Lemma reduce_first_max {A : Type} (key : A -> Z) (l : list A) :
  forall seen acc,
    firstMax key seen acc ->
    firstMax key (seen ++ l)
             (fold_left (fun max r => if key r >? key max then r else max)
                        l acc).
Proof.
  induction l as [|r l IH]; intros seen acc Hacc; simpl.
  - now rewrite app_nil_r.
  - replace (seen ++ r :: l)%list with ((seen ++ [r]) ++ l)%list
      by (now rewrite <- app_assoc).
    apply IH. destruct Hacc as (before & after & -> & Hb & Ha).
    destruct (Z.gtb_spec (key r) (key acc)) as [Hgt|Hle].
    + exists (before ++ acc :: after)%list, []. repeat split.
      * intros x Hx. apply in_app_or in Hx.
        destruct Hx as [Hx|[<-|Hx]]; [specialize (Hb x Hx) | | specialize (Ha x Hx)];
          lia.
      * intros x [].
    + exists before, (after ++ [r])%list. repeat split.
      * now rewrite <- app_assoc.
      * exact Hb.
      * intros x Hx. apply in_app_or in Hx.
        destruct Hx as [Hx|[<-|[]]]; [now apply Ha | lia].
Qed.
End AnalyzeFacts.

(** X4. For every non-empty collection, the completion statistics of
    analyze split the works in three: complete counts the works whose
    complete flag is true, wip those whose flag is false, and unknown,
    which the code gets by subtraction, is exactly the number of works
    without a flag; the three counts add up to totalWorks. *)
Theorem completion_counts_partition (works : list Work) :
  works <> [] ->
  exists stats,
    Analyzer.analyze works = Analyzer.Populated stats
    /\ Analyzer.cs_complete (Analyzer.completionStats stats)
       = Js.len (filter (Props.completion (Some true)) works)
    /\ Analyzer.cs_wip (Analyzer.completionStats stats)
       = Js.len (filter (Props.completion (Some false)) works)
    /\ Analyzer.cs_unknown (Analyzer.completionStats stats)
       = Js.len (filter (Props.completion None) works)
    /\ Analyzer.cs_complete (Analyzer.completionStats stats)
       + Analyzer.cs_wip (Analyzer.completionStats stats)
       + Analyzer.cs_unknown (Analyzer.completionStats stats)
       = Analyzer.totalWorks stats.
Proof.
  intros Hne. pose proof (len_pos works Hne) as Hpos.
  unfold Analyzer.analyze.
  destruct (Z.eqb_spec (Js.len works) 0) as [H0|_]; [lia|].
  eexists. split; [reflexivity|].
  cbn [Analyzer.completionStats Analyzer.cs_complete Analyzer.cs_wip
       Analyzer.cs_unknown Analyzer.totalWorks].
  assert (Hc : filter (fun w => match complete w with
                                | Some true => true
                                | _ => false
                                end) works
               = filter (Props.completion (Some true)) works).
  { apply filter_ext. intros w. unfold Props.completion.
    now destruct (complete w) as [[|]|]. }
  assert (Hw : filter (fun w => match complete w with
                                | Some false => true
                                | _ => false
                                end) works
               = filter (Props.completion (Some false)) works).
  { apply filter_ext. intros w. unfold Props.completion.
    now destruct (complete w) as [[|]|]. }
  rewrite Hc, Hw.
  assert (Hsum : Js.len (filter (Props.completion (Some true)) works)
                 + Js.len (filter (Props.completion (Some false)) works)
                 + Js.len (filter (Props.completion None) works)
                 = Js.len works).
  { clear. induction works as [|w works IH]; [reflexivity|].
    rewrite len_cons, !len_filter_cons. unfold Props.completion at 1 3 5.
    destruct (complete w) as [[|]|]; lia. }
  repeat split; lia.
Qed.

Lemma completion_counts_partition_witness :
  exists stats,
    Analyzer.analyze Sample.threeWorks = Analyzer.Populated stats
    /\ Analyzer.cs_complete (Analyzer.completionStats stats)
       = Js.len (filter (Props.completion (Some true)) Sample.threeWorks)
    /\ Analyzer.cs_wip (Analyzer.completionStats stats)
       = Js.len (filter (Props.completion (Some false)) Sample.threeWorks)
    /\ Analyzer.cs_unknown (Analyzer.completionStats stats)
       = Js.len (filter (Props.completion None) Sample.threeWorks)
    /\ Analyzer.cs_complete (Analyzer.completionStats stats)
       + Analyzer.cs_wip (Analyzer.completionStats stats)
       + Analyzer.cs_unknown (Analyzer.completionStats stats)
       = Analyzer.totalWorks stats.
Proof.
  apply (completion_counts_partition Sample.threeWorks). discriminate.
Defined.

(** X5. For every non-empty collection, analyze reports as longestWork
    the first of the works with the greatest word count (an absent count
    taken as 0), as mostReRead the first of the works with the greatest
    visit count (an absent or zero count taken as 1), and as
    mostKudosedWork the first of the works with the most kudos (absent
    taken as 0); none of the three is null. *)
Theorem superlatives_are_first_maxima (works : list Work) :
  works <> [] ->
  exists stats longest reread kudosed,
    Analyzer.analyze works = Analyzer.Populated stats
    /\ Analyzer.longestWork stats = Some longest
    /\ Props.firstMax Props.wordsOf works longest
    /\ Analyzer.mostReRead stats = Some reread
    /\ Props.firstMax Props.revisits works reread
    /\ Analyzer.mostKudosedWork stats = Some kudosed
    /\ Props.firstMax Props.kudosOf works kudosed.
Proof.
  intros Hne. pose proof (len_pos works Hne) as Hpos.
  unfold Analyzer.analyze.
  destruct (Z.eqb_spec (Js.len works) 0) as [H0|_]; [lia|].
  assert (Hhead : forall key : Work -> Z,
             exists h, nth_error (Js.sort (fun a b => key b - key a) works) 0
                       = Some h).
  { intros key.
    destruct (nth_error (Js.sort (fun a b => key b - key a) works) 0) as [h|]
      eqn:Hh; [now exists h|].
    exfalso. apply Hne. now apply (sort_head_None key). }
  destruct (Hhead Props.wordsOf) as [longest Hl].
  destruct (Hhead Props.revisits) as [reread Hr].
  destruct (Hhead Props.kudosOf) as [kudosed Hk].
  eexists. exists longest, reread, kudosed. split; [reflexivity|].
  cbn [Analyzer.longestWork Analyzer.mostReRead Analyzer.mostKudosedWork].
  repeat split; try assumption; now apply sort_head_first.
Qed.

Lemma superlatives_are_first_maxima_witness :
  exists stats longest reread kudosed,
    Analyzer.analyze Sample.threeWorks = Analyzer.Populated stats
    /\ Analyzer.longestWork stats = Some longest
    /\ Props.firstMax Props.wordsOf Sample.threeWorks longest
    /\ Analyzer.mostReRead stats = Some reread
    /\ Props.firstMax Props.revisits Sample.threeWorks reread
    /\ Analyzer.mostKudosedWork stats = Some kudosed
    /\ Props.firstMax Props.kudosOf Sample.threeWorks kudosed.
Proof.
  apply (superlatives_are_first_maxima Sample.threeWorks). discriminate.
Defined.

(** X6. For every non-empty collection, the hidden gem of analyze is a
    work with fewer than 100 kudos that was visited twice or more, none of
    the works with fewer than 100 kudos was visited more often, and it is
    the first such work of the collection; it is null exactly when no work
    has fewer than 100 kudos and two visits or more. *)
Theorem hiddenGem_is_most_visited_obscure_work (works : list Work) :
  works <> [] ->
  exists stats,
    Analyzer.analyze works = Analyzer.Populated stats
    /\ match Analyzer.hiddenGem stats with
       | Some gem =>
           In gem works
           /\ Props.kudosOf gem < 100
           /\ 2 <= Props.revisits gem
           /\ (forall w, In w works -> Props.kudosOf w < 100 ->
                         Props.revisits w <= Props.revisits gem)
           /\ Props.firstMax Props.revisits
                (filter (fun w => (Props.kudosOf w <? 100)
                                  && (Props.revisits w >=? 2))%bool works)
                gem
       | None =>
           forall w, In w works -> Props.kudosOf w < 100 -> Props.revisits w < 2
       end.
Proof.
  intros Hne. pose proof (len_pos works Hne) as Hpos.
  unfold Analyzer.analyze.
  destruct (Z.eqb_spec (Js.len works) 0) as [H0|_]; [lia|].
  eexists. split; [reflexivity|].
  cbn [Analyzer.hiddenGem].
  change (fun w : Work =>
            ((Js.num_or (kudos w) 0 <? 100)
             && (Js.num_or (visitCount w) 1 >=? 2))%bool)
    with (fun w => ((Props.kudosOf w <? 100) && (Props.revisits w >=? 2))%bool).
  set (gems := filter (fun w => ((Props.kudosOf w <? 100)
                                 && (Props.revisits w >=? 2))%bool) works).
  assert (Hgems : forall w, In w gems <->
                    In w works /\ Props.kudosOf w < 100 /\ 2 <= Props.revisits w).
  { intros w. unfold gems. rewrite filter_In, andb_true_iff.
    rewrite Z.ltb_lt, Z.geb_le. tauto. }
  destruct (nth_error (Js.sort (fun a b => Js.num_or (visitCount b) 1
                                           - Js.num_or (visitCount a) 1) gems) 0)
    as [gem|] eqn:Hgem.
  - destruct (sort_head_max Props.revisits gems gem Hgem) as [Hin Hmax].
    pose proof (sort_head_first Props.revisits gems gem Hgem) as Hfirst.
    destruct (proj1 (Hgems gem) Hin) as (Hw & Hk & Hv).
    repeat split; try assumption.
    intros w Hw' Hk'.
    destruct (Z.lt_ge_cases (Props.revisits w) 2) as [Hlt|Hge]; [lia|].
    apply Hmax. apply Hgems. tauto.
  - intros w Hw Hk.
    destruct (Z.lt_ge_cases (Props.revisits w) 2) as [Hlt|Hge]; [exact Hlt|].
    assert (Hnil : gems = []) by now apply (sort_head_None Props.revisits).
    assert (Hin : In w gems) by (apply Hgems; tauto).
    rewrite Hnil in Hin. contradiction.
Qed.

Lemma hiddenGem_is_most_visited_obscure_work_witness :
  exists stats,
    Analyzer.analyze Sample.threeWorks = Analyzer.Populated stats
    /\ match Analyzer.hiddenGem stats with
       | Some gem =>
           In gem Sample.threeWorks
           /\ Props.kudosOf gem < 100
           /\ 2 <= Props.revisits gem
           /\ (forall w, In w Sample.threeWorks -> Props.kudosOf w < 100 ->
                         Props.revisits w <= Props.revisits gem)
           /\ Props.firstMax Props.revisits
                (filter (fun w => (Props.kudosOf w <? 100)
                                  && (Props.revisits w >=? 2))%bool
                        Sample.threeWorks)
                gem
       | None =>
           forall w, In w Sample.threeWorks -> Props.kudosOf w < 100 ->
                     Props.revisits w < 2
       end.
Proof.
  apply (hiddenGem_is_most_visited_obscure_work Sample.threeWorks). discriminate.
Defined.

(** X7. For every non-empty collection, the rating breakdown of analyze
    lists the five ratings in the fixed order Explicit, Mature, Teen And Up
    Audiences, General Audiences, Not Rated, each with the number of works
    of that rating; and favoriteRating, which is never null, is the first
    entry of that list with the greatest count (so it is Explicit with
    count 0 when no work has one of the five ratings). *)
Theorem favoriteRating_is_first_most_common (works : list Work) :
  works <> [] ->
  exists stats favorite,
    Analyzer.analyze works = Analyzer.Populated stats
    /\ map Analyzer.re_rating (Analyzer.ratingBreakdown stats)
       = Analyzer.ratingOrder
    /\ (forall entry, In entry (Analyzer.ratingBreakdown stats) ->
          Analyzer.re_count entry
          = Aux.occ (Analyzer.re_rating entry) (Analyzer.ratingsOf works))
    /\ Analyzer.favoriteRating stats = Some favorite
    /\ Props.firstMax Analyzer.re_count (Analyzer.ratingBreakdown stats)
                      favorite.
Proof.
  intros Hne. pose proof (len_pos works Hne) as Hpos.
  unfold Analyzer.analyze.
  destruct (Z.eqb_spec (Js.len works) 0) as [H0|_]; [lia|].
  destruct (Analyzer.ratingBreakdownOf works) as [|r0 rest] eqn:Hrb;
    [discriminate|].
  eexists.
  exists (fold_left (fun max r => if Analyzer.re_count r >? Analyzer.re_count max
                                  then r else max) rest r0).
  split; [reflexivity|].
  cbn [Analyzer.ratingBreakdown Analyzer.favoriteRating].
  split; [now rewrite <- Hrb|]. split.
  - intros entry Hin. rewrite <- Hrb in Hin.
    unfold Analyzer.ratingBreakdownOf in Hin.
    apply in_map_iff in Hin. destruct Hin as (r & <- & Hr).
    cbn [Analyzer.re_count Analyzer.re_rating].
    apply (countOf_countOccurrences (Analyzer.ratingsOf works) r).
    unfold Analyzer.ratingOrder in Hr. simpl in Hr.
    destruct Hr as [<-|[<-|[<-|[<-|[<-|[]]]]]]; reflexivity.
  - split.
    + cbn [fold_left]. now rewrite Z.gtb_ltb, Z.ltb_irrefl.
    + apply (reduce_first_max Analyzer.re_count rest [r0] r0).
      exists [], []. repeat split; intros ? [].
Qed.

Lemma favoriteRating_is_first_most_common_witness :
  exists stats favorite,
    Analyzer.analyze Sample.unrated = Analyzer.Populated stats
    /\ map Analyzer.re_rating (Analyzer.ratingBreakdown stats)
       = Analyzer.ratingOrder
    /\ (forall entry, In entry (Analyzer.ratingBreakdown stats) ->
          Analyzer.re_count entry
          = Aux.occ (Analyzer.re_rating entry)
                    (Analyzer.ratingsOf Sample.unrated))
    /\ Analyzer.favoriteRating stats = Some favorite
    /\ Props.firstMax Analyzer.re_count (Analyzer.ratingBreakdown stats)
                      favorite.
Proof.
  apply (favoriteRating_is_first_most_common Sample.unrated). discriminate.
Defined.

(** X8. For every non-empty collection, every percentage that analyze
    reports lies between 0 and 100: smutPercentage, the complete and wip
    percentages, the percent of every rating entry and of every length
    band, fluffPercent, angstPercent and the bookmark ratio. *)
Theorem percentages_within_range (works : list Work) :
  works <> [] ->
  exists stats,
    Analyzer.analyze works = Analyzer.Populated stats
    /\ Props.isPercent (Analyzer.smutPercentage stats)
    /\ Props.isPercent
         (Analyzer.cs_completePercent (Analyzer.completionStats stats))
    /\ Props.isPercent (Analyzer.cs_wipPercent (Analyzer.completionStats stats))
    /\ Forall (fun entry => Props.isPercent (Analyzer.re_percent entry))
              (Analyzer.ratingBreakdown stats)
    /\ Forall (fun entry => Props.isPercent (Analyzer.le_percent entry))
              (Analyzer.lengthDistribution stats)
    /\ Props.isPercent (Analyzer.fluffPercent (Analyzer.moodStats stats))
    /\ Props.isPercent (Analyzer.angstPercent (Analyzer.moodStats stats))
    /\ Props.isPercent
         (Analyzer.bookmarkRatio (Analyzer.bookmarkStats stats)).
Proof.
  intros Hne. pose proof (len_pos works Hne) as Hpos.
  assert (Hratings : Js.len (Analyzer.ratingsOf works) = Js.len works).
  { unfold Analyzer.ratingsOf, Js.len. now rewrite length_map. }
  assert (Hocc : forall r, Js.truthy r = true ->
             0 <= Js.num_or (Js.map_get r (Analyzer.countOccurrences
                                             (Analyzer.ratingsOf works))) 0
               <= Js.len works).
  { intros r Hr.
    pose proof (countOf_countOccurrences (Analyzer.ratingsOf works) r Hr) as Hc.
    unfold Aux.countOf in Hc. rewrite Hc, <- Hratings.
    split; [apply occ_nonneg | apply occ_le_len]. }
  unfold Analyzer.analyze.
  destruct (Z.eqb_spec (Js.len works) 0) as [H0|_]; [lia|].
  eexists. split; [reflexivity|].
  cbn [Analyzer.smutPercentage Analyzer.completionStats
       Analyzer.cs_completePercent Analyzer.cs_wipPercent
       Analyzer.ratingBreakdown Analyzer.lengthDistribution
       Analyzer.moodStats Analyzer.bookmarkStats].
  split; [apply percentOf_range; [now apply Hocc | exact Hpos]|].
  split; [apply percentOf_range; [apply len_filter_le | exact Hpos]|].
  split; [apply percentOf_range; [apply len_filter_le | exact Hpos]|].
  split; [|split; [|split; [|split]]].
  - unfold Analyzer.ratingBreakdownOf. apply Forall_map.
    apply Forall_forall. intros r Hr. cbn [Analyzer.re_percent].
    destruct (Z.gtb_spec (Js.len works) 0) as [_|Hle]; [|lia].
    apply percentOf_range; [|exact Hpos]. apply Hocc.
    unfold Analyzer.ratingOrder in Hr. simpl in Hr.
    destruct Hr as [<-|[<-|[<-|[<-|[<-|[]]]]]]; reflexivity.
  - unfold Analyzer.lengthDistributionOf. apply Forall_map.
    apply Forall_forall. intros entry Hin. cbn [Analyzer.le_percent].
    apply percentOf_range; [|exact Hpos].
    unfold Analyzer.lengthBuckets in Hin. simpl in Hin.
    destruct Hin as [<-|[<-|[<-|[<-|[<-|[<-|[]]]]]]]; apply len_filter_le.
  - unfold Analyzer.moodStatsOf. cbn [Analyzer.fluffPercent].
    rewrite moodCounts_counts. cbn [fst snd].
    pose proof (len_filter_le
                  (fun w => Analyzer.hasMood Analyzer.fluffTags (freeformTags w))
                  works) as Hf.
    pose proof (len_filter_le
                  (fun w => Analyzer.hasMood Analyzer.angstTags (freeformTags w))
                  works) as Ha.
    fold (Aux.fluffCountOf works) in Hf. fold (Aux.angstCountOf works) in Ha.
    destruct (Z.gtb_spec (Aux.fluffCountOf works + Aux.angstCountOf works) 0);
      [apply percentOf_range | unfold Props.isPercent]; lia.
  - unfold Analyzer.moodStatsOf. cbn [Analyzer.angstPercent].
    rewrite moodCounts_counts. cbn [fst snd].
    pose proof (len_filter_le
                  (fun w => Analyzer.hasMood Analyzer.fluffTags (freeformTags w))
                  works) as Hf.
    pose proof (len_filter_le
                  (fun w => Analyzer.hasMood Analyzer.angstTags (freeformTags w))
                  works) as Ha.
    fold (Aux.fluffCountOf works) in Hf. fold (Aux.angstCountOf works) in Ha.
    destruct (Z.gtb_spec (Aux.fluffCountOf works + Aux.angstCountOf works) 0)
      as [Hgt|Hle]; [|unfold Props.isPercent; lia].
    assert (Hp : Props.isPercent
                   (Js.percentOf (Aux.fluffCountOf works)
                      (Aux.fluffCountOf works + Aux.angstCountOf works)))
      by (apply percentOf_range; lia).
    unfold Props.isPercent in *. lia.
  - unfold Analyzer.bookmarkStatsOf. cbn [Analyzer.bookmarkRatio].
    destruct (Z.gtb_spec (Js.len works) 0) as [_|Hle]; [|lia].
    apply percentOf_range; [apply len_filter_le | exact Hpos].
Qed.

Lemma percentages_within_range_witness :
  exists stats,
    Analyzer.analyze Sample.eightWorks = Analyzer.Populated stats
    /\ Props.isPercent (Analyzer.smutPercentage stats)
    /\ Props.isPercent
         (Analyzer.cs_completePercent (Analyzer.completionStats stats))
    /\ Props.isPercent (Analyzer.cs_wipPercent (Analyzer.completionStats stats))
    /\ Forall (fun entry => Props.isPercent (Analyzer.re_percent entry))
              (Analyzer.ratingBreakdown stats)
    /\ Forall (fun entry => Props.isPercent (Analyzer.le_percent entry))
              (Analyzer.lengthDistribution stats)
    /\ Props.isPercent (Analyzer.fluffPercent (Analyzer.moodStats stats))
    /\ Props.isPercent (Analyzer.angstPercent (Analyzer.moodStats stats))
    /\ Props.isPercent
         (Analyzer.bookmarkRatio (Analyzer.bookmarkStats stats)).
Proof.
  apply (percentages_within_range Sample.eightWorks). discriminate.
Defined.

Section RareShips.
Import Js Aux Props Analyzer.

Lemma NoDup_map_filter {A B : Type} (g : A -> B) (f : A -> bool) (l : list A) :
  NoDup (map g l) -> NoDup (map g (filter f l)).
Proof.
  induction l as [|a l IH]; simpl; intros Hnd; [constructor|].
  inversion Hnd as [|? ? Hnotin Hnd']; subst.
  destruct (f a); simpl; [constructor|]; auto.
  intros Hin. apply Hnotin. apply in_map_iff in Hin.
  destruct Hin as (x & Hx & Hin). apply filter_In in Hin.
  apply in_map_iff. exists x. tauto.
Qed.

Lemma NoDup_firstn_list {A : Type} (n : nat) (l : list A) :
  NoDup l -> NoDup (firstn n l).
Proof.
  revert l. induction n as [|n IH]; intros [|a l] Hnd; simpl; try constructor.
  - inversion Hnd; subst. intros Hin. now apply firstn_In in Hin.
  - inversion Hnd; subst. now apply IH.
Qed.

(** A counted name has its entry. *)
Lemma countOccurrences_has (items : list string) (k : string) :
  In k items -> truthy k = true ->
  In (k, occ k items) (countOccurrences items).
Proof.
  intros Hin Hk.
  assert (Hkey : In k (map fst (countOccurrences items))).
  { rewrite countOccurrences_keys. apply firsts_In. now apply named_In. }
  apply in_map_iff in Hkey. destruct Hkey as ([k' c] & Hfst & Hentry).
  simpl in Hfst. subst k'.
  now destruct (countOccurrences_entry items k c Hentry) as [_ <-].
Qed.

Lemma rareShips_In (works : list Work) (p : string) :
  In p (rareShipsOf works)
  <-> truthy p = true /\ occ p (flat_map relationships works) = 1.
Proof.
  unfold rareShipsOf, shipCountsOf, map_entries. rewrite in_map_iff. split.
  - intros ([k c] & <- & Hin). apply filter_In in Hin.
    destruct Hin as [Hin Hc]. simpl in *. apply Z.eqb_eq in Hc. subst c.
    destruct (countOccurrences_entry _ _ _ Hin) as [Hk Hocc]. split; auto.
  - intros [Hp Hocc].
    exists (p, occ p (flat_map relationships works)). split; [reflexivity|].
    apply filter_In. split.
    + apply countOccurrences_has; [|exact Hp].
      destruct (in_dec string_dec p (flat_map relationships works)) as [H|H];
        [exact H|].
      exfalso. unfold occ in Hocc.
      rewrite filter_none in Hocc; [discriminate|].
      intros x Hx. destruct (String.eqb_spec p x); [congruence | reflexivity].
    + simpl. now apply Z.eqb_eq.
Qed.
End RareShips.

(** X9. For every non-empty collection, rarestPairs holds at most five
    names, all different, each a non-empty relationship tag that occurs
    exactly once over all the works; it is empty exactly when no
    relationship tag occurs exactly once; and when it is not empty,
    rarestPair is its first name. *)
Theorem rarestPairs_occur_once (works : list Work) :
  works <> [] ->
  exists stats,
    Analyzer.analyze works = Analyzer.Populated stats
    /\ Js.len (Analyzer.rarestPairs stats) <= 5
    /\ NoDup (Analyzer.rarestPairs stats)
    /\ (forall p, In p (Analyzer.rarestPairs stats) ->
          Js.truthy p = true
          /\ Aux.occ p (flat_map relationships works) = 1)
    /\ (Analyzer.rarestPairs stats = [] <->
        forall p, Js.truthy p = true ->
                  Aux.occ p (flat_map relationships works) <> 1)
    /\ (Analyzer.rarestPairs stats <> [] ->
        Analyzer.rarestPair stats = nth_error (Analyzer.rarestPairs stats) 0).
Proof.
  intros Hne. pose proof (len_pos works Hne) as Hpos.
  unfold Analyzer.analyze.
  destruct (Z.eqb_spec (Js.len works) 0) as [H0|_]; [lia|].
  eexists. split; [reflexivity|].
  cbn [Analyzer.rarestPairs Analyzer.rarestPair].
  unfold Js.slice0. change (Z.to_nat 5) with 5%nat.
  split; [|split; [|split; [|split]]].
  - unfold Js.len. rewrite length_firstn. lia.
  - apply NoDup_firstn_list. unfold Analyzer.rareShipsOf.
    apply NoDup_map_filter.
    now destruct (countOccurrences_counting
                    (flat_map relationships works)) as [Hnd _].
  - intros p Hin. apply firstn_In in Hin. now apply rareShips_In.
  - split.
    + intros Hnil p Hp Hocc.
      assert (Hin : In p (Analyzer.rareShipsOf works))
        by (apply rareShips_In; tauto).
      destruct (Analyzer.rareShipsOf works); [contradiction | discriminate].
    + intros Hnone. now rewrite rareShips_none.
  - intros Hsome. unfold Analyzer.rarestPairOf.
    destruct (Analyzer.rareShipsOf works) as [|p rest]; [now elim Hsome|].
    rewrite len_cons. pose proof (len_nonneg rest).
    destruct (Z.gtb_spec (1 + Js.len rest) 0); [reflexivity | lia].
Qed.

Lemma rarestPairs_occur_once_witness :
  exists stats,
    Analyzer.analyze Sample.threeWorks = Analyzer.Populated stats
    /\ Js.len (Analyzer.rarestPairs stats) <= 5
    /\ NoDup (Analyzer.rarestPairs stats)
    /\ (forall p, In p (Analyzer.rarestPairs stats) ->
          Js.truthy p = true
          /\ Aux.occ p (flat_map relationships Sample.threeWorks) = 1)
    /\ (Analyzer.rarestPairs stats = [] <->
        forall p, Js.truthy p = true ->
                  Aux.occ p (flat_map relationships Sample.threeWorks) <> 1)
    /\ (Analyzer.rarestPairs stats <> [] ->
        Analyzer.rarestPair stats = nth_error (Analyzer.rarestPairs stats) 0).
Proof.
  apply (rarestPairs_occur_once Sample.threeWorks). discriminate.
Defined.

(** X10. For every non-empty collection, preferredLength is the label of
    the first of the six length bands, in the order from drabbles to
    novels, that holds the most works; it is never the placeholder. *)
Theorem preferredLength_is_first_fullest_band (works : list Work) :
  works <> [] ->
  exists stats count,
    Analyzer.analyze works = Analyzer.Populated stats
    /\ Props.firstMax snd (Analyzer.lengthBuckets works)
                      (Analyzer.preferredLength stats, count)
    /\ Analyzer.preferredLength stats <> "Unknown".
Proof.
  intros Hne. pose proof (len_pos works Hne) as Hpos.
  unfold Analyzer.analyze.
  destruct (Z.eqb_spec (Js.len works) 0) as [H0|_]; [lia|].
  destruct (Js.sort (fun a b => snd b - snd a) (Analyzer.lengthBuckets works))
    as [|[label count] rest] eqn:Hsort.
  { exfalso.
    assert (Hnil : Analyzer.lengthBuckets works = [])
      by (apply (sort_head_None snd); now rewrite Hsort).
    discriminate. }
  eexists. exists count. split; [reflexivity|].
  cbn [Analyzer.preferredLength fst].
  destruct (sort_head_max snd (Analyzer.lengthBuckets works) (label, count))
    as [Hin _]; [now rewrite Hsort|].
  assert (Hlabel : Js.str_or (Some label) "Unknown" = label
                   /\ label <> "Unknown").
  { unfold Analyzer.lengthBuckets in Hin. simpl in Hin.
    destruct Hin as [H|[H|[H|[H|[H|[H|[]]]]]]]; injection H as <- _;
      split; [reflexivity | discriminate | reflexivity | discriminate
              | reflexivity | discriminate | reflexivity | discriminate
              | reflexivity | discriminate | reflexivity | discriminate]. }
  destruct Hlabel as [-> Hknown]. split; [|exact Hknown].
  apply sort_head_first. now rewrite Hsort.
Qed.

Lemma preferredLength_is_first_fullest_band_witness :
  exists stats count,
    Analyzer.analyze Sample.eightWorks = Analyzer.Populated stats
    /\ Props.firstMax snd (Analyzer.lengthBuckets Sample.eightWorks)
                      (Analyzer.preferredLength stats, count)
    /\ Analyzer.preferredLength stats <> "Unknown".
Proof.
  apply (preferredLength_is_first_fullest_band Sample.eightWorks). discriminate.
Defined.

Section Tropes.
Import Js Aux Props Analyzer.

(** The callback of the trope filter decides [isTrope]. *)
Lemma trope_filter_spec (tag : string) :
  (if existsb (fun ex => includes (toLowerCase tag) (toLowerCase ex))
              tropeExclusions
   then false
   else if (includes tag "/" && negb (includes (toLowerCase tag) "hurt"))%bool
        then false
        else true) = true
  <-> isTrope tag.
Proof.
  unfold isTrope.
  destruct (existsb (fun ex => includes (toLowerCase tag) (toLowerCase ex))
                    tropeExclusions) eqn:Hex.
  - split; [discriminate|]. intros [Hnone _].
    apply existsb_exists in Hex. destruct Hex as (ex & Hin & Hinc).
    rewrite (Hnone ex Hin) in Hinc. discriminate.
  - assert (Hnone : forall ex, In ex tropeExclusions ->
                      includes (toLowerCase tag) (toLowerCase ex) = false).
    { intros ex Hin.
      destruct (includes (toLowerCase tag) (toLowerCase ex)) eqn:Hinc;
        [|reflexivity].
      assert (Hsome : existsb (fun ex => includes (toLowerCase tag)
                                                  (toLowerCase ex))
                              tropeExclusions = true)
        by (apply existsb_exists; now exists ex).
      congruence. }
    destruct (includes tag "/"), (includes (toLowerCase tag) "hurt"); simpl;
      split; try discriminate; tauto.
Qed.
End Tropes.

(** X11. For every non-empty collection, the top trope tag of analyze is
    either the placeholder ("Unknown", 0), when none of the counted
    freeform tags is a trope, or a counted freeform tag with the number of
    its occurrences that is a trope (it contains none of the excluded
    words in any letter case, and a slash only together with the word
    hurt) and occurs at least as often as every other such tag. *)
Theorem topTropeTag_is_most_frequent_trope (works : list Work) :
  works <> [] ->
  exists stats,
    Analyzer.analyze works = Analyzer.Populated stats
    /\ ((Analyzer.topTropeTag stats = ("Unknown", 0)
         /\ forall tag, In tag (Props.countedTags works) ->
                        Js.truthy tag = true -> ~ Props.isTrope tag)
        \/ (Props.isTrope (fst (Analyzer.topTropeTag stats))
            /\ In (fst (Analyzer.topTropeTag stats)) (Props.countedTags works)
            /\ Js.truthy (fst (Analyzer.topTropeTag stats)) = true
            /\ snd (Analyzer.topTropeTag stats)
               = Aux.occ (fst (Analyzer.topTropeTag stats))
                         (Props.countedTags works)
            /\ forall tag, In tag (Props.countedTags works) ->
                           Js.truthy tag = true -> Props.isTrope tag ->
                           Aux.occ tag (Props.countedTags works)
                           <= snd (Analyzer.topTropeTag stats))).
Proof.
  intros Hne. pose proof (len_pos works Hne) as Hpos.
  unfold Analyzer.analyze.
  destruct (Z.eqb_spec (Js.len works) 0) as [H0|_]; [lia|].
  eexists. split; [reflexivity|].
  cbn [Analyzer.topTropeTag]. unfold Analyzer.topTropeTagOf, Js.map_entries.
  fold (Props.countedTags works).
  set (counts := Analyzer.countOccurrences (Props.countedTags works)).
  set (keep := fun entry : string * Z =>
                 if existsb (fun ex => Js.includes (Js.toLowerCase (fst entry))
                                                   (Js.toLowerCase ex))
                            Analyzer.tropeExclusions
                 then false
                 else if (Js.includes (fst entry) "/"
                          && negb (Js.includes (Js.toLowerCase (fst entry))
                                               "hurt"))%bool
                      then false
                      else true).
  assert (Hkeep : forall entry, In entry (filter keep counts) <->
                    In entry counts /\ Props.isTrope (fst entry)).
  { intros entry. rewrite filter_In. unfold keep.
    now rewrite trope_filter_spec. }
  destruct (Js.sort (fun a b => snd b - snd a) (filter keep counts))
    as [|top rest] eqn:Hsort; cbn [Analyzer.first_or].
  - left. split; [reflexivity|]. intros tag Hin Htag Htrope.
    assert (Hnil : filter keep counts = [])
      by (apply (sort_head_None snd); now rewrite Hsort).
    assert (Hentry : In (tag, Aux.occ tag (Props.countedTags works))
                        (filter keep counts)).
    { apply Hkeep. split; [|exact Htrope].
      now apply countOccurrences_has. }
    rewrite Hnil in Hentry. contradiction.
  - right.
    destruct (sort_head_max snd (filter keep counts) top) as [Hin Hmax];
      [now rewrite Hsort|].
    destruct (proj1 (Hkeep top) Hin) as [Hcounted Htrope].
    destruct top as [tag count]. cbn [fst snd] in *.
    destruct (countOccurrences_entry _ _ _ Hcounted) as [Htag ->].
    split; [exact Htrope|]. split.
    + assert (Hkey : In tag (map fst counts))
        by (apply in_map_iff; now exists (tag, Aux.occ tag (Props.countedTags works))).
      unfold counts in Hkey. rewrite countOccurrences_keys in Hkey.
      apply (proj1 (firsts_In _ _)) in Hkey.
      now apply (proj1 (named_In _ _)) in Hkey.
    + split; [exact Htag|]. split; [reflexivity|].
      intros tag' Hin' Htag' Htrope'.
      apply (Hmax (tag', Aux.occ tag' (Props.countedTags works))).
      apply Hkeep. split; [|exact Htrope'].
      now apply countOccurrences_has.
Qed.

Lemma topTropeTag_is_most_frequent_trope_witness :
  exists stats,
    Analyzer.analyze Sample.threeWorks = Analyzer.Populated stats
    /\ ((Analyzer.topTropeTag stats = ("Unknown", 0)
         /\ forall tag, In tag (Props.countedTags Sample.threeWorks) ->
                        Js.truthy tag = true -> ~ Props.isTrope tag)
        \/ (Props.isTrope (fst (Analyzer.topTropeTag stats))
            /\ In (fst (Analyzer.topTropeTag stats))
                  (Props.countedTags Sample.threeWorks)
            /\ Js.truthy (fst (Analyzer.topTropeTag stats)) = true
            /\ snd (Analyzer.topTropeTag stats)
               = Aux.occ (fst (Analyzer.topTropeTag stats))
                         (Props.countedTags Sample.threeWorks)
            /\ forall tag, In tag (Props.countedTags Sample.threeWorks) ->
                           Js.truthy tag = true -> Props.isTrope tag ->
                           Aux.occ tag (Props.countedTags Sample.threeWorks)
                           <= snd (Analyzer.topTropeTag stats))).
Proof.
  apply (topTropeTag_is_most_frequent_trope Sample.threeWorks). discriminate.
Defined.

(** X12. For every non-empty collection, analyze reports as totalWorks
    the number of works, as totalWords the sum of their word counts
    (absent taken as 0), as totalVisits the sum of their visit counts
    (absent or zero taken as 1) and as uniqueFandomCount the number of
    distinct non-empty fandom names; averageWords is within one half of
    the exact mean of the word counts, and approximateBooks within one
    half of totalWords / 90000. *)
Theorem totals_and_averages (works : list Work) :
  works <> [] ->
  exists stats,
    Analyzer.analyze works = Analyzer.Populated stats
    /\ Analyzer.totalWorks stats = Js.len works
    /\ Analyzer.totalWords stats = Aux.sumZ (map Props.wordsOf works)
    /\ Analyzer.totalVisits stats = Aux.sumZ (map Props.revisits works)
    /\ Analyzer.uniqueFandomCount stats
       = Js.len (Props.firsts (Props.named (flat_map fandoms works)))
    /\ 2 * Analyzer.totalWords stats - Js.len works
       < 2 * Js.len works * Analyzer.averageWords stats
       <= 2 * Analyzer.totalWords stats + Js.len works
    /\ 2 * Analyzer.totalWords stats - 90000
       < 180000 * Analyzer.approximateBooks stats
       <= 2 * Analyzer.totalWords stats + 90000.
Proof.
  intros Hne. pose proof (len_pos works Hne) as Hpos.
  unfold Analyzer.analyze.
  destruct (Z.eqb_spec (Js.len works) 0) as [H0|_]; [lia|].
  eexists. split; [reflexivity|].
  cbn [Analyzer.totalWorks Analyzer.totalWords Analyzer.totalVisits
       Analyzer.uniqueFandomCount Analyzer.averageWords
       Analyzer.approximateBooks].
  split; [reflexivity|].
  rewrite fold_sum, (fold_sum_by (fun w => Js.num_or (visitCount w) 1)).
  rewrite !Z.add_0_l.
  change (map (fun w : Work => Js.num_or (wordCount w) 0) works)
    with (map Props.wordsOf works).
  split; [reflexivity|]. split; [reflexivity|]. split.
  - unfold Js.map_size, Js.len. now rewrite <- countOccurrences_keys, length_map.
  - split.
    + apply Math_round_near. exact Hpos.
    + unfold Analyzer.wordsToBooks.
      pose proof (Math_round_near (Aux.sumZ (map Props.wordsOf works)) 90000
                                  ltac:(lia)) as Hb.
      change (inject_Z 90000) with 90000%Q in Hb. lia.
Qed.

Lemma totals_and_averages_witness :
  exists stats,
    Analyzer.analyze Sample.threeWorks = Analyzer.Populated stats
    /\ Analyzer.totalWorks stats = Js.len Sample.threeWorks
    /\ Analyzer.totalWords stats
       = Aux.sumZ (map Props.wordsOf Sample.threeWorks)
    /\ Analyzer.totalVisits stats
       = Aux.sumZ (map Props.revisits Sample.threeWorks)
    /\ Analyzer.uniqueFandomCount stats
       = Js.len (Props.firsts (Props.named (flat_map fandoms Sample.threeWorks)))
    /\ 2 * Analyzer.totalWords stats - Js.len Sample.threeWorks
       < 2 * Js.len Sample.threeWorks * Analyzer.averageWords stats
       <= 2 * Analyzer.totalWords stats + Js.len Sample.threeWorks
    /\ 2 * Analyzer.totalWords stats - 90000
       < 180000 * Analyzer.approximateBooks stats
       <= 2 * Analyzer.totalWords stats + 90000.
Proof.
  apply (totals_and_averages Sample.threeWorks). discriminate.
Defined.

(** X13. In the earlier revision of the Aggregator (src/analyzer.js),
    which picks the rarest pair at random, rarestPair is a relationship tag
    that occurs exactly once over all the works whenever there is such a
    tag, whatever value in [0, 1) Math.random returns: the index that the
    code computes is always an index of the list of rare ships. *)
Theorem analyzerJs_rarestPair_is_a_rare_ship (random : Q) (works : list Work) :
  (0 <= random)%Q -> (random < 1)%Q ->
  (exists p, Js.truthy p = true
             /\ Aux.occ p (flat_map relationships works) = 1) ->
  exists pair,
    AnalyzerJs.rarestPairOf random works = Some pair
    /\ Js.truthy pair = true
    /\ Aux.occ pair (flat_map relationships works) = 1.
Proof.
  intros H0 H1 (p & Hp & Hocc).
  assert (Hin : In p (Analyzer.rareShipsOf works)) by (apply rareShips_In; tauto).
  unfold AnalyzerJs.rarestPairOf. cbv zeta.
  set (rare := Analyzer.rareShipsOf works) in *.
  assert (Hpos : 0 < Js.len rare).
  { apply len_pos. intros Hnil. rewrite Hnil in Hin. contradiction. }
  destruct (Z.gtb_spec (Js.len rare) 0) as [_|Hle]; [|lia].
  set (x := (random * inject_Z (Js.len rare))%Q).
  assert (Hn : (0 < inject_Z (Js.len rare))%Q)
    by (change 0%Q with (inject_Z 0); now rewrite <- Zlt_Qlt).
  assert (Hx0 : (0 <= x)%Q).
  { unfold x. apply Qmult_le_0_compat; [exact H0 | now apply Qlt_le_weak]. }
  assert (Hx1 : (x < inject_Z (Js.len rare))%Q).
  { unfold x. rewrite <- (Qmult_1_l (inject_Z (Js.len rare))) at 2.
    now apply Qmult_lt_compat_r. }
  assert (Hf0 : 0 <= Qfloor x).
  { change 0 with (Qfloor 0). now apply Qfloor_resp_le. }
  assert (Hf1 : Qfloor x < Js.len rare).
  { rewrite Zlt_Qlt. eapply Qle_lt_trans; [apply Qfloor_le | exact Hx1]. }
  destruct (nth_error rare (Z.to_nat (Qfloor x))) as [pair|] eqn:Hnth.
  - exists pair. split; [reflexivity|].
    apply rareShips_In. fold rare. eapply nth_error_In. exact Hnth.
  - exfalso. apply nth_error_None in Hnth. unfold Js.len in Hf1. lia.
Qed.

Lemma analyzerJs_rarestPair_is_a_rare_ship_witness :
  exists pair,
    AnalyzerJs.rarestPairOf (1 # 2) Sample.threeWorks = Some pair
    /\ Js.truthy pair = true
    /\ Aux.occ pair (flat_map relationships Sample.threeWorks) = 1.
Proof.
  apply (analyzerJs_rarestPair_is_a_rare_ship (1 # 2) Sample.threeWorks).
  - discriminate.
  - reflexivity.
  - exists "C/D". split; reflexivity.
Defined.

(** ** The Page Parser and the merge step *)

Section MergeOrder.
Import Js Scraper Aux Props.

Lemma firsts_app (l1 l2 : list string) :
  firsts (l1 ++ l2)
  = (firsts l1 ++ filter (fun k => negb (arr_includes l1 k)) (firsts l2))%list.
Proof.
  induction l1 as [|a l1 IH]; simpl.
  - induction (firsts l2) as [|b l IHl]; simpl in *; congruence.
  - f_equal. rewrite IH, filter_app. f_equal.
    rewrite filter_filter. apply filter_ext. intros k.
    unfold arr_includes. simpl.
    destruct (String.eqb_spec k a); simpl; [now rewrite andb_false_r|].
    now rewrite andb_true_r.
Qed.

Lemma arr_includes_firsts (l : list string) (k : string) :
  arr_includes (firsts l) k = arr_includes l k.
Proof.
  unfold arr_includes.
  destruct (existsb (String.eqb k) l) eqn:Hl.
  - apply existsb_exists in Hl. destruct Hl as (x & Hx & Heq).
    apply existsb_exists. exists x. split; [now apply firsts_In | exact Heq].
  - destruct (existsb (String.eqb k) (firsts l)) eqn:Hf; [|reflexivity].
    apply existsb_exists in Hf. destruct Hf as (x & Hx & Heq).
    apply (proj1 (firsts_In _ _)) in Hx.
    assert (existsb (String.eqb k) l = true)
      by (apply existsb_exists; now exists x).
    congruence.
Qed.

Lemma addHistory_keys (m : JsMap Work) (x : Work) :
  map fst (addHistory m x)
  = if map_has (workId x) m then map fst m
    else (map fst m ++ [workId x])%list.
Proof. apply map_keys_set. Qed.

Lemma addBookmark_keys (m : JsMap Work) (x : Work) :
  map fst (addBookmark m x)
  = if map_has (workId x) m then map fst m
    else (map fst m ++ [workId x])%list.
Proof.
  unfold addBookmark, map_has.
  destruct (map_get (workId x) m) as [existing|] eqn:Hget.
  - rewrite map_keys_set. unfold map_has. now rewrite Hget.
  - rewrite map_keys_set. unfold map_has. now rewrite Hget.
Qed.

Lemma keyed_values_ids (m : JsMap Work) :
  keyed m -> map workId (map snd m) = map fst m.
Proof.
  intros [_ Hall]. induction Hall as [|[k v] m Hx Hall IH]; simpl.
  - reflexivity.
  - simpl in Hx. now rewrite Hx, IH.
Qed.

(** After the first pass an id of the history is held by the last
    history record of that id. *)
Lemma get_addHistory_last (h : list Work) : forall m id,
  In id (map workId h) ->
  map_get id (fold_left addHistory h m) = last_opt (withId id h).
Proof.
  induction h as [|a h IH]; simpl; intros m id Hin; [contradiction|].
  destruct (in_dec string_dec id (map workId h)) as [Hlater|Hnot].
  - rewrite (IH _ _ Hlater). unfold withId. simpl.
    destruct (workId a =? id)%string; [|reflexivity].
    apply in_map_iff in Hlater. destruct Hlater as (x & Hx & Hxin).
    assert (Hne : filter (fun w => (workId w =? id)%string) h <> []).
    { intros Hnil.
      assert (Hf : In x (filter (fun w => (workId w =? id)%string) h))
        by (apply filter_In; split; [exact Hxin | now apply String.eqb_eq]).
      rewrite Hnil in Hf. contradiction. }
    destruct (last_opt_nonempty _ Hne) as (z & Hz).
    rewrite Hz. destruct (last_opt_Some _ _ Hz) as (l' & ->).
    now rewrite app_comm_cons, last_opt_snoc.
  - destruct Hin as [Heq|Hin]; [|contradiction].
    rewrite get_addHistory_absent by exact Hnot.
    unfold addHistory. rewrite Heq, map_get_set_same, String.eqb_refl.
    unfold withId.
    rewrite filter_none; [reflexivity|].
    intros x Hx. apply String.eqb_neq. intros Hid. apply Hnot.
    apply in_map_iff. now exists x.
Qed.

(** A record that the second pass adds is the first bookmark record of
    its id; its flag is set when the id comes again. *)
Lemma get_addBookmark_new (b : list Work) : forall m id,
  map_get id m = None ->
  map_get id (fold_left addBookmark b m)
  = match withId id b with
    | [] => None
    | [w] => Some w
    | w :: _ => Some (set_isBookmark w (Some true))
    end.
Proof.
  induction b as [|a b IH]; simpl; intros m id Hget; [exact Hget|].
  unfold withId. simpl.
  destruct (String.eqb_spec (workId a) id) as [Heq|Hne].
  - assert (Hstep : map_get id (addBookmark m a) = Some a).
    { unfold addBookmark, map_has. rewrite Heq, Hget.
      apply map_get_set_same. }
    rewrite (get_addBookmark b _ _ _ Hstep).
    destruct (filter (fun w => (workId w =? id)%string) b) as [|x rest] eqn:Hf.
    + destruct (existsb (fun x => (workId x =? id)%string) b) eqn:Hex;
        [|reflexivity].
      apply existsb_exists in Hex. destruct Hex as (x & Hx & Hid).
      assert (Hin : In x (filter (fun w => (workId w =? id)%string) b))
        by (apply filter_In; tauto).
      rewrite Hf in Hin. contradiction.
    + assert (Hin : In x (filter (fun w => (workId w =? id)%string) b))
        by (rewrite Hf; now left).
      apply filter_In in Hin.
      assert (Hex : existsb (fun x => (workId x =? id)%string) b = true)
        by (apply existsb_exists; now exists x).
      now rewrite Hex.
  - apply IH. unfold addBookmark, map_has.
    destruct (map_get (workId a) m) eqn:Ha;
      rewrite map_get_set_other by congruence; exact Hget.
Qed.

Lemma existsb_workId_false l id :
  ~ In id (map workId l) ->
  existsb (fun x => (workId x =? id)%string) l = false.
Proof.
  intros Hnot.
  destruct (existsb (fun x => (workId x =? id)%string) l) eqn:Hex;
    [|reflexivity].
  apply existsb_exists in Hex. destruct Hex as (x & Hx & Hid).
  exfalso. apply Hnot. apply in_map_iff. exists x.
  split; [now apply String.eqb_eq | exact Hx].
Qed.
End MergeOrder.

(** X15. The merged collection holds the works in the order in which
    their ids first appear: the ids of the history items in the order of
    their first occurrence, then the ids that only the bookmark items
    have, in the order of their first occurrence. *)
Theorem mergeItems_orders_by_first_appearance
        (historyItems bookmarkItems : list Work) :
  map workId (Scraper.mergeItems historyItems bookmarkItems)
  = Props.firsts (map workId historyItems ++ map workId bookmarkItems).
Proof.
  rewrite mergeItems_unfold. unfold Js.map_values.
  rewrite (keyed_values_ids _ (merge_keyed historyItems bookmarkItems)).
  rewrite (fold_keys workId Aux.addBookmark addBookmark_keys).
  rewrite (fold_keys workId Aux.addHistory addHistory_keys).
  cbn [map app]. rewrite firsts_app.
  assert (Hid : forall l : list string,
             filter (fun k => negb (Js.arr_includes [] k)) l = l).
  { induction l as [|a l IH]; simpl in *; congruence. }
  rewrite Hid. f_equal. apply filter_ext. intros k.
  now rewrite arr_includes_firsts.
Qed.

(** X16. The merge step changes no record of a work that only one of the
    two lists has. For an id of the history items alone, the merged
    collection holds the last history record of that id, as it is. For an
    id of the bookmark items alone, it holds the first bookmark record of
    that id, as it is when the id occurs once among the bookmark items,
    and with the bookmark flag set when it occurs again. An id of neither
    list has no record. *)
Theorem mergeItems_keeps_unshared_records
        (historyItems bookmarkItems : list Work) (id : string) :
  (In id (map workId historyItems) ->
   ~ In id (map workId bookmarkItems) ->
   exists w,
     Js.last_opt (Props.withId id historyItems) = Some w
     /\ Props.withId id (Scraper.mergeItems historyItems bookmarkItems) = [w])
  /\ (~ In id (map workId historyItems) ->
      Props.withId id (Scraper.mergeItems historyItems bookmarkItems)
      = match Props.withId id bookmarkItems with
        | [] => []
        | [w] => [w]
        | w :: _ => [set_isBookmark w (Some true)]
        end).
Proof.
  rewrite mergeItems_unfold. unfold Js.map_values.
  pose proof (merge_keyed historyItems bookmarkItems) as Hk.
  unfold Props.withId at 2 3.
  rewrite (keyed_filter _ id Hk). split.
  - intros Hh Hb.
    destruct (get_addHistory historyItems [] id Hh) as (w & _ & _ & Hget).
    exists w. split.
    + now rewrite <- (get_addHistory_last historyItems [] id Hh).
    + rewrite (get_addBookmark bookmarkItems _ id w Hget).
      now rewrite (existsb_workId_false bookmarkItems id Hb).
  - intros Hh.
    rewrite (get_addBookmark_new bookmarkItems _ id).
    + now destruct (Props.withId id bookmarkItems) as [|w [|w' rest]].
    + now rewrite get_addHistory_absent.
Qed.

Section PageBound.
Import Js Scraper Aux.

(** The loop over the page links keeps the greatest number seen. *)
Lemma maxPage_fold (links : list (option Z)) : forall maxPage,
  let found :=
    fold_left
      (fun maxPage link =>
         match link with
         | Some pageNum => if pageNum >? maxPage then pageNum else maxPage
         | None => maxPage
         end) links maxPage in
  maxPage <= found
  /\ (forall k, In (Some k) links -> k <= found)
  /\ (found = maxPage \/ In (Some found) links).
Proof.
  induction links as [|link links IH]; intros maxPage; simpl.
  - repeat split; [lia | tauto | now left].
  - destruct link as [pageNum|].
    + destruct (Z.gtb_spec pageNum maxPage) as [Hgt|Hle].
      * destruct (IH pageNum) as (H1 & H2 & H3). repeat split.
        -- lia.
        -- intros k [[= ->]|Hin]; [exact H1 | now apply H2].
        -- destruct H3 as [->|H3]; right; [now left | now right].
      * destruct (IH maxPage) as (H1 & H2 & H3). repeat split.
        -- exact H1.
        -- intros k [[= ->]|Hin]; [lia | now apply H2].
        -- destruct H3 as [H3|H3]; [now left | right; now right].
    + destruct (IH maxPage) as (H1 & H2 & H3). repeat split.
      * exact H1.
      * intros k [Hk|Hin]; [discriminate | now apply H2].
      * destruct H3 as [H3|H3]; [now left | right; now right].
Qed.
End PageBound.

(** X17. getPageCount issues exactly one fetch, of the given URL,
    whatever the outcome. When the fetch rejects, it throws the error of
    the fetch; when the fetch resolves with success false, it throws
    "Failed to fetch <context>: <error>"; otherwise it returns a page count
    that is at least 1: it is 1 for a page without a pagination control,
    and otherwise the greatest of 1 and the numbers that the page links
    show (a link whose text is no number is ignored). *)
Theorem getPageCount_counts_pages
        (env : Scraper.Env) (url errorContext : string) (s : Scraper.State) :
  snd (Scraper.getPageCount env url errorContext s) = Aux.fetched env s url
  /\ match Scraper.env_fetch env (Scraper.awaits s) url with
     | Scraper.Rejected e =>
         fst (Scraper.getPageCount env url errorContext s) = Scraper.Throw e
     | Scraper.Resolved r =>
         if Scraper.success r then
           exists found,
             fst (Scraper.getPageCount env url errorContext s)
             = Scraper.Ok found
             /\ 1 <= found
             /\ match Scraper.d_pagination (Scraper.html r) with
                | None => found = 1
                | Some links =>
                    (forall k, In (Some k) links -> k <= found)
                    /\ (found = 1 \/ In (Some found) links)
                end
         else
           fst (Scraper.getPageCount env url errorContext s)
           = Scraper.Throw ("Failed to fetch " ++ errorContext ++ ": "
                            ++ Scraper.error r)
     end.
Proof.
  rewrite getPageCount_run. split; [reflexivity|].
  unfold Aux.pageCountAt, Scraper.getPageCount, Scraper.bind.
  rewrite fetchUrl_run. cbn [Scraper.awaits fst].
  destruct (Scraper.env_fetch env (Scraper.awaits s) url) as [r|e];
    [|reflexivity].
  destruct (Scraper.success r); cbn [negb]; [|reflexivity].
  destruct (Scraper.d_pagination (Scraper.html r)) as [links|].
  - eexists. split; [reflexivity|].
    destruct (maxPage_fold links 1) as (H1 & H2 & H3).
    split; [exact H1|]. split; [exact H2 | exact H3].
  - exists 1. repeat split. lia.
Qed.

(** ** The events of a run *)

Section EmitsFacts.
Import Js Scraper Aux Props.
Variable good : Event -> Prop.

Lemma emits_ret {A : Type} (a : A) : Emits good (ret a).
Proof.
  intros s r s' [= <- <-]. exists []. now rewrite app_nil_r.
Qed.

Lemma emits_throw {A : Type} (e : string) : Emits good (@throw A e).
Proof.
  intros s r s' [= <- <-]. exists []. now rewrite app_nil_r.
Qed.

Lemma emits_log (e : Event) : good e -> Emits good (log e).
Proof.
  intros He s r s' [= <- <-]. exists [e]. split; [reflexivity|].
  now constructor.
Qed.

Lemma emits_resetCancel : Emits good resetCancel.
Proof.
  intros s r s' [= <- <-]. exists []. simpl. now rewrite app_nil_r.
Qed.

Lemma emits_isCancelled :
  (forall flag, good (EvCheck flag)) -> Emits good isCancelled.
Proof.
  intros He s r s' [= <- <-]. exists [EvCheck (cancelRequested s)].
  split; [reflexivity|]. constructor; [apply He | constructor].
Qed.

Lemma emits_delay (env : Env) (ms : Z) :
  good (EvDelay ms) -> Emits good (delay env ms).
Proof.
  intros He s r s' H. rewrite delay_run in H. injection H as <- <-.
  exists [EvDelay ms]. split; [reflexivity|]. now constructor.
Qed.

Lemma emits_fetchUrl (env : Env) (url : string) :
  good (EvFetch url) -> Emits good (fetchUrl env url).
Proof.
  intros He s r s' H. rewrite fetchUrl_run in H. injection H as <- <-.
  exists [EvFetch url]. split; [reflexivity|]. now constructor.
Qed.

Lemma emits_bind {A B : Type} (m : M A) (k : A -> M B) :
  Emits good m -> (forall a, Emits good (k a)) -> Emits good (bind m k).
Proof.
  intros Hm Hk s r s' H. unfold bind in H.
  destruct (m s) as [[a|e] s1] eqn:Hms.
  - destruct (Hm _ _ _ Hms) as (t1 & Ht1 & Hg1).
    destruct (Hk a _ _ _ H) as (t2 & Ht2 & Hg2).
    exists (t1 ++ t2)%list. split.
    + now rewrite Ht2, Ht1, app_assoc.
    + apply Forall_app. now split.
  - injection H as <- <-. exact (Hm _ _ _ Hms).
Qed.

Lemma emits_try_catch {A : Type} (m : M A) (h : string -> M A) :
  Emits good m -> (forall e, Emits good (h e)) -> Emits good (try_catch m h).
Proof.
  intros Hm Hh s r s' H. unfold try_catch in H.
  destruct (m s) as [[a|e] s1] eqn:Hms.
  - injection H as <- <-. exact (Hm _ _ _ Hms).
  - destruct (Hm _ _ _ Hms) as (t1 & Ht1 & Hg1).
    destruct (Hh e _ _ _ H) as (t2 & Ht2 & Hg2).
    exists (t1 ++ t2)%list. split.
    + now rewrite Ht2, Ht1, app_assoc.
    + apply Forall_app. now split.
Qed.

Lemma emits_weaken {A : Type} (better : Event -> Prop) (m : M A) :
  (forall e, better e -> good e) -> Emits better m -> Emits good m.
Proof.
  intros Himp Hm s r s' H. destruct (Hm _ _ _ H) as (t & Ht & Hg).
  exists t. split; [exact Ht|]. eapply Forall_impl; [|exact Hg]. exact Himp.
Qed.
End EmitsFacts.

Section Shares.
(** A share [a / b] of a whole, scaled by [c] and added to [base], lies
    between [base] and [base + c]. *)
Lemma share_bounds (base c : Q) (a b : Z) :
  (0 <= c)%Q -> 0 <= a <= b -> 0 < b ->
  (base <= base + (inject_Z a / inject_Z b) * c)%Q
  /\ (base + (inject_Z a / inject_Z b) * c <= base + c)%Q.
Proof.
  intros Hc Ha Hb.
  assert (Hb' : (0 < inject_Z b)%Q)
    by (change 0%Q with (inject_Z 0); rewrite <- Zlt_Qlt; exact Hb).
  assert (H0 : (0 <= inject_Z a / inject_Z b)%Q).
  { apply Qle_shift_div_l; [exact Hb'|]. rewrite Qmult_0_l.
    change 0%Q with (inject_Z 0). rewrite <- Zle_Qle. lia. }
  assert (H1 : (inject_Z a / inject_Z b <= 1)%Q).
  { apply Qle_shift_div_r; [exact Hb'|]. rewrite Qmult_1_l.
    rewrite <- Zle_Qle. lia. }
  split.
  - rewrite <- (Qplus_0_r base) at 1. apply Qplus_le_r.
    now apply Qmult_le_0_compat.
  - apply Qplus_le_r. rewrite <- (Qmult_1_l c) at 2.
    now apply Qmult_le_compat_r.
Qed.
End Shares.

Section SeemlyRuns.
Import Js Scraper Aux Props.
Variable env : Env.
Variables username source timeRange : string.
Variable pageLimit : Z.

Let good : Event -> Prop := seemly username source timeRange pageLimit.

Lemma good_check (flag : bool) : good (EvCheck flag).
Proof. exact I. Qed.

Lemma good_delay : good (EvDelay RATE_LIMIT_MS).
Proof. reflexivity. Qed.

Lemma good_progress (p : ProgressEvent) :
  (0 <= percent p)%Q -> (percent p <= 95)%Q -> good (EvProgress p).
Proof. intros H0 H1. split; assumption. Qed.

Lemma good_work (id : string) :
  good (EvFetch (AO3_BASE_URL ++ "/works/" ++ id ++ "?view_adult=true")).
Proof. right. right. now exists id. Qed.

Lemma emits_onProgress (p : ProgressEvent) :
  (0 <= percent p)%Q -> (percent p <= 95)%Q -> Emits good (onProgress p).
Proof. intros H0 H1. apply emits_log. now apply good_progress. Qed.

Lemma emits_pause (b : bool) :
  Emits good (if b then delay env RATE_LIMIT_MS else ret tt).
Proof.
  destruct b; [apply emits_delay, good_delay | apply emits_ret].
Qed.

Lemma emits_getPageCount (url errorContext : string) :
  good (EvFetch url) -> Emits good (getPageCount env url errorContext).
Proof.
  intros Hurl. unfold getPageCount.
  apply emits_bind; [now apply emits_fetchUrl|]. intros result.
  destruct (negb (success result)); [apply emits_throw|].
  cbv zeta. destruct (d_pagination (html result)); apply emits_ret.
Qed.

Lemma emits_fetchWorkMetadata (id : string) :
  Emits good (fetchWorkMetadata env id).
Proof.
  unfold fetchWorkMetadata.
  apply emits_bind; [apply emits_fetchUrl, good_work|]. intros result.
  destruct (negb (success result)); [apply emits_throw|].
  cbv zeta. apply emits_ret.
Qed.

Lemma limitPages_within (found : Z) :
  timeRange = "pages" -> 0 < pageLimit ->
  limitPages timeRange pageLimit found <= pageLimit.
Proof.
  intros -> Hpos. unfold limitPages. simpl.
  destruct (Z.gtb_spec pageLimit 0); simpl; lia.
Qed.

Section History.
Hypothesis covered : source = "both" \/ source = "history".

Lemma good_historyPage (page : Z) :
  pageAllowed timeRange pageLimit page ->
  good (EvFetch (AO3_BASE_URL ++ "/users/" ++ username
                 ++ "/readings?page=" ++ show page)).
Proof.
  intros Hpage. left. split; [exact covered|]. right. now exists page.
Qed.

Lemma emits_scrapeHistoryPage (page : Z) :
  pageAllowed timeRange pageLimit page ->
  Emits good (scrapeHistoryPage env username page).
Proof.
  intros Hpage. unfold scrapeHistoryPage.
  apply emits_bind; [now apply emits_fetchUrl, good_historyPage|].
  intros result.
  destruct (negb (success result)); [apply emits_throw | apply emits_ret].
Qed.

Lemma emits_historyPages (totalPages : Z) (remaining : nat) :
  (timeRange = "pages" -> 0 < pageLimit -> totalPages <= pageLimit) ->
  forall page allItems,
    1 <= page ->
    page + Z.of_nat remaining <= totalPages + 1 ->
    Emits good (historyPages env username totalPages remaining page
                             allItems).
Proof.
  intros Hlimit.
  induction remaining as [|remaining IH]; intros page allItems Hpage Hle;
    simpl.
  - apply emits_ret.
  - apply emits_bind; [apply emits_isCancelled, good_check|].
    intros cancelled. destruct cancelled; [apply emits_throw|].
    apply emits_bind.
    { destruct (share_bounds 5 25 page totalPages) as [H0 H1];
        [discriminate | lia | lia |].
      apply emits_onProgress; cbn [percent].
      - eapply Qle_trans; [|exact H0]. discriminate.
      - eapply Qle_trans; [exact H1|]. discriminate. }
    intros _. apply emits_bind.
    { apply emits_scrapeHistoryPage. split; [exact Hpage|].
      intros Hrange Hpos. specialize (Hlimit Hrange Hpos). lia. }
    intros items. apply emits_bind; [apply emits_pause|].
    intros _. apply IH; lia.
Qed.

Lemma emits_scrapeReadingHistory :
  Emits good (scrapeReadingHistory env username
                (mkOptions None (Some timeRange) (Some pageLimit))).
Proof.
  unfold scrapeReadingHistory, getHistoryPageCount. cbv zeta.
  cbn [o_timeRange o_pageLimit dflt].
  apply emits_bind; [apply emits_resetCancel|]. intros _.
  apply emits_bind; [apply emits_onProgress; discriminate|]. intros _.
  apply emits_bind.
  { apply emits_getPageCount. left. split; [exact covered | now left]. }
  intros found.
  apply emits_bind; [apply emits_onProgress; discriminate|]. intros _.
  apply emits_bind.
  { destruct (Z.to_nat (limitPages timeRange pageLimit found)) as [|n]
      eqn:Hn; [apply emits_ret|].
    rewrite <- Hn.
    apply emits_historyPages; [apply limitPages_within | lia | lia]. }
  intros allItems.
  destruct (timeRange =? "year")%string; apply emits_ret.
Qed.
End History.

Section Bookmarks.
Hypothesis covered : source = "both" \/ source = "bookmarks".

Lemma good_bookmarkPage (page : Z) :
  pageAllowed timeRange pageLimit page ->
  good (EvFetch (AO3_BASE_URL ++ "/users/" ++ username
                 ++ "/bookmarks?page=" ++ show page)).
Proof.
  intros Hpage. right. left. split; [exact covered|]. right.
  now exists page.
Qed.

Lemma emits_scrapeBookmarkPage (page : Z) :
  pageAllowed timeRange pageLimit page ->
  Emits good (scrapeBookmarkPage env username page).
Proof.
  intros Hpage. unfold scrapeBookmarkPage.
  apply emits_bind; [now apply emits_fetchUrl, good_bookmarkPage|].
  intros result.
  destruct (negb (success result)); [apply emits_throw | apply emits_ret].
Qed.

Lemma emits_bookmarkPages (offset : Q) (totalPages : Z) (remaining : nat) :
  (0 <= offset)%Q -> (offset <= 30)%Q ->
  (timeRange = "pages" -> 0 < pageLimit -> totalPages <= pageLimit) ->
  forall page allItems,
    1 <= page ->
    page + Z.of_nat remaining <= totalPages + 1 ->
    Emits good (bookmarkPages env username offset totalPages remaining
                              page allItems).
Proof.
  intros Hoff0 Hoff1 Hlimit.
  induction remaining as [|remaining IH]; intros page allItems Hpage Hle;
    simpl.
  - apply emits_ret.
  - apply emits_bind; [apply emits_isCancelled, good_check|].
    intros cancelled. destruct cancelled; [apply emits_throw|].
    apply emits_bind.
    { destruct (share_bounds offset 12 page totalPages) as [H0 H1];
        [discriminate | lia | lia |].
      apply emits_onProgress; cbn [percent].
      - eapply Qle_trans; [exact Hoff0 | exact H0].
      - eapply Qle_trans; [exact H1|].
        apply (Qle_trans _ (30 + 12)); [|discriminate].
        now apply Qplus_le_l. }
    intros _. apply emits_bind.
    { apply emits_scrapeBookmarkPage. split; [exact Hpage|].
      intros Hrange Hpos. specialize (Hlimit Hrange Hpos). lia. }
    intros items. apply emits_bind; [apply emits_pause|].
    intros _. apply IH; lia.
Qed.

Lemma emits_scrapeBookmarks (offset : Q) :
  (0 <= offset)%Q -> (offset <= 30)%Q ->
  Emits good (scrapeBookmarks env username
                (mkOptions None (Some timeRange) (Some pageLimit)) offset).
Proof.
  intros Hoff0 Hoff1.
  unfold scrapeBookmarks, getBookmarkPageCount. cbv zeta.
  cbn [o_timeRange o_pageLimit dflt].
  apply emits_bind.
  { apply emits_getPageCount. right. left.
    split; [exact covered | now left]. }
  intros found. apply emits_bind.
  { apply emits_onProgress; cbn [percent].
    - apply (Qle_trans _ (0 + 2)); [discriminate|].
      now apply Qplus_le_l.
    - apply (Qle_trans _ (30 + 2)); [|discriminate].
      now apply Qplus_le_l. }
  intros _. apply emits_bind.
  { destruct (Z.to_nat (limitPages timeRange pageLimit found)) as [|n]
      eqn:Hn; [apply emits_ret|].
    rewrite <- Hn.
    apply emits_bookmarkPages;
      [exact Hoff0 | exact Hoff1 | apply limitPages_within | lia | lia]. }
  intros allItems.
  destruct (timeRange =? "year")%string; apply emits_ret.
Qed.
End Bookmarks.

Lemma emits_enrichLoop (total : Z) (todo : list Work) :
  forall done completed failed,
    0 <= completed ->
    completed + len todo <= total ->
    Emits good (enrichLoop env total todo done completed failed).
Proof.
  induction todo as [|item rest IH]; intros done completed failed H0 Hle;
    simpl.
  - apply emits_ret.
  - rewrite len_cons in Hle. pose proof (len_nonneg rest) as Hrest.
    apply emits_bind; [apply emits_isCancelled, good_check|].
    intros cancelled. destruct cancelled; [apply emits_throw|].
    apply emits_bind.
    { destruct (share_bounds 30 60 completed total) as [Hl Hu];
        [discriminate | lia | lia |].
      apply emits_onProgress; cbn [percent].
      - eapply Qle_trans; [|exact Hl]. discriminate.
      - eapply Qle_trans; [exact Hu|]. discriminate. }
    intros _. apply emits_bind.
    { apply emits_try_catch.
      - apply emits_bind; [apply emits_fetchWorkMetadata|].
        intros metadata. apply emits_ret.
      - intros e. apply emits_ret. }
    intros [item' failed']. cbv zeta.
    apply emits_bind; [apply emits_pause|].
    intros _. apply IH; lia.
Qed.

Lemma emits_scrapeAllTry :
  Emits good (scrapeAllTry env username source
                (mkOptions None (Some timeRange) (Some pageLimit))).
Proof.
  unfold scrapeAllTry. cbv zeta.
  destruct (String.eqb_spec source "both") as [Hboth|_];
    destruct (String.eqb_spec source "history") as [Hhistory|_];
    destruct (String.eqb_spec source "bookmarks") as [Hbookmarks|_];
    cbn [orb].
  all: apply emits_bind;
    [ first [ apply emits_scrapeReadingHistory; tauto | apply emits_ret ]
    | intros allItems ].
  all: apply emits_bind;
    [ first
        [ apply emits_ret
        | apply emits_bind;
          [ first [ apply emits_delay, good_delay | apply emits_ret ]
          | intros _; apply emits_bind;
            [ apply emits_scrapeBookmarks; [tauto | discriminate | discriminate]
            | intros bookmarkItems; apply emits_ret ] ] ]
    | intros allItems' ].
  all: destruct (len allItems' =? 0); [apply emits_ret|].
  all: apply emits_bind; [apply emits_onProgress; discriminate|]; intros _.
  all: apply emits_bind; [apply emits_delay, good_delay|]; intros _.
  all: apply emits_bind;
    [ apply emits_enrichLoop; lia
    | intros [items failed];
      apply emits_bind; [apply emits_onProgress; discriminate|];
      intros _; apply emits_ret ].
Qed.
End SeemlyRuns.

Section SeemlyScrapeAll.
Import Js Scraper Aux Props.

Lemma emits_scrapeAll (env : Env) (username : string) (options : Options) :
  Emits (seemly username (dflt (o_source options) "both")
                (dflt (o_timeRange options) "year")
                (dflt (o_pageLimit options) 10))
        (scrapeAll env username options).
Proof.
  unfold scrapeAll. cbv zeta.
  apply emits_bind; [apply emits_resetCancel|]. intros _.
  apply emits_try_catch; [apply emits_scrapeAllTry|].
  intros e. unfold scrapeAllCatch.
  destruct (includes e "cancelled"); apply emits_ret.
Qed.

Lemma emits_from_start {A : Type} (good : Event -> Prop) (m : M A)
      (flag : bool) :
  Emits good m -> Forall good (trace (snd (m (start flag)))).
Proof.
  intros Hm. destruct (m (start flag)) as [r s'] eqn:Hrun.
  destruct (Hm _ _ _ Hrun) as (t & Ht & Hg).
  simpl. rewrite Ht. exact Hg.
Qed.
End SeemlyScrapeAll.

(** X18. In every run of scrapeAll, whatever the collaborators answer and
    whenever a cancellation is requested, the percent of every progress
    event lies between 0 and 95: scrapeAll itself never reports 100. *)
Theorem scrapeAll_progress_stays_below_done
        (env : Scraper.Env) (username : string) (options : Scraper.Options)
        (flag : bool) :
  Forall Props.percentBelowDone
         (Scraper.trace
            (snd (Scraper.scrapeAll env username options (Scraper.start flag)))).
Proof.
  apply emits_from_start.
  apply (emits_weaken _ (Props.seemly username
                           (Scraper.dflt (Scraper.o_source options) "both")
                           (Scraper.dflt (Scraper.o_timeRange options) "year")
                           (Scraper.dflt (Scraper.o_pageLimit options) 10)));
    [|apply emits_scrapeAll].
  intros e He. destruct e; try exact I. exact He.
Qed.

(** X19. In every run of scrapeAll, every fetch asks for a page of the
    chosen source or for the page of a work: the history listing and its
    pages only when the source is 'history' or 'both', the bookmark listing
    and its pages only when the source is 'bookmarks' or 'both'; the pages
    of a listing are numbered from 1 and, under the time range 'pages' with
    a positive page limit, never beyond the limit; and every delay that the
    run waits is of 5000 ms. The source, the time range and the page limit
    are those of the options, by default 'both', 'year' and 10. *)
Theorem scrapeAll_requests_only_its_source
        (env : Scraper.Env) (username : string) (options : Scraper.Options)
        (flag : bool) :
  Forall (Props.politeRequest username
            (Scraper.dflt (Scraper.o_source options) "both")
            (Scraper.dflt (Scraper.o_timeRange options) "year")
            (Scraper.dflt (Scraper.o_pageLimit options) 10))
         (Scraper.trace
            (snd (Scraper.scrapeAll env username options (Scraper.start flag)))).
Proof.
  apply emits_from_start.
  apply (emits_weaken _ (Props.seemly username
                           (Scraper.dflt (Scraper.o_source options) "both")
                           (Scraper.dflt (Scraper.o_timeRange options) "year")
                           (Scraper.dflt (Scraper.o_pageLimit options) 10)));
    [|apply emits_scrapeAll].
  intros e He. destruct e; try exact I; exact He.
Qed.

(** ** After a cancellation is observed *)

Section HaltingFacts.
Import Js Scraper Aux Props.

Lemma halts_clean (t : list Event) : ~ checkedTrue t -> haltsOnCancel t.
Proof.
  unfold checkedTrue. induction t as [|e t IH]; simpl; intros Hnot.
  - exact I.
  - destruct e as [url|ms|p|[|]]; try (apply IH; tauto).
    exfalso. apply Hnot. now left.
Qed.

Lemma halts_app (t1 t2 : list Event) :
  ~ checkedTrue t1 -> haltsOnCancel t2 -> haltsOnCancel (t1 ++ t2).
Proof.
  unfold checkedTrue. induction t1 as [|e t1 IH]; simpl; intros Hnot H2.
  - exact H2.
  - destruct e as [url|ms|p|[|]]; try (apply IH; tauto).
    exfalso. apply Hnot. now left.
Qed.

Lemma halting_of_quiet {A : Type} (m : M A) : Quiet m -> Halting m.
Proof.
  intros Hm s r s' H. destruct (Hm _ _ _ H) as (t & Ht & Hq).
  exists t. split; [exact Ht|]. split; [now apply halts_clean | tauto].
Qed.

Lemma halting_bind {A B : Type} (m : M A) (k : A -> M B) :
  Halting m -> (forall a, Halting (k a)) -> Halting (bind m k).
Proof.
  intros Hm Hk s r s' H. unfold bind in H.
  destruct (m s) as [[a|e] s1] eqn:Hms.
  - destruct (Hm _ _ _ Hms) as (t1 & Ht1 & Hh1 & Hc1).
    destruct (Hk a _ _ _ H) as (t2 & Ht2 & Hh2 & Hc2).
    assert (Hclean : ~ checkedTrue t1)
      by (intros Hc; specialize (Hc1 Hc); discriminate).
    exists (t1 ++ t2)%list. split; [now rewrite Ht2, Ht1, app_assoc|].
    split; [now apply halts_app|].
    rewrite checkedTrue_app. tauto.
  - injection H as <- <-.
    destruct (Hm _ _ _ Hms) as (t & Ht & Hh & Hc).
    exists t. split; [exact Ht|]. split; [exact Hh|].
    intros Hin. specialize (Hc Hin). now injection Hc as ->.
Qed.

(** [if (cancelRequested) throw new Error(...)] and then [k]. *)
Lemma halting_check {A : Type} (k : M A) :
  Halting k ->
  Halting (bind isCancelled
                (fun cancelled =>
                   if cancelled then throw "Scraping cancelled by user"
                   else k)).
Proof.
  intros Hk s r s' H. unfold bind, isCancelled in H.
  destruct (cancelRequested s) eqn:Hflag.
  - injection H as <- <-. exists [EvCheck true]. simpl.
    repeat split; reflexivity.
  - destruct (Hk _ _ _ H) as (t & Ht & Hh & Hc). simpl in Ht.
    exists (EvCheck false :: t). split; [now rewrite Ht, <- app_assoc|].
    split; [exact Hh|].
    intros [Heq|Hin]; [discriminate | now apply Hc].
Qed.
End HaltingFacts.

Section HaltingRuns.
Import Js Scraper Aux Props.
Variable env : Env.

Lemma halting_historyPages username totalPages remaining :
  forall page allItems,
    Halting (historyPages env username totalPages remaining page allItems).
Proof.
  induction remaining as [|remaining IH]; intros page allItems; simpl.
  - apply halting_of_quiet, quiet_ret.
  - apply halting_check.
    apply halting_bind; [apply halting_of_quiet, quiet_onProgress|].
    intros _. apply halting_bind;
      [apply halting_of_quiet, quiet_scrapeHistoryPage|].
    intros items. apply halting_bind; [apply halting_of_quiet; quiet|].
    intros _. apply IH.
Qed.

Lemma halting_bookmarkPages username offset totalPages remaining :
  forall page allItems,
    Halting (bookmarkPages env username offset totalPages remaining
                           page allItems).
Proof.
  induction remaining as [|remaining IH]; intros page allItems; simpl.
  - apply halting_of_quiet, quiet_ret.
  - apply halting_check.
    apply halting_bind; [apply halting_of_quiet, quiet_onProgress|].
    intros _. apply halting_bind;
      [apply halting_of_quiet, quiet_scrapeBookmarkPage|].
    intros items. apply halting_bind; [apply halting_of_quiet; quiet|].
    intros _. apply IH.
Qed.

Lemma halting_scrapeReadingHistory username options :
  Halting (scrapeReadingHistory env username options).
Proof.
  unfold scrapeReadingHistory, getHistoryPageCount. cbv zeta.
  apply halting_bind; [apply halting_of_quiet, quiet_resetCancel|]. intros _.
  apply halting_bind; [apply halting_of_quiet, quiet_onProgress|]. intros _.
  apply halting_bind; [apply halting_of_quiet, quiet_getPageCount|].
  intros found.
  apply halting_bind; [apply halting_of_quiet, quiet_onProgress|]. intros _.
  apply halting_bind; [apply halting_historyPages|]. intros allItems.
  apply halting_of_quiet. quiet.
Qed.

Lemma halting_scrapeBookmarks username options offset :
  Halting (scrapeBookmarks env username options offset).
Proof.
  unfold scrapeBookmarks, getBookmarkPageCount. cbv zeta.
  apply halting_bind; [apply halting_of_quiet, quiet_getPageCount|].
  intros found.
  apply halting_bind; [apply halting_of_quiet, quiet_onProgress|]. intros _.
  apply halting_bind; [apply halting_bookmarkPages|]. intros allItems.
  apply halting_of_quiet. quiet.
Qed.

Lemma halting_enrichLoop total todo :
  forall done completed failed,
    Halting (enrichLoop env total todo done completed failed).
Proof.
  induction todo as [|item rest IH]; intros done completed failed; simpl.
  - apply halting_of_quiet, quiet_ret.
  - apply halting_check.
    apply halting_bind; [apply halting_of_quiet, quiet_onProgress|].
    intros _. apply halting_bind.
    + apply halting_of_quiet. apply quiet_try_catch.
      * apply quiet_bind; [apply quiet_fetchWorkMetadata|].
        intros metadata. apply quiet_ret.
      * intros e. apply quiet_ret.
    + intros [item' failed']. cbv zeta.
      apply halting_bind; [apply halting_of_quiet; quiet|].
      intros _. apply IH.
Qed.

Lemma halting_scrapeAllTry username source options :
  Halting (scrapeAllTry env username source options).
Proof.
  unfold scrapeAllTry. cbv zeta.
  apply halting_bind.
  { destruct (_ || _)%bool;
      [apply halting_scrapeReadingHistory | apply halting_of_quiet, quiet_ret]. }
  intros allItems. apply halting_bind.
  { destruct (_ || _)%bool; [|apply halting_of_quiet, quiet_ret].
    apply halting_bind; [apply halting_of_quiet; quiet|]. intros _.
    apply halting_bind; [apply halting_scrapeBookmarks|].
    intros bookmarkItems. apply halting_of_quiet. quiet. }
  intros allItems'.
  destruct (len allItems' =? 0); [apply halting_of_quiet, quiet_ret|].
  apply halting_bind; [apply halting_of_quiet, quiet_onProgress|]. intros _.
  apply halting_bind; [apply halting_of_quiet, quiet_delay|]. intros _.
  apply halting_bind; [apply halting_enrichLoop|]. intros [items failed].
  apply halting_of_quiet. quiet.
Qed.

(** The [catch] block of scrapeAll does nothing but build the result. *)
Lemma scrapeAllCatch_state e s :
  snd (scrapeAllCatch e s) = s.
Proof. unfold scrapeAllCatch. now destruct (includes e "cancelled"). Qed.
End HaltingRuns.

(** X20. In every run of scrapeAll, the first read of the cancellation
    flag that finds it set is the last thing the run does: no fetch, no
    delay, no progress event and no further read follows it. (The earlier
    reads of the run found the flag not set.) *)
Theorem scrapeAll_stops_at_observed_cancellation
        (env : Scraper.Env) (username : string) (options : Scraper.Options)
        (flag : bool) :
  Props.haltsOnCancel
    (Scraper.trace
       (snd (Scraper.scrapeAll env username options (Scraper.start flag)))).
Proof.
  unfold Scraper.scrapeAll. cbv zeta.
  unfold Scraper.bind at 1. cbn [Scraper.resetCancel Scraper.start].
  cbn [Scraper.awaits Scraper.trace].
  unfold Scraper.try_catch.
  destruct (Scraper.scrapeAllTry env username _ _ _) as [[result|e] s1] eqn:Hrun.
  - destruct (halting_scrapeAllTry env _ _ _ _ _ _ Hrun) as (t & Ht & Hh & _).
    cbn [snd]. rewrite Ht. exact Hh.
  - destruct (halting_scrapeAllTry env _ _ _ _ _ _ Hrun) as (t & Ht & Hh & _).
    rewrite scrapeAllCatch_state, Ht. exact Hh.
Qed.

(** When a cancellation is requested during the first fetch of a run over
    the history, the run ends with the read that finds the flag set: one
    fetch, one progress event, the read. *)
Example early_cancel_run :
  Scraper.scrapeAll Sample.earlyCancelEnv "reader" (Sample.optionsFor "history")
                    (Scraper.start false)
  = (Scraper.Ok (Scraper.Cancelled "Scraping was cancelled"),
     Scraper.mkState true 1
       [ Scraper.EvProgress
           (Scraper.mkProgress "init" "Checking your reading history size..."
                               None 0 None);
         Scraper.EvFetch "https://archiveofourown.org/users/reader/readings";
         Scraper.EvProgress
           (Scraper.mkProgress "history" "Found 1 pages of reading history"
                               None 5 None);
         Scraper.EvCheck true ]).
Proof. vm_compute. reflexivity. Qed.

(** ** The results of a run *)

Section EnrichmentFrame.
Import Js Scraper Aux Props.
Variable env : Env.

(** The metadata that fetchWorkMetadata returns is that of a page of the
    work. *)
Lemma yields_fetchWorkMetadata_id (id : string) :
  Yields (fun metadata =>
            m_workId metadata = id
            /\ exists doc,
                 detailPage env id doc
                 /\ forall item, workId item = id ->
                                 enrichedBy doc item (assign item metadata))
         (fetchWorkMetadata env id).
Proof.
  intros s metadata s' Hrun.
  destruct (fetchWorkMetadata_page env id s s' metadata Hrun)
    as (r & Hfetch & Hsuccess & Hid & Hpage).
  split; [exact Hid|]. exists (html r). split; [|exact Hpage].
  exists (awaits s), r. now repeat split.
Qed.

(** The loop hands back the visited items followed by what it made of the
    others, one by one, and counts at most one failure per item. *)
Lemma yields_enrichLoop_frame (total : Z) (todo : list Work) :
  forall done completed failed,
    Yields (fun r => exists todo',
                fst r = (done ++ todo')%list
                /\ Forall2 (enrichedOf env) todo todo'
                /\ failed <= snd r <= failed + len todo)
           (enrichLoop env total todo done completed failed).
Proof.
  induction todo as [|item rest IH]; intros done completed failed; simpl.
  - apply yields_ret. exists []. simpl. rewrite app_nil_r.
    repeat split; [constructor | lia | unfold len; simpl; lia].
  - apply (yields_bind (fun _ => True)); [apply yields_any|].
    intros cancelled _. destruct cancelled; [apply yields_throw|].
    apply (yields_bind (fun _ => True)); [apply yields_any|]. intros _ _.
    apply (yields_bind (fun r : Work * Z =>
                          enrichedOf env item (fst r)
                          /\ failed <= snd r <= failed + 1)).
    + apply yields_try_catch.
      * eapply yields_bind; [apply yields_fetchWorkMetadata_id|].
        intros metadata (Hid & doc & Hdoc & Hpage).
        apply yields_ret. simpl. split; [|lia].
        right. exists metadata. split; [exact Hid|]. split; [reflexivity|].
        exists doc. split; [exact Hdoc | now apply Hpage].
      * intros e. apply yields_ret. simpl. split; [now left | lia].
    + intros [item' failed'] [Hitem Hfailed]. cbv zeta. simpl in Hitem, Hfailed.
      apply (yields_bind (fun _ => True)); [apply yields_any|]. intros _ _.
      intros s r s' Hrun.
      destruct (IH _ _ _ _ _ _ Hrun) as (todo' & Hfst & Hall & Hsnd).
      exists (item' :: todo'). rewrite Hfst, <- app_assoc. simpl.
      rewrite len_cons. repeat split; [now constructor | lia | lia].
Qed.

Lemma yields_enrichWithMetadata_frame (items : list Work) :
  Yields (fun r => Forall2 (enrichedOf env) items (fst r)
                   /\ 0 <= snd r <= len items)
         (enrichWithMetadata env items).
Proof.
  intros s r s' Hrun.
  destruct (yields_enrichLoop_frame _ _ _ _ _ _ _ _ Hrun)
    as (todo' & Hfst & Hall & Hsnd).
  simpl in Hfst. rewrite Hfst. split; [exact Hall | lia].
Qed.

Lemma enrichedOf_sameListing (w w' : Work) :
  enrichedOf env w w' -> sameListing w w'.
Proof.
  intros [->|(metadata & Hid & -> & _)]; unfold sameListing; simpl; tauto.
Qed.

Lemma enriched_ids (l l' : list Work) :
  Forall2 (enrichedOf env) l l' -> map workId l' = map workId l.
Proof.
  induction 1 as [|w w' l l' Hw Hl IH]; simpl; [reflexivity|].
  destruct (enrichedOf_sameListing _ _ Hw) as [-> _]. now rewrite IH.
Qed.

Lemma enriched_length (l l' : list Work) :
  Forall2 (enrichedOf env) l l' -> len l' = len l.
Proof.
  intros H. unfold len. now rewrite (Forall2_length H).
Qed.

Lemma enriched_Forall (P : Work -> Prop) (l l' : list Work) :
  (forall w metadata, P w -> P (assign w metadata)) ->
  Forall2 (enrichedOf env) l l' -> Forall P l -> Forall P l'.
Proof.
  intros Hassign. induction 1 as [|w w' l l' Hw Hl IH]; intros Hall.
  - constructor.
  - inversion Hall; subst. constructor; [|now apply IH].
    destruct Hw as [->|(metadata & _ & -> & _)];
      [assumption | now apply Hassign].
Qed.
End EnrichmentFrame.

(** X21. Whenever enrichWithMetadata returns, it returns as many records
    as it was given, in the same order; each of them is the record it was
    given, either untouched or enriched by a detail page of its own work:
    a page that a fetch of the URL of that work answered with success. An
    enriched record keeps the workId, title, authors, visitCount,
    lastVisited and isBookmark of the listing and carries the rating, the
    tags and the statistics that the page shows; and the failed count lies
    between 0 and the number of records. *)
Theorem enrichWithMetadata_keeps_listing_fields
        (env : Scraper.Env) (items : list Work) (s : Scraper.State) :
  match fst (Scraper.enrichWithMetadata env items s) with
  | Scraper.Ok (enriched, failed) =>
      Forall2 (fun w w' =>
                 Props.sameListing w w'
                 /\ (w' = w
                     \/ exists k r,
                          Scraper.env_fetch env k (Aux.workUrl (workId w))
                          = Scraper.Resolved r
                          /\ Scraper.success r = true
                          /\ Props.enrichedBy (Scraper.html r) w w'))
              items enriched
      /\ 0 <= failed <= Js.len items
  | Scraper.Throw _ => True
  end.
Proof.
  destruct (Scraper.enrichWithMetadata env items s) as [[[enriched failed]|e] s']
    eqn:Hrun; [|exact I].
  destruct (yields_enrichWithMetadata_frame env items _ _ _ Hrun) as [Hall Hf].
  cbn [fst snd] in *. split; [|exact Hf].
  eapply Forall2_impl; [|exact Hall].
  intros w w' Hw. split; [now apply (enrichedOf_sameListing env)|].
  destruct Hw as [->|(metadata & _ & _ & doc & (k & r & Hfetch & Hsuccess & <-)
                      & Hpage)];
    [now left | right; now exists k, r].
Qed.

(** In the sample run the second record is enriched by the page that the
    fetch of its work answered with, and the first one, whose fetch failed,
    is the record of the listing. *)
Example enrichment_sample :
  match fst (Scraper.enrichWithMetadata
               (Sample.flakyEnv (fun k => (k =? 0)%nat))
               [Sample.historyRow "1" 1; Sample.historyRow "2" 2]
               (Scraper.start false)) with
  | Scraper.Ok ([first; second], failed) =>
      first = Sample.historyRow "1" 1
      /\ workId second = "2" /\ rating second = Some "Unknown"
      /\ fandoms second = [] /\ lastVisited second = Some "15 Mar 2024"
      /\ failed = 1
  | _ => False
  end.
Proof. vm_compute. repeat split. Qed.

Ltac through_enrichment env allItems' Hlen items failed Hall Hfailed :=
  destruct (Js.len allItems' =? 0) eqn:Hlen;
  [ apply yields_ret
  | apply (yields_bind (fun _ => True)); [apply yields_any|]; intros _ _;
    apply (yields_bind (fun _ => True)); [apply yields_any|]; intros _ _;
    apply (yields_bind
             (fun r : list Work * Z =>
                Forall2 (Props.enrichedOf env) allItems' (fst r)
                /\ 0 <= snd r <= Js.len allItems'));
    [ apply yields_enrichWithMetadata_frame
    | intros [items failed] [Hall Hfailed]; cbn [fst snd] in Hall, Hfailed;
      apply (yields_bind (fun _ => True)); [apply yields_any|]; intros _ _;
      apply yields_ret ] ].

Section ResultShape.
Import Js Scraper Aux Props.
Variable env : Env.

Lemma yields_scrapeAllTry_wellFormed username source options :
  Yields (wellFormed source) (scrapeAllTry env username source options).
Proof.
  unfold scrapeAllTry. cbv zeta.
  apply (yields_bind (fun _ => True)); [apply yields_any|].
  intros allItems _.
  apply (yields_bind (fun _ => True)); [apply yields_any|].
  intros allItems' _.
  through_enrichment env allItems' Hlen items failed Hall Hfailed.
  - unfold wellFormed, nothingFound. unfold len. simpl.
    repeat split; try lia; try reflexivity; congruence.
  - apply Z.eqb_neq in Hlen.
    pose proof (enriched_length env _ _ Hall) as Hsame.
    unfold wellFormed. split; [reflexivity|]. split; [lia|].
    split; [|split].
    + intros ->. unfold len in *. simpl in Hsame. lia.
    + intros _ ->. reflexivity.
    + intros Hpos. destruct (Z.gtb_spec failed 0); [reflexivity | lia].
Qed.

Lemma merge_Forall (P : Work -> Prop) (h b : list Work) :
  (forall w v, P w -> P (set_isBookmark w v)) ->
  Forall P h -> Forall P b -> Forall P (mergeItems h b).
Proof.
  intros Hflag Hh Hb. rewrite mergeItems_unfold. unfold map_values.
  apply Forall_map.
  assert (Hfold : forall (step : JsMap Work -> Work -> JsMap Work) l,
             (forall m w, Forall (fun e => P (snd e)) m -> P w ->
                          Forall (fun e => P (snd e)) (step m w)) ->
             Forall P l ->
             forall m, Forall (fun e => P (snd e)) m ->
                       Forall (fun e => P (snd e)) (fold_left step l m)).
  { intros step l Hstep Hl. induction Hl as [|w l Hw Hl IH]; intros m Hm.
    - exact Hm.
    - simpl. apply IH. now apply Hstep. }
  assert (Hset : forall m k v,
             Forall (fun e => P (snd e)) m -> P v ->
             Forall (fun e : string * Work => P (snd e)) (map_set k v m)).
  { intros m k v Hm Hv. apply Forall_forall. intros e He.
    destruct (map_set_In _ _ _ _ He) as [->|Hin]; [exact Hv|].
    now apply (proj1 (Forall_forall _ _) Hm). }
  apply Hfold; [|exact Hb|].
  - intros m w Hm Hw. unfold addBookmark, map_has.
    destruct (map_get (workId w) m) as [existing|] eqn:Hget.
    + apply Hset; [exact Hm|]. apply Hflag.
      apply map_get_Some_In in Hget.
      exact (proj1 (Forall_forall _ _) Hm _ Hget).
    + now apply Hset.
  - apply Hfold; [|exact Hh|constructor].
    intros m w Hm Hw. now apply Hset.
Qed.

Lemma filter_Forall_true {A : Type} (f : A -> bool) (l : list A) :
  Forall (fun x => f x = true) (filter f l).
Proof.
  apply Forall_forall. intros x Hx. now apply filter_In in Hx.
Qed.

(** isWithinLastYear keeps exactly the records without a date, with an
    empty date, with a text that is no date, and with a date that is not
    before the day one year ago. *)
Lemma isWithinLastYear_recent (w : Work) :
  isWithinLastYear env (lastVisited w) = true <-> recent env w.
Proof.
  unfold isWithinLastYear, recent, truthy.
  destruct (lastVisited w) as [str|]; [|split; [now left | reflexivity]].
  destruct (String.eqb_spec str EmptyString) as [->|Hne]; cbn [negb].
  - split; [intros _; right; now left | reflexivity].
  - destruct (env_parseDate env str) as [date|] eqn:Hdate.
    + split.
      * intros Hge. right. right. exists str. split; [reflexivity|].
        right. exists date. split; [exact Hdate|].
        apply Z.geb_le in Hge. lia.
      * intros [Hnone|[Hempty|(str' & [= <-] & [Hnodate|(date' & Hd & Hle)])]];
          try congruence.
        rewrite Hdate in Hd. injection Hd as <-. apply Z.geb_le. lia.
    + split; [|reflexivity]. intros _. right. right. exists str.
      split; [reflexivity | left; exact Hdate].
Qed.

Lemma filter_recent (l : list Work) :
  Forall (recent env)
         (filter (fun item => isWithinLastYear env (lastVisited item)) l).
Proof.
  eapply Forall_impl; [|apply filter_Forall_true].
  intros w Hw. now apply isWithinLastYear_recent.
Qed.

Lemma yields_scrapeReadingHistory_year username pageLimit :
  Yields (Forall (recent env))
         (scrapeReadingHistory env username
            (mkOptions None (Some "year") pageLimit)).
Proof.
  unfold scrapeReadingHistory. cbv zeta. cbn [o_timeRange dflt].
  apply (yields_bind (fun _ => True)); [apply yields_any|]. intros _ _.
  apply (yields_bind (fun _ => True)); [apply yields_any|]. intros _ _.
  apply (yields_bind (fun _ => True)); [apply yields_any|]. intros found _.
  apply (yields_bind (fun _ => True)); [apply yields_any|]. intros _ _.
  apply (yields_bind (fun _ => True)); [apply yields_any|].
  intros allItems _. cbn.
  apply yields_ret. apply filter_recent.
Qed.

Lemma yields_scrapeBookmarks_year username pageLimit offset :
  Yields (Forall (recent env))
         (scrapeBookmarks env username
            (mkOptions None (Some "year") pageLimit) offset).
Proof.
  unfold scrapeBookmarks. cbv zeta. cbn [o_timeRange dflt].
  apply (yields_bind (fun _ => True)); [apply yields_any|]. intros found _.
  apply (yields_bind (fun _ => True)); [apply yields_any|]. intros _ _.
  apply (yields_bind (fun _ => True)); [apply yields_any|].
  intros allItems _. cbn.
  apply yields_ret. apply filter_recent.
Qed.

Lemma yields_scrapeAllTry_year username source pageLimit :
  Yields (fun result => match result with
                        | Success items _ _ _ => Forall (recent env) items
                        | _ => True
                        end)
         (scrapeAllTry env username source
            (mkOptions None (Some "year") pageLimit)).
Proof.
  unfold scrapeAllTry. cbv zeta.
  apply (yields_bind (Forall (recent env))).
  { destruct (_ || _)%bool;
      [apply yields_scrapeReadingHistory_year | apply yields_ret; constructor]. }
  intros allItems Hh.
  apply (yields_bind (Forall (recent env))).
  { destruct (_ || _)%bool; [|now apply yields_ret].
    apply (yields_bind (fun _ => True)); [apply yields_any|]. intros _ _.
    apply (yields_bind (Forall (recent env)));
      [apply yields_scrapeBookmarks_year|].
    intros bookmarkItems Hb.
    destruct (_ =? _)%string; apply yields_ret; [|exact Hb].
    apply merge_Forall; [|exact Hh|exact Hb].
    intros w v Hw. exact Hw. }
  intros allItems' Hall'.
  through_enrichment env allItems' Hlen items failed Hall Hfailed.
  - constructor.
  - apply (enriched_Forall env (recent env) allItems');
      [|exact Hall|exact Hall'].
    intros w metadata Hw. exact Hw.
Qed.

Lemma yields_scrapeAllTry_both username options :
  Yields (fun result => match result with
                        | Success items _ _ _ => NoDup (map workId items)
                        | _ => True
                        end)
         (scrapeAllTry env username "both" options).
Proof.
  unfold scrapeAllTry. cbv zeta. cbn [String.eqb Ascii.eqb Bool.eqb orb].
  apply (yields_bind (fun _ => True)); [apply yields_any|].
  intros allItems _.
  apply (yields_bind (fun l => NoDup (map workId l))).
  { apply (yields_bind (fun _ => True)); [apply yields_any|]. intros _ _.
    apply (yields_bind (fun _ => True)); [apply yields_any|].
    intros bookmarkItems _. apply yields_ret.
    rewrite mergeItems_unfold. unfold map_values.
    apply keyed_values_NoDup. apply merge_keyed. }
  intros allItems' Hnd.
  through_enrichment env allItems' Hlen items failed Hall Hfailed.
  - constructor.
  - now rewrite (enriched_ids env _ _ Hall).
Qed.

(** scrapeAll returns what its [try] block returns, or what its [catch]
    block makes of the error. *)
Lemma scrapeAll_outcome username options s :
  let source := dflt (o_source options) "both" in
  let scrapingOptions :=
    mkOptions None (Some (dflt (o_timeRange options) "year"))
              (Some (dflt (o_pageLimit options) 10)) in
  let s0 := mkState false (awaits s) (trace s) in
  fst (scrapeAll env username options s)
  = match fst (scrapeAllTry env username source scrapingOptions s0) with
    | Ok result => Ok result
    | Throw e =>
        Ok (if includes e "cancelled" then Cancelled "Scraping was cancelled"
            else Failed e ("Scraping failed: " ++ e))
    end.
Proof.
  cbv zeta. unfold scrapeAll, bind, resetCancel, try_catch. cbv zeta.
  destruct (scrapeAllTry env username _ _ _) as [[result|e] s1]; cbn [fst].
  - reflexivity.
  - unfold scrapeAllCatch, ret. now destruct (includes e "cancelled").
Qed.
End ResultShape.

(** X22. Every run of scrapeAll resolves to a result of one of three
    shapes. A success result has totalWorks equal to the number of its
    items and a failed count between 0 and totalWorks; its message is the
    "nothing found" message of the source when there are no items, "All
    works processed successfully" when no detail fetch failed, and
    "Completed with <failed> works that couldn't be fully loaded"
    otherwise. A cancelled result has the message "Scraping was
    cancelled". A failed result has the message "Scraping failed: " followed
    by its error, and its error does not contain the word cancelled. *)
Theorem scrapeAll_result_is_well_formed
        (env : Scraper.Env) (username : string) (options : Scraper.Options)
        (s : Scraper.State) :
  exists result,
    fst (Scraper.scrapeAll env username options s) = Scraper.Ok result
    /\ Props.wellFormed (Scraper.dflt (Scraper.o_source options) "both") result.
Proof.
  rewrite scrapeAll_outcome. cbv zeta.
  destruct (Scraper.scrapeAllTry env username _ _ _) as [[result|e] s1] eqn:Hrun;
    cbn [fst].
  - exists result. split; [reflexivity|].
    exact (yields_scrapeAllTry_wellFormed env _ _ _ _ _ _ Hrun).
  - eexists. split; [reflexivity|].
    destruct (Js.includes e "cancelled") eqn:Hinc; simpl; auto.
Qed.

(** X23. Under the time range 'year', which is the default, every item
    of a success result of scrapeAll has a lastVisited date that is absent
    or empty, is no valid date, or is not older than one year: the history
    records and the bookmark records are both filtered by their date, and
    neither the merge nor the enrichment changes it. No item of the result
    has a date before the day one year ago. *)
Theorem scrapeAll_year_range_keeps_recent_works
        (env : Scraper.Env) (username : string) (options : Scraper.Options)
        (s : Scraper.State) :
  Scraper.dflt (Scraper.o_timeRange options) "year" = "year" ->
  match fst (Scraper.scrapeAll env username options s) with
  | Scraper.Ok (Scraper.Success items _ _ _) =>
      Forall (Props.recent env) items
      /\ (forall w str date,
            In w items -> lastVisited w = Some str -> str <> EmptyString ->
            Scraper.env_parseDate env str = Some date ->
            Scraper.env_oneYearAgo env <= date)
  | _ => True
  end.
Proof.
  intros Hyear. rewrite scrapeAll_outcome. cbv zeta. rewrite Hyear.
  destruct (Scraper.scrapeAllTry env username _ _ _) as [[result|e] s1] eqn:Hrun;
    cbn [fst].
  - pose proof (yields_scrapeAllTry_year env _ _ _ _ _ _ Hrun) as Hall.
    destruct result as [items total failed message| |]; try exact I.
    split; [exact Hall|].
    intros w str date Hin Hlast Hne Hdate.
    pose proof (proj1 (Forall_forall _ _) Hall w Hin) as Hrecent.
    destruct Hrecent as [Hnone|[Hempty|(str' & Hstr' & [Hnodate|(date' & Hd & Hle)])]];
      congruence.
  - now destruct (Js.includes e "cancelled").
Qed.

Lemma scrapeAll_year_range_keeps_recent_works_witness :
  match fst (Scraper.scrapeAll Sample.datedEnv "reader" Sample.defaults
                               (Scraper.start false)) with
  | Scraper.Ok (Scraper.Success items _ _ _) =>
      Forall (Props.recent Sample.datedEnv) items
      /\ (forall w str date,
            In w items -> lastVisited w = Some str -> str <> EmptyString ->
            Scraper.env_parseDate Sample.datedEnv str = Some date ->
            Scraper.env_oneYearAgo Sample.datedEnv <= date)
  | _ => True
  end.
Proof.
  apply (scrapeAll_year_range_keeps_recent_works
           Sample.datedEnv "reader" Sample.defaults (Scraper.start false)).
  reflexivity.
Defined.

(** With the defaults, the history row of work 1, dated before the day one
    year ago, is dropped, and the two bookmark rows are kept. *)
Example dated_run_drops_old_history :
  exists items failed message,
    fst (Scraper.scrapeAll Sample.datedEnv "reader" Sample.defaults
                           (Scraper.start false))
    = Scraper.Ok (Scraper.Success items 2 failed message)
    /\ map workId items = ["1"; "2"]
    /\ map isBookmark items = [Some true; Some true]
    /\ map lastVisited items = [Some "20 Apr 2024"; Some "20 Apr 2024"].
Proof. eexists _, _, _. vm_compute. repeat split; reflexivity. Qed.

(** Under the time range 'all' the same run keeps the history row of work
    1, with its old date. *)
Example undated_run_keeps_old_history :
  exists items failed message,
    fst (Scraper.scrapeAll Sample.datedEnv "reader"
                           (Scraper.mkOptions None (Some "all") None)
                           (Scraper.start false))
    = Scraper.Ok (Scraper.Success items 2 failed message)
    /\ map workId items = ["1"; "2"]
    /\ map lastVisited items = [Some "15 Mar 2024"; Some "20 Apr 2024"].
Proof. eexists _, _, _. vm_compute. repeat split; reflexivity. Qed.

(** X24. Over both sources, which is the default, the items of a success
    result of scrapeAll have distinct work ids: the merge step removes the
    repetitions and the enrichment keeps the ids. *)
Theorem scrapeAll_both_returns_each_work_once
        (env : Scraper.Env) (username : string) (options : Scraper.Options)
        (s : Scraper.State) :
  Scraper.dflt (Scraper.o_source options) "both" = "both" ->
  match fst (Scraper.scrapeAll env username options s) with
  | Scraper.Ok (Scraper.Success items _ _ _) => NoDup (map workId items)
  | _ => True
  end.
Proof.
  intros Hboth. rewrite scrapeAll_outcome. cbv zeta. rewrite Hboth.
  destruct (Scraper.scrapeAllTry env username _ _ _) as [[result|e] s1] eqn:Hrun;
    cbn [fst].
  - exact (yields_scrapeAllTry_both env _ _ _ _ _ Hrun).
  - now destruct (Js.includes e "cancelled").
Qed.

Lemma scrapeAll_both_returns_each_work_once_witness :
  match fst (Scraper.scrapeAll Sample.calmEnv "reader" (Sample.optionsFor "both")
                               (Scraper.start false)) with
  | Scraper.Ok (Scraper.Success items _ _ _) => NoDup (map workId items)
  | _ => True
  end.
Proof.
  apply (scrapeAll_both_returns_each_work_once
           Sample.calmEnv "reader" (Sample.optionsFor "both")
           (Scraper.start false)).
  reflexivity.
Defined.

(** Over the history alone nothing removes a repetition: a listing that
    shows a work twice gives a result with that work twice. *)
Example history_run_repeats_work :
  exists items failed message,
    fst (Scraper.scrapeAll Sample.repeatEnv "reader"
                           (Sample.optionsFor "history") (Scraper.start false))
    = Scraper.Ok (Scraper.Success items 2 failed message)
    /\ map workId items = ["1"; "1"].
Proof. eexists _, _, _. vm_compute. split; reflexivity. Qed.

(** X25. When the first fetch of a run over the history (alone or with
    the bookmarks) fails, because the fetch rejects or resolves with
    success false, scrapeAll stops at once: it has issued that one fetch
    and reported one progress event, and it resolves to a failed result
    whose error is the error of the fetch (prefixed with "Failed to fetch
    history: " when the fetch resolved) and whose message is "Scraping
    failed: " followed by that error; unless the error text contains the
    word cancelled, in which case it resolves to a cancelled result though
    nobody cancelled. *)
Theorem scrapeAll_reports_first_fetch_failure
        (env : Scraper.Env) (username : string) (options : Scraper.Options)
        (s : Scraper.State) (e : string) :
  Scraper.dflt (Scraper.o_source options) "both" = "both"
  \/ Scraper.dflt (Scraper.o_source options) "both" = "history" ->
  Props.historyCountError
    (Scraper.env_fetch env (Scraper.awaits s) (Props.historyUrl username))
  = Some e ->
  Scraper.scrapeAll env username options s
  = (Scraper.Ok (Props.reported e),
     Scraper.mkState
       (Scraper.env_cancel env (Scraper.awaits s))
       (S (Scraper.awaits s))
       (Scraper.trace s
        ++ [Scraper.EvProgress
              (Scraper.mkProgress "init" "Checking your reading history size..."
                                  None 0 None);
            Scraper.EvFetch (Props.historyUrl username)])%list).
Proof.
  intros Hsource Herror.
  assert (Hcount :
            Aux.pageCountAt env (Scraper.awaits s) (Props.historyUrl username)
                            "history" = Scraper.Throw e).
  { unfold Aux.pageCountAt, Scraper.getPageCount, Scraper.bind.
    rewrite fetchUrl_run. cbn [Scraper.awaits fst].
    unfold Props.historyCountError in Herror.
    destruct (Scraper.env_fetch env (Scraper.awaits s)
                                (Props.historyUrl username)) as [r|e'].
    - destruct (Scraper.success r); [discriminate|].
      injection Herror as <-. reflexivity.
    - injection Herror as <-. reflexivity. }
  set (final := Scraper.mkState
                  (Scraper.env_cancel env (Scraper.awaits s))
                  (S (Scraper.awaits s))
                  (Scraper.trace s
                   ++ [Scraper.EvProgress
                         (Scraper.mkProgress
                            "init" "Checking your reading history size..."
                            None 0 None);
                       Scraper.EvFetch (Props.historyUrl username)])%list).
  assert (Htry : forall scrapingOptions,
             Scraper.scrapeAllTry env username
               (Scraper.dflt (Scraper.o_source options) "both") scrapingOptions
               (Scraper.mkState false (Scraper.awaits s) (Scraper.trace s))
             = (Scraper.Throw e, final)).
  { intros scrapingOptions. unfold Scraper.scrapeAllTry. cbv zeta.
    apply bind_Throw.
    assert (Hcover : (((Scraper.dflt (Scraper.o_source options) "both"
                        =? "both")%string
                       || (Scraper.dflt (Scraper.o_source options) "both"
                           =? "history")%string)%bool = true)).
    { destruct Hsource as [-> | ->]; reflexivity. }
    rewrite Hcover.
    unfold Scraper.scrapeReadingHistory, Scraper.getHistoryPageCount. cbv zeta.
    erewrite bind_Ok by reflexivity.
    erewrite bind_Ok by reflexivity.
    apply bind_Throw.
    rewrite getPageCount_run. cbn [Scraper.awaits].
    fold (Props.historyUrl username). rewrite Hcount.
    unfold Aux.fetched, final. cbn. rewrite <- app_assoc. reflexivity. }
  unfold Scraper.scrapeAll. cbv zeta.
  rewrite (bind_Ok Scraper.resetCancel _ s tt
             (Scraper.mkState false (Scraper.awaits s) (Scraper.trace s))
             eq_refl).
  rewrite (try_catch_Throw _ _ _ e final (Htry _)).
  unfold Scraper.scrapeAllCatch, Props.reported, Scraper.ret.
  destruct (Js.includes e "cancelled"); reflexivity.
Qed.

Lemma scrapeAll_reports_first_fetch_failure_witness :
  Scraper.scrapeAll (Sample.flakyEnv (fun _ => true)) "reader"
                    (Sample.optionsFor "history") (Scraper.start false)
  = (Scraper.Ok (Scraper.Failed
                   "Failed to fetch history: HTTP 404: Not Found"
                   "Scraping failed: Failed to fetch history: HTTP 404: Not Found"),
     Scraper.mkState false 1
       [ Scraper.EvProgress
           (Scraper.mkProgress "init" "Checking your reading history size..."
                               None 0 None);
         Scraper.EvFetch "https://archiveofourown.org/users/reader/readings" ]).
Proof.
  exact (scrapeAll_reports_first_fetch_failure
           (Sample.flakyEnv (fun _ => true)) "reader"
           (Sample.optionsFor "history") (Scraper.start false)
           "Failed to fetch history: HTTP 404: Not Found"
           (or_intror eq_refl) eq_refl).
Defined.

(** ** The Visualizer and the slide navigation *)

Section Truncation.
Import Js Visualizer.

Lemma length_append (s1 s2 : string) :
  String.length (s1 ++ s2) = (String.length s1 + String.length s2)%nat.
Proof. induction s1 as [|c s1 IH]; simpl; [reflexivity | now rewrite IH]. Qed.

Lemma substring_length (n : nat) (s : string) :
  String.length (String.substring 0 n s) = Nat.min n (String.length s).
Proof.
  revert s. induction n as [|n IH]; intros [|c s]; simpl; try reflexivity.
  now rewrite IH.
Qed.

Lemma substring_prefix (n : nat) (s : string) :
  exists rest, s = String.substring 0 n s ++ rest.
Proof.
  revert s. induction n as [|n IH]; intros [|c s]; simpl.
  - now exists EmptyString.
  - now exists (String c s).
  - now exists EmptyString.
  - destruct (IH s) as (rest & Hrest). exists rest. now rewrite <- Hrest.
Qed.
End Truncation.

(** X26. truncate returns the empty string for an absent or empty text
    and the text itself when it is no longer than the limit (50 by
    default). A longer text is cut: for a limit of 3 or more the result is
    the first limit - 3 characters of the text followed by three dots, so
    its length is exactly the limit; for a limit below 3 the result is the
    three dots alone, which is longer than the limit. *)
Theorem truncate_cuts_to_the_limit (text : option string) (maxLength : option Z) :
  (text = None \/ text = Some EmptyString ->
   Visualizer.truncate text maxLength = EmptyString)
  /\ (forall t, text = Some t ->
        Z.of_nat (String.length t) <= Scraper.dflt maxLength 50 ->
        Visualizer.truncate text maxLength = t)
  /\ (forall t, text = Some t ->
        Scraper.dflt maxLength 50 < Z.of_nat (String.length t) ->
        3 <= Scraper.dflt maxLength 50 ->
        exists kept rest,
          t = kept ++ rest
          /\ Visualizer.truncate text maxLength = kept ++ "..."
          /\ Z.of_nat (String.length (Visualizer.truncate text maxLength))
             = Scraper.dflt maxLength 50)
  /\ (forall t, text = Some t -> t <> EmptyString ->
        Scraper.dflt maxLength 50 < Z.of_nat (String.length t) ->
        Scraper.dflt maxLength 50 < 3 ->
        Visualizer.truncate text maxLength = "...").
Proof.
  unfold Visualizer.truncate. cbv zeta.
  set (limit := Scraper.dflt maxLength 50).
  split; [|split; [|split]].
  - intros [-> | ->]; reflexivity.
  - intros t -> Hshort. destruct t as [|c t]; [reflexivity|].
    cbn [Js.truthy String.eqb negb].
    destruct (Z.leb_spec (Z.of_nat (String.length (String c t))) limit);
      [reflexivity | lia].
  - intros t -> Hlong Hlimit. destruct t as [|c t]; [simpl in Hlong; lia|].
    cbn [Js.truthy String.eqb negb].
    destruct (Z.leb_spec (Z.of_nat (String.length (String c t))) limit);
      [lia|].
    unfold Visualizer.substring0.
    destruct (substring_prefix (Z.to_nat (limit - 3)) (String c t))
      as (rest & Hrest).
    exists (String.substring 0 (Z.to_nat (limit - 3)) (String c t)), rest.
    split; [exact Hrest|]. split; [reflexivity|].
    rewrite length_append, substring_length. simpl String.length in *. lia.
  - intros t -> Hne Hlong Hlimit. destruct t as [|c t]; [congruence|].
    cbn [Js.truthy String.eqb negb].
    destruct (Z.leb_spec (Z.of_nat (String.length (String c t))) limit);
      [lia|].
    unfold Visualizer.substring0.
    replace (Z.to_nat (limit - 3)) with 0%nat by lia. reflexivity.
Qed.

(** The title of a work slide is cut to 60 characters; a limit of 2 gives
    three. *)
Example truncate_samples :
  Visualizer.truncate (Some "A Very Long Title Indeed") (Some 10) = "A Very ..."
  /\ Visualizer.truncate (Some "A Very Long Title Indeed") (Some 2) = "..."
  /\ Visualizer.truncate (Some "Short") None = "Short"
  /\ Visualizer.truncate None (Some 10) = EmptyString.
Proof. repeat split; reflexivity. Qed.

Section SlideSteps.
Import Js Visualizer Navigation Props.

Lemma nth_error_map_seq {A : Type} (f : nat -> A) (n i : nat) (a : A) :
  nth_error (map f (seq 0 n)) i = Some a -> (i < n)%nat /\ a = f i.
Proof.
  intros H. rewrite nth_error_map in H.
  destruct (nth_error (seq 0 n) i) as [j|] eqn:Hj; [|discriminate].
  injection H as <-.
  assert (Hlt : (i < n)%nat).
  { assert (Hi : (i < List.length (seq 0 n))%nat)
      by (apply nth_error_Some; congruence).
    now rewrite length_seq in Hi. }
  split; [exact Hlt|].
  rewrite (nth_error_nth' _ 0%nat) in Hj by (now rewrite length_seq).
  rewrite seq_nth in Hj by exact Hlt. injection Hj as <-. reflexivity.
Qed.

Lemma goToSlide_length (index : Z) (container : list SlideMark) :
  len (snd (goToSlide index container)) = len container.
Proof.
  unfold goToSlide, len. cbn [snd]. now rewrite length_map, length_seq.
Qed.

(** The page after [goToSlide] of an index of the container and
    [updateSlideNavigation]. *)
Lemma inStep_shown (ui : Ui) (index : Z) :
  totalSlides ui = len (slidesContainer ui) ->
  0 <= index < totalSlides ui ->
  inStep (updateSlideNavigation (showSlide (setSlide ui index) index)).
Proof.
  intros Htotal Hindex. unfold inStep, updateSlideNavigation, showSlide, setSlide.
  cbn [currentSlide totalSlides slidesContainer btnPrevSlideDisabled
       btnNextSlideDisabled].
  split; [exact Hindex|]. split; [now rewrite goToSlide_length|].
  split; [|split; reflexivity].
  intros i mark Hnth. unfold goToSlide in Hnth. cbn [snd] in Hnth.
  apply nth_error_map_seq in Hnth. destruct Hnth as [_ ->].
  rewrite <- Htotal.
  replace (Z.max 0 (Z.min index (totalSlides ui - 1))) with index by lia.
  reflexivity.
Qed.

Lemma inStep_previousSlide (ui : Ui) : inStep ui -> inStep (previousSlide ui).
Proof.
  intros Hui. unfold previousSlide. cbv zeta.
  destruct (Z.gtb_spec (currentSlide ui) 0) as [Hgt|_]; [|exact Hui].
  destruct Hui as (Hrange & Htotal & _).
  apply (inStep_shown ui (currentSlide ui - 1)); [exact Htotal | lia].
Qed.

Lemma inStep_nextSlide (ui : Ui) : inStep ui -> inStep (nextSlide ui).
Proof.
  intros Hui. unfold nextSlide. cbv zeta.
  destruct (Z.ltb_spec (currentSlide ui) (totalSlides ui - 1)) as [Hlt|_];
    [|exact Hui].
  destruct Hui as (Hrange & Htotal & _).
  apply (inStep_shown ui (currentSlide ui + 1)); [exact Htotal | lia].
Qed.

Lemma inStep_handleKeydown (key : string) (ui : Ui) :
  inStep ui -> inStep (handleKeydown key ui).
Proof.
  intros Hui. unfold handleKeydown. cbv zeta.
  destruct (negb (currentScreen ui =? "results")%string); [exact Hui|].
  destruct (_ || _)%bool; [now apply inStep_previousSlide|].
  destruct (_ || _)%bool; [now apply inStep_nextSlide|].
  pose proof Hui as (Hrange & Htotal & _).
  destruct (key =? "Home")%string;
    [apply (inStep_shown ui 0); [exact Htotal | lia]|].
  destruct (key =? "End")%string;
    [apply (inStep_shown ui (totalSlides ui - 1)); [exact Htotal | lia]|].
  exact Hui.
Qed.

Lemma inStep_showResults (slides : list string) (ui : Ui) :
  slides <> [] -> inStep (showResults slides ui).
Proof.
  intros Hne. pose proof (len_pos slides Hne) as Hpos.
  unfold inStep, showResults, updateSlideNavigation.
  cbn [currentSlide totalSlides slidesContainer btnPrevSlideDisabled
       btnNextSlideDisabled].
  split; [lia|]. split.
  - unfold renderSlides, len. now rewrite length_map, length_seq.
  - split; [|split; reflexivity].
    intros i mark Hnth. unfold renderSlides in Hnth.
    apply nth_error_map_seq in Hnth. destruct Hnth as [_ ->].
    destruct i as [|i]; [reflexivity|].
    cbn [Nat.eqb].
    destruct (Z.eqb_spec (Z.of_nat (S i)) 0); [lia|].
    destruct (Z.ltb_spec (Z.of_nat (S i)) 0); [lia | reflexivity].
Qed.
End SlideSteps.

(** X27. Once the results are shown with at least one slide, the page
    stays in step with the state whatever keys are pressed: the current
    slide is one of the slides, it is the one marked active in the
    container while the slides before it are marked prev and the others
    are not marked (so goToSlide never has to clamp the index it gets), and
    the previous and next buttons are disabled exactly on the first and on
    the last slide. *)
Theorem slide_navigation_stays_in_step
        (slides : list string) (ui : Navigation.Ui) (keys : list string) :
  slides <> [] ->
  Props.inStep
    (fold_left (fun ui key => Navigation.handleKeydown key ui) keys
               (Navigation.showResults slides ui)).
Proof.
  intros Hne.
  assert (Hstart : Props.inStep (Navigation.showResults slides ui))
    by now apply inStep_showResults.
  revert Hstart. generalize (Navigation.showResults slides ui).
  induction keys as [|key keys IH]; intros page Hpage; simpl.
  - exact Hpage.
  - apply IH. now apply inStep_handleKeydown.
Qed.

Lemma slide_navigation_stays_in_step_witness :
  Props.inStep
    (fold_left (fun ui key => Navigation.handleKeydown key ui)
               ["End"; "ArrowRight"; "ArrowLeft"; "x"]
               (Navigation.showResults ["one"; "two"; "three"]
                                       Sample.welcomeUi)).
Proof.
  apply (slide_navigation_stays_in_step
           ["one"; "two"; "three"] Sample.welcomeUi
           ["End"; "ArrowRight"; "ArrowLeft"; "x"]).
  discriminate.
Defined.

(** After End, a key that moves forward and a key that moves back, the
    second of three slides is shown. *)
Example navigation_sample :
  let page :=
    fold_left (fun ui key => Navigation.handleKeydown key ui)
              ["End"; "ArrowRight"; "ArrowLeft"; "x"]
              (Navigation.showResults ["one"; "two"; "three"] Sample.welcomeUi) in
  Navigation.currentSlide page = 1
  /\ Navigation.slidesContainer page
     = [Visualizer.Prev; Visualizer.Active; Visualizer.Unmarked]
  /\ Navigation.slideCounter page = "2 / 3".
Proof. vm_compute. repeat split; reflexivity. Qed.

(** ** The pages of a listing *)

Section CalmPages.
Import Js Scraper Aux Props.
Variable env : Env.
Hypothesis calm : untroubled env.

Lemma pagesFrom_S (page : Z) (count : nat) :
  pagesFrom page (S count) = page :: pagesFrom (page + 1) count.
Proof.
  unfold pagesFrom. simpl. rewrite Z.add_0_r. f_equal.
  rewrite <- seq_shift, map_map. apply map_ext. intros i. lia.
Qed.

Lemma scrapeHistoryPage_calm username page s :
  exists items,
    scrapeHistoryPage env username page s
    = (Ok items, fetched env s (historyPageUrl username page)).
Proof.
  unfold scrapeHistoryPage, bind. rewrite fetchUrl_run.
  fold (historyPageUrl username page).
  destruct (proj2 calm (awaits s) (historyPageUrl username page))
    as (r & -> & Hr).
  rewrite Hr. simpl. eexists. reflexivity.
Qed.

Lemma scrapeBookmarkPage_calm username page s :
  exists items,
    scrapeBookmarkPage env username page s
    = (Ok items, fetched env s (bookmarkPageUrl username page)).
Proof.
  unfold scrapeBookmarkPage, bind. rewrite fetchUrl_run.
  fold (bookmarkPageUrl username page).
  destruct (proj2 calm (awaits s) (bookmarkPageUrl username page))
    as (r & -> & Hr).
  rewrite Hr. simpl. eexists. reflexivity.
Qed.

Lemma pause_calm (b : bool) (s : State) :
  cancelRequested s = false ->
  exists s',
    (if b then delay env RATE_LIMIT_MS else ret tt) s = (Ok tt, s')
    /\ cancelRequested s' = false
    /\ fetchesOf (trace s') = fetchesOf (trace s).
Proof.
  intros Hflag. destruct b.
  - rewrite delay_run. eexists. split; [reflexivity|]. split.
    + simpl. rewrite Hflag. apply (proj1 calm).
    + simpl. rewrite fetchesOf_app. simpl. now rewrite app_nil_r.
  - eexists. split; [reflexivity|]. now split.
Qed.

Lemma historyPages_calm username totalPages remaining :
  forall page allItems s,
    cancelRequested s = false ->
    exists items s',
      historyPages env username totalPages remaining page allItems s
      = (Ok items, s')
      /\ cancelRequested s' = false
      /\ fetchesOf (trace s')
         = (fetchesOf (trace s)
            ++ map (historyPageUrl username) (pagesFrom page remaining))%list.
Proof.
  induction remaining as [|remaining IH]; intros page allItems s Hflag.
  - exists allItems, s. simpl. now rewrite app_nil_r.
  - cbn [historyPages].
    erewrite bind_Ok by reflexivity. rewrite Hflag.
    erewrite bind_Ok by reflexivity.
    match goal with
    | |- context [bind (scrapeHistoryPage env username page) ?k ?s0] =>
        destruct (scrapeHistoryPage_calm username page s0) as (items & Hpage);
        rewrite (bind_Ok _ k s0 _ _ Hpage)
    end.
    match goal with
    | |- context [bind (if ?b then _ else _) ?k ?s1] =>
        destruct (pause_calm b s1) as (s2 & Hpause & Hflag2 & Hfetches);
        [ simpl; rewrite ?Hflag; apply (proj1 calm)
        | rewrite (bind_Ok _ k s1 _ _ Hpause) ]
    end.
    destruct (IH (page + 1) (allItems ++ items)%list s2 Hflag2)
      as (result & s' & Hrun & Hflag' & Htrace).
    exists result, s'. split; [exact Hrun|]. split; [exact Hflag'|].
    rewrite Htrace, Hfetches, pagesFrom_S. simpl.
    rewrite !fetchesOf_app. simpl. rewrite app_nil_r, <- !app_assoc.
    reflexivity.
Qed.

Lemma bookmarkPages_calm username offset totalPages remaining :
  forall page allItems s,
    cancelRequested s = false ->
    exists items s',
      bookmarkPages env username offset totalPages remaining page allItems s
      = (Ok items, s')
      /\ cancelRequested s' = false
      /\ fetchesOf (trace s')
         = (fetchesOf (trace s)
            ++ map (bookmarkPageUrl username) (pagesFrom page remaining))%list.
Proof.
  induction remaining as [|remaining IH]; intros page allItems s Hflag.
  - exists allItems, s. simpl. now rewrite app_nil_r.
  - cbn [bookmarkPages].
    erewrite bind_Ok by reflexivity. rewrite Hflag.
    erewrite bind_Ok by reflexivity.
    match goal with
    | |- context [bind (scrapeBookmarkPage env username page) ?k ?s0] =>
        destruct (scrapeBookmarkPage_calm username page s0) as (items & Hpage);
        rewrite (bind_Ok _ k s0 _ _ Hpage)
    end.
    match goal with
    | |- context [bind (if ?b then _ else _) ?k ?s1] =>
        destruct (pause_calm b s1) as (s2 & Hpause & Hflag2 & Hfetches);
        [ simpl; rewrite ?Hflag; apply (proj1 calm)
        | rewrite (bind_Ok _ k s1 _ _ Hpause) ]
    end.
    destruct (IH (page + 1) (allItems ++ items)%list s2 Hflag2)
      as (result & s' & Hrun & Hflag' & Htrace).
    exists result, s'. split; [exact Hrun|]. split; [exact Hflag'|].
    rewrite Htrace, Hfetches, pagesFrom_S. simpl.
    rewrite !fetchesOf_app. simpl. rewrite app_nil_r, <- !app_assoc.
    reflexivity.
Qed.

Lemma pageCountAt_calm (k : nat) (url errorContext : string) :
  exists found, pageCountAt env k url errorContext = Ok found.
Proof.
  unfold pageCountAt, getPageCount, bind. rewrite fetchUrl_run.
  cbn [awaits fst].
  destruct (proj2 calm k url) as (r & -> & Hr). rewrite Hr. simpl.
  destruct (d_pagination (html r)); eexists; reflexivity.
Qed.
End CalmPages.

(** X28. When nobody cancels and every fetch succeeds,
    scrapeReadingHistory returns, having fetched the history listing once
    for the page count and then each of its pages once, in order from page
    1 to the last page, the last page being the page count that the
    listing shows, cut to the page limit under the time range 'pages';
    scrapeBookmarks does the same with the bookmark listing. *)
Theorem listing_pages_fetched_once_in_order
        (env : Scraper.Env) (username : string) (options : Scraper.Options)
        (offset : Q) (s : Scraper.State) :
  Props.untroubled env ->
  (exists found items s',
      Aux.pageCountAt env (Scraper.awaits s) (Props.historyUrl username)
                      "history" = Scraper.Ok found
      /\ Scraper.scrapeReadingHistory env username options s
         = (Scraper.Ok items, s')
      /\ Aux.fetchesOf (Scraper.trace s')
         = (Aux.fetchesOf (Scraper.trace s)
            ++ Props.historyUrl username
               :: map (Props.historyPageUrl username)
                      (Props.pagesFrom 1
                         (Z.to_nat
                            (Scraper.limitPages
                               (Scraper.dflt (Scraper.o_timeRange options) "all")
                               (Scraper.dflt (Scraper.o_pageLimit options) 100)
                               found))))%list)
  /\ (Scraper.cancelRequested s = false ->
      exists found items s',
        Aux.pageCountAt env (Scraper.awaits s) (Props.bookmarksUrl username)
                        "bookmarks" = Scraper.Ok found
        /\ Scraper.scrapeBookmarks env username options offset s
           = (Scraper.Ok items, s')
        /\ Aux.fetchesOf (Scraper.trace s')
           = (Aux.fetchesOf (Scraper.trace s)
              ++ Props.bookmarksUrl username
                 :: map (Props.bookmarkPageUrl username)
                        (Props.pagesFrom 1
                           (Z.to_nat
                              (Scraper.limitPages
                                 (Scraper.dflt (Scraper.o_timeRange options) "all")
                                 (Scraper.dflt (Scraper.o_pageLimit options) 100)
                                 found))))%list).
Proof.
  intros Hcalm. split.
  - destruct (pageCountAt_calm env Hcalm (Scraper.awaits s)
                (Props.historyUrl username) "history") as (found & Hfound).
    exists found.
    unfold Scraper.scrapeReadingHistory, Scraper.getHistoryPageCount.
    cbv zeta. fold (Props.historyUrl username).
    erewrite bind_Ok by reflexivity.
    erewrite bind_Ok by reflexivity.
    erewrite bind_Ok
      by (rewrite getPageCount_run; cbn [Scraper.awaits]; rewrite Hfound;
          reflexivity).
    erewrite bind_Ok by reflexivity.
    set (totalPages := Scraper.limitPages _ _ found).
    match goal with
    | |- context [Scraper.bind
                    (Scraper.historyPages env username totalPages ?n 1 []) ?k ?s0] =>
        destruct (historyPages_calm env Hcalm username totalPages n 1 [] s0)
          as (items & s' & Hrun & _ & Htrace);
        [ simpl; apply (proj1 Hcalm)
        | rewrite (bind_Ok _ k s0 _ _ Hrun) ]
    end.
    destruct (_ =? _)%string; eexists _, s'; (split; [exact Hfound|]);
      (split; [reflexivity|]); rewrite Htrace; cbn [Scraper.trace Aux.fetched];
      rewrite !fetchesOf_app; simpl; rewrite ?app_nil_r, <- ?app_assoc;
      reflexivity.
  - intros Hflag.
    destruct (pageCountAt_calm env Hcalm (Scraper.awaits s)
                (Props.bookmarksUrl username) "bookmarks") as (found & Hfound).
    exists found.
    unfold Scraper.scrapeBookmarks, Scraper.getBookmarkPageCount.
    cbv zeta. fold (Props.bookmarksUrl username).
    erewrite bind_Ok
      by (rewrite getPageCount_run; cbn [Scraper.awaits]; rewrite Hfound;
          reflexivity).
    erewrite bind_Ok by reflexivity.
    set (totalPages := Scraper.limitPages _ _ found).
    match goal with
    | |- context [Scraper.bind
                    (Scraper.bookmarkPages env username offset totalPages ?n 1 [])
                    ?k ?s0] =>
        destruct (bookmarkPages_calm env Hcalm username offset totalPages n 1 []
                                     s0)
          as (items & s' & Hrun & _ & Htrace);
        [ simpl; rewrite ?Hflag; apply (proj1 Hcalm)
        | rewrite (bind_Ok _ k s0 _ _ Hrun) ]
    end.
    destruct (_ =? _)%string; eexists _, s'; (split; [exact Hfound|]);
      (split; [reflexivity|]); rewrite Htrace; cbn [Scraper.trace Aux.fetched];
      rewrite !fetchesOf_app; simpl; rewrite ?app_nil_r, <- ?app_assoc;
      reflexivity.
Qed.

Lemma listing_pages_fetched_once_in_order_witness :
  exists found items s',
    Aux.pageCountAt Sample.calmEnv 0 (Props.historyUrl "reader") "history"
    = Scraper.Ok found
    /\ Scraper.scrapeReadingHistory Sample.calmEnv "reader"
         (Sample.optionsFor "history") (Scraper.start false)
       = (Scraper.Ok items, s')
    /\ Aux.fetchesOf (Scraper.trace s')
       = ([] ++ Props.historyUrl "reader"
             :: map (Props.historyPageUrl "reader")
                    (Props.pagesFrom 1
                       (Z.to_nat (Scraper.limitPages "all" 10 found))))%list.
Proof.
  apply (listing_pages_fetched_once_in_order
           Sample.calmEnv "reader" (Sample.optionsFor "history") 0
           (Scraper.start false)).
  split.
  - intros k. reflexivity.
  - intros k url. eexists. split; reflexivity.
Defined.

(** ** A progress event before every page *)

Section HeraldFacts.
Import Js Scraper Aux Props.
Variable username : string.

Lemma heralded_app (after : bool) (t1 t2 : list Event) :
  heralded username after t1 ->
  (forall after', heralded username after' t2) ->
  heralded username after (t1 ++ t2).
Proof.
  intros H1 H2. revert after H1.
  induction t1 as [|e t1 IH]; intros after H1; simpl.
  - apply H2.
  - destruct e as [url|ms|p|flag]; simpl in H1.
    + destruct H1 as [Hurl Hrest]. split; [exact Hurl | now apply IH].
    + now apply IH.
    + now apply IH.
    + now apply IH.
Qed.

Lemma heralds_ret {A : Type} (a : A) : Heralds username (ret a).
Proof.
  intros s r s' [= <- <-]. exists []. rewrite app_nil_r.
  split; [reflexivity|]. intros after. exact I.
Qed.

Lemma heralds_throw {A : Type} (e : string) : Heralds username (@throw A e).
Proof.
  intros s r s' [= <- <-]. exists []. rewrite app_nil_r.
  split; [reflexivity|]. intros after. exact I.
Qed.

Lemma heralds_onProgress (p : ProgressEvent) :
  Heralds username (onProgress p).
Proof.
  intros s r s' [= <- <-]. exists [EvProgress p].
  split; [reflexivity|]. intros after. exact I.
Qed.

Lemma heralds_resetCancel : Heralds username resetCancel.
Proof.
  intros s r s' [= <- <-]. exists []. simpl. rewrite app_nil_r.
  split; [reflexivity|]. intros after. exact I.
Qed.

Lemma heralds_isCancelled : Heralds username isCancelled.
Proof.
  intros s r s' [= <- <-]. exists [EvCheck (cancelRequested s)].
  split; [reflexivity|]. intros after. exact I.
Qed.

Lemma heralds_delay (env : Env) (ms : Z) : Heralds username (delay env ms).
Proof.
  intros s r s' H. rewrite delay_run in H. injection H as <- <-.
  exists [EvDelay ms]. split; [reflexivity|]. intros after. exact I.
Qed.

Lemma heralds_pause (env : Env) (b : bool) :
  Heralds username (if b then delay env RATE_LIMIT_MS else ret tt).
Proof. destruct b; [apply heralds_delay | apply heralds_ret]. Qed.

Lemma heralds_bind {A B : Type} (m : M A) (k : A -> M B) :
  Heralds username m -> (forall a, Heralds username (k a)) ->
  Heralds username (bind m k).
Proof.
  intros Hm Hk s r s' H. unfold bind in H.
  destruct (m s) as [[a|e] s1] eqn:Hms.
  - destruct (Hm _ _ _ Hms) as (t1 & Ht1 & Hh1).
    destruct (Hk a _ _ _ H) as (t2 & Ht2 & Hh2).
    exists (t1 ++ t2)%list. split; [now rewrite Ht2, Ht1, app_assoc|].
    intros after. now apply heralded_app.
  - injection H as <- <-. exact (Hm _ _ _ Hms).
Qed.

Lemma heralds_try_catch {A : Type} (m : M A) (h : string -> M A) :
  Heralds username m -> (forall e, Heralds username (h e)) ->
  Heralds username (try_catch m h).
Proof.
  intros Hm Hh s r s' H. unfold try_catch in H.
  destruct (m s) as [[a|e] s1] eqn:Hms.
  - injection H as <- <-. exact (Hm _ _ _ Hms).
  - destruct (Hm _ _ _ Hms) as (t1 & Ht1 & Hh1).
    destruct (Hh e _ _ _ H) as (t2 & Ht2 & Hh2).
    exists (t1 ++ t2)%list. split; [now rewrite Ht2, Ht1, app_assoc|].
    intros after. now apply heralded_app.
Qed.

(** *** Right after a progress event *)

Lemma after_fetchUrl (env : Env) (url : string) :
  HeraldsAfter username (fetchUrl env url).
Proof.
  intros s r s' H. rewrite fetchUrl_run in H. injection H as <- <-.
  exists [EvFetch url]. split; [reflexivity|]. simpl. tauto.
Qed.

Lemma after_bind {A B : Type} (m : M A) (k : A -> M B) :
  HeraldsAfter username m -> (forall a, Heralds username (k a)) ->
  HeraldsAfter username (bind m k).
Proof.
  intros Hm Hk s r s' H. unfold bind in H.
  destruct (m s) as [[a|e] s1] eqn:Hms.
  - destruct (Hm _ _ _ Hms) as (t1 & Ht1 & Hh1).
    destruct (Hk a _ _ _ H) as (t2 & Ht2 & Hh2).
    exists (t1 ++ t2)%list. split; [now rewrite Ht2, Ht1, app_assoc|].
    now apply heralded_app.
  - injection H as <- <-. exact (Hm _ _ _ Hms).
Qed.

Lemma after_try_catch {A : Type} (m : M A) (h : string -> M A) :
  HeraldsAfter username m -> (forall e, Heralds username (h e)) ->
  HeraldsAfter username (try_catch m h).
Proof.
  intros Hm Hh s r s' H. unfold try_catch in H.
  destruct (m s) as [[a|e] s1] eqn:Hms.
  - injection H as <- <-. exact (Hm _ _ _ Hms).
  - destruct (Hm _ _ _ Hms) as (t1 & Ht1 & Hh1).
    destruct (Hh e _ _ _ H) as (t2 & Ht2 & Hh2).
    exists (t1 ++ t2)%list. split; [now rewrite Ht2, Ht1, app_assoc|].
    now apply heralded_app.
Qed.

(** A progress event, then a computation that needs one. *)
Lemma heralds_announced {A : Type} (p : ProgressEvent) (m : M A) :
  HeraldsAfter username m ->
  Heralds username (bind (onProgress p) (fun _ => m)).
Proof.
  intros Hm s r s' H. unfold bind, onProgress, log in H.
  destruct (Hm _ _ _ H) as (t & Ht & Hh). simpl in Ht.
  exists (EvProgress p :: t). split; [now rewrite Ht, <- app_assoc|].
  intros after. exact Hh.
Qed.
End HeraldFacts.

Section HeraldedRuns.
Import Js Scraper Aux Props.
Variable env : Env.
Variable username : string.

Lemma heralds_getPageCount (url errorContext : string) :
  url = historyUrl username \/ url = bookmarksUrl username ->
  Heralds username (getPageCount env url errorContext).
Proof.
  intros Hurl s r s' H. rewrite getPageCount_run in H. injection H as <- <-.
  exists [EvFetch url]. split; [reflexivity|]. intros after. simpl. tauto.
Qed.

Lemma after_scrapeHistoryPage (page : Z) :
  HeraldsAfter username (scrapeHistoryPage env username page).
Proof.
  unfold scrapeHistoryPage. apply after_bind; [apply after_fetchUrl|].
  intros result.
  destruct (negb (success result)); [apply heralds_throw | apply heralds_ret].
Qed.

Lemma after_scrapeBookmarkPage (page : Z) :
  HeraldsAfter username (scrapeBookmarkPage env username page).
Proof.
  unfold scrapeBookmarkPage. apply after_bind; [apply after_fetchUrl|].
  intros result.
  destruct (negb (success result)); [apply heralds_throw | apply heralds_ret].
Qed.

Lemma after_fetchWorkMetadata (id : string) :
  HeraldsAfter username (fetchWorkMetadata env id).
Proof.
  unfold fetchWorkMetadata. apply after_bind; [apply after_fetchUrl|].
  intros result.
  destruct (negb (success result)); [apply heralds_throw|].
  cbv zeta. apply heralds_ret.
Qed.

Lemma heralds_historyPages totalPages remaining :
  forall page allItems,
    Heralds username
            (historyPages env username totalPages remaining page allItems).
Proof.
  induction remaining as [|remaining IH]; intros page allItems; simpl.
  - apply heralds_ret.
  - apply heralds_bind; [apply heralds_isCancelled|].
    intros cancelled. destruct cancelled; [apply heralds_throw|].
    apply heralds_announced.
    apply after_bind; [apply after_scrapeHistoryPage|].
    intros items. apply heralds_bind; [apply heralds_pause|].
    intros _. apply IH.
Qed.

Lemma heralds_bookmarkPages offset totalPages remaining :
  forall page allItems,
    Heralds username
            (bookmarkPages env username offset totalPages remaining page
                           allItems).
Proof.
  induction remaining as [|remaining IH]; intros page allItems; simpl.
  - apply heralds_ret.
  - apply heralds_bind; [apply heralds_isCancelled|].
    intros cancelled. destruct cancelled; [apply heralds_throw|].
    apply heralds_announced.
    apply after_bind; [apply after_scrapeBookmarkPage|].
    intros items. apply heralds_bind; [apply heralds_pause|].
    intros _. apply IH.
Qed.

Lemma heralds_scrapeReadingHistory options :
  Heralds username (scrapeReadingHistory env username options).
Proof.
  unfold scrapeReadingHistory, getHistoryPageCount. cbv zeta.
  apply heralds_bind; [apply heralds_resetCancel|]. intros _.
  apply heralds_bind; [apply heralds_onProgress|]. intros _.
  apply heralds_bind; [apply heralds_getPageCount; now left|]. intros found.
  apply heralds_bind; [apply heralds_onProgress|]. intros _.
  apply heralds_bind; [apply heralds_historyPages|]. intros allItems.
  destruct (_ =? _)%string; apply heralds_ret.
Qed.

Lemma heralds_scrapeBookmarks options offset :
  Heralds username (scrapeBookmarks env username options offset).
Proof.
  unfold scrapeBookmarks, getBookmarkPageCount. cbv zeta.
  apply heralds_bind; [apply heralds_getPageCount; now right|]. intros found.
  apply heralds_bind; [apply heralds_onProgress|]. intros _.
  apply heralds_bind; [apply heralds_bookmarkPages|]. intros allItems.
  destruct (_ =? _)%string; apply heralds_ret.
Qed.

Lemma heralds_enrichLoop total todo :
  forall done completed failed,
    Heralds username (enrichLoop env total todo done completed failed).
Proof.
  induction todo as [|item rest IH]; intros done completed failed; simpl.
  - apply heralds_ret.
  - apply heralds_bind; [apply heralds_isCancelled|].
    intros cancelled. destruct cancelled; [apply heralds_throw|].
    apply heralds_announced. apply after_bind.
    + apply after_try_catch.
      * apply after_bind; [apply after_fetchWorkMetadata|].
        intros metadata. apply heralds_ret.
      * intros e. apply heralds_ret.
    + intros [item' failed']. cbv zeta.
      apply heralds_bind; [apply heralds_pause|].
      intros _. apply IH.
Qed.

Lemma heralds_scrapeAll options :
  Heralds username (scrapeAll env username options).
Proof.
  unfold scrapeAll. cbv zeta.
  apply heralds_bind; [apply heralds_resetCancel|]. intros _.
  apply heralds_try_catch.
  - unfold scrapeAllTry. cbv zeta.
    apply heralds_bind.
    { destruct (_ || _)%bool;
        [apply heralds_scrapeReadingHistory | apply heralds_ret]. }
    intros allItems. apply heralds_bind.
    { destruct (_ || _)%bool; [|apply heralds_ret].
      apply heralds_bind.
      { destruct (_ =? _)%string; [apply heralds_delay | apply heralds_ret]. }
      intros _. apply heralds_bind; [apply heralds_scrapeBookmarks|].
      intros bookmarkItems. destruct (_ =? _)%string; apply heralds_ret. }
    intros allItems'.
    destruct (len allItems' =? 0); [apply heralds_ret|].
    apply heralds_bind; [apply heralds_onProgress|]. intros _.
    apply heralds_bind; [apply heralds_delay|]. intros _.
    apply heralds_bind; [apply heralds_enrichLoop|]. intros [items failed].
    apply heralds_bind; [apply heralds_onProgress|]. intros _.
    apply heralds_ret.
  - intros e. unfold scrapeAllCatch.
    destruct (includes e "cancelled"); apply heralds_ret.
Qed.
End HeraldedRuns.

(** X29. In every run of scrapeAll, the fetch of every listing page and
    of every work page directly follows a progress event: the run reports
    its progress at least once per listing page and once per work, right
    before it asks for the page. Only the fetches that ask a listing for
    its number of pages are not announced in this way. *)
Theorem scrapeAll_announces_every_page
        (env : Scraper.Env) (username : string) (options : Scraper.Options)
        (flag : bool) :
  Props.heralded username false
    (Scraper.trace
       (snd (Scraper.scrapeAll env username options (Scraper.start flag)))).
Proof.
  destruct (Scraper.scrapeAll env username options (Scraper.start flag))
    as [r s'] eqn:Hrun.
  destruct (heralds_scrapeAll env username options _ _ _ Hrun) as (t & Ht & Hh).
  cbn [snd]. rewrite Ht. apply Hh.
Qed.

(** ** The pace of a run *)

Section PaceFacts.
Import Js Scraper Aux Props.
Variable username : string.

Lemma paced_app (due : bool) (t1 t2 : list Event) :
  paced username due (t1 ++ t2)
  <-> paced username due t1
      /\ paced username (dueAfter username due t1) t2.
Proof.
  revert due. induction t1 as [|e t1 IH]; intros due; simpl.
  - tauto.
  - destruct e as [url|ms|p|flag]; rewrite ?IH; tauto.
Qed.

Lemma dueAfter_app (due : bool) (t1 t2 : list Event) :
  dueAfter username due (t1 ++ t2)
  = dueAfter username (dueAfter username due t1) t2.
Proof.
  revert due. induction t1 as [|e t1 IH]; intros due; simpl.
  - reflexivity.
  - destruct e as [url|ms|p|flag]; apply IH.
Qed.

Lemma paces_ret {A : Type} (b : bool) (a : A) : Paces username b (ret a) b.
Proof.
  intros s r s' [= <- <-]. exists []. rewrite app_nil_r.
  split; [reflexivity|]. intros due Hdue. split; [exact I|].
  intros a' _. exact Hdue.
Qed.

Lemma paces_throw {A : Type} (b post : bool) (e : string) :
  Paces username b (@throw A e) post.
Proof.
  intros s r s' [= <- <-]. exists []. rewrite app_nil_r.
  split; [reflexivity|]. intros due Hdue. split; [exact I|].
  intros a' H. discriminate.
Qed.

Lemma paces_onProgress (b : bool) (p : ProgressEvent) :
  Paces username b (onProgress p) b.
Proof.
  intros s r s' [= <- <-]. exists [EvProgress p].
  split; [reflexivity|]. intros due Hdue. split; [exact I|].
  intros a' _. exact Hdue.
Qed.

Lemma paces_resetCancel (b : bool) : Paces username b resetCancel b.
Proof.
  intros s r s' [= <- <-]. exists []. simpl. rewrite app_nil_r.
  split; [reflexivity|]. intros due Hdue. split; [exact I|].
  intros a' _. exact Hdue.
Qed.

Lemma paces_isCancelled (b : bool) : Paces username b isCancelled b.
Proof.
  intros s r s' [= <- <-]. exists [EvCheck (cancelRequested s)].
  split; [reflexivity|]. intros due Hdue. split; [exact I|].
  intros a' _. exact Hdue.
Qed.

(** A delay of the rate limit makes a fetch due. *)
Lemma paces_delay (env : Env) (b : bool) :
  Paces username b (delay env RATE_LIMIT_MS) true.
Proof.
  intros s r s' H. rewrite delay_run in H. injection H as <- <-.
  exists [EvDelay RATE_LIMIT_MS]. split; [reflexivity|].
  intros due Hdue. split; [exact I|]. intros a' _. simpl.
  now rewrite Z.leb_refl, orb_true_r.
Qed.

(** The pause at the end of a turn of a loop. *)
Lemma paces_pause (env : Env) (b c : bool) :
  Paces username b (if c then delay env RATE_LIMIT_MS else ret tt) (b || c).
Proof.
  destruct c.
  - rewrite orb_true_r. apply paces_delay.
  - rewrite orb_false_r. apply paces_ret.
Qed.

(** A fetch needs to be due; after the fetch of a page count the next
    one is due at once. *)
Lemma paces_fetchUrl (env : Env) (url : string) :
  Paces username true (fetchUrl env url) (isCount username url).
Proof.
  intros s r s' H. rewrite fetchUrl_run in H. injection H as <- <-.
  exists [EvFetch url]. split; [reflexivity|].
  intros due Hdue. simpl in Hdue. subst due. simpl.
  split; [tauto|]. intros a' _. now destruct (isCount username url).
Qed.

Lemma paces_bind {A B : Type} (pre mid post : bool) (m : M A) (k : A -> M B) :
  Paces username pre m mid -> (forall a, Paces username mid (k a) post) ->
  Paces username pre (bind m k) post.
Proof.
  intros Hm Hk s r s' H. unfold bind in H.
  destruct (m s) as [[a|e] s1] eqn:Hms.
  - destruct (Hm _ _ _ Hms) as (t1 & Ht1 & Hp1).
    destruct (Hk a _ _ _ H) as (t2 & Ht2 & Hp2).
    exists (t1 ++ t2)%list. split; [now rewrite Ht2, Ht1, app_assoc|].
    intros due Hdue. destruct (Hp1 due Hdue) as [Hpaced1 Hpost1].
    specialize (Hpost1 a eq_refl).
    destruct (Hp2 _ Hpost1) as [Hpaced2 Hpost2].
    rewrite paced_app, dueAfter_app. tauto.
  - injection H as <- <-.
    destruct (Hm _ _ _ Hms) as (t1 & Ht1 & Hp1).
    exists t1. split; [exact Ht1|].
    intros due Hdue. destruct (Hp1 due Hdue) as [Hpaced1 _].
    split; [exact Hpaced1|]. intros a' H. discriminate.
Qed.

(** A [try] whose handler needs nothing. *)
Lemma paces_try_catch {A : Type} (pre mid post : bool)
      (m : M A) (h : string -> M A) :
  Paces username pre m mid -> (forall e, Paces username false (h e) post) ->
  Paces username pre (try_catch m h) false.
Proof.
  intros Hm Hh s r s' H. unfold try_catch in H.
  destruct (m s) as [[a|e] s1] eqn:Hms.
  - injection H as <- <-.
    destruct (Hm _ _ _ Hms) as (t1 & Ht1 & Hp1).
    exists t1. split; [exact Ht1|].
    intros due Hdue. destruct (Hp1 due Hdue) as [Hpaced1 _].
    split; [exact Hpaced1 | reflexivity].
  - destruct (Hm _ _ _ Hms) as (t1 & Ht1 & Hp1).
    destruct (Hh e _ _ _ H) as (t2 & Ht2 & Hp2).
    exists (t1 ++ t2)%list. split; [now rewrite Ht2, Ht1, app_assoc|].
    intros due Hdue. destruct (Hp1 due Hdue) as [Hpaced1 _].
    destruct (Hp2 (dueAfter username due t1) eq_refl) as [Hpaced2 _].
    rewrite paced_app. split; [tauto | reflexivity].
Qed.

Lemma paces_weaken {A : Type} (pre pre' post post' : bool) (m : M A) :
  Paces username pre' m post' ->
  implb pre' pre = true -> implb post post' = true ->
  Paces username pre m post.
Proof.
  intros Hm Hpre Hpost s r s' H.
  destruct (Hm _ _ _ H) as (t & Ht & Hp). exists t. split; [exact Ht|].
  intros due Hdue.
  assert (Hdue' : implb pre' due = true)
    by (destruct pre', pre, due; auto; discriminate).
  destruct (Hp due Hdue') as [Hpaced Hafter]. split; [exact Hpaced|].
  intros a Hr. specialize (Hafter a Hr).
  destruct post, post', (dueAfter username due t); auto; discriminate.
Qed.
End PaceFacts.

Section PacedRuns.
Import Js Scraper Aux Props.
Variable env : Env.
Variable username : string.

Lemma isCount_history : isCount username (historyUrl username) = true.
Proof. unfold isCount. now rewrite String.eqb_refl. Qed.

Lemma isCount_bookmarks : isCount username (bookmarksUrl username) = true.
Proof. unfold isCount. now rewrite String.eqb_refl, orb_true_r. Qed.

Lemma paces_getPageCount (url errorContext : string) :
  isCount username url = true ->
  Paces username true (getPageCount env url errorContext) true.
Proof.
  intros Hcount. unfold getPageCount.
  apply (paces_bind _ true true true).
  - rewrite <- Hcount at 2. apply paces_fetchUrl.
  - intros result. destruct (negb (success result)); [apply paces_throw|].
    cbv zeta. destruct (d_pagination (html result)); apply paces_ret.
Qed.

Lemma paces_scrapeHistoryPage (page : Z) :
  Paces username true (scrapeHistoryPage env username page) false.
Proof.
  unfold scrapeHistoryPage.
  apply (paces_bind _ true false false).
  - eapply paces_weaken; [apply paces_fetchUrl | reflexivity | reflexivity].
  - intros result.
    destruct (negb (success result)); [apply paces_throw | apply paces_ret].
Qed.

Lemma paces_scrapeBookmarkPage (page : Z) :
  Paces username true (scrapeBookmarkPage env username page) false.
Proof.
  unfold scrapeBookmarkPage.
  apply (paces_bind _ true false false).
  - eapply paces_weaken; [apply paces_fetchUrl | reflexivity | reflexivity].
  - intros result.
    destruct (negb (success result)); [apply paces_throw | apply paces_ret].
Qed.

Lemma paces_fetchWorkMetadata (id : string) :
  Paces username true (fetchWorkMetadata env id) false.
Proof.
  unfold fetchWorkMetadata.
  apply (paces_bind _ true false false).
  - eapply paces_weaken; [apply paces_fetchUrl | reflexivity | reflexivity].
  - intros result. destruct (negb (success result)); [apply paces_throw|].
    cbv zeta. apply paces_ret.
Qed.

(** The page loop pauses before every page but the first one. *)
Lemma paces_historyPages totalPages remaining :
  forall page allItems,
    page + Z.of_nat remaining = totalPages + 1 ->
    Paces username true
          (historyPages env username totalPages remaining page allItems)
          false.
Proof.
  induction remaining as [|remaining IH]; intros page allItems Hrel.
  - simpl. eapply paces_weaken; [apply (paces_ret _ true) | | ]; reflexivity.
  - cbn [historyPages].
    apply (paces_bind _ true true false); [apply paces_isCancelled|].
    intros cancelled. destruct cancelled; [apply paces_throw|].
    apply (paces_bind _ true true false); [apply paces_onProgress|].
    intros _.
    apply (paces_bind _ true false false); [apply paces_scrapeHistoryPage|].
    intros items.
    apply (paces_bind _ false (page <? totalPages) false).
    { apply (paces_pause _ env false). }
    intros _. destruct (Z.ltb_spec page totalPages) as [Hlt|Hge].
    + apply IH. lia.
    + assert (remaining = 0%nat) by lia. subst remaining. simpl.
      apply paces_ret.
Qed.

Lemma paces_bookmarkPages offset totalPages remaining :
  forall page allItems,
    page + Z.of_nat remaining = totalPages + 1 ->
    Paces username true
          (bookmarkPages env username offset totalPages remaining page
                         allItems)
          false.
Proof.
  induction remaining as [|remaining IH]; intros page allItems Hrel.
  - simpl. eapply paces_weaken; [apply (paces_ret _ true) | | ]; reflexivity.
  - cbn [bookmarkPages].
    apply (paces_bind _ true true false); [apply paces_isCancelled|].
    intros cancelled. destruct cancelled; [apply paces_throw|].
    apply (paces_bind _ true true false); [apply paces_onProgress|].
    intros _.
    apply (paces_bind _ true false false); [apply paces_scrapeBookmarkPage|].
    intros items.
    apply (paces_bind _ false (page <? totalPages) false).
    { apply (paces_pause _ env false). }
    intros _. destruct (Z.ltb_spec page totalPages) as [Hlt|Hge].
    + apply IH. lia.
    + assert (remaining = 0%nat) by lia. subst remaining. simpl.
      apply paces_ret.
Qed.

Lemma yields_getPageCount_pos url errorContext :
  Yields (fun found => 1 <= found) (getPageCount env url errorContext).
Proof.
  intros s found s' H. rewrite getPageCount_run in H.
  injection H as H _. exact (pageCountAt_pos env _ _ _ _ H).
Qed.

(** [bind] with a fact about the value that the first part returns. *)
Lemma paces_bind_yields {A B : Type} (P : A -> Prop) (pre mid post : bool)
      (m : M A) (k : A -> M B) :
  Paces username pre m mid -> Yields P m ->
  (forall a, P a -> Paces username mid (k a) post) ->
  Paces username pre (bind m k) post.
Proof.
  intros Hm Hy Hk s r s' H. unfold bind in H.
  destruct (m s) as [[a|e] s1] eqn:Hms.
  - pose proof (Hy _ _ _ Hms) as Ha.
    apply (paces_bind _ pre mid post m (fun x => if true then k a else k x));
      [exact Hm | intros x; now apply Hk |].
    unfold bind. now rewrite Hms.
  - apply (paces_bind _ pre mid post m (fun _ => throw e));
      [exact Hm | intros x; apply paces_throw |].
    unfold bind. now rewrite Hms.
Qed.

Lemma paces_scrapeReadingHistory options :
  Paces username true (scrapeReadingHistory env username options) false.
Proof.
  unfold scrapeReadingHistory, getHistoryPageCount. cbv zeta.
  fold (historyUrl username).
  apply (paces_bind _ true true false); [apply paces_resetCancel|].
  intros _.
  apply (paces_bind _ true true false); [apply paces_onProgress|].
  intros _.
  apply (paces_bind_yields (fun found => 1 <= found) true true false);
    [apply paces_getPageCount, isCount_history
    | apply yields_getPageCount_pos |].
  intros found Hfound.
  pose proof (limitPages_pos (dflt (o_timeRange options) "all")
                             (dflt (o_pageLimit options) 100) found Hfound)
    as Htotal.
  apply (paces_bind _ true true false); [apply paces_onProgress|].
  intros _.
  apply (paces_bind _ true false false);
    [apply paces_historyPages; lia|].
  intros allItems. destruct (_ =? _)%string; apply paces_ret.
Qed.

Lemma paces_scrapeBookmarks options offset :
  Paces username true (scrapeBookmarks env username options offset) false.
Proof.
  unfold scrapeBookmarks, getBookmarkPageCount. cbv zeta.
  fold (bookmarksUrl username).
  apply (paces_bind_yields (fun found => 1 <= found) true true false);
    [apply paces_getPageCount, isCount_bookmarks
    | apply yields_getPageCount_pos |].
  intros found Hfound.
  pose proof (limitPages_pos (dflt (o_timeRange options) "all")
                             (dflt (o_pageLimit options) 100) found Hfound)
    as Htotal.
  apply (paces_bind _ true true false); [apply paces_onProgress|].
  intros _.
  apply (paces_bind _ true false false);
    [apply paces_bookmarkPages; lia|].
  intros allItems. destruct (_ =? _)%string; apply paces_ret.
Qed.

(** The enrichment loop pauses before every work but the first one. *)
Lemma paces_enrichLoop total todo :
  forall done completed failed,
    total = completed + len todo ->
    Paces username true (enrichLoop env total todo done completed failed)
          false.
Proof.
  induction todo as [|item rest IH]; intros done completed failed Hrel.
  - simpl. eapply paces_weaken; [apply (paces_ret _ true) | | ]; reflexivity.
  - cbn [enrichLoop]. rewrite len_cons in Hrel.
    apply (paces_bind _ true true false); [apply paces_isCancelled|].
    intros cancelled. destruct cancelled; [apply paces_throw|].
    apply (paces_bind _ true true false); [apply paces_onProgress|].
    intros _.
    apply (paces_bind _ true false false).
    { apply (paces_try_catch _ true false false).
      - apply (paces_bind _ true false false);
          [apply paces_fetchWorkMetadata|].
        intros metadata. apply paces_ret.
      - intros e. apply paces_ret. }
    intros [item' failed']. cbv zeta.
    apply (paces_bind _ false (completed + 1 <? total) false).
    { apply (paces_pause _ env false). }
    intros _. destruct (Z.ltb_spec (completed + 1) total) as [Hlt|Hge].
    + apply IH. lia.
    + assert (rest = []) as ->.
      { destruct rest as [|x rest]; [reflexivity|].
        rewrite len_cons in Hrel. pose proof (len_nonneg rest). lia. }
      simpl. apply paces_ret.
Qed.

Lemma paces_scrapeAll options :
  Paces username true (scrapeAll env username options) false.
Proof.
  unfold scrapeAll. cbv zeta.
  apply (paces_bind _ true true false); [apply paces_resetCancel|].
  intros _.
  apply (paces_try_catch _ true false false).
  - unfold scrapeAllTry. cbv zeta.
    destruct (String.eqb_spec (dflt (o_source options) "both") "both")
      as [Hboth|Hnot]; cbn [orb].
    + apply (paces_bind _ true false false);
        [apply paces_scrapeReadingHistory|].
      intros allItems.
      apply (paces_bind _ false false false).
      { apply (paces_bind _ false true false); [apply paces_delay|].
        intros _.
        apply (paces_bind _ true false false);
          [apply paces_scrapeBookmarks|].
        intros bookmarkItems. apply paces_ret. }
      intros allItems'.
      destruct (len allItems' =? 0); [apply paces_ret|].
      apply (paces_bind _ false false false); [apply paces_onProgress|].
      intros _.
      apply (paces_bind _ false true false); [apply paces_delay|].
      intros _.
      apply (paces_bind _ true false false);
        [apply paces_enrichLoop; lia|].
      intros [items failed].
      apply (paces_bind _ false false false); [apply paces_onProgress|].
      intros _. apply paces_ret.
    + apply (paces_bind _ true
               (negb (dflt (o_source options) "both" =? "history")%string)
               false).
      { destruct (_ =? "history")%string; cbn [negb].
        - apply paces_scrapeReadingHistory.
        - apply paces_ret. }
      intros allItems.
      apply (paces_bind _ _ false false).
      { destruct (dflt (o_source options) "both" =? "bookmarks")%string
          eqn:Hbookmarks.
        - assert (Hhistory : (dflt (o_source options) "both" =? "history")%string
                             = false).
          { apply String.eqb_eq in Hbookmarks. now rewrite Hbookmarks. }
          rewrite Hhistory. cbn [negb].
          apply (paces_bind _ true true false); [apply paces_ret|].
          intros _.
          apply (paces_bind _ true false false);
            [apply paces_scrapeBookmarks|].
          intros bookmarkItems. apply paces_ret.
        - eapply paces_weaken; [apply (paces_ret _ false) | | ];
            [now destruct (negb _) | reflexivity]. }
      intros allItems'.
      destruct (len allItems' =? 0); [apply paces_ret|].
      apply (paces_bind _ false false false); [apply paces_onProgress|].
      intros _.
      apply (paces_bind _ false true false); [apply paces_delay|].
      intros _.
      apply (paces_bind _ true false false);
        [apply paces_enrichLoop; lia|].
      intros [items failed].
      apply (paces_bind _ false false false); [apply paces_onProgress|].
      intros _. apply paces_ret.
  - intros e. unfold scrapeAllCatch.
    destruct (includes e "cancelled"); apply paces_ret.
Qed.
End PacedRuns.

(** X30. In every run of scrapeAll, every fetch but the first comes after
    a delay of 5000 ms or more that the run waited since the fetch before
    it, unless the fetch before it asked a listing for its number of pages:
    between two pages of a listing, between the two listings, before the
    first work page and between two work pages the run always waits. Only
    the first fetch and the fetch that follows a page-count fetch may come
    without a delay. *)
Theorem scrapeAll_waits_between_pages
        (env : Scraper.Env) (username : string) (options : Scraper.Options)
        (flag : bool) :
  Props.paced username true
    (Scraper.trace
       (snd (Scraper.scrapeAll env username options (Scraper.start flag)))).
Proof.
  destruct (Scraper.scrapeAll env username options (Scraper.start flag))
    as [r s'] eqn:Hrun.
  destruct (paces_scrapeAll env username options _ _ _ Hrun) as (t & Ht & Hp).
  cbn [snd]. rewrite Ht. apply (Hp true eq_refl).
Qed.
